(** * Flynn: the MongoDB appliance process supervisor and the libvirt-lxc
      container backend, as executable models, with their properties.

    Sources modelled:
    - [appliance/mongodb/process.go]  (module [Mongo])
    - [host/libvirt_lxc_backend.go]   (module [Backend])

    Conventions.
    - A Go [error] is a message string; [nil] is [None].
    - A Go call ends in one of three ways: it returns ([Done]), it panics
      ([Panics]) or it never returns ([Blocks]: a receive on a channel
      nobody closes, a mutex nobody releases, a peer that stops answering).
    - Everything outside the two files (the daemon, the kernel, libvirt, the
      network peers) is an explicit environment argument that supplies the
      answer of each external call. *)

From Stdlib Require Import ZArith Lia DecimalString DecimalZ.
From stdpp Require Import gmap strings list fin_maps.

Open Scope Z_scope.

(** ** Results of Go calls *)

Definition error := string.

Inductive outcome (A : Type) : Type :=
| Done (a : A)
| Panics (msg : string)
| Blocks.
Arguments Done {A} a.
Arguments Panics {A} msg.
Arguments Blocks {A}.

#[global] Instance outcome_ret : MRet outcome := fun A a => Done a.
#[global] Instance outcome_bind : MBind outcome := fun A B f m =>
  match m with
  | Done a => f a
  | Panics msg => Panics msg
  | Blocks => Blocks
  end.

(** * The MongoDB process supervisor *)
Module Mongo.

(** ** Data *)

(** [state.Role]; [RoleOther] stands for any value outside the four the
    supervisor knows (the [default:] branch of [Reconfigure]). *)
Inductive Role := RoleNone | RolePrimary | RoleSync | RoleAsync | RoleOther (n : nat).

#[global] Instance Role_eq_dec : EqDecision Role.
Proof. solve_decision. Defined.

(** [discoverd.Instance]: the fields the supervisor reads. *)
Record Instance := { Addr : string; Meta : gmap string string }.

#[global] Instance Instance_eq_dec : EqDecision Instance.
Proof. solve_decision. Defined.

(** Go's [m[k]] on a [map[string]string]: the empty string when absent. *)
Definition meta (i : Instance) (k : string) : string := default "" (Meta i !! k).

(** [state.Config]; peers are pointers, [None] is [nil]. *)
Record Config := {
  cRole : Role;
  Upstream : option Instance;
  Downstream : option Instance;
}.

#[global] Instance Config_eq_dec : EqDecision Config.
Proof. solve_decision. Defined.

(** The goroutine started by [waitForSync], as seen by [cancelSyncWait]:
    it is polling ([WaitRunning]), it is stuck in a call that never returns
    ([WaitHung]), or it has returned and closed [doneCh] ([WaitDone]). *)
Inductive WaitStatus := WaitRunning | WaitHung | WaitDone.

Record SyncWait := {
  swDownstream : option Instance;
  swEnableWrites : bool;
  swStatus : WaitStatus;
}.

(** What the supervisor did to the outside world, newest first. *)
Inductive Event :=
| EvWriteConfig
| EvCmdStart
| EvDial
| EvCmdStop
| EvInitPrimaryDB
| EvConnectLocal
| EvUpstreamStatus
| EvWaitForSync (downstream : option Instance) (enableWrites : bool)
| EvCancelSyncWait.

#[global] Instance Event_eq_dec : EqDecision Event.
Proof. solve_decision. Defined.

(** [Process].  [cmd] is the handle of the spawned daemon ([None] is the nil
    pointer), [cancelSyncWait] the closure over the last catch-up wait
    ([None] is the initial [func() {}]). *)
Record Process := {
  configValue : option Config;
  configApplied : bool;
  runningValue : bool;
  syncedDownstreamValue : option Instance;
  ID : string;
  Singleton : bool;
  Port : string;
  DataDir : string;
  OpTimeout : Z;
  ReplTimeout : Z;
  cmd : option nat;
  cancelSyncWait : option SyncWait;
  trace : list Event;
}.

(** Durations are in milliseconds. *)
Definition DefaultOpTimeout : Z := 5 * 60 * 1000.
Definition DefaultReplTimeout : Z := 1 * 60 * 1000.
Definition checkInterval : Z := 1000.
Definition upstreamTimeout : Z := 10 * 1000.

Definition NewProcess : Process := {|
  configValue := None; configApplied := false; runningValue := false;
  syncedDownstreamValue := None;
  ID := ""; Singleton := false; Port := "27017"; DataDir := "/data";
  OpTimeout := DefaultOpTimeout; ReplTimeout := DefaultReplTimeout;
  cmd := None; cancelSyncWait := None; trace := [] |}.

Definition running (p : Process) : bool := runningValue p.
Definition config (p : Process) : option Config := configValue p.
Definition syncedDownstream (p : Process) : option Instance := syncedDownstreamValue p.

(** Field updates. *)
Definition set_config (c : option Config) (applied : bool) (p : Process) : Process :=
  {| configValue := c; configApplied := applied; runningValue := runningValue p;
     syncedDownstreamValue := syncedDownstreamValue p;
     ID := ID p; Singleton := Singleton p; Port := Port p; DataDir := DataDir p;
     OpTimeout := OpTimeout p; ReplTimeout := ReplTimeout p;
     cmd := cmd p; cancelSyncWait := cancelSyncWait p; trace := trace p |}.

Definition set_running (b : bool) (p : Process) : Process :=
  {| configValue := configValue p; configApplied := configApplied p; runningValue := b;
     syncedDownstreamValue := syncedDownstreamValue p;
     ID := ID p; Singleton := Singleton p; Port := Port p; DataDir := DataDir p;
     OpTimeout := OpTimeout p; ReplTimeout := ReplTimeout p;
     cmd := cmd p; cancelSyncWait := cancelSyncWait p; trace := trace p |}.

Definition set_synced (d : option Instance) (p : Process) : Process :=
  {| configValue := configValue p; configApplied := configApplied p;
     runningValue := runningValue p; syncedDownstreamValue := d;
     ID := ID p; Singleton := Singleton p; Port := Port p; DataDir := DataDir p;
     OpTimeout := OpTimeout p; ReplTimeout := ReplTimeout p;
     cmd := cmd p; cancelSyncWait := cancelSyncWait p; trace := trace p |}.

Definition set_cmd (c : option nat) (p : Process) : Process :=
  {| configValue := configValue p; configApplied := configApplied p;
     runningValue := runningValue p; syncedDownstreamValue := syncedDownstreamValue p;
     ID := ID p; Singleton := Singleton p; Port := Port p; DataDir := DataDir p;
     OpTimeout := OpTimeout p; ReplTimeout := ReplTimeout p;
     cmd := c; cancelSyncWait := cancelSyncWait p; trace := trace p |}.

Definition set_wait (w : option SyncWait) (p : Process) : Process :=
  {| configValue := configValue p; configApplied := configApplied p;
     runningValue := runningValue p; syncedDownstreamValue := syncedDownstreamValue p;
     ID := ID p; Singleton := Singleton p; Port := Port p; DataDir := DataDir p;
     OpTimeout := OpTimeout p; ReplTimeout := ReplTimeout p;
     cmd := cmd p; cancelSyncWait := w; trace := trace p |}.

Definition emit (e : Event) (p : Process) : Process :=
  {| configValue := configValue p; configApplied := configApplied p;
     runningValue := runningValue p; syncedDownstreamValue := syncedDownstreamValue p;
     ID := ID p; Singleton := Singleton p; Port := Port p; DataDir := DataDir p;
     OpTimeout := OpTimeout p; ReplTimeout := ReplTimeout p;
     cmd := cmd p; cancelSyncWait := cancelSyncWait p; trace := e :: trace p |}.

(** The moment of an external call: the number of events emitted so far.
    The environment answers each call by its moment, so two calls of the
    same operation may be answered differently. *)
Definition moment (p : Process) : nat := length (trace p).

(** ** The upstream's status, as polled by [waitForUpstream] *)

(** [status.Database] of the sirenia client. *)
Record DatabaseInfo := {
  dbRunning : bool;
  dbXLog : string;
  dbUserExists : bool;
}.

(** [select { case <-timer.C: ...; case <-ticker.C: }]. *)
Inductive SelectCase := SelTimer | SelTicker.

(** One turn of the polling loop, as the environment decides it: what
    [upstreamClient.Status()] answers ([inr e] is an error), how long the
    call takes, and which case [select] takes when both channels are ready
    (Go picks one at random). *)
Record UpPoll := {
  upStatus : DatabaseInfo + error;
  upDur : Z;
  upPick : SelectCase;
}.

(** The answers of the outside world to the supervisor's calls. *)
Record Env := {
  writeConfig_res : nat -> option error;
  cmdStart_res : nat -> option error;
  (** the connect loop of [start]: [None] when a dial succeeds before
      [OpTimeout], [Some e] when the timer fires first, [e] the last dial
      error *)
  dial_res : nat -> option error;
  (** [cmd.Stopped()] is closed within [OpTimeout] of [cmd.Stop()] *)
  cmdStopped : nat -> bool;
  initPrimaryDB_res : nat -> option error;
  connectLocal_res : nat -> option error;
  upstream_polls : string -> nat -> list UpPoll;
}.

(** ** [waitForUpstream] *)

(** The readiness test of the loop: no error, and
    [status.Database.Running && status.Database.XLog != "" &&
     status.Database.UserExists]. *)
Definition upstream_ready (s : DatabaseInfo + error) : bool :=
  match s with
  | inl st => dbRunning st && negb (String.eqb (dbXLog st) "") && dbUserExists st
  | inr _ => false
  end.

(** A [time.Ticker] keeps at most one tick in its channel and drops the
    others: after a receive at time [t] the next tick to be had is the first
    multiple of the interval after [t].  Times count from the creation of
    the timer and the ticker. *)
Definition next_tick_after (t : Z) : Z := (t / checkInterval + 1) * checkInterval.

(** The [select] over [timer.C] and [ticker.C], entered at time [now]: the
    case taken and the time at which it is taken. *)
Definition select_timer_ticker (deadline nextTick now : Z) (pick : SelectCase)
  : SelectCase * Z :=
  let timerReady := deadline <=? now in
  let tickReady := nextTick <=? now in
  if timerReady && tickReady then (pick, now)
  else if timerReady then (SelTimer, now)
  else if tickReady then (SelTicker, now)
  else if deadline <? nextTick then (SelTimer, deadline)
  else if nextTick <? deadline then (SelTicker, nextTick)
  else (pick, deadline).

(** The [for] loop of [waitForUpstream].  The result carries the time of the
    return.  When the environment has no further answer the pending
    [Status()] call never returns. *)
Fixpoint waitForUpstream_loop (deadline nextTick now : Z) (polls : list UpPoll)
  : outcome (option error * Z) :=
  match polls with
  | [] => Blocks
  | q :: rest =>
      let now1 := now + upDur q in
      if upstream_ready (upStatus q) then Done (None, now1)
      else
        match select_timer_ticker deadline nextTick now1 (upPick q) with
        | (SelTimer, t) => Done (Some "upstream is offline", t)
        | (SelTicker, t) => waitForUpstream_loop deadline (next_tick_after t) t rest
        end
  end.

(** The same loop with the times at which it calls [Status()]. *)
Fixpoint waitForUpstream_calls (deadline nextTick now : Z) (polls : list UpPoll)
  : outcome (option error * Z) * list Z :=
  match polls with
  | [] => (Blocks, [now])
  | q :: rest =>
      let now1 := now + upDur q in
      if upstream_ready (upStatus q) then (Done (None, now1), [now])
      else
        match select_timer_ticker deadline nextTick now1 (upPick q) with
        | (SelTimer, t) => (Done (Some "upstream is offline", t), [now])
        | (SelTicker, t) =>
            let r := waitForUpstream_calls deadline (next_tick_after t) t rest in
            (r.1, now :: r.2)
        end
  end.

Definition waitForUpstream_run (polls : list UpPoll) : outcome (option error * Z) :=
  waitForUpstream_loop upstreamTimeout checkInterval 0 polls.

Definition waitForUpstream (env : Env) (upstream : Instance) (p : Process)
  : outcome (option error * Process) :=
  r ← waitForUpstream_run (upstream_polls env (Addr upstream) (moment p));
  mret (r.1, emit EvUpstreamStatus p).

(** ** Starting and cancelling the catch-up wait *)

(** [waitForSync] as seen by its caller: it installs a fresh
    [cancelSyncWait] and starts the goroutine (modelled further down as
    [waitForSync_goroutine]). *)
Definition waitForSync (downstream : option Instance) (enableWrites : bool)
    (p : Process) : Process :=
  emit (EvWaitForSync downstream enableWrites)
    (set_wait (Some {| swDownstream := downstream;
                       swEnableWrites := enableWrites;
                       swStatus := WaitRunning |}) p).

(** [p.cancelSyncWait()]: [once.Do(func() { close(stopCh); <-doneCh })]. *)
Definition call_cancelSyncWait (p : Process) : outcome Process :=
  match cancelSyncWait p with
  | None => Done p
  | Some w =>
      match swStatus w with
      | WaitDone => Done p
      | WaitHung => Blocks
      | WaitRunning =>
          Done (emit EvCancelSyncWait
                  (set_wait (Some {| swDownstream := swDownstream w;
                                     swEnableWrites := swEnableWrites w;
                                     swStatus := WaitDone |}) p))
      end
  end.

(** ** The daemon *)

Definition writeConfig (env : Env) (p : Process) : option error * Process :=
  (writeConfig_res env (moment p), emit EvWriteConfig p).

Definition initPrimaryDB (env : Env) (p : Process) : option error * Process :=
  (initPrimaryDB_res env (moment p), emit EvInitPrimaryDB p).

Definition connectLocal (env : Env) (p : Process) : option error * Process :=
  (connectLocal_res env (moment p), emit EvConnectLocal p).

Definition stop (env : Env) (p : Process) : outcome (option error * Process) :=
  p1 ← call_cancelSyncWait p;
  match cmd p1 with
  | None => Panics "invalid memory address or nil pointer dereference"
  | Some _ =>
      let p2 := emit EvCmdStop p1 in
      if cmdStopped env (moment p1) then Done (None, set_running false p2)
      else Done (Some "unable to kill process", p2)
  end.

Definition start (env : Env) (p : Process) : outcome (option error * Process) :=
  let p1 := emit EvCmdStart p in
  match cmdStart_res env (moment p) with
  | Some e => Done (Some e, p1)
  | None =>
      let p2 := set_running true (set_cmd (Some (moment p)) p1) in
      let p3 := emit EvDial p2 in
      match dial_res env (moment p2) with
      | None => Done (None, p3)
      | Some e => r ← stop env p3; mret (Some e, r.2)
      end
  end.

(** ** Role transitions *)

Definition assumePrimary (env : Env) (downstream : option Instance) (p : Process)
  : outcome (option error * Process) :=
  if running p then
    match config p with
    | None => Panics "invalid memory address or nil pointer dereference"
    | Some c =>
        if bool_decide (cRole c = RoleSync)
        then Done (None, waitForSync downstream true p)
        else Panics "unexpected state running"
    end
  else
    let '(e1, p1) := writeConfig env p in
    match e1 with
    | Some e => Done (Some e, p1)
    | None =>
        r2 ← start env p1;
        match r2.1 with
        | Some e => Done (Some e, r2.2)
        | None =>
            let '(e3, p3) := initPrimaryDB env r2.2 in
            match e3 with
            | Some e => r4 ← stop env p3; mret (Some e, r4.2)
            | None =>
                match downstream with
                | Some _ => Done (None, waitForSync downstream true p3)
                | None => Done (None, p3)
                end
            end
        end
    end.

Definition assumeStandby (env : Env) (upstream downstream : option Instance)
    (p : Process) : outcome (option error * Process) :=
  match upstream with
  | None => Panics "invalid memory address or nil pointer dereference"
  | Some u =>
      let '(e1, p1) := writeConfig env p in
      match e1 with
      | Some e => Done (Some e, p1)
      | None =>
          r2 ← (if running p1 then stop env p1 else waitForUpstream env u p1);
          match r2.1 with
          | Some e => Done (Some e, r2.2)
          | None =>
              r3 ← start env r2.2;
              match r3.1 with
              | Some e => Done (Some e, r3.2)
              | None =>
                  let '(e4, p4) := connectLocal env r3.2 in
                  match e4 with
                  | Some e => Done (Some e, p4)
                  | None =>
                      match downstream with
                      | Some _ => Done (None, waitForSync downstream false p4)
                      | None => Done (None, p4)
                      end
                  end
              end
          end
      end
  end.

(** The [switch config.Role] that opens [Reconfigure]. *)
Definition peers_check (cfg : Config) (p : Process) : option error :=
  match cRole cfg with
  | RolePrimary =>
      if negb (Singleton p) && bool_decide (Downstream cfg = None)
      then Some "missing downstream peer" else None
  | RoleSync | RoleAsync =>
      if bool_decide (Upstream cfg = None)
      then Some "missing upstream peer" else None
  | RoleNone => None
  | RoleOther _ => Some "unknown role"
  end.

Section Supervisor.

(** [Config.Equal] and [Config.IsNewDownstream] belong to the sirenia state
    package; the supervisor is modelled for any such pair.
    [IsNewDownstream] has a pointer receiver and a pointer argument. *)
Variable Equal : Config -> Config -> bool.
Variable IsNewDownstream : option Config -> option Config -> bool.

(** The third test of [reconfigure]: running, applied, from async to sync
    with the same [MONGODB_ID] upstream.  Evaluated left to right; the two
    [Upstream] pointers are dereferenced last. *)
Definition becoming_sync_same_upstream (cfg : option Config) (p : Process)
  : outcome bool :=
  if configApplied p && running p then
    match config p, cfg with
    | Some c0, Some c =>
        if bool_decide (cRole c0 = RoleAsync) && bool_decide (cRole c = RoleSync) then
          match Upstream c, Upstream c0 with
          | Some u, Some u0 =>
              Done (bool_decide (meta u "MONGODB_ID" = meta u0 "MONGODB_ID"))
          | _, _ => Panics "invalid memory address or nil pointer dereference"
          end
        else Done false
    | _, _ => Done false
    end
  else Done false.

(** The closure inside [reconfigure].  It returns the error and the value
    of the captured variable [config], which it may overwrite. *)
Definition reconfigure_body (env : Env) (cfg : option Config) (p : Process)
  : outcome (option error * option Config * Process) :=
  if match cfg with Some c => bool_decide (cRole c = RoleNone) | None => false end
  then Done (None, cfg, p)
  else if configApplied p &&
          match cfg, config p with Some c, Some c0 => Equal c c0 | _, _ => false end
  then Done (None, cfg, p)
  else
    same ← becoming_sync_same_upstream cfg p;
    if (same : bool) then Done (None, cfg, p)
    else
      p1 ← call_cancelSyncWait p;
      let p2 := set_synced None p1 in
      if running p2 && IsNewDownstream (config p2) cfg then
        match cfg with
        | None => Panics "invalid memory address or nil pointer dereference"
        | Some c =>
            match Downstream c with
            | None => Panics "invalid memory address or nil pointer dereference"
            | Some d => Done (None, cfg, waitForSync (Some d) false p2)
            end
        end
      else
        let cfg' := match cfg with None => config p2 | Some _ => cfg end in
        match cfg' with
        | None => Panics "invalid memory address or nil pointer dereference"
        | Some c =>
            r ← (if bool_decide (cRole c = RolePrimary)
                 then assumePrimary env (Downstream c) p2
                 else assumeStandby env (Upstream c) (Downstream c) p2);
            mret (r.1, cfg', r.2)
        end.

Definition reconfigure (env : Env) (cfg : option Config) (p : Process)
  : outcome (option error * Process) :=
  r ← reconfigure_body env cfg p;
  match r.1.1 with
  | Some e => Done (Some e, r.2)
  | None => Done (None, set_config r.1.2 true r.2)
  end.

(** [Reconfigure] dereferences its argument at once, so it is modelled on
    a non-nil [*state.Config]. *)
Definition Reconfigure (env : Env) (cfg : Config) (p : Process)
  : outcome (option error * Process) :=
  match peers_check cfg p with
  | Some e => Done (Some e, p)
  | None =>
      if negb (running p) then Done (None, set_config (Some cfg) false p)
      else reconfigure env (Some cfg) p
  end.

Definition Start (env : Env) (p : Process) : outcome (option error * Process) :=
  if running p then Done (Some "process already running", p)
  else
    match config p with
    | None => Done (Some "unconfigured process", p)
    | Some c =>
        if bool_decide (cRole c = RoleNone)
        then Done (Some "start attempted with role 'none'", p)
        else reconfigure env None p
    end.

Definition Stop (env : Env) (p : Process) : outcome (option error * Process) :=
  if negb (running p) then Done (Some "process already stopped", p)
  else stop env p.

End Supervisor.

(** [isReadWrite]: the query is not written yet. *)
Definition isReadWrite (p : Process) : outcome (bool * option error) :=
  if negb (running p) then Done (false, None)
  else Panics "FIXME(benbjohnson): isReadWrite()".

(** [userExists], likewise. *)
Definition userExists (p : Process) : outcome (bool * option error) :=
  if negb (running p) then Done (false, Some "mongod is not running")
  else Panics "FIXME(benbjohnson): userExists()".

(** ** The catch-up wait *)

Section CatchUp.

(** [xlog.Position] with [XLog().Zero()] and [XLog().Compare(a, b)], which
    belong to the appliance's xlog package; [Compare] gives [None] when it
    returns an error. *)
Variable Position : Type.
Variable Zero : Position.
Variable Compare : Position -> Position -> option Z.

(** What a node answers to [nodeXLogPosition]: the dial fails, the query
    for the newest oplog entry fails, or the entry is found. *)
Inductive DbRead :=
| DialFail (e : error)
| FindFail (e : error)
| Found (ts : Position).

Inductive ReadResult :=
| ReadErr (e : error)
| ReadOk (pos : Position)
| ReadHang.

(** [nodeXLogPosition].  Once the oplog entry is read the function executes
    [<-(chan struct{})(nil)], a receive that never completes, so the
    [return] after it is never reached. *)
Definition nodeXLogPosition (r : DbRead) : ReadResult :=
  match r with
  | DialFail e => ReadErr e
  | FindFail e => ReadErr ("find oplog.rs.ts error: " +:+ e)
  | Found _ => ReadHang
  end.

(** The contract the specification gives for the same function: it returns
    the newest [oplog.rs.ts] value and nothing else. *)
Definition nodeXLogPosition_contract (r : DbRead) : ReadResult :=
  match r with
  | DialFail e => ReadErr e
  | FindFail e => ReadErr ("find oplog.rs.ts error: " +:+ e)
  | Found ts => ReadOk ts
  end.

(** One iteration of the goroutine of [waitForSync], as the environment
    decides it. *)
Record SyncPoll := {
  (** [stopCh] is closed when the iteration begins *)
  spStopped : bool;
  (** the local node, read by [XLogPosition] *)
  spMaster : DbRead;
  (** the downstream, read by [nodeXLogPosition] *)
  spSlave : DbRead;
  (** the clock of this iteration: [time.Now()] after a failed read,
      [time.Since(startTime)] after two good ones *)
  spNow : Z;
  (** [time.Now()] when the progress of the downstream resets [startTime] *)
  spNowReset : Z;
  (** [stopCh] is closed during the wait of [checkInterval] *)
  spStoppedInWait : bool;
}.

Inductive WaitResult :=
| WCancelled
| WCaughtUp (masterXLog slaveXLog : Position)
| WTimedOut
| WHung
| WPending.

Definition is_cmp (c : option Z) (v : Z) : bool :=
  match c with Some x => x =? v | None => false end.

Section Loop.

(** The loop is written over the function that reads a node, so that its
    branches can be studied whatever that function answers. *)
Variable read : DbRead -> ReadResult.
Variable replTimeout : Z.

Fixpoint waitForSync_loop (startTime : Z) (prevSlaveXLog : Position)
    (polls : list SyncPoll) : WaitResult :=
  match polls with
  | [] => WPending
  | q :: rest =>
      if spStopped q then WCancelled
      else
        match read (spMaster q) with
        | ReadHang => WHung
        | ReadErr _ =>
            if spStoppedInWait q then WCancelled
            else waitForSync_loop (spNow q) prevSlaveXLog rest
        | ReadOk masterXLog =>
            match read (spSlave q) with
            | ReadHang => WHung
            | ReadErr _ =>
                if spStoppedInWait q then WCancelled
                else waitForSync_loop (spNow q) prevSlaveXLog rest
            | ReadOk slaveXLog =>
                let elapsedTime := spNow q - startTime in
                if is_cmp (Compare masterXLog slaveXLog) 0
                then WCaughtUp masterXLog slaveXLog
                else
                  let startTime' :=
                    if is_cmp (Compare prevSlaveXLog slaveXLog) (-1)
                    then spNowReset q else startTime in
                  if elapsedTime >? replTimeout then WTimedOut
                  else if spStoppedInWait q then WCancelled
                  else waitForSync_loop startTime' slaveXLog rest
            end
        end
  end.

(** The state of the loop after the polls of [polls], when none of them
    ended it: the start time and the previous downstream position. *)
Fixpoint loop_state (startTime : Z) (prevSlaveXLog : Position)
    (polls : list SyncPoll) : Z * Position :=
  match polls with
  | [] => (startTime, prevSlaveXLog)
  | q :: rest =>
      match read (spMaster q) with
      | ReadOk _ =>
          match read (spSlave q) with
          | ReadOk slaveXLog =>
              loop_state
                (if is_cmp (Compare prevSlaveXLog slaveXLog) (-1)
                 then spNowReset q else startTime)
                slaveXLog rest
          | _ => loop_state (spNow q) prevSlaveXLog rest
          end
      | _ => loop_state (spNow q) prevSlaveXLog rest
      end
  end.

End Loop.

Definition finish_wait (st : WaitStatus) (w : SyncWait) : SyncWait :=
  {| swDownstream := swDownstream w;
     swEnableWrites := swEnableWrites w;
     swStatus := st |}.

(** The goroutine of the wait last started on [p], run from its start (at
    time [startTime]) through [polls]: what it leaves in the process.
    Nothing in it reads [enableWrites]. *)
Definition waitForSync_goroutine (read : DbRead -> ReadResult) (startTime : Z)
    (polls : list SyncPoll) (p : Process) : outcome Process :=
  match cancelSyncWait p with
  | None => Done p
  | Some w =>
      match swStatus w with
      | WaitRunning =>
          match swDownstream w with
          | None => Panics "invalid memory address or nil pointer dereference"
          | Some d =>
              match waitForSync_loop read (ReplTimeout p) startTime Zero polls with
              | WCaughtUp _ _ =>
                  Done (set_synced (Some d) (set_wait (Some (finish_wait WaitDone w)) p))
              | WCancelled | WTimedOut =>
                  Done (set_wait (Some (finish_wait WaitDone w)) p)
              | WHung => Done (set_wait (Some (finish_wait WaitHung w)) p)
              | WPending => Done p
              end
          end
      | _ => Done p
      end
  end.

(** [client.DatabaseInfo] as filled by [Info]. *)
Record Info_t := {
  iConfig : option Config;
  iRunning : bool;
  iSyncedDownstream : option Instance;
  iXLog : Position;
  iUserExists : bool;
  iReadWrite : bool;
}.

Definition Info (read : DbRead -> ReadResult) (local : DbRead) (p : Process)
  : outcome (Info_t * option error) :=
  let info x u rw :=
    {| iConfig := config p; iRunning := running p;
       iSyncedDownstream := syncedDownstream p;
       iXLog := x; iUserExists := u; iReadWrite := rw |} in
  match read local with
  | ReadHang => Blocks
  | ReadErr e => Done (info Zero false false, Some e)
  | ReadOk x =>
      ue ← userExists p;
      match ue.2 with
      | Some e => Done (info x ue.1 false, Some e)
      | None =>
          rw ← isReadWrite p;
          Done (info x ue.1 rw.1, rw.2)
      end
  end.

End CatchUp.

Arguments spStopped {Position} s.
Arguments spMaster {Position} s.
Arguments spSlave {Position} s.
Arguments spNow {Position} s.
Arguments spNowReset {Position} s.
Arguments spStoppedInWait {Position} s.
Arguments DialFail {Position} e.
Arguments FindFail {Position} e.
Arguments Found {Position} ts.
Arguments ReadErr {Position} e.
Arguments ReadOk {Position} pos.
Arguments ReadHang {Position}.
Arguments WCancelled {Position}.
Arguments WCaughtUp {Position} masterXLog slaveXLog.
Arguments WTimedOut {Position}.
Arguments WHung {Position}.
Arguments WPending {Position}.
Arguments nodeXLogPosition {Position} r.
Arguments nodeXLogPosition_contract {Position} r.

(** ** Concrete peers, configurations and environments *)

(** Modelled from the spec: [Config.Equal] of the sirenia state package,
    "new config equals the last applied config". *)
Definition Equal_spec (a b : Config) : bool := bool_decide (a = b).

(** Modelled from the spec: [Config.IsNewDownstream] of the sirenia state
    package, "only the downstream changed". *)
Definition IsNewDownstream_spec (old new : option Config) : bool :=
  match old, new with
  | Some o, Some n =>
      bool_decide (cRole o = cRole n) && bool_decide (Upstream o = Upstream n)
      && negb (bool_decide (Downstream o = Downstream n))
  | _, _ => false
  end.

(** Modelled from the spec: log positions "opaque, totally ordered", with
    "compare(a,b) in {-1,0,+1}"; here integers. *)
Definition Compare_Z (a b : Z) : option Z :=
  Some (match a ?= b with Lt => -1 | Eq => 0 | Gt => 1 end).

Definition peer (name addr : string) : Instance :=
  {| Addr := addr; Meta := {[ "MONGODB_ID" := name ]} |}.

Definition node1 : Instance := peer "node1" "10.0.0.1:27017".
Definition node2 : Instance := peer "node2" "10.0.0.2:27017".
Definition node3 : Instance := peer "node3" "10.0.0.3:27017".

Definition cfg_none : Config :=
  {| cRole := RoleNone; Upstream := None; Downstream := None |}.
Definition cfg_primary : Config :=
  {| cRole := RolePrimary; Upstream := None; Downstream := Some node3 |}.
Definition cfg_sync : Config :=
  {| cRole := RoleSync; Upstream := Some node1; Downstream := Some node3 |}.
Definition cfg_async : Config :=
  {| cRole := RoleAsync; Upstream := Some node1; Downstream := None |}.

(** A supervisor whose daemon runs with [c] applied. *)
Definition running_as (c : Config) : Process :=
  {| configValue := Some c; configApplied := true; runningValue := true;
     syncedDownstreamValue := None;
     ID := "node2"; Singleton := false; Port := "27017"; DataDir := "/data";
     OpTimeout := DefaultOpTimeout; ReplTimeout := DefaultReplTimeout;
     cmd := Some 1%nat; cancelSyncWait := None;
     trace := [EvConnectLocal; EvDial; EvCmdStart; EvWriteConfig] |}.

(** A supervisor that holds [c] and has not started its daemon. *)
Definition stopped_with (c : Config) : Process := set_config (Some c) false NewProcess.

Definition not_ready : DatabaseInfo + error :=
  inl {| dbRunning := false; dbXLog := ""; dbUserExists := false |}.

(** An upstream that answers at once and is never ready. *)
Definition offline_polls : list UpPoll :=
  replicate 11 {| upStatus := not_ready; upDur := 0; upPick := SelTicker |}.

(** An upstream that answers nine polls at once, not ready, and the tenth,
    made at 9 s, after a second and a half, ready. *)
Definition late_polls : list UpPoll :=
  replicate 9 {| upStatus := not_ready; upDur := 0; upPick := SelTicker |}
  ++ [ {| upStatus := inl {| dbRunning := true; dbXLog := "0/3000060";
                            dbUserExists := true |};
          upDur := 1500; upPick := SelTimer |} ].

(** Every call succeeds; the upstream is polled as [polls] says. *)
Definition env_with (polls : list UpPoll) : Env :=
  {| writeConfig_res := fun _ => None;
     cmdStart_res := fun _ => None;
     dial_res := fun _ => None;
     cmdStopped := fun _ => true;
     initPrimaryDB_res := fun _ => None;
     connectLocal_res := fun _ => None;
     upstream_polls := fun _ _ => polls |}.

(** A poll of the catch-up wait at time [t] in which the local node is at
    [m] and the downstream at [s]. *)
Definition sync_poll (t m s : Z) : SyncPoll Z :=
  {| spStopped := false; spMaster := Found m; spSlave := Found s;
     spNow := t; spNowReset := t; spStoppedInWait := false |}.

(** The downstream has caught up with the local node and stays so, polled
    every second for 61 seconds. *)
Definition caught_up_polls : list (SyncPoll Z) :=
  (fun k => sync_poll (1000 * Z.of_nat k) 7 7) <$> seq 1 61.

(** A poll at time [t] in which the downstream cannot be reached. *)
Definition unreachable_poll (t m : Z) : SyncPoll Z :=
  {| spStopped := false; spMaster := Found m; spSlave := DialFail "no reachable servers";
     spNow := t; spNowReset := t; spStoppedInWait := false |}.

(** The downstream cannot be reached for two minutes. *)
Definition stalled_polls : list (SyncPoll Z) :=
  (fun k => unreachable_poll (1000 * Z.of_nat k) 7) <$> seq 1 120.
(** Neither node can be read for two minutes. *)
Definition failing_polls : list (SyncPoll Z) :=
  (fun k => {| spStopped := false;
               spMaster := DialFail "no reachable servers";
               spSlave := DialFail "no reachable servers";
               spNow := 1000 * Z.of_nat k; spNowReset := 1000 * Z.of_nat k;
               spStoppedInWait := false |}) <$> seq 1 120.

(** A primary that has just started a catch-up wait against [d]. *)
Definition waiting_on (d : Instance) : Process :=
  waitForSync (Some d) true (running_as cfg_primary).

(** ** What the transitions keep *)

(** What [Start], [Stop] and [Reconfigure] keep true of a process that
    begins as [NewProcess]: a running daemon has a command handle and a
    stored configuration, and a stored configuration has passed the peer
    checks of [Reconfigure]. *)
Definition well_formed (p : Process) : Prop :=
  (running p = true -> is_Some (cmd p) /\ is_Some (config p)) /\
  (forall c, config p = Some c -> peers_check c p = None).

(** Nothing was stored between [p] and [p']. *)
Definition store_kept (p p' : Process) : Prop :=
  config p' = config p /\ configApplied p' = configApplied p /\
  Singleton p' = Singleton p.

(** A running daemon has a command handle. *)
Definition cmd_known (p : Process) : Prop := running p = true -> is_Some (cmd p).

(** How a call ends: when it returns, [P] holds of its result; when it
    panics, [Q] holds; it may also block. *)
Definition ends {A} (P : A -> Prop) (Q : Prop) (o : outcome A) : Prop :=
  match o with
  | Done a => P a
  | Panics _ => Q
  | Blocks => True
  end.

(** The last catch-up wait, if any, has ended. *)
Definition wait_settled (p : Process) : Prop :=
  forall w, cancelSyncWait p = Some w -> swStatus w = WaitDone.

(** The daemon cannot be started. *)
Definition env_no_start : Env :=
  {| writeConfig_res := fun _ => None;
     cmdStart_res := fun _ => Some "fork/exec /usr/bin/mongod: no such file";
     dial_res := fun _ => None;
     cmdStopped := fun _ => true;
     initPrimaryDB_res := fun _ => None;
     connectLocal_res := fun _ => None;
     upstream_polls := fun _ _ => [] |}.

(** The replica set cannot be initiated. *)
Definition env_no_init : Env :=
  {| writeConfig_res := fun _ => None;
     cmdStart_res := fun _ => None;
     dial_res := fun _ => None;
     cmdStopped := fun _ => true;
     initPrimaryDB_res := fun _ => Some "exit status 1";
     connectLocal_res := fun _ => None;
     upstream_polls := fun _ _ => [] |}.

(** The daemon does not stop in time. *)
Definition env_no_stop : Env :=
  {| writeConfig_res := fun _ => None;
     cmdStart_res := fun _ => None;
     dial_res := fun _ => None;
     cmdStopped := fun _ => false;
     initPrimaryDB_res := fun _ => None;
     connectLocal_res := fun _ => None;
     upstream_polls := fun _ _ => [] |}.

(** A primary whose downstream is [node2]. *)
Definition cfg_primary2 : Config :=
  {| cRole := RolePrimary; Upstream := None; Downstream := Some node2 |}.

(** A primary without a downstream, as a singleton holds it. *)
Definition cfg_alone : Config :=
  {| cRole := RolePrimary; Upstream := None; Downstream := None |}.

(** A configuration with a role the supervisor does not know. *)
Definition cfg_unknown : Config :=
  {| cRole := RoleOther 7; Upstream := None; Downstream := None |}.

(** The downstream is read at position 5 while the local node is at 7,
    every second for 62 seconds. *)
Definition lagging_polls : list (SyncPoll Z) :=
  (fun k => sync_poll (1000 * Z.of_nat k) 7 5) <$> seq 1 62.

End Mongo.

(** * The libvirt-lxc container backend *)
Module Backend.

(** ** Data *)

(** An address handed out by the IP allocator. *)
Definition IP := N.

(** [host.Port]. *)
Record Port := { Proto : string; PortNum : Z }.

(** [host.Mount]. *)
Record Mount := { Location : string; Target : string; Writeable : bool }.

(** [host.VolumeBinding]. *)
Record VolumeBinding := { VTarget : string; VolumeID : string; VWriteable : bool }.

(** [host.ContainerConfig].  A nil [Env] reads like the empty map, and
    [Run] replaces it by an empty map before writing. *)
Record ContainerConfig := {
  Cmd : list string;
  Entrypoint : list string;
  Env : gmap string string;
  Ports : list Port;
  Mounts : list Mount;
  Volumes : list VolumeBinding;
  WorkingDir : string;
  Uid : Z;
  TTY : bool;
  Stdin : bool;
  DisableLog : bool;
  HostNetwork : bool;
}.

(** [host.Job]; the two resource limits are [Resources[TypeMemory].Limit]
    and [Resources[TypeCPU].Limit]. *)
Record Job := {
  ID : string;
  Partition : string;
  ImageArtifactURI : string;
  Config : ContainerConfig;
  MemoryLimit : option Z;
  CPULimit : option Z;
}.

Definition with_Partition (s : string) (j : Job) : Job :=
  {| ID := ID j; Partition := s; ImageArtifactURI := ImageArtifactURI j;
     Config := Config j; MemoryLimit := MemoryLimit j; CPULimit := CPULimit j |}.

Definition with_Env_Ports (env : gmap string string) (ports : list Port) (j : Job) : Job :=
  {| ID := ID j; Partition := Partition j; ImageArtifactURI := ImageArtifactURI j;
     Config := {| Cmd := Cmd (Config j); Entrypoint := Entrypoint (Config j);
                  Env := env; Ports := ports;
                  Mounts := Mounts (Config j); Volumes := Volumes (Config j);
                  WorkingDir := WorkingDir (Config j); Uid := Uid (Config j);
                  TTY := TTY (Config j); Stdin := Stdin (Config j);
                  DisableLog := DisableLog (Config j);
                  HostNetwork := HostNetwork (Config j) |};
     MemoryLimit := MemoryLimit j; CPULimit := CPULimit j |}.

(** [dockerImageConfig]. *)
Record dockerImageConfig := {
  imgUser : string;
  imgCmd : list string;
  imgEntrypoint : list string;
  imgWorkingDir : string;
}.

(** [containerinit.Config], the content of [/.containerconfig]. *)
Record InitConfig := {
  icTTY : bool;
  icOpenStdin : bool;
  icWorkDir : string;
  icUser : string;
  icArgs : list string;
  icPorts : list Port;
  icIP : string;
  icGateway : string;
  icEnv : gmap string string;
}.

(** [lt.Domain]: what [Run] puts in the descriptor. *)
Record Domain := {
  dName : string;
  dMemory : Z * string;
  dCPUShares : option Z;
  dRootDir : string;
  dPartition : string;
  dInterfaces : list string;
}.

(** [libvirtContainer]; [done] is true once the channel is closed. *)
Record Container := {
  RootPath : string;
  cDomain : option Domain;
  cIP : option IP;
  job : Job;
  done : bool;
}.

Definition with_RootPath (r : string) (c : Container) : Container :=
  {| RootPath := r; cDomain := cDomain c; cIP := cIP c; job := job c; done := done c |}.
Definition with_Domain (d : option Domain) (c : Container) : Container :=
  {| RootPath := RootPath c; cDomain := d; cIP := cIP c; job := job c; done := done c |}.
Definition with_IP (i : option IP) (c : Container) : Container :=
  {| RootPath := RootPath c; cDomain := cDomain c; cIP := i; job := job c; done := done c |}.
Definition with_job (j : Job) (c : Container) : Container :=
  {| RootPath := RootPath c; cDomain := cDomain c; cIP := cIP c; job := j; done := done c |}.
Definition with_done (d : bool) (c : Container) : Container :=
  {| RootPath := RootPath c; cDomain := cDomain c; cIP := cIP c; job := job c; done := d |}.

(** The status of a job in the host state. *)
Inductive JobStatus :=
| StatusStarting | StatusRunning | StatusDone | StatusCrashed | StatusFailed.

#[global] Instance JobStatus_eq_dec : EqDecision JobStatus.
Proof. solve_decision. Defined.

(** [host.ActiveJob]: the fields the backend reads and writes. *)
Record ActiveJob := {
  Status : JobStatus;
  ForceStop : bool;
  ContainerID : string;
  InternalIP : option IP;
  ExitStatus : option Z;
  Error : option string;
}.

(** A Go channel that is only ever closed. *)
Inductive Chan := Open | Closed.

(** A goroutine that has been started with [go] and has not run yet. *)
Inductive Task :=
| TaskCleanup (c : Container)
| TaskWatch (c : Container).

(** The fields of [LibvirtLXCBackend] that never change after start-up. *)
Record Settings := {
  InitPath : string;
  resolvConf : string;
  bridgeName : string;
  bridgeAddr : string;
  bridgeNet : option string;
  partitionCGroups : gmap string Z;
}.

(** [LibvirtLXCBackend] with what it acts on: the host state ([jobs] under
    [stateMtx]), the allocator's pool ([ipalloc]), the kernel's mount table
    ([mtab], newest mount first), the written init configs ([files]), the
    started goroutines, and the signals sent to container inits. *)
Record Backend := {
  settings : Settings;
  jobs : gmap string ActiveJob;
  stateMtx : bool;
  containers : gmap string Container;
  logStreams : gset string;
  defaultEnv : gmap string string;
  discoverdConfigured : Chan;
  networkConfigured : Chan;
  ipalloc : gset IP;
  mtab : list string;
  files : gmap string InitConfig;
  goroutines : list Task;
  signals : list (string * Z);
  tick : nat;
}.

Definition set_jobs (f : gmap string ActiveJob -> gmap string ActiveJob) (b : Backend) :=
  let 'Build_Backend a1 a2 a3 a4 a5 a6 a7 a8 a9 a10 a11 a12 a13 a14 := b in
  Build_Backend a1 (f a2) a3 a4 a5 a6 a7 a8 a9 a10 a11 a12 a13 a14.
Definition set_stateMtx (x : bool) (b : Backend) :=
  let 'Build_Backend a1 a2 a3 a4 a5 a6 a7 a8 a9 a10 a11 a12 a13 a14 := b in
  Build_Backend a1 a2 x a4 a5 a6 a7 a8 a9 a10 a11 a12 a13 a14.
Definition set_containers (f : gmap string Container -> gmap string Container) (b : Backend) :=
  let 'Build_Backend a1 a2 a3 a4 a5 a6 a7 a8 a9 a10 a11 a12 a13 a14 := b in
  Build_Backend a1 a2 a3 (f a4) a5 a6 a7 a8 a9 a10 a11 a12 a13 a14.
Definition set_logStreams (f : gset string -> gset string) (b : Backend) :=
  let 'Build_Backend a1 a2 a3 a4 a5 a6 a7 a8 a9 a10 a11 a12 a13 a14 := b in
  Build_Backend a1 a2 a3 a4 (f a5) a6 a7 a8 a9 a10 a11 a12 a13 a14.
Definition set_defaultEnv (f : gmap string string -> gmap string string) (b : Backend) :=
  let 'Build_Backend a1 a2 a3 a4 a5 a6 a7 a8 a9 a10 a11 a12 a13 a14 := b in
  Build_Backend a1 a2 a3 a4 a5 (f a6) a7 a8 a9 a10 a11 a12 a13 a14.
Definition set_discoverdConfigured (x : Chan) (b : Backend) :=
  let 'Build_Backend a1 a2 a3 a4 a5 a6 a7 a8 a9 a10 a11 a12 a13 a14 := b in
  Build_Backend a1 a2 a3 a4 a5 a6 x a8 a9 a10 a11 a12 a13 a14.
Definition set_ipalloc (f : gset IP -> gset IP) (b : Backend) :=
  let 'Build_Backend a1 a2 a3 a4 a5 a6 a7 a8 a9 a10 a11 a12 a13 a14 := b in
  Build_Backend a1 a2 a3 a4 a5 a6 a7 a8 (f a9) a10 a11 a12 a13 a14.
Definition set_mtab (f : list string -> list string) (b : Backend) :=
  let 'Build_Backend a1 a2 a3 a4 a5 a6 a7 a8 a9 a10 a11 a12 a13 a14 := b in
  Build_Backend a1 a2 a3 a4 a5 a6 a7 a8 a9 (f a10) a11 a12 a13 a14.
Definition set_files (f : gmap string InitConfig -> gmap string InitConfig) (b : Backend) :=
  let 'Build_Backend a1 a2 a3 a4 a5 a6 a7 a8 a9 a10 a11 a12 a13 a14 := b in
  Build_Backend a1 a2 a3 a4 a5 a6 a7 a8 a9 a10 (f a11) a12 a13 a14.
Definition set_goroutines (f : list Task -> list Task) (b : Backend) :=
  let 'Build_Backend a1 a2 a3 a4 a5 a6 a7 a8 a9 a10 a11 a12 a13 a14 := b in
  Build_Backend a1 a2 a3 a4 a5 a6 a7 a8 a9 a10 a11 (f a12) a13 a14.
Definition set_signals (f : list (string * Z) -> list (string * Z)) (b : Backend) :=
  let 'Build_Backend a1 a2 a3 a4 a5 a6 a7 a8 a9 a10 a11 a12 a13 a14 := b in
  Build_Backend a1 a2 a3 a4 a5 a6 a7 a8 a9 a10 a11 a12 (f a13) a14.
Definition bump (b : Backend) :=
  let 'Build_Backend a1 a2 a3 a4 a5 a6 a7 a8 a9 a10 a11 a12 a13 a14 := b in
  Build_Backend a1 a2 a3 a4 a5 a6 a7 a8 a9 a10 a11 a12 a13 (S a14).

(** [go f()]: the goroutine is started; when it runs is up to the
    scheduler. *)
Definition spawn (t : Task) (b : Backend) : Backend :=
  set_goroutines (fun l => l ++ [t]) b.

(** ** The host state *)

(** Modelled from the spec: the host state registry (type [State], whose
    methods are not among the sources).  "Thread-safe registry with a
    single write mutex.  Operations: AddJob, GetJob(id) -> copy,
    SetStatusRunning/Failed/Done, SetContainerID, SetContainerIP"; "every
    status transition is write-once for terminal states -- later writes
    are dropped silently"; the watcher on [Exited{code}] "record[s] exit
    code and status=done".  The definitions give the effect of a method on
    the job table.  The mutex is [stateMtx]: a method takes it and
    releases it, and the backend takes it itself in [Run], around the
    ports; a method that is called while the backend holds it is a
    [state_call].  Between the backend's operations the mutex is free: a
    [Run] that returns has released it, and one that does not return
    leaves no state behind. *)
Definition terminal (s : JobStatus) : bool :=
  match s with
  | StatusDone | StatusCrashed | StatusFailed => true
  | StatusStarting | StatusRunning => false
  end.

Definition GetJob (id : string) (b : Backend) : option ActiveJob := jobs b !! id.

Definition update_job (f : ActiveJob -> ActiveJob) (id : string) (b : Backend) : Backend :=
  set_jobs (alter f id) b.

Definition SetStatusRunning (id : string) : Backend -> Backend :=
  update_job (fun j =>
    if terminal (Status j) then j
    else {| Status := StatusRunning; ForceStop := ForceStop j;
            ContainerID := ContainerID j; InternalIP := InternalIP j;
            ExitStatus := ExitStatus j; Error := Error j |}) id.

Definition SetStatusDone (id : string) (exitStatus : Z) : Backend -> Backend :=
  update_job (fun j =>
    if terminal (Status j) then j
    else {| Status := StatusDone; ForceStop := ForceStop j;
            ContainerID := ContainerID j; InternalIP := InternalIP j;
            ExitStatus := Some exitStatus; Error := Error j |}) id.

Definition SetStatusFailed (id : string) (err : error) : Backend -> Backend :=
  update_job (fun j =>
    if terminal (Status j) then j
    else {| Status := StatusFailed; ForceStop := ForceStop j;
            ContainerID := ContainerID j; InternalIP := InternalIP j;
            ExitStatus := ExitStatus j; Error := Some err |}) id.

Definition SetContainerIP (id : string) (ip : IP) : Backend -> Backend :=
  update_job (fun j =>
    {| Status := Status j; ForceStop := ForceStop j;
       ContainerID := ContainerID j; InternalIP := Some ip;
       ExitStatus := ExitStatus j; Error := Error j |}) id.

Definition SetContainerID (id : string) (uuid : string) : Backend -> Backend :=
  update_job (fun j =>
    {| Status := Status j; ForceStop := ForceStop j;
       ContainerID := uuid; InternalIP := InternalIP j;
       ExitStatus := ExitStatus j; Error := Error j |}) id.

(** A [State] method called where the backend may hold [l.state.mtx]
    itself: the method takes the mutex first, and so never returns when it
    is held. *)
Definition state_call (f : Backend -> Backend) (b : Backend) : outcome Backend :=
  if stateMtx b then Blocks else Done (f b).

(** ** The outside world *)

(** A value or a Go error. *)
Inductive res (A : Type) : Type :=
| Val (a : A)
| Fail (e : error).
Arguments Val {A} a.
Arguments Fail {A} e.

(** How [bindMount] ends: it fails before the bind ([BindFailed]), it binds
    and then fails to make the mount private ([BindNotPrivate]: the mount
    exists and an error is returned), or it succeeds. *)
Inductive BindResult :=
| BindOk
| BindFailed (e : error)
| BindNotPrivate (e : error).

(** How the watcher's loop over [StreamState()] ends: a change carries an
    error, the init reports [StateExited] or [StateFailed], or the stream
    is closed. *)
Inductive WatchEnd :=
| EndError (e : string)
| EndExited (exitStatus : Z)
| EndFailed
| EndClosed.

Definition SIGTERM : Z := 15.
Definition SIGKILL : Z := 9.

(** [rpcplus.ErrShutdown]. *)
Definition ErrShutdown : error := "connection is shut down".

(** The answers of everything the backend calls.  The first argument is the
    [tick] of the call, so that two calls with the same arguments may be
    answered differently. *)
Record World := {
  (** [ipalloc.RequestIP(net, hint)] against the current pool *)
  RequestIP : nat -> gset IP -> option IP -> res IP;
  (** [url.Parse] of the artifact URI, and whether its host ends in
      [.discoverd] *)
  uri_in_discoverd : string -> res bool;
  (** the rest of [resolveDiscoverdURI]: parsing, lookup, random pick *)
  resolve_uri : nat -> string -> res string;
  PullDocker : nat -> string -> res string;
  readDockerImageConfig : nat -> string -> res dockerImageConfig;
  (** [pinkerton.Checkout] as the retry loop of [Run] leaves it *)
  Checkout : nat -> string -> string -> res string;
  bindMount_res : nat -> string -> string -> BindResult;
  MkdirAll : nat -> string -> option error;
  writeHostname : nat -> string -> string -> option error;
  (** [vman.GetVolume(id)] and the volume's [Location()] *)
  GetVolume : nat -> string -> option string;
  (** creating and encoding [/.containerconfig] *)
  writeFile : nat -> string -> option error;
  (** [DomainDefineXML], [Create], [GetUUIDString], [GetXMLDesc] and the
      decoding of the descriptor, each with its connection retries *)
  DomainDefineXML : nat -> Domain -> option error;
  DomainCreate : nat -> string -> option error;
  GetUUIDString : nat -> string -> res string;
  GetXMLDesc : nat -> string -> res Domain;
  (** [containerinit.Client.Signal] *)
  Signal_res : nat -> string -> Z -> option error;
  (** during a [WaitStop]: the watcher of the job ends within the timeout,
      and how *)
  watch_ends : nat -> string -> option WatchEnd;
}.

Section WithLibraries.

(** Pure library functions taken as they are: [filepath.Join] on two
    elements and [net.IP.String]. *)
Variable filepath_Join : string -> string -> string.
Variable IP_String : IP -> string.

(** ** [SetDefaultEnv] *)

(** [close(ch)] panics on a closed channel. *)
Definition SetDefaultEnv (k v : string) (b : Backend) : outcome Backend :=
  let b1 := set_defaultEnv (fun m => <[k := v]> m) b in
  if bool_decide (k = "DISCOVERD") then
    match discoverdConfigured b1 with
    | Open => Done (set_discoverdConfigured Closed b1)
    | Closed => Panics "close of closed channel"
    end
  else Done b1.

(** [<-ch] on a channel that is only ever closed. *)
Definition recv (ch : Chan) : outcome unit :=
  match ch with Closed => Done tt | Open => Blocks end.

(** ** Tearing a container down *)

(** [syscall.Unmount(path, 0)]: the newest mount on [path] goes; without
    one the call fails and the failure is only logged. *)
Fixpoint umount (path : string) (tab : list string) : list string :=
  match tab with
  | [] => []
  | m :: rest => if bool_decide (m = path) then rest else m :: umount path rest
  end.

(** The paths [unbindMounts] unmounts, in its order. *)
Definition unbind_targets (c : Container) : list string :=
  [filepath_Join (RootPath c) ".containerinit";
   filepath_Join (RootPath c) "etc/resolv.conf"]
  ++ map (fun m => filepath_Join (RootPath c) (Location m)) (Mounts (Config (job c)))
  ++ map (fun v => filepath_Join (RootPath c) (VTarget v)) (Volumes (Config (job c))).

Definition unbindMounts (c : Container) (b : Backend) : Backend :=
  set_mtab (fun tab => foldl (fun t p => umount p t) tab (unbind_targets c)) b.

(** [libvirtContainer.cleanup]. *)
Definition cleanup (c : Container) (b : Backend) : Backend :=
  let b1 := set_logStreams (fun s => s ∖ {[ID (job c)]}) b in
  let b2 := unbindMounts c b1 in
  if negb (HostNetwork (Config (job c))) && bool_decide (bridgeNet (settings b2) ≠ None)
  then
    match cIP c with
    | Some ip => set_ipalloc (fun s => s ∖ {[ip]}) b2
    | None => b2
    end
  else b2.

(** The end of [watch]: the branch of the state loop that returns, then the
    deferred function (the container leaves the map, [cleanup], and [done]
    is closed). *)
Definition watch_end (how : WatchEnd) (c : Container) (b : Backend) : Backend :=
  let id := ID (job c) in
  let b1 :=
    match how with
    | EndError e => SetStatusFailed id e b
    | EndExited st => SetStatusDone id st b
    | EndFailed => SetStatusFailed id "container failed to start" b
    | EndClosed => SetStatusFailed id "unknown failure" b
    end in
  cleanup c (set_containers (delete id) b1).

(** A started goroutine gets to run. *)
Definition run_task (t : Task) (b : Backend) : Backend :=
  match t with
  | TaskCleanup c => cleanup c b
  | TaskWatch _ => b
  end.

(** ** [Stop] *)

Definition getContainer (id : string) (b : Backend) : res Container :=
  match containers b !! id with
  | Some c => Val c
  | None => Fail "libvirt: unknown container"
  end.

(** [c.Signal(sig)], a call to the container's init. *)
Definition container_Signal (W : World) (c : Container) (sig : Z) (b : Backend)
  : option error * Backend :=
  (Signal_res W (tick b) (ID (job c)) sig,
   bump (set_signals (fun l => (ID (job c), sig) :: l) b)).

(** [WaitStop]: nil at once for a job that is done or failed; otherwise nil
    when [done] is closed before the timeout, which the watcher does last. *)
Definition WaitStop (W : World) (c : Container) (b : Backend)
  : outcome (option error * Backend) :=
  match GetJob (ID (job c)) b with
  | None => Panics "invalid memory address or nil pointer dereference"
  | Some j =>
      if bool_decide (Status j = StatusDone) || bool_decide (Status j = StatusFailed)
      then Done (None, b)
      else if done c then Done (None, b)
      else
        match watch_ends W (tick b) (ID (job c)) with
        | Some how => Done (None, bump (watch_end how c b))
        | None => Done (Some "Timed out: 10s", bump b)
        end
  end.

Definition container_Stop (W : World) (c : Container) (b : Backend)
  : outcome (option error * Backend) :=
  let '(e1, b1) := container_Signal W c SIGTERM b in
  match e1 with
  | Some e => Done (Some e, b1)
  | None =>
      r ← WaitStop W c b1;
      match r.1 with
      | Some _ => Done (container_Signal W c SIGKILL r.2)
      | None => Done (None, r.2)
      end
  end.

Definition Stop (W : World) (id : string) (b : Backend)
  : outcome (option error * Backend) :=
  match getContainer id b with
  | Fail e => Done (Some e, b)
  | Val c =>
      r ← container_Stop W c b;
      Done (if bool_decide (r.1 = Some ErrShutdown) then None else r.1, r.2)
  end.

(** ** [Cleanup] *)

Definition shouldSkip (except : list string) (id : string) : bool :=
  existsb (String.eqb id) except.

(** The ids [Cleanup] collects under the lock. *)
Definition cleanup_ids (except : list string) (b : Backend) : list string :=
  filter (fun id => shouldSkip except id = false) (map fst (map_to_list (containers b))).

(** The [Stop] goroutines, in the order in which they run and send. *)
Fixpoint stop_each (W : World) (ids : list string) (b : Backend)
  : outcome (list (option error) * Backend) :=
  match ids with
  | [] => Done ([], b)
  | id :: rest =>
      r ← Stop W id b;
      rs ← stop_each W rest r.2;
      Done (r.1 :: rs.1, rs.2)
  end.

(** The receiving loop: [if stopErr != nil { err = stopErr }]. *)
Definition collect (errs : list (option error)) : option error :=
  foldl (fun err stopErr => match stopErr with Some e => Some e | None => err end)
        None errs.

(** [sched] is the scheduler's choice: the order in which the goroutines
    started for [ids] come to send their result. *)
Definition Cleanup (W : World) (sched : list string -> list string)
    (except : list string) (b : Backend) : outcome (option error * Backend) :=
  let ids := cleanup_ids except b in
  rs ← stop_each W (sched ids) b;
  Done (collect (take (length ids) rs.1), rs.2).

(** What the specification says of the same result: the first error. *)
Definition first_error (errs : list (option error)) : option error :=
  match omap id errs with
  | e :: _ => Some e
  | [] => None
  end.

(** ** [Run] *)

Definition defaultPartition : string := "user".

(** [strconv.Itoa], and [%d] of [fmt]. *)
Definition Itoa (z : Z) : string := NilEmpty.string_of_int (Z.to_int z).

(** [%q] of [fmt] on a string without characters to escape. *)
Definition quote (s : string) : string :=
  String (Ascii.ascii_of_nat 34) (s +:+ String (Ascii.ascii_of_nat 34) "").

Definition wrap64 (z : Z) : Z := (z + 2 ^ 63) `mod` 2 ^ 64 - 2 ^ 63.

Definition milliCPUToShares (milliCPU : Z) : Z :=
  if milliCPU =? 0 then 2
  else
    let shares := wrap64 (milliCPU * 1024) `quot` 1000 in
    if shares <? 2 then 2 else shares.

(** The part of the job id after its first [-], or the whole id, cut to 64
    bytes. *)
Fixpoint after_dash (s : string) : option string :=
  match s with
  | EmptyString => None
  | String a rest =>
      if bool_decide (a = Ascii.ascii_of_nat 45) then Some rest else after_dash rest
  end.

Definition hostname_of (id : string) : string :=
  let h := default id (after_dash id) in
  if Nat.ltb 64 (String.length h) then String.substring 0 64 h else h.

(** The body of [Run] after its two [defer]s runs on the backend and on the
    container record it fills; a step returns a value, or returns an error
    (which ends [Run]), or panics, or blocks. *)
Definition act (A : Type) : Type :=
  Backend * Container -> outcome (res A * (Backend * Container)).

Definition ret {A} (a : A) : act A := fun s => Done (Val a, s).

Definition bind {A B} (m : act A) (f : A -> act B) : act B := fun s =>
  match m s with
  | Done (Val a, s') => f a s'
  | Done (Fail e, s') => Done (Fail e, s')
  | Panics msg => Panics msg
  | Blocks => Blocks
  end.

Declare Scope act_scope.
Delimit Scope act_scope with act.
Bind Scope act_scope with act.
Notation "x ← y ; z" := (bind y (fun x => z))
  (at level 20, y at level 100, z at level 200, only parsing) : act_scope.
Notation "x ;; z" := (bind x (fun _ => z))
  (at level 100, z at level 200, only parsing, right associativity) : act_scope.

(** A step that reads the current backend and container. *)
Definition reading {A} (f : Backend -> Container -> act A) : act A :=
  fun s => f s.1 s.2 s.

Definition failwith {A} (e : error) : act A := fun s => Done (Fail e, s).

(** A call answered by the outside world. *)
Definition try {A} (f : nat -> res A) : act A :=
  fun s => Done (f (tick s.1), (bump s.1, s.2)).

Definition check (f : nat -> option error) : act unit :=
  fun s => Done (match f (tick s.1) with Some e => Fail e | None => Val tt end,
                 (bump s.1, s.2)).

Definition on_backend (f : Backend -> Backend) : act unit :=
  fun s => Done (Val tt, (f s.1, s.2)).

Definition on_container (f : Container -> Container) : act unit :=
  fun s => Done (Val tt, (s.1, f s.2)).

Definition wait_closed (ch : Backend -> Chan) : act unit :=
  fun s => match ch s.1 with Closed => Done (Val tt, s) | Open => Blocks end.

(** [bindMount(src, dest, writeable, true)]. *)
Definition bindMount (W : World) (src dest : string) : act unit :=
  fun s =>
    match bindMount_res W (tick s.1) src dest with
    | BindOk => Done (Val tt, (bump (set_mtab (cons dest) s.1), s.2))
    | BindFailed e => Done (Fail e, (bump s.1, s.2))
    | BindNotPrivate e => Done (Fail e, (bump (set_mtab (cons dest) s.1), s.2))
    end.

Definition resolveDiscoverdURI (W : World) (uri : string) : act string :=
  match uri_in_discoverd W uri with
  | Fail e => failwith e
  | Val false => ret uri
  | Val true =>
      (wait_closed discoverdConfigured;;
       try (fun n => resolve_uri W n uri))%act
  end.

(** [for _, m := range job.Config.Mounts]. *)
Fixpoint mount_each (W : World) (rootPath : string) (ms : list Mount) : act unit :=
  match ms with
  | [] => ret tt
  | m :: rest =>
      (check (fun n => MkdirAll W n (filepath_Join rootPath (Location m)));;
       (if bool_decide (Target m = "")
        then failwith "host: invalid empty mount target" else ret tt);;
       bindMount W (Target m) (filepath_Join rootPath (Location m));;
       mount_each W rootPath rest)%act
  end.

(** [for _, v := range job.Config.Volumes]. *)
Fixpoint volume_each (W : World) (jobID rootPath : string) (vs : list VolumeBinding)
  : act unit :=
  match vs with
  | [] => ret tt
  | v :: rest =>
      (vol ← try (fun n => Val (GetVolume W n (VolumeID v)));
       match vol with
       | None =>
           failwith ("job " +:+ jobID +:+ " required volume " +:+ VolumeID v
                     +:+ ", but that volume does not exist")
       | Some location =>
           check (fun n => MkdirAll W n (filepath_Join rootPath (VTarget v)));;
           bindMount W location (filepath_Join rootPath (VTarget v));;
           volume_each W jobID rootPath rest
       end)%act
  end.

(** [for i, p := range job.Config.Ports]: the ports and the env as the loop
    leaves them, and the error it returns.  [i] is the index of the head. *)
Fixpoint assignPorts (i : nat) (ports : list Port) (env : gmap string string)
  : list Port * gmap string string * option error :=
  match ports with
  | [] => ([], env, None)
  | p :: rest =>
      if negb (String.eqb (Proto p) "tcp") && negb (String.eqb (Proto p) "udp")
      then (p :: rest, env, Some ("unknown port proto " +:+ quote (Proto p)))
      else
        let p' := if PortNum p =? 0
                  then {| Proto := Proto p; PortNum := 5000 + Z.of_nat i |}
                  else p in
        let env1 := match i with
                    | O => <["PORT" := Itoa (PortNum p')]> env
                    | S _ => env
                    end in
        let env2 := <["PORT_" +:+ Itoa (Z.of_nat i) := Itoa (PortNum p')]> env1 in
        let '(rest', env', err) := assignPorts (S i) rest env2 in
        (p' :: rest', env', err)
  end.

Definition IP_text (ip : option IP) : string :=
  match ip with Some a => IP_String a | None => "<nil>" end.

(** The block under [l.state.mtx]: on a port of unknown proto it returns
    with the mutex still held. *)
Definition assign_ports_locked : act unit :=
  fun s =>
    let '(b, c) := s in
    if stateMtx b then Blocks
    else
      let b1 := set_stateMtx true b in
      let j := job c in
      let '(ports', env', err) :=
        assignPorts 0 (Ports (Config j)) (Env (Config j)) in
      match err with
      | Some e => Done (Fail e, (b1, with_job (with_Env_Ports env' ports' j) c))
      | None =>
          let env'' := if negb (HostNetwork (Config j))
                       then <["EXTERNAL_IP" := IP_text (cIP c)]> env'
                       else env' in
          Done (Val tt, (set_stateMtx false b1,
                         with_job (with_Env_Ports env'' ports' j) c))
      end.

(** The env written by [writeContainerConfig]: later maps win. *)
Definition merge_envs (envs : list (gmap string string)) : gmap string string :=
  foldl (fun acc e => e ∪ acc) ∅ envs.

Definition base_env : gmap string string :=
  {[ "PATH" := "/usr/local/sbin:/usr/local/bin:/usr/sbin:/usr/bin:/sbin:/bin";
     "TERM" := "xterm";
     "HOME" := "/" ]}.

Definition init_config (b : Backend) (c : Container) (img : dockerImageConfig)
  : InitConfig :=
  let j := job c in
  let cfg := Config j in
  {| icTTY := TTY cfg;
     icOpenStdin := Stdin cfg;
     icWorkDir := if bool_decide (WorkingDir cfg = "") then imgWorkingDir img
                  else WorkingDir cfg;
     icUser := if 0 <? Uid cfg then Itoa (Uid cfg) else "";
     icArgs := match Entrypoint cfg with
               | _ :: _ => Entrypoint cfg ++ Cmd cfg
               | [] => imgEntrypoint img ++
                       match Cmd cfg with _ :: _ => Cmd cfg | [] => imgCmd img end
               end;
     icPorts := Ports cfg;
     icIP := if negb (HostNetwork cfg) then IP_text (cIP c) +:+ "/24" else "";
     icGateway := if negb (HostNetwork cfg) then bridgeAddr (settings b) else "";
     icEnv := ∅ |}.

Definition with_icEnv (env : gmap string string) (c : InitConfig) : InitConfig :=
  {| icTTY := icTTY c; icOpenStdin := icOpenStdin c; icWorkDir := icWorkDir c;
     icUser := icUser c; icArgs := icArgs c; icPorts := icPorts c;
     icIP := icIP c; icGateway := icGateway c; icEnv := env |}.

Definition writeContainerConfig (W : World) (path : string) (c : InitConfig)
    (envs : list (gmap string string)) : act unit :=
  (check (fun n => writeFile W n path);;
   on_backend (set_files (fun fs => <[path := with_icEnv (merge_envs envs) c]> fs)))%act.

Definition make_domain (b : Backend) (j : Job) (rootPath : string) : Domain :=
  {| dName := ID j;
     dMemory := match MemoryLimit j with
                | Some l => (l, "bytes")
                | None => (1, "GiB")
                end;
     dCPUShares := milliCPUToShares <$> CPULimit j;
     dRootDir := rootPath;
     dPartition := "/machine/" +:+ Partition j;
     dInterfaces := if negb (HostNetwork (Config j)) then [bridgeName (settings b)]
                    else [] |}.

(** [Run] from [log.Info("pulling image")] to its last [return], in its
    four stretches. *)

(** From "pulling image" to [container.RootPath = rootPath]. *)
Definition Run_image (W : World) (j0 : Job) : act (dockerImageConfig * string) :=
  (artifactURI ← resolveDiscoverdURI W (ImageArtifactURI j0);
   imageID ← try (fun n => PullDocker W n artifactURI);
   imageConfig ← try (fun n => readDockerImageConfig W n imageID);
   rootPath ← try (fun n => Checkout W n (ID j0) imageID);
   on_container (with_RootPath rootPath);;
   ret (imageConfig, rootPath))%act.

(** From "mounting container directories and files" to the volumes. *)
Definition Run_mounts (W : World) (j0 : Job) (rootPath : string) : act unit :=
  reading (fun b _ =>
    bindMount W (InitPath (settings b)) (filepath_Join rootPath ".containerinit");;
    check (fun n => MkdirAll W n (filepath_Join rootPath "etc"));;
    bindMount W (resolvConf (settings b)) (filepath_Join rootPath "etc/resolv.conf");;
    check (fun n => writeHostname W n (filepath_Join rootPath "etc/hosts")
                      (hostname_of (ID j0)));;
    check (fun n => MkdirAll W n (filepath_Join rootPath ".container-shared"));;
    mount_each W rootPath (Mounts (Config j0));;
    volume_each W (ID j0) rootPath (Volumes (Config j0)))%act.

(** The ports, and "writing config". *)
Definition Run_config (W : World) (j0 : Job) (rootPath : string)
    (imageConfig : dockerImageConfig) : act unit :=
  (assign_ports_locked;;
   reading (fun b c =>
     writeContainerConfig W (filepath_Join rootPath ".containerconfig")
       (init_config b c imageConfig)
       [base_env; defaultEnv b; Env (Config (job c));
        {[ "HOSTNAME" := hostname_of (ID j0) ]}]))%act.

(** From "defining domain" to [go container.watch(nil, nil)]. *)
Definition Run_domain (W : World) (j0 : Job) (rootPath : string) : act unit :=
  (reading (fun b c =>
     check (fun n => DomainDefineXML W n (make_domain b (job c) rootPath)));;
   check (fun n => DomainCreate W n (ID j0));;
   uuid ← try (fun n => GetUUIDString W n (ID j0));
   on_backend (SetContainerID (ID j0) uuid);;
   domain ← try (fun n => GetXMLDesc W n (ID j0));
   on_container (with_Domain (Some domain));;
   reading (fun _ c => on_backend (spawn (TaskWatch c))))%act.

Definition Run_body (W : World) : act unit :=
  reading (fun _ c0 =>
    let j0 := job c0 in
    r ← Run_image W j0;
    Run_mounts W j0 r.2;;
    Run_config W j0 r.2 r.1;;
    Run_domain W j0 r.2)%act.

(** [Run(job, runConfig)]; [hint] is [runConfig.IP] ([None] also for a nil
    [runConfig]).  The deferred functions run last in first out: the one
    that starts [cleanup], then the one that marks the job failed.  After
    the [return] on a port of unknown proto [l.state.mtx] is still held,
    and the deferred [l.state.SetStatusFailed] waits for it: [Run] does
    not return. *)
Definition Run (W : World) (j : Job) (hint : option IP) (b : Backend)
  : outcome (option error * Backend) :=
  match GetJob (ID j) b with
  | None => Panics "invalid memory address or nil pointer dereference"
  | Some aj =>
      if ForceStop aj then Done (None, b)
      else
        let j1 := if bool_decide (Partition j = "")
                  then with_Partition defaultPartition j else j in
        match partitionCGroups (settings b) !! Partition j1 with
        | None =>
            let e := "host: invalid job partition " +:+ quote (Partition j1) in
            Done (Some e, SetStatusFailed (ID j) e b)
        | Some _ =>
            (if HostNetwork (Config j1) then Done tt else recv (networkConfigured b));;
            (if bool_decide (is_Some (Env (Config j1) !! "DISCOVERD"))
             then Done tt else recv (discoverdConfigured b));;
            let c0 := {| RootPath := ""; cDomain := None; cIP := None;
                         job := j1; done := false |} in
            let alloc : res (Backend * Container) :=
              if HostNetwork (Config j1) then Val (b, c0)
              else
                match RequestIP W (tick b) (ipalloc b) hint with
                | Fail e => Fail e
                | Val ip =>
                    Val (SetContainerIP (ID j) ip
                           (bump (set_ipalloc (fun s => {[ip]} ∪ s) b)),
                         with_IP (Some ip) c0)
                end in
            match alloc with
            | Fail e => Done (Some e, SetStatusFailed (ID j) e (bump b))
            | Val s1 =>
                r ← Run_body W s1;
                match r.1 with
                | Fail e =>
                    b' ← state_call (SetStatusFailed (ID j) e)
                           (spawn (TaskCleanup r.2.2) r.2.1);
                    Done (Some e, b')
                | Val _ => Done (None, r.2.1)
                end
            end
        end
  end.

(** A proto that [Run] accepts. *)
Definition known_proto (p : Port) : Prop := Proto p = "tcp" \/ Proto p = "udp".

(** What the specification says of a port at index [i]: "any port == 0
    becomes 5000 + i". *)
Definition default_port (i : nat) (p : Port) : Port :=
  if PortNum p =? 0 then {| Proto := Proto p; PortNum := 5000 + Z.of_nat i |} else p.

(** [fmt.Sprintf("PORT_%d", i)]. *)
Definition port_key (i : nat) : string := "PORT_" +:+ Itoa (Z.of_nat i).

(** The env that [Run] gives [writeContainerConfig] when the ports loop has
    left [env']. *)
Definition written_env (s : Backend * Container) (env' : gmap string string)
  : gmap string string :=
  merge_envs
    [base_env; defaultEnv s.1;
     if negb (HostNetwork (Config (job s.2)))
     then <["EXTERNAL_IP" := IP_text (cIP s.2)]> env' else env';
     {[ "HOSTNAME" := hostname_of (ID (job s.2)) ]}].

(** Every started goroutine that is a [cleanup] gets to run. *)
Definition run_goroutines (b : Backend) : Backend :=
  foldl (fun b t => run_task t b) (set_goroutines (fun _ => []) b) (goroutines b).

End WithLibraries.

(** The last error among the results, in the order of their receipt. *)
Definition last_error (errs : list (option error)) : option error :=
  last (omap id errs).

(** Every registered container has its job in the host state. *)
Definition jobs_known (b : Backend) : Prop :=
  forall id c, containers b !! id = Some c -> is_Some (jobs b !! ID (job c)).

(** ** Conditions on a step *)

(** [wp m Qv Qf Qb s]: run from [s], the step [m] returns a value and a
    state that satisfy [Qv], or fails with an error and in a state that
    satisfy [Qf], or panics, or blocks and then [Qb] holds. *)
Definition wp {A} (m : act A) (Qv : A -> Backend * Container -> Prop)
    (Qf : error -> Backend * Container -> Prop) (Qb : Prop)
    (s : Backend * Container) : Prop :=
  match m s with
  | Done (Val a, s') => Qv a s'
  | Done (Fail e, s') => Qf e s'
  | Panics _ => True
  | Blocks => Qb
  end.

(** [s'] is [s] but for the calls counted and for the mounts [c] added. *)
Definition mounted (c : list string) (s s' : Backend * Container) : Prop :=
  s'.2 = s.2 /\ mtab s'.1 = c ++ mtab s.1 /\
  settings s'.1 = settings s.1 /\ jobs s'.1 = jobs s.1 /\
  stateMtx s'.1 = stateMtx s.1 /\ containers s'.1 = containers s.1 /\
  logStreams s'.1 = logStreams s.1 /\ defaultEnv s'.1 = defaultEnv s.1 /\
  discoverdConfigured s'.1 = discoverdConfigured s.1 /\
  networkConfigured s'.1 = networkConfigured s.1 /\
  ipalloc s'.1 = ipalloc s.1 /\ files s'.1 = files s.1 /\
  goroutines s'.1 = goroutines s.1 /\ signals s'.1 = signals s.1.

(** [s'] has what [cleanup] reads as [s] has it: the pool, the settings,
    the registered containers and streams, and the container's address and
    its job's id, network mode, mounts and volumes. *)
Definition kept (s s' : Backend * Container) : Prop :=
  ipalloc s'.1 = ipalloc s.1 /\ settings s'.1 = settings s.1 /\
  logStreams s'.1 = logStreams s.1 /\ containers s'.1 = containers s.1 /\
  defaultEnv s'.1 = defaultEnv s.1 /\
  discoverdConfigured s'.1 = discoverdConfigured s.1 /\
  cIP s'.2 = cIP s.2 /\
  ID (job s'.2) = ID (job s.2) /\
  Mounts (Config (job s'.2)) = Mounts (Config (job s.2)) /\
  Volumes (Config (job s'.2)) = Volumes (Config (job s.2)) /\
  HostNetwork (Config (job s'.2)) = HostNetwork (Config (job s.2)).

(** [m], run from [s], returns a value, in a state that satisfies [Q]. *)
Definition succeeds {A} (m : act A) (Q : A -> Backend * Container -> Prop)
    (s : Backend * Container) : Prop :=
  match m s with
  | Done (Val a, s') => Q a s'
  | _ => False
  end.

(** What the steps before the ports leave as it was. *)
Definition untouched (s s' : Backend * Container) : Prop :=
  stateMtx s'.1 = stateMtx s.1 /\ job s'.2 = job s.2.

(** Every call that [Run] makes for [j] before it comes to the ports
    succeeds: the volumes of the job exist, and no mount of the job has an
    empty target. *)
Definition quiet_before_ports (W : World) (j : Job) : Prop :=
  (forall n pool hint, exists ip, RequestIP W n pool hint = Val ip) /\
  (forall u, exists x, uri_in_discoverd W u = Val x) /\
  (forall n u, exists r, resolve_uri W n u = Val r) /\
  (forall n u, exists r, PullDocker W n u = Val r) /\
  (forall n i, exists r, readDockerImageConfig W n i = Val r) /\
  (forall n a i, exists r, Checkout W n a i = Val r) /\
  (forall n src dest, bindMount_res W n src dest = BindOk) /\
  (forall n path, MkdirAll W n path = None) /\
  (forall n path h, writeHostname W n path h = None) /\
  Forall (fun v => forall n, is_Some (GetVolume W n (VolumeID v)))
         (Volumes (Config j)) /\
  Forall (fun m => Target m <> "") (Mounts (Config j)).

(** ** A concrete host *)

Definition join (dir name : string) : string := dir +:+ "/" +:+ name.

Definition ip_string (ip : IP) : string := "100.100.0." +:+ Itoa (Z.of_N ip).

Definition settings0 : Settings :=
  {| InitPath := "/usr/local/bin/flynn-init";
     resolvConf := "/etc/flynn/resolv.conf";
     bridgeName := "flynnbr0";
     bridgeAddr := "100.100.0.1";
     bridgeNet := Some "100.100.0.0/24";
     partitionCGroups := {[ "user" := 8192; "system" := 4096 ]} |}.

Definition active (st : JobStatus) : ActiveJob :=
  {| Status := st; ForceStop := false; ContainerID := ""; InternalIP := None;
     ExitStatus := None; Error := None |}.

(** A host on which networking and discoverd are configured, with the
    given jobs and containers. *)
Definition host (js : gmap string ActiveJob) (cs : gmap string Container) : Backend :=
  {| settings := settings0; jobs := js; stateMtx := false; containers := cs;
     logStreams := ∅; defaultEnv := {[ "DISCOVERD" := "http://100.100.0.1:1111" ]};
     discoverdConfigured := Closed; networkConfigured := Closed;
     ipalloc := {[ 1%N ]}; mtab := []; files := ∅; goroutines := [];
     signals := []; tick := 0 |}.

Definition job_with (id : string) (ports : list Port) : Job :=
  {| ID := id; Partition := ""; ImageArtifactURI := "https://example.com/image";
     Config := {| Cmd := ["/bin/start"]; Entrypoint := []; Env := ∅;
                  Ports := ports; Mounts := []; Volumes := [];
                  WorkingDir := ""; Uid := 0; TTY := false; Stdin := false;
                  DisableLog := false; HostNetwork := false |};
     MemoryLimit := None; CPULimit := None |}.

Definition container_of (j : Job) (ip : IP) : Container :=
  {| RootPath := "/var/lib/flynn/rootfs/" +:+ ID j; cDomain := None;
     cIP := Some ip; job := j; done := false |}.

Definition image0 : dockerImageConfig :=
  {| imgUser := ""; imgCmd := []; imgEntrypoint := ["/runner/init"];
     imgWorkingDir := "/app" |}.

(** Every call succeeds and every container exits with status 0 when it is
    signalled; [sig] answers [Signal]. *)
Definition world_with (sig : nat -> string -> Z -> option error)
    (pull : nat -> string -> res string) : World :=
  {| RequestIP := fun _ _ hint => Val (default 2%N hint);
     uri_in_discoverd := fun _ => Val false;
     resolve_uri := fun _ uri => Val uri;
     PullDocker := pull;
     readDockerImageConfig := fun _ _ => Val image0;
     Checkout := fun _ id _ => Val ("/var/lib/flynn/rootfs/" +:+ id);
     bindMount_res := fun _ _ _ => BindOk;
     MkdirAll := fun _ _ => None;
     writeHostname := fun _ _ _ => None;
     GetVolume := fun _ _ => None;
     writeFile := fun _ _ => None;
     DomainDefineXML := fun _ _ => None;
     DomainCreate := fun _ _ => None;
     GetUUIDString := fun _ _ => Val "5ca1ab1e";
     GetXMLDesc := fun _ id =>
       Val {| dName := id; dMemory := (1, "GiB"); dCPUShares := None;
              dRootDir := "/var/lib/flynn/rootfs/" +:+ id;
              dPartition := "/machine/user"; dInterfaces := ["flynnbr0"] |};
     Signal_res := sig;
     watch_ends := fun _ _ => Some (EndExited 0) |}.

Definition calm : World :=
  world_with (fun _ _ _ => None) (fun _ _ => Val "image-1").

(** The init of every container refuses the signal, each with its own
    message. *)
Definition deaf : World :=
  world_with (fun _ id _ => Some ("signal failed: " +:+ id))
             (fun _ _ => Val "image-1").

(** The image cannot be pulled. *)
Definition no_image : World :=
  world_with (fun _ _ _ => None) (fun _ _ => Fail "image not found").

Definition jobA : Job := job_with "host-a" [].
Definition jobB : Job := job_with "host-b" [].

(** A host that runs [jobA] and [jobB]. *)
Definition two_running : Backend :=
  host {[ "host-a" := active StatusRunning; "host-b" := active StatusRunning ]}
       {[ "host-a" := container_of jobA 2%N; "host-b" := container_of jobB 3%N ]}.

(** A host whose job [host-a] is done and whose watcher has gone. *)
Definition one_done : Backend := host {[ "host-a" := active StatusDone ]} ∅.

(** A host that is to run a job with the ports tcp 0 and udp 0. *)
Definition two_ports : Job :=
  job_with "host-web" [ {| Proto := "tcp"; PortNum := 0 |};
                        {| Proto := "udp"; PortNum := 0 |} ].

Definition fresh_host : Backend := host {[ "host-web" := active StatusStarting ]} ∅.

(** As [fresh_host], before discoverd has been configured. *)
Definition waiting_host : Backend :=
  set_discoverdConfigured Open (set_defaultEnv (fun _ => ∅) fresh_host).

(** A job with a port of a proto that is neither tcp nor udp. *)
Definition sctp_port : Job :=
  job_with "host-web" [ {| Proto := "tcp"; PortNum := 8080 |};
                        {| Proto := "sctp"; PortNum := 0 |} ].

(** libvirt refuses the domain: everything before it in [Run] succeeds. *)
Definition no_domain : World :=
  {| RequestIP := RequestIP calm;
     uri_in_discoverd := uri_in_discoverd calm;
     resolve_uri := resolve_uri calm;
     PullDocker := PullDocker calm;
     readDockerImageConfig := readDockerImageConfig calm;
     Checkout := Checkout calm;
     bindMount_res := bindMount_res calm;
     MkdirAll := MkdirAll calm;
     writeHostname := writeHostname calm;
     GetVolume := GetVolume calm;
     writeFile := writeFile calm;
     DomainDefineXML := fun _ _ => Some "libvirt: operation failed";
     DomainCreate := DomainCreate calm;
     GetUUIDString := GetUUIDString calm;
     GetXMLDesc := GetXMLDesc calm;
     Signal_res := Signal_res calm;
     watch_ends := watch_ends calm |}.

(** Every container is registered under the id of its job, which is how
    [watch] registers it. *)
Definition keyed (b : Backend) : Prop :=
  forall id c, containers b !! id = Some c -> ID (job c) = id.

(** A host whose job [host-web] was stopped before it started. *)
Definition stopped_early : Backend :=
  host {[ "host-web" :=
            {| Status := StatusStarting; ForceStop := true; ContainerID := "";
               InternalIP := None; ExitStatus := None; Error := None |} ]} ∅.

(** Every call succeeds, but no container exits when it is signalled. *)
Definition stubborn : World :=
  {| RequestIP := RequestIP calm;
     uri_in_discoverd := uri_in_discoverd calm;
     resolve_uri := resolve_uri calm;
     PullDocker := PullDocker calm;
     readDockerImageConfig := readDockerImageConfig calm;
     Checkout := Checkout calm;
     bindMount_res := bindMount_res calm;
     MkdirAll := MkdirAll calm;
     writeHostname := writeHostname calm;
     GetVolume := GetVolume calm;
     writeFile := writeFile calm;
     DomainDefineXML := DomainDefineXML calm;
     DomainCreate := DomainCreate calm;
     GetUUIDString := GetUUIDString calm;
     GetXMLDesc := GetXMLDesc calm;
     Signal_res := Signal_res calm;
     watch_ends := fun _ _ => None |}.

(** ** The watcher of a container *)

(** [containerinit.State]; [StateOther] stands for any value the [switch]
    of [watch] has no case for. *)
Inductive InitState :=
| StateInitial | StateRunning | StateExited | StateFailed | StateOther (n : nat).

(** [containerinit.StateChange]. *)
Record StateChange := {
  chState : InitState;
  chError : string;
  chExitStatus : Z;
}.

(** What the container's init and libvirt answer to one watcher. *)
Record InitAnswers := {
  (** the loop that connects to the init for up to ten seconds: [None] when
      a connection is made, else the last error *)
  connect_res : option error;
  (** [LookupDomainByName], after a failed connection *)
  lookup_domain : option error;
  (** [GetStreams] and the three conversions of [followLogs] *)
  GetStreams_res : option error;
  (** what [StreamState()] delivers before it is closed *)
  changes : list StateChange;
  (** [WaitAttach] returns: an attach request arrives *)
  attach_arrives : bool;
}.

Section Watcher.

Variable filepath_Join : string -> string -> string.

(** [followLogs]: nothing to do when the job has its streams already. *)
Definition followLogs (ans : InitAnswers) (c : Container) (b : Backend)
  : option error * Backend :=
  if bool_decide (ID (job c) ∈ logStreams b) then (None, b)
  else
    match GetStreams_res ans with
    | Some e => (Some e, b)
    | None => (None, set_logStreams (fun s => {[ID (job c)]} ∪ s) b)
    end.

(** [c.Stop()] called by the watcher itself.  Its [WaitStop] cannot see
    [done] closed, which only the watcher's deferred function does: unless
    the job is done or failed already, the wait times out and the SIGKILL
    follows.  [watch] drops the result. *)
Definition Stop_in_watch (W : World) (c : Container) (b : Backend) : outcome Backend :=
  let '(e1, b1) := container_Signal W c SIGTERM b in
  match e1 with
  | Some _ => Done b1
  | None =>
      match GetJob (ID (job c)) b1 with
      | None => Panics "invalid memory address or nil pointer dereference"
      | Some j =>
          if bool_decide (Status j = StatusDone) || bool_decide (Status j = StatusFailed)
          then Done b1
          else Done (container_Signal W c SIGKILL (bump b1)).2
      end
  end.

(** [for change := range c.Client.StreamState()], and what follows it. *)
Fixpoint watch_loop (W : World) (ans : InitAnswers) (c : Container)
    (chs : list StateChange) (b : Backend) : outcome (option error * Backend) :=
  let id := ID (job c) in
  match chs with
  | [] => Done (None, SetStatusFailed id "unknown failure" b)
  | ch :: rest =>
      if negb (String.eqb (chError ch) "")
      then Done (Some (chError ch), SetStatusFailed id (chError ch) b)
      else
        match chState ch with
        | StateInitial =>
            if attach_arrives ans then watch_loop W ans c rest b else Blocks
        | StateRunning =>
            let b1 := SetStatusRunning id b in
            match GetJob id b1 with
            | None => Panics "invalid memory address or nil pointer dereference"
            | Some j =>
                if ForceStop j
                then b2 ← Stop_in_watch W c b1; watch_loop W ans c rest b2
                else watch_loop W ans c rest b1
            end
        | StateExited => Done (None, SetStatusDone id (chExitStatus ch) b)
        | StateFailed =>
            Done (None, SetStatusFailed id "container failed to start" b)
        | StateOther _ => watch_loop W ans c rest b
        end
  end.

(** The deferred function of [watch], [waitExit] apart (it only waits): the
    container leaves the map, [cleanup] runs, and [done] is closed. *)
Definition watch_deferred (c : Container) (b : Backend) : Backend :=
  cleanup filepath_Join c (set_containers (delete (ID (job c))) b).

(** [watch(nil, buffer)], as [Run] starts it.  It returns its error,
    whether it has started the goroutine that cleans the mounts up, and
    the backend as its deferred function leaves it. *)
Definition watch (W : World) (ans : InitAnswers) (c : Container) (b : Backend)
  : outcome (option error * bool * Backend) :=
  let id := ID (job c) in
  match connect_res ans with
  | Some e =>
      let b1 := SetStatusFailed id "failed to connect to container" b in
      match lookup_domain ans with
      | Some e' => Done (Some e', false, watch_deferred c b1)
      | None => Done (Some e, false, watch_deferred c b1)
      end
  | None =>
      let b1 := set_containers (fun m => <[id := c]> m) b in
      let '(e2, b2) :=
        if negb (DisableLog (Config (job c))) && negb (TTY (Config (job c)))
        then followLogs ans c b1 else (None, b1) in
      match e2 with
      | Some e => Done (Some e, true, watch_deferred c b2)
      | None =>
          r ← watch_loop W ans c (changes ans) b2;
          Done (r.1, true, watch_deferred c r.2)
      end
  end.

(** ** Calls by job id *)

Definition JobExists (id : string) (b : Backend) : bool :=
  bool_decide (is_Some (containers b !! id)).

(** [Signal(id, sig)]. *)
Definition Signal (W : World) (id : string) (sig : Z) (b : Backend)
  : option error * Backend :=
  match getContainer id b with
  | Fail e => (Some e, b)
  | Val c => container_Signal W c sig b
  end.

(** [ResizeTTY(id, height, width)]; [pty] answers [GetPtyMaster] and
    [SetWinsize] for a job id. *)
Definition ResizeTTY (pty : string -> option error) (id : string) (b : Backend)
  : option error :=
  match getContainer id b with
  | Fail e => Some e
  | Val c =>
      if negb (TTY (Config (job c))) then Some "job doesn't have a TTY"
      else pty (ID (job c))
  end.

End Watcher.

(** The init of a container that starts and exits with status 0. *)
Definition exits_cleanly : InitAnswers :=
  {| connect_res := None; lookup_domain := None; GetStreams_res := None;
     changes := [ {| chState := StateInitial; chError := ""; chExitStatus := 0 |};
                  {| chState := StateRunning; chError := ""; chExitStatus := 0 |};
                  {| chState := StateExited; chError := ""; chExitStatus := 0 |} ];
     attach_arrives := true |}.

(** The same init when its streams cannot be had. *)
Definition no_streams : InitAnswers :=
  {| connect_res := None; lookup_domain := None;
     GetStreams_res := Some "rpc: can't find method";
     changes := changes exits_cleanly; attach_arrives := true |}.

(** A host where the job [host-a] has been started by [Run] and is about
    to be watched. *)
Definition about_to_watch : Backend :=
  set_ipalloc (fun s => {[2%N]} ∪ s) (host {[ "host-a" := active StatusStarting ]} ∅).

(** The same host when the job was stopped before its container was
    running. *)
Definition stop_requested : Backend :=
  set_ipalloc (fun s => {[2%N]} ∪ s)
    (host {[ "host-a" :=
               {| Status := StatusStarting; ForceStop := true; ContainerID := "";
                  InternalIP := None; ExitStatus := None; Error := None |} ]} ∅).

(** A host that runs [jobB] while [jobA] is about to be watched. *)
Definition watching_two : Backend :=
  set_ipalloc (fun s => {[2%N; 3%N]} ∪ s)
    (host {[ "host-a" := active StatusStarting; "host-b" := active StatusRunning ]}
          {[ "host-b" := container_of jobB 3%N ]}).

(** ** Log streams across a restart of the daemon *)

(** [CloseLogs]: every stream is closed and forgotten.  The buffers are
    returned under the ids of their jobs; what they hold belongs to
    logmux. *)
Definition CloseLogs (b : Backend) : gset string * Backend :=
  (logStreams b, set_logStreams (fun _ => ∅) b).

(** The loop of [OpenLogs] over the containers in the order of one run;
    [anss] gives the init's answers by job id. *)
Fixpoint open_each (anss : string -> InitAnswers) (cs : list Container) (b : Backend)
  : option error * Backend :=
  match cs with
  | [] => (None, b)
  | c :: rest =>
      let '(e, b1) := followLogs (anss (ID (job c))) c b in
      match e with
      | Some e => (Some e, b1)
      | None => open_each anss rest b1
      end
  end.

(** [OpenLogs]; [sched] is the order in which [range] visits the map. *)
Definition OpenLogs (anss : string -> InitAnswers)
    (sched : list Container -> list Container) (b : Backend)
  : option error * Backend :=
  open_each anss (sched (map snd (map_to_list (containers b)))) b.

(** ** [ConfigureNetworking] *)

(** What the call changes outside the backend, as it happens: the bridge
    and its addresses, the libvirt networks, files, and the [Resolvers]
    of the caller's config. *)
Inductive NetOp :=
| OpCreateBridge
| OpSetMac
| OpDelIp (ip : IP) (net : string)
| OpAddIp (ip : IP) (net : string)
| OpLinkUp
| OpDefineNetwork
| OpCreateNetwork
| OpDestroyDefault
| OpWriteFile (path text : string)
| OpEnableNAT (net : string)
| OpResolvers (servers : list string)
| OpMkdirAll (path : string).

#[global] Instance NetOp_eq_dec : EqDecision NetOp.
Proof. solve_decision. Defined.

(** [netlink.CreateBridge]: done, refused because the bridge exists
    ([os.IsExist]), or failed. *)
Inductive BridgeCreate :=
| BridgeCreated
| BridgeExisted
| BridgeFailed (e : error).

(** The answers of the host to one call of [ConfigureNetworking]. *)
Record NetAnswers := {
  (** [net.ParseCIDR]: the address, and the network as [String()] prints it *)
  ParseCIDR : string -> res (IP * string);
  CreateBridge : BridgeCreate;
  InterfaceByName : option error;
  NetworkSetMacAddress : option error;
  (** [bridge.Addrs()], each address parsed *)
  Addrs : res (list (IP * string));
  NetworkLinkDelIp : IP -> string -> option error;
  NetworkLinkAddIp : option error;
  NetworkLinkUp : option error;
  (** [LookupNetworkByName(l.bridgeName)] finds the network *)
  LookupNetworkByName : bool;
  NetworkDefineXML : option error;
  IsActive : res bool;
  NetworkCreate : option error;
  (** [LookupNetworkByName("default")] finds one *)
  default_network : bool;
  write_ip_forward : option error;
  EnableOutboundNAT : option error;
  (** [dns.ClientConfigFromFile]: [Servers] and [Search] *)
  ClientConfigFromFile : res (list string * list string);
  MkdirAll_etc_flynn : option error;
  write_resolv_conf : option error;
}.

Definition set_settings (f : Settings -> Settings) (b : Backend) :=
  let 'Build_Backend a1 a2 a3 a4 a5 a6 a7 a8 a9 a10 a11 a12 a13 a14 := b in
  Build_Backend (f a1) a2 a3 a4 a5 a6 a7 a8 a9 a10 a11 a12 a13 a14.
Definition set_networkConfigured (x : Chan) (b : Backend) :=
  let 'Build_Backend a1 a2 a3 a4 a5 a6 a7 a8 a9 a10 a11 a12 a13 a14 := b in
  Build_Backend a1 a2 a3 a4 a5 a6 a7 x a9 a10 a11 a12 a13 a14.

Definition with_bridge (addr : string) (net : option string) (s : Settings) : Settings :=
  {| InitPath := InitPath s; resolvConf := resolvConf s; bridgeName := bridgeName s;
     bridgeAddr := addr; bridgeNet := net; partitionCGroups := partitionCGroups s |}.
Definition with_resolvConf (path : string) (s : Settings) : Settings :=
  {| InitPath := InitPath s; resolvConf := path; bridgeName := bridgeName s;
     bridgeAddr := bridgeAddr s; bridgeNet := bridgeNet s;
     partitionCGroups := partitionCGroups s |}.

(** The body of [ConfigureNetworking] runs on the backend and on the record
    of what it has changed so far; a step returns a value or an error,
    which ends the call. *)
Definition net (A : Type) : Type :=
  Backend * list NetOp -> res A * (Backend * list NetOp).

Definition net_ret {A} (a : A) : net A := fun s => (Val a, s).

Definition net_bind {A B} (m : net A) (f : A -> net B) : net B := fun s =>
  match m s with
  | (Val a, s') => f a s'
  | (Fail e, s') => (Fail e, s')
  end.

Declare Scope net_scope.
Delimit Scope net_scope with net.
Bind Scope net_scope with net.
Notation "x ← y ; z" := (net_bind y (fun x => z))
  (at level 20, y at level 100, z at level 200, only parsing) : net_scope.
Notation "x ;; z" := (net_bind x (fun _ => z))
  (at level 100, z at level 200, only parsing, right associativity) : net_scope.

(** A call that answers only. *)
Definition asks {A} (r : res A) : net A := fun s => (r, s).

Definition checks (r : option error) : net unit :=
  asks (match r with Some e => Fail e | None => Val tt end).

(** A call that changes the host when it succeeds. *)
Definition does (r : option error) (op : NetOp) : net unit := fun s =>
  match r with
  | Some e => (Fail e, s)
  | None => (Val tt, (s.1, s.2 ++ [op]))
  end.

Definition on_host (f : Backend -> Backend) : net unit :=
  fun s => (Val tt, (f s.1, s.2)).

Definition newline : string := String (Ascii.ascii_of_nat 10) "".

(** The loop over the addresses the bridge has: every address but the
    one wanted is deleted; [setIP] tells whether the wanted one is still
    to be added. *)
Fixpoint bridge_addrs (A : NetAnswers) (addr : IP) (netw : string)
    (addrs : list (IP * string)) (setIP : bool) : net bool :=
  match addrs with
  | [] => net_ret setIP
  | (ip, n) :: rest =>
      if bool_decide (ip = addr) && bool_decide (n = netw)
      then bridge_addrs A addr netw rest false
      else (does (NetworkLinkDelIp A ip n) (OpDelIp ip n);;
            bridge_addrs A addr netw rest setIP)%net
  end.

(** The loop that asks again for the address of every running container
    that is not on the host network.  A refusal is logged only, and the
    container is left with the nil address that came with the error. *)
Fixpoint request_each (W : World) (ids : list string) (b : Backend) : Backend :=
  match ids with
  | [] => b
  | id :: rest =>
      match containers b !! id with
      | None => request_each W rest b
      | Some c =>
          if HostNetwork (Config (job c)) then request_each W rest b
          else
            let b1 :=
              match RequestIP W (tick b) (ipalloc b) (cIP c) with
              | Val ip =>
                  set_containers (fun m => <[id := with_IP (Some ip) c]> m)
                    (set_ipalloc (fun s => {[ip]} ∪ s) b)
              | Fail _ => set_containers (fun m => <[id := with_IP None c]> m) b
              end in
            request_each W rest (bump b1)
      end
  end.

Section Networking.

Variable IP_String : IP -> string.

(** The text of [/etc/flynn/resolv.conf]. *)
Definition resolv_conf_text (search : list string) (addr : IP) : string :=
  (match search with
   | [] => ""
   | _ => "search " +:+ String.concat " " search +:+ newline
   end) +:+ "nameserver " +:+ IP_String addr +:+ newline.

(** [ConfigureNetworking] after the subnet is parsed. *)
Definition configure_bridge (W : World) (A : NetAnswers)
    (sched : list string -> list string) (addr : IP) (netw : string)
  : net unit :=
  (on_host (fun b =>
     match RequestIP W (tick b) (ipalloc b) (Some addr) with
     | Val ip => bump (set_ipalloc (fun s => {[ip]} ∪ s) b)
     | Fail _ => bump b
     end);;
   bridgeExists ← (match CreateBridge A with
                   | BridgeCreated => does None OpCreateBridge;; net_ret false
                   | BridgeExisted => net_ret true
                   | BridgeFailed e => asks (Fail e)
                   end);
   checks (InterfaceByName A);;
   (if negb bridgeExists then does (NetworkSetMacAddress A) OpSetMac
    else net_ret tt);;
   currAddrs ← asks (Addrs A);
   setIP ← bridge_addrs A addr netw currAddrs true;
   (if setIP then does (NetworkLinkAddIp A) (OpAddIp addr netw) else net_ret tt);;
   does (NetworkLinkUp A) OpLinkUp;;
   (if LookupNetworkByName A then net_ret tt
    else does (NetworkDefineXML A) OpDefineNetwork);;
   active ← asks (IsActive A);
   (if negb active then does (NetworkCreate A) OpCreateNetwork else net_ret tt);;
   (if default_network A then does None OpDestroyDefault else net_ret tt);;
   does (write_ip_forward A)
        (OpWriteFile "/proc/sys/net/ipv4/ip_forward" ("1" +:+ newline));;
   does (EnableOutboundNAT A) (OpEnableNAT netw);;
   dnsConf ← asks (ClientConfigFromFile A);
   does None (OpResolvers dnsConf.1);;
   does (MkdirAll_etc_flynn A) (OpMkdirAll "/etc/flynn");;
   does (write_resolv_conf A)
        (OpWriteFile "/etc/flynn/resolv.conf" (resolv_conf_text dnsConf.2 addr));;
   on_host (set_settings (with_resolvConf "/etc/flynn/resolv.conf"));;
   on_host (fun b => request_each W (sched (map fst (map_to_list (containers b)))) b)
  )%net.

(** [ConfigureNetworking(config)] with [config.Subnet]; [sched] is the
    order in which [range] visits the containers.  The results of
    [net.ParseCIDR] are stored whether it fails or not, and
    [close(l.networkConfigured)] panics on a closed channel. *)
Definition ConfigureNetworking (W : World) (A : NetAnswers)
    (sched : list string -> list string) (Subnet : string) (b : Backend)
  : outcome (option error * list NetOp * Backend) :=
  match ParseCIDR A Subnet with
  | Fail e => Done (Some e, [], set_settings (with_bridge "<nil>" None) b)
  | Val (addr, netw) =>
      let b1 := set_settings (with_bridge (IP_String addr) (Some netw)) b in
      match configure_bridge W A sched addr netw (b1, []) with
      | (Fail e, (b2, ops)) => Done (Some e, ops, b2)
      | (Val _, (b2, ops)) =>
          match networkConfigured b2 with
          | Open => Done (None, ops, set_networkConfigured Closed b2)
          | Closed => Panics "close of closed channel"
          end
      end
  end.

End Networking.

(** ** Predicates on a call of [ConfigureNetworking] *)

(** A step keeps [I] on the backend, whether it succeeds or not. *)
Definition net_keeps {A} (I : Backend -> Prop) (m : net A) : Prop :=
  forall s, I s.1 -> I (m s).2.1.

(** Two steps end alike, with the same value or the same error, whatever
    the backends they run on. *)
Definition net_same {A} (m m' : net A) : Prop :=
  forall s s', (m s).1 = (m' s').1.

(** What of [b0] is still so in [b]: all but the pool of addresses, which
    may have grown, the addresses of the registered containers, the path
    of the resolv.conf, and the count of calls. *)
Definition net_frame (b0 b : Backend) : Prop :=
  jobs b = jobs b0 /\ stateMtx b = stateMtx b0 /\ logStreams b = logStreams b0 /\
  defaultEnv b = defaultEnv b0 /\ discoverdConfigured b = discoverdConfigured b0 /\
  networkConfigured b = networkConfigured b0 /\ mtab b = mtab b0 /\
  files b = files b0 /\ goroutines b = goroutines b0 /\ signals b = signals b0 /\
  with_resolvConf "" (settings b) = with_resolvConf "" (settings b0) /\
  ipalloc b0 ⊆ ipalloc b /\
  (forall id, option_map (with_IP None) (containers b !! id)
              = option_map (with_IP None) (containers b0 !! id)).

(** The answers of a host on which every call succeeds: the bridge is
    new and has one address of its own making. *)
Definition net_calm : NetAnswers :=
  {| ParseCIDR := fun _ => Val (1%N, "100.100.0.0/24");
     CreateBridge := BridgeCreated;
     InterfaceByName := None; NetworkSetMacAddress := None;
     Addrs := Val [(9%N, "fe80::/64")];
     NetworkLinkDelIp := fun _ _ => None;
     NetworkLinkAddIp := None; NetworkLinkUp := None;
     LookupNetworkByName := false; NetworkDefineXML := None;
     IsActive := Val false; NetworkCreate := None; default_network := true;
     write_ip_forward := None; EnableOutboundNAT := None;
     ClientConfigFromFile := Val (["8.8.8.8"], ["example.com"; "lan"]);
     MkdirAll_etc_flynn := None; write_resolv_conf := None |}.

(** The same host when the bridge cannot be made. *)
Definition net_no_bridge : NetAnswers :=
  {| ParseCIDR := ParseCIDR net_calm;
     CreateBridge := BridgeFailed "operation not permitted";
     InterfaceByName := None; NetworkSetMacAddress := None;
     Addrs := Addrs net_calm;
     NetworkLinkDelIp := fun _ _ => None;
     NetworkLinkAddIp := None; NetworkLinkUp := None;
     LookupNetworkByName := false; NetworkDefineXML := None;
     IsActive := Val false; NetworkCreate := None; default_network := true;
     write_ip_forward := None; EnableOutboundNAT := None;
     ClientConfigFromFile := ClientConfigFromFile net_calm;
     MkdirAll_etc_flynn := None; write_resolv_conf := None |}.

(** A host at its start: no network yet, nothing running, and the job
    [host-web] to run. *)
Definition unconfigured : Backend :=
  set_networkConfigured Open
    (set_settings (with_bridge "<nil>" None) (set_ipalloc (fun _ => ∅) fresh_host)).

(** A job that keeps its output off the log. *)
Definition jobQuiet : Job :=
  {| ID := "host-q"; Partition := ""; ImageArtifactURI := "https://example.com/image";
     Config := {| Cmd := ["/bin/start"]; Entrypoint := []; Env := ∅;
                  Ports := []; Mounts := []; Volumes := [];
                  WorkingDir := ""; Uid := 0; TTY := false; Stdin := false;
                  DisableLog := true; HostNetwork := false |};
     MemoryLimit := None; CPULimit := None |}.

(** A host that runs [jobA], whose output is followed, and [jobQuiet]. *)
Definition one_quiet : Backend :=
  set_logStreams (fun _ => {[ "host-a" ]})
    (host {[ "host-a" := active StatusRunning; "host-q" := active StatusRunning ]}
          {[ "host-a" := container_of jobA 2%N; "host-q" := container_of jobQuiet 3%N ]}).

(** ** [Attach] *)

(** [io.EOF]. *)
Definition EOF : error := "EOF".

(** The three writers of an [AttachRequest]. *)
Inductive Sink := SinkStdout | SinkStderr | SinkInitLog.

#[global] Instance Sink_eq_dec : EqDecision Sink.
Proof. solve_decision. Defined.

(** [AttachRequest]: the job, the flags, and which of the channel, the
    reader and the writers are not nil. *)
Record AttachRequest := {
  aJob : Job;
  aLogs : bool;
  aStream : bool;
  aAttached : bool;
  aStdin : bool;
  aStdout : bool;
  aStderr : bool;
  aInitLog : bool;
}.

(** [rfc5424.Message]: the fields [Attach] reads. *)
Record LogMessage := {
  MsgID : string;
  Msg : string;
}.

(** What [Attach] does for its caller, as it happens. *)
Inductive AttachEvent :=
| EvAttached
| EvResize
| EvCopyIn (background : bool)
| EvCopyOut
| EvClosePty
| EvStdinPipe
| EvCopyStream (from : Sink) (discard : bool)
| EvWrite (to : Sink) (text : string)
| EvCloseStream.

(** The answers to one call of [Attach].  The copies between the caller
    and the container are taken to end. *)
Record AttachAnswers := {
  GetPtyMaster : option error;
  SetWinsize : option error;
  GetStdin : option error;
  attach_GetStreams : option error;
  (** [mux.StreamLog]: an error, or the messages the channel delivers
      before it is closed *)
  StreamLog : res (list LogMessage);
  (** the write of the message at this place in the channel fails *)
  write_fails : nat -> bool;
  (** the host when the watcher of the container has closed [done]; [None]
      when it never does *)
  at_done : option Backend;
}.

Definition nil_dereference : string :=
  "invalid memory address or nil pointer dereference".

(** [req.Attached <- struct{}{}], when there is a channel. *)
Definition signal_attached (req : AttachRequest) (evs : list AttachEvent)
  : list AttachEvent :=
  if aAttached req then evs ++ [EvAttached] else evs.

(** The [switch] on the message id, and the writer it selects when that
    is not nil. *)
Definition sink_of (req : AttachRequest) (m : LogMessage) : option Sink :=
  if String.eqb (MsgID m) "ID1" then (if aStdout req then Some SinkStdout else None)
  else if String.eqb (MsgID m) "ID2" then (if aStderr req then Some SinkStderr else None)
  else if String.eqb (MsgID m) "ID3" then (if aInitLog req then Some SinkInitLog else None)
  else None.

(** [for msg := range ch]: a failed write ends [Attach] with nil. *)
Fixpoint route (req : AttachRequest) (ans : AttachAnswers) (i : nat)
    (msgs : list LogMessage) (evs : list AttachEvent)
  : option error * list AttachEvent :=
  match msgs with
  | [] => (Some EOF, evs)
  | m :: rest =>
      match sink_of req m with
      | None => route req ans (S i) rest evs
      | Some w =>
          if write_fails ans i then (None, evs)
          else route req ans (S i) rest (evs ++ [EvWrite w (Msg m +:+ newline)])
      end
  end.

Section Attaching.

(** [host.ErrJobNotRunning], and [ExitError(status)] as an error; both
    belong to other files of the host package. *)
Variable ErrJobNotRunning : error.
Variable ExitError : Z -> error.

(** [Attach] after its first check and before its deferred function. *)
Definition Attach_body (req : AttachRequest) (ans : AttachAnswers)
    (client : option Container) : outcome (option error * list AttachEvent) :=
  let cfg := Config (aJob req) in
  if TTY cfg then
    match client with
    | None => Panics nil_dereference
    | Some _ =>
        match GetPtyMaster ans with
        | Some e => Done (Some e, [])
        | None =>
            match SetWinsize ans with
            | Some e => Done (Some e, [])
            | None =>
                let evs1 := signal_attached req [EvResize] in
                let evs2 := if aStdin req && aStdout req then evs1 ++ [EvCopyIn true]
                            else if aStdin req then evs1 ++ [EvCopyIn false]
                            else evs1 in
                let evs3 := if aStdout req then evs2 ++ [EvCopyOut] else evs2 in
                Done (Some EOF, evs3 ++ [EvClosePty])
            end
        end
    end
  else
    r ← (if aStdin req then
           match client with
           | None => Panics nil_dereference
           | Some _ =>
               match GetStdin ans with
               | Some e => Done (Fail e)
               | None => Done (Val [EvStdinPipe])
               end
           end
         else Done (Val []));
    match r with
    | Fail e => Done (Some e, [])
    | Val evs =>
        if DisableLog cfg then
          match client with
          | None => Panics nil_dereference
          | Some _ =>
              match attach_GetStreams ans with
              | Some e => Done (Some e, evs)
              | None =>
                  Done (Some EOF,
                        signal_attached req evs
                          ++ [EvCopyStream SinkInitLog (negb (aInitLog req));
                              EvCopyStream SinkStdout (negb (aStdout req));
                              EvCopyStream SinkStderr (negb (aStderr req))])
              end
          end
        else
          let evs1 := signal_attached req evs in
          match StreamLog ans with
          | Fail e => Done (Some e, evs1)
          | Val msgs =>
              let '(e, evs2) := route req ans 0 msgs evs1 in
              Done (e, evs2 ++ [EvCloseStream])
          end
    end.

(** The deferred function of [Attach]: with a container, and a TTY or a
    streaming request, an [io.EOF] is replaced, once the watcher has
    closed [done], by the exit status or the error of the job. *)
Definition Attach_deferred (req : AttachRequest) (ans : AttachAnswers)
    (client : option Container) (err : option error) : outcome (option error) :=
  match client with
  | None => Done err
  | Some _ =>
      if (TTY (Config (aJob req)) || aStream req) && bool_decide (err = Some EOF)
      then
        match at_done ans with
        | None => Blocks
        | Some b' =>
            match GetJob (ID (aJob req)) b' with
            | None => Panics nil_dereference
            | Some job =>
                if bool_decide (Status job = StatusDone)
                   || bool_decide (Status job = StatusCrashed)
                then match ExitStatus job with
                     | Some n => Done (Some (ExitError n))
                     | None => Panics nil_dereference
                     end
                else match Error job with
                     | Some e => Done (Some e)
                     | None => Panics nil_dereference
                     end
            end
        end
      else Done err
  end.

(** [Attach(req)]. *)
Definition Attach (req : AttachRequest) (ans : AttachAnswers) (b : Backend)
  : outcome (option error * list AttachEvent) :=
  let cfg := Config (aJob req) in
  let client := containers b !! ID (aJob req) in
  let first_check : option (option error * list AttachEvent) :=
    match client with
    | Some _ => None
    | None =>
        if TTY cfg || aStdin req then Some (Some ErrJobNotRunning, [])
        else if DisableLog cfg then Some (Some EOF, signal_attached req [])
        else None
    end in
  match first_check with
  | Some r => Done r
  | None =>
      r ← Attach_body req ans client;
      e ← Attach_deferred req ans client r.1;
      Done (e, r.2)
  end.

End Attaching.

(** The writes among the events of an [Attach]. *)
Definition writes (evs : list AttachEvent) : list (Sink * string) :=
  omap (fun ev => match ev with EvWrite w t => Some (w, t) | _ => None end) evs.

(** What the messages of a log amount to for a request. *)
Definition routed (req : AttachRequest) (msgs : list LogMessage)
  : list (Sink * string) :=
  omap (fun m => w ← sink_of req m; Some (w, Msg m +:+ newline)) msgs.

(** A request for the stored log of [jobA] on its standard output. *)
Definition log_request : AttachRequest :=
  {| aJob := jobA; aLogs := true; aStream := false; aAttached := true;
     aStdin := false; aStdout := true; aStderr := false; aInitLog := false |}.

(** A log of three messages: one for each output and one of the init. *)
Definition three_messages : AttachAnswers :=
  {| GetPtyMaster := None; SetWinsize := None; GetStdin := None;
     attach_GetStreams := None;
     StreamLog := Val [ {| MsgID := "ID1"; Msg := "listening" |};
                        {| MsgID := "ID2"; Msg := "warning" |};
                        {| MsgID := "ID1"; Msg := "ready" |} ];
     write_fails := fun _ => false;
     at_done := None |}.

(** The same request, streaming. *)
Definition stream_request : AttachRequest :=
  {| aJob := jobA; aLogs := true; aStream := true; aAttached := true;
     aStdin := false; aStdout := true; aStderr := false; aInitLog := false |}.

(** The host once [jobA] has exited with status 0 and its watcher has
    gone. *)
Definition exited_host : Backend :=
  host {[ "host-a" := {| Status := StatusDone; ForceStop := false; ContainerID := "";
                         InternalIP := None; ExitStatus := Some 0; Error := None |} ]} ∅.

(** The log of three messages, followed to the end of the job. *)
Definition to_the_end : AttachAnswers :=
  {| GetPtyMaster := None; SetWinsize := None; GetStdin := None;
     attach_GetStreams := None;
     StreamLog := StreamLog three_messages;
     write_fails := fun _ => false;
     at_done := Some exited_host |}.

Definition exit_status (n : Z) : error := "exit status " +:+ Itoa n.

End Backend.

(** * Properties of the process supervisor *)
Module MongoProps.
Import Mongo.

Section Supervisor.

Variable Equal : Config -> Config -> bool.
Variable IsNewDownstream : option Config -> option Config -> bool.

Abbreviation Start := (Start Equal IsNewDownstream).
Abbreviation Reconfigure := (Reconfigure Equal IsNewDownstream).
Abbreviation reconfigure := (reconfigure Equal IsNewDownstream).

(** C9.  [Start] refuses to run, with an error and without touching the
    process, when the daemon is already running, when no configuration has
    been stored, or when the stored role is [none]; [Stop] refuses, in the
    same way, when the daemon is already stopped. *)
Theorem start_stop_refused (env : Env) (p : Process) :
  (running p = true ->
     Start env p = Done (Some "process already running", p)) /\
  (running p = false -> config p = None ->
     Start env p = Done (Some "unconfigured process", p)) /\
  (running p = false -> forall c, config p = Some c -> cRole c = RoleNone ->
     Start env p = Done (Some "start attempted with role 'none'", p)) /\
  (running p = false ->
     Stop env p = Done (Some "process already stopped", p)).
Proof.
  unfold Mongo.Start, Stop.
  repeat split.
  - intros ->. reflexivity.
  - intros -> ->. reflexivity.
  - intros -> c -> Hc. rewrite bool_decide_eq_true_2; done.
  - intros ->. reflexivity.
Qed.

(** *** The polling loop of [waitForUpstream] *)

Lemma upstream_ready_iff (s : DatabaseInfo + error) :
  upstream_ready s = true <->
  exists st, s = inl st /\ dbRunning st = true /\ dbXLog st <> "" /\
             dbUserExists st = true.
Proof.
  unfold upstream_ready. split.
  - destruct s as [st|e]; [|discriminate].
    intros H. apply andb_true_iff in H as [H12 H3].
    apply andb_true_iff in H12 as [H1 H2].
    apply negb_true_iff, String.eqb_neq in H2. eauto.
  - intros (st & -> & H1 & H2 & H3).
    rewrite H1, H3. apply String.eqb_neq in H2. rewrite H2. reflexivity.
Qed.

Lemma select_timer_after deadline nextTick now pick t :
  select_timer_ticker deadline nextTick now pick = (SelTimer, t) ->
  deadline <= t.
Proof.
  unfold select_timer_ticker.
  destruct (Z.leb_spec deadline now), (Z.leb_spec nextTick now); simpl;
    destruct (Z.ltb_spec deadline nextTick), (Z.ltb_spec nextTick deadline);
    intros Heq; inversion Heq; subst; lia.
Qed.

Lemma select_ticker_after deadline nextTick now pick t :
  select_timer_ticker deadline nextTick now pick = (SelTicker, t) ->
  nextTick <= t /\ now <= t /\ (t = now \/ t = nextTick).
Proof.
  unfold select_timer_ticker.
  destruct (Z.leb_spec deadline now), (Z.leb_spec nextTick now); simpl;
    destruct (Z.ltb_spec deadline nextTick), (Z.ltb_spec nextTick deadline);
    intros Heq; inversion Heq; subst; lia.
Qed.

(** The loop returns nil only on a poll that found the upstream ready. *)
Lemma waitForUpstream_loop_nil polls : forall deadline nextTick now t,
  waitForUpstream_loop deadline nextTick now polls = Done (None, t) ->
  exists q, q ∈ polls /\ upstream_ready (upStatus q) = true.
Proof.
  induction polls as [|q rest IH]; intros deadline nextTick now t; simpl.
  - discriminate.
  - destruct (upstream_ready (upStatus q)) eqn:Hq.
    + intros _. exists q. split; [left|exact Hq].
    + destruct (select_timer_ticker _ _ _ _) as [[] t'] eqn:Hs.
      * discriminate.
      * intros H. destruct (IH _ _ _ _ H) as (q' & Hin & Hr).
        exists q'. split; [right; exact Hin|exact Hr].
Qed.

(** While the upstream is not ready the loop can only end with the error,
    and not before the timer's deadline. *)
Lemma waitForUpstream_loop_offline polls : forall deadline nextTick now e t,
  Forall (fun q => upstream_ready (upStatus q) = false) polls ->
  waitForUpstream_loop deadline nextTick now polls = Done (e, t) ->
  e = Some "upstream is offline" /\ deadline <= t.
Proof.
  induction polls as [|q rest IH]; intros deadline nextTick now e t Hall; simpl.
  - discriminate.
  - inversion Hall as [|? ? Hq Hrest]; subst. rewrite Hq.
    destruct (select_timer_ticker _ _ _ _) as [[] t'] eqn:Hs.
    + intros H; inversion H; subst. split; [reflexivity|].
      eapply select_timer_after; eauto.
    + intros H. eapply IH; eauto.
Qed.

(** When [select] takes the timer once it has fired, eleven polls are
    enough for the loop to give up. *)
Lemma waitForUpstream_loop_gives_up (n : nat) : forall polls nextTick now,
  Forall (fun q => upstream_ready (upStatus q) = false /\ 0 <= upDur q /\
                   upPick q = SelTimer) polls ->
  (n < length polls)%nat ->
  1000 * (10 - Z.of_nat n) <= now ->
  1000 * (11 - Z.of_nat n) <= nextTick ->
  exists t,
    waitForUpstream_loop upstreamTimeout nextTick now polls
      = Done (Some "upstream is offline", t).
Proof.
  unfold upstreamTimeout.
  induction n as [|n IH]; intros polls nextTick now Hall Hlen Hnow Htick;
    (destruct polls as [|q rest]; [simpl in Hlen; lia|]);
    inversion Hall as [|? ? (Hq & Hd & Hp) Hrest]; subst;
    simpl; rewrite Hq.
  - unfold select_timer_ticker. rewrite Hp.
    destruct (Z.leb_spec (10 * 1000) (now + upDur q)); [|lia]. simpl.
    destruct (_ <=? _); eauto.
  - destruct (select_timer_ticker _ _ _ _) as [[] t'] eqn:Hs; [eauto|].
    apply select_ticker_after in Hs as (Ht1 & Ht2 & _).
    apply IH; auto.
    + simpl in Hlen. lia.
    + lia.
    + unfold next_tick_after, checkInterval.
      assert (10 - Z.of_nat n <= t' / 1000)
        by (apply Z.div_le_lower_bound; lia).
      lia.
Qed.

(** The loop with its calls is the loop. *)
Lemma waitForUpstream_calls_result polls : forall deadline nextTick now,
  (waitForUpstream_calls deadline nextTick now polls).1
  = waitForUpstream_loop deadline nextTick now polls.
Proof.
  induction polls as [|q rest IH]; intros deadline nextTick now; simpl;
    [reflexivity|].
  destruct (upstream_ready (upStatus q)); [reflexivity|].
  destruct (select_timer_ticker _ _ _ _) as [[] t']; [reflexivity|].
  simpl. apply IH.
Qed.

(** When no call to [Status()] takes longer than the ticker's interval, the
    polls are made at 0, 1, 2, ... seconds. *)
Lemma calls_every_second polls : forall deadline (k i : nat) t,
  Forall (fun q => 0 <= upDur q <= checkInterval) polls ->
  (waitForUpstream_calls deadline (checkInterval * (Z.of_nat k + 1))
     (checkInterval * Z.of_nat k) polls).2 !! i = Some t ->
  t = checkInterval * Z.of_nat (k + i).
Proof.
  unfold checkInterval.
  induction polls as [|q rest IH]; intros deadline k i t Hall; simpl.
  - destruct i; simpl; [|discriminate]. intros H; inversion H. f_equal; lia.
  - inversion Hall as [|? ? Hq Hrest]; subst.
    assert (Hhere : [1000 * Z.of_nat k] !! i = Some t ->
                    t = 1000 * Z.of_nat (k + i)).
    { destruct i; simpl; [|discriminate]. intros H; inversion H. f_equal; lia. }
    destruct (upstream_ready (upStatus q)); [exact Hhere|].
    destruct (select_timer_ticker _ _ _ _) as [[] t'] eqn:Hs; [exact Hhere|].
    destruct i as [|i]; simpl.
    + intros H; inversion H. f_equal; lia.
    + apply select_ticker_after in Hs as (Ht1 & Ht2 & Ht3).
      assert (Ht : t' = 1000 * Z.of_nat (S k)) by (unfold checkInterval in *; lia).
      subst t'.
      assert (Hn : next_tick_after (1000 * Z.of_nat (S k))
                   = 1000 * (Z.of_nat (S k) + 1)).
      { unfold next_tick_after, checkInterval.
        rewrite (Z.mul_comm 1000), Z.div_mul by lia. lia. }
      rewrite Hn. intros H. apply IH in H; auto.
      rewrite H. f_equal. lia.
Qed.

(** The loop returns nil on the first poll that is ready, and has made
    the polls before it. *)
Lemma waitForUpstream_loop_first_ready polls : forall deadline nextTick now t,
  waitForUpstream_loop deadline nextTick now polls = Done (None, t) ->
  exists pre q rest,
    polls = pre ++ q :: rest /\
    Forall (fun q => upstream_ready (upStatus q) = false) pre /\
    upstream_ready (upStatus q) = true.
Proof.
  induction polls as [|q rest IH]; intros deadline nextTick now t; simpl.
  - discriminate.
  - destruct (upstream_ready (upStatus q)) eqn:Hq.
    + intros _. exists [], q, rest. split; [reflexivity|]. split; [constructor|exact Hq].
    + destruct (select_timer_ticker _ _ _ _) as [[] t'] eqn:Hs; [discriminate|].
      intros H. destruct (IH _ _ _ _ H) as (pre & q' & rest' & -> & Hpre & Hr).
      exists (q :: pre), q', rest'. split; [reflexivity|].
      split; [constructor; assumption|exact Hr].
Qed.

(** The loop returns an error only after polls that were not ready, and
    not before the timer's deadline. *)
Lemma waitForUpstream_loop_error polls : forall deadline nextTick now e t,
  waitForUpstream_loop deadline nextTick now polls = Done (Some e, t) ->
  e = "upstream is offline" /\ deadline <= t /\
  exists pre rest,
    polls = pre ++ rest /\ pre <> [] /\
    Forall (fun q => upstream_ready (upStatus q) = false) pre.
Proof.
  induction polls as [|q rest IH]; intros deadline nextTick now e t; simpl.
  - discriminate.
  - destruct (upstream_ready (upStatus q)) eqn:Hq; [discriminate|].
    destruct (select_timer_ticker _ _ _ _) as [[] t'] eqn:Hs.
    + intros H; inversion H; subst. split; [reflexivity|].
      split; [eapply select_timer_after; eauto|].
      exists [q], rest. split; [reflexivity|]. split; [discriminate|].
      constructor; [exact Hq|constructor].
    + intros H. destruct (IH _ _ _ _ _ H) as (-> & Ht & pre & rest' & -> & _ & Hpre).
      split; [reflexivity|]. split; [exact Ht|].
      exists (q :: pre), rest'. split; [reflexivity|]. split; [discriminate|].
      constructor; assumption.
Qed.

(** While no poll is ready and every call to [Status()] answers within the
    ticker's interval, the loop gives up within eleven polls and before
    eleven seconds, whichever case [select] takes when the timer and the
    ticker fire together. *)
Lemma waitForUpstream_loop_gives_up_quick (n : nat) : forall polls (k : nat),
  Forall (fun q => upstream_ready (upStatus q) = false /\
                   0 <= upDur q < checkInterval) (take (S n) polls) ->
  (k + n = 10)%nat -> (n < length polls)%nat ->
  exists t,
    waitForUpstream_loop upstreamTimeout (checkInterval * (Z.of_nat k + 1))
      (checkInterval * Z.of_nat k) polls
      = Done (Some "upstream is offline", t) /\
    t < upstreamTimeout + checkInterval.
Proof.
  unfold upstreamTimeout, checkInterval.
  induction n as [|n IH]; intros polls k Hall Hk Hlen;
    (destruct polls as [|q rest]; [simpl in Hlen; lia|]);
    rewrite firstn_cons in Hall;
    inversion Hall as [|? ? (Hq & Hd) Hrest]; subst;
    simpl; rewrite Hq; unfold select_timer_ticker.
  - assert (k = 10%nat) by lia. subst k.
    destruct (Z.leb_spec (10 * 1000) (1000 * Z.of_nat 10 + upDur q)); [|lia].
    destruct (Z.leb_spec (1000 * (Z.of_nat 10 + 1)) (1000 * Z.of_nat 10 + upDur q));
      [unfold checkInterval in *; lia|].
    simpl. eexists. split; [reflexivity|]. unfold checkInterval in *. lia.
  - unfold checkInterval in Hd.
    destruct (Z.leb_spec (10 * 1000) (1000 * Z.of_nat k + upDur q)); [lia|].
    destruct (Z.leb_spec (1000 * (Z.of_nat k + 1)) (1000 * Z.of_nat k + upDur q));
      [lia|].
    simpl.
    assert (Hnext : next_tick_after (1000 * (Z.of_nat k + 1))
                    = 1000 * (Z.of_nat (S k) + 1)).
    { unfold next_tick_after, checkInterval.
      rewrite (Z.mul_comm 1000), Z.div_mul by lia. lia. }
    assert (Hnow : 1000 * (Z.of_nat k + 1) = 1000 * Z.of_nat (S k)) by lia.
    destruct (Z.ltb_spec (10 * 1000) (1000 * (Z.of_nat k + 1))); [lia|].
    destruct (Z.ltb_spec (1000 * (Z.of_nat k + 1)) (10 * 1000)).
    + rewrite Hnext, Hnow. apply IH; [exact Hrest|lia|simpl in Hlen; lia].
    + destruct (upPick q).
      * eexists. split; [reflexivity|]. lia.
      * assert (k = 9%nat) by lia. subst k.
        destruct (IH rest 10%nat Hrest) as (t & Ht & Hlt);
          [lia|simpl in Hlen; lia|].
        exists t. split; [exact Ht|exact Hlt].
Qed.

(** *** What cancelling a wait leaves alone *)

Lemma call_cancelSyncWait_frame (p p1 : Process) :
  call_cancelSyncWait p = Done p1 ->
  running p1 = running p /\ config p1 = config p /\
  configApplied p1 = configApplied p /\ cmd p1 = cmd p /\
  Singleton p1 = Singleton p /\
  (trace p1 = trace p \/ trace p1 = EvCancelSyncWait :: trace p).
Proof.
  unfold call_cancelSyncWait.
  destruct (cancelSyncWait p) as [w|]; [destruct (swStatus w)|];
    intros H; inversion H; subst; simpl; tauto.
Qed.

Lemma call_cancelSyncWait_done (p : Process) :
  (forall w, cancelSyncWait p = Some w -> swStatus w <> WaitHung) ->
  exists p1, call_cancelSyncWait p = Done p1.
Proof.
  intros Hw. unfold call_cancelSyncWait.
  destruct (cancelSyncWait p) as [w|] eqn:E; [|eauto].
  specialize (Hw w eq_refl). destruct (swStatus w); eauto. congruence.
Qed.

(** C5, as the code has it.  When the daemon is running and the new
    configuration has the role [none], or is equal to the applied one, or
    turns an applied async into a sync of the same upstream, [Reconfigure]
    returns nil without starting or stopping the daemon and without
    beginning or cancelling a catch-up wait; what it changes is the stored
    configuration, which becomes the new one, marked as applied.  When the
    daemon is not running it stores the new configuration, marked as not
    applied, and does nothing else. *)
Theorem reconfigure_quiet_cases (env : Env) (cfg : Config) (p : Process) :
  peers_check cfg p = None ->
  (running p = false \/
   cRole cfg = RoleNone \/
   (configApplied p = true /\ exists c0, config p = Some c0 /\ Equal cfg c0 = true) \/
   (configApplied p = true /\ exists c0 u u0,
      config p = Some c0 /\ cRole c0 = RoleAsync /\ cRole cfg = RoleSync /\
      Upstream cfg = Some u /\ Upstream c0 = Some u0 /\
      meta u "MONGODB_ID" = meta u0 "MONGODB_ID")) ->
  exists p',
    Reconfigure env cfg p = Done (None, p') /\
    p' = set_config (Some cfg) (running p) p /\
    config p' = Some cfg /\ configApplied p' = running p /\
    running p' = running p /\ cmd p' = cmd p /\ trace p' = trace p /\
    cancelSyncWait p' = cancelSyncWait p /\
    syncedDownstream p' = syncedDownstream p.
Proof.
  intros Hcheck Hcase.
  exists (set_config (Some cfg) (running p) p).
  split; [|repeat split].
  unfold Mongo.Reconfigure. rewrite Hcheck.
  destruct (running p) eqn:Hrun; simpl; [|reflexivity].
  destruct Hcase as [Hc|[Hc|[Hc|Hc]]]; [discriminate| | |].
  - unfold Mongo.reconfigure, reconfigure_body.
    rewrite Hc. reflexivity.
  - destruct Hc as (Happ & c0 & Hcfg & Heq).
    unfold Mongo.reconfigure, reconfigure_body.
    rewrite Happ, Hcfg, Heq.
    destruct (bool_decide (cRole cfg = RoleNone)); reflexivity.
  - destruct Hc as (Happ & c0 & u & u0 & Hcfg & Hr0 & Hr & Hu & Hu0 & Hid).
    unfold Mongo.reconfigure, reconfigure_body, becoming_sync_same_upstream.
    rewrite Happ, Hcfg, Hrun, Hr, Hr0, Hu, Hu0. simpl.
    rewrite (bool_decide_eq_true_2 _ Hid).
    destruct (Equal cfg c0); reflexivity.
Qed.


Section CatchUp.

Variable Position : Type.
Variable Zero : Position.
Variable Compare : Position -> Position -> option Z.

Abbreviation waitForSync_loop := (waitForSync_loop Position Compare).
Abbreviation waitForSync_goroutine := (waitForSync_goroutine Position Zero Compare).
Abbreviation Info := (Info Position Zero).

(** No reader of the local node makes [Info] report a read-write
    database. *)
Lemma Info_never_read_write read local (p : Process) info e :
  Info read local p = Done (info, e) -> iReadWrite Position info = false.
Proof.
  unfold Mongo.Info, userExists, isReadWrite.
  destruct (read local); [| |discriminate].
  - intros H; inversion H; reflexivity.
  - destruct (running p); simpl; [discriminate|].
    intros H; inversion H; reflexivity.
Qed.


(** *** The loop of the catch-up wait *)

Abbreviation loop_state := (loop_state Position Compare).

Lemma is_cmp_true c v : is_cmp c v = true <-> c = Some v.
Proof.
  unfold is_cmp. destruct c as [x|]; [|split; discriminate].
  rewrite Z.eqb_eq. split; congruence.
Qed.

(** A loop that has not ended after [pre] goes on from the state that
    [pre] leaves. *)
Lemma waitForSync_loop_app read T pre : forall startTime prev rest,
  waitForSync_loop read T startTime prev pre = WPending ->
  waitForSync_loop read T startTime prev (pre ++ rest) =
  waitForSync_loop read T (loop_state read startTime prev pre).1
    (loop_state read startTime prev pre).2 rest.
Proof.
  induction pre as [|q pre IH]; intros startTime prev rest; simpl; [reflexivity|].
  destruct (spStopped q); [discriminate|].
  destruct (read (spMaster q)) as [e|m|]; [| |discriminate].
  - destruct (spStoppedInWait q); [discriminate|]. apply IH.
  - destruct (read (spSlave q)) as [e|s|]; [| |discriminate].
    + destruct (spStoppedInWait q); [discriminate|]. apply IH.
    + destruct (is_cmp (Compare m s) 0); [discriminate|].
      destruct (_ >? _); [discriminate|].
      destruct (spStoppedInWait q); [discriminate|]. apply IH.
Qed.

Lemma loop_state_app read pre : forall startTime prev rest,
  loop_state read startTime prev (pre ++ rest) =
  loop_state read (loop_state read startTime prev pre).1
    (loop_state read startTime prev pre).2 rest.
Proof.
  induction pre as [|q pre IH]; intros startTime prev rest; simpl; [reflexivity|].
  destruct (read (spMaster q)); try apply IH.
  destruct (read (spSlave q)); apply IH.
Qed.

(** The loop reports the downstream caught up only in a poll that read both
    positions itself and found them to compare equal. *)
Lemma caught_up_on_fresh_equal read T polls : forall startTime prev m s,
  waitForSync_loop read T startTime prev polls = WCaughtUp m s ->
  exists pre q post,
    polls = pre ++ q :: post /\
    waitForSync_loop read T startTime prev pre = WPending /\
    spStopped q = false /\
    read (spMaster q) = ReadOk m /\ read (spSlave q) = ReadOk s /\
    Compare m s = Some 0.
Proof.
  induction polls as [|q polls IH]; intros startTime prev m s; simpl; [discriminate|].
  assert (Hnext : forall st pv,
    waitForSync_loop read T st pv polls = WCaughtUp m s ->
    waitForSync_loop read T startTime prev [q] = WPending ->
    (loop_state read startTime prev [q]) = (st, pv) ->
    exists pre q' post,
      q :: polls = pre ++ q' :: post /\
      waitForSync_loop read T startTime prev pre = WPending /\
      spStopped q' = false /\
      read (spMaster q') = ReadOk m /\ read (spSlave q') = ReadOk s /\
      Compare m s = Some 0).
  { intros st pv H Hone Hstate.
    destruct (IH _ _ _ _ H) as (pre & q' & post & -> & Hpre & Hrest).
    exists (q :: pre), q', post. split; [reflexivity|]. split; [|exact Hrest].
    change (q :: pre) with ([q] ++ pre).
    rewrite (waitForSync_loop_app read T [q] startTime prev pre Hone).
    rewrite Hstate. exact Hpre. }
  destruct (spStopped q) eqn:Hq; [discriminate|].
  destruct (read (spMaster q)) as [e|m'|] eqn:Hm; [| |discriminate].
  - destruct (spStoppedInWait q) eqn:Hsw; [discriminate|].
    intros H. eapply Hnext; eauto.
    + simpl. rewrite Hq, Hm, Hsw. reflexivity.
    + simpl. rewrite Hm. reflexivity.
  - destruct (read (spSlave q)) as [e|s'|] eqn:Hs; [| |discriminate].
    + destruct (spStoppedInWait q) eqn:Hsw; [discriminate|].
      intros H. eapply Hnext; eauto.
      * simpl. rewrite Hq, Hm, Hs, Hsw. reflexivity.
      * simpl. rewrite Hm, Hs. reflexivity.
    + destruct (is_cmp (Compare m' s') 0) eqn:Hc.
      * intros H; inversion H; subst.
        exists [], q, polls. apply is_cmp_true in Hc.
        split; [reflexivity|]. split; [reflexivity|]. auto.
      * destruct (_ >? _) eqn:Hel; [discriminate|].
        destruct (spStoppedInWait q) eqn:Hsw; [discriminate|].
        intros H. eapply Hnext; eauto.
        -- simpl. rewrite Hq, Hm, Hs, Hc, Hel, Hsw. reflexivity.
        -- simpl. rewrite Hm, Hs. reflexivity.
Qed.

(** The poll at which the loop gives up. *)
Lemma timed_out_after_deadline read T pre q post startTime prev m s :
  waitForSync_loop read T startTime prev pre = WPending ->
  spStopped q = false ->
  read (spMaster q) = ReadOk m -> read (spSlave q) = ReadOk s ->
  Compare m s <> Some 0 ->
  T < spNow q - (loop_state read startTime prev pre).1 ->
  waitForSync_loop read T startTime prev (pre ++ q :: post) = WTimedOut.
Proof.
  intros Hpre Hq Hm Hs Hc Hel.
  rewrite (waitForSync_loop_app read T pre startTime prev _ Hpre).
  simpl. rewrite Hq, Hm, Hs.
  destruct (is_cmp (Compare m s) 0) eqn:E.
  - apply is_cmp_true in E. contradiction.
  - destruct (Z.gtb_spec (spNow q - (loop_state read startTime prev pre).1) T);
      [reflexivity|lia].
Qed.

(** A poll that fails to read a position restarts the deadline. *)
Lemma failed_read_restarts_deadline read pre q startTime prev :
  (exists e, read (spMaster q) = ReadErr e \/
             exists m, read (spMaster q) = ReadOk m /\
                       read (spSlave q) = ReadErr e) ->
  (loop_state read startTime prev (pre ++ [q])).1 = spNow q.
Proof.
  intros (e & H). rewrite loop_state_app. simpl.
  destruct H as [->|(m & -> & ->)]; reflexivity.
Qed.


End CatchUp.

End Supervisor.

(** C9 at work: a running primary, a fresh process, and a process that
    holds the [none] role. *)
Lemma start_stop_refused_witness :
  Start Equal_spec IsNewDownstream_spec (env_with []) (running_as cfg_primary)
    = Done (Some "process already running", running_as cfg_primary) /\
  Start Equal_spec IsNewDownstream_spec (env_with []) NewProcess
    = Done (Some "unconfigured process", NewProcess) /\
  Start Equal_spec IsNewDownstream_spec (env_with []) (stopped_with cfg_none)
    = Done (Some "start attempted with role 'none'", stopped_with cfg_none) /\
  Stop (env_with []) NewProcess
    = Done (Some "process already stopped", NewProcess).
Proof.
  split; [|split; [|split]].
  - apply (start_stop_refused Equal_spec IsNewDownstream_spec (env_with [])
             (running_as cfg_primary)). reflexivity.
  - apply (start_stop_refused Equal_spec IsNewDownstream_spec (env_with [])
             NewProcess); reflexivity.
  - apply (start_stop_refused Equal_spec IsNewDownstream_spec (env_with [])
             (stopped_with cfg_none)) with (c := cfg_none); reflexivity.
  - apply (start_stop_refused Equal_spec IsNewDownstream_spec (env_with [])
             NewProcess). reflexivity.
Defined.

(** C5 at work: a running primary is told the role [none]. *)
Lemma reconfigure_quiet_cases_witness :
  exists p',
    Reconfigure Equal_spec IsNewDownstream_spec (env_with []) cfg_none
      (running_as cfg_primary) = Done (None, p') /\
    trace p' = trace (running_as cfg_primary) /\
    cmd p' = cmd (running_as cfg_primary).
Proof.
  destruct (reconfigure_quiet_cases Equal_spec IsNewDownstream_spec
              (env_with []) cfg_none (running_as cfg_primary))
    as (p' & H & _ & _ & _ & _ & Hc & Ht & _).
  - reflexivity.
  - right; left; reflexivity.
  - exists p'. auto.
Defined.

(** C5 as stated fails: told the role [none], a running primary does not
    stay as it was, its stored configuration is replaced by the [none]
    one; and an applied async that becomes sync of the same upstream ends
    with the sync configuration. *)
Lemma reconfigure_changes_config :
  (exists p',
     Reconfigure Equal_spec IsNewDownstream_spec (env_with []) cfg_none
       (running_as cfg_primary) = Done (None, p') /\
     config (running_as cfg_primary) = Some cfg_primary /\
     config p' = Some cfg_none /\
     p' <> running_as cfg_primary) /\
  (exists p',
     Reconfigure Equal_spec IsNewDownstream_spec (env_with []) cfg_sync
       (running_as cfg_async) = Done (None, p') /\
     config (running_as cfg_async) = Some cfg_async /\
     config p' = Some cfg_sync /\
     p' <> running_as cfg_async).
Proof.
  split; eexists; (split; [vm_compute; reflexivity|]);
    (split; [reflexivity|]); (split; [reflexivity|]);
    intros H; apply (f_equal (fun q => cRole <$> config q)) in H;
    vm_compute in H; discriminate.
Qed.







End MongoProps.

(** * Properties of the container backend *)
Module BackendProps.
Import Backend.

Section Props.

Variable filepath_Join : string -> string -> string.
Variable IP_String : IP -> string.

Abbreviation Stop := (Stop filepath_Join).
Abbreviation Cleanup := (Cleanup filepath_Join).
Abbreviation stop_each := (stop_each filepath_Join).
Abbreviation watch_end := (watch_end filepath_Join).
Abbreviation cleanup := (cleanup filepath_Join).
Abbreviation Run := (Run filepath_Join IP_String).
Abbreviation Run_body := (Run_body filepath_Join IP_String).

(** *** [Stop] *)

(** C1, as the code has it.  [Stop(id)] returns the error "libvirt:
    unknown container", and changes nothing, whenever no container is
    registered under [id].  While the container is registered and its job
    is done or failed, [Stop(id)] returns nil when the SIGTERM is delivered
    or the connection to the init is already shut down, and leaves the job
    table and the containers as they are; when the SIGTERM fails otherwise
    it returns that error.  A [Stop] that waits until the watcher has ended
    returns nil and leaves the container unregistered, so that the next
    [Stop(id)] returns the error. *)
Theorem Stop_unknown_or_terminal (W : World) (id : string) (b : Backend) :
  (containers b !! id = None ->
     Stop W id b = Done (Some "libvirt: unknown container", b)) /\
  (forall c j,
     containers b !! id = Some c -> GetJob (ID (job c)) b = Some j ->
     Status j = StatusDone \/ Status j = StatusFailed ->
     Signal_res W (tick b) (ID (job c)) SIGTERM = None \/
     Signal_res W (tick b) (ID (job c)) SIGTERM = Some ErrShutdown ->
     exists b',
       Stop W id b = Done (None, b') /\
       jobs b' = jobs b /\ containers b' = containers b /\
       ipalloc b' = ipalloc b /\ mtab b' = mtab b /\
       signals b' = (ID (job c), SIGTERM) :: signals b) /\
  (forall c e,
     containers b !! id = Some c ->
     Signal_res W (tick b) (ID (job c)) SIGTERM = Some e -> e <> ErrShutdown ->
     exists b', Stop W id b = Done (Some e, b') /\ jobs b' = jobs b) /\
  (forall c j how W',
     containers b !! id = Some c -> ID (job c) = id ->
     GetJob id b = Some j ->
     Status j <> StatusDone -> Status j <> StatusFailed -> done c = false ->
     Signal_res W (tick b) id SIGTERM = None ->
     watch_ends W (S (tick b)) id = Some how ->
     exists b',
       Stop W id b = Done (None, b') /\
       containers b' !! id = None /\
       Stop W' id b' = Done (Some "libvirt: unknown container", b')).
Proof.
  split; [|split; [|split]].
  - intros Hc. unfold Backend.Stop, getContainer. rewrite Hc. reflexivity.
  - intros c j Hc Hj Hterm Hsig.
    unfold Backend.Stop, getContainer, container_Stop, container_Signal.
    rewrite Hc.
    destruct Hsig as [Hsig|Hsig]; rewrite Hsig.
    + unfold WaitStop.
      assert (Hj' : GetJob (ID (job c))
                      (bump (set_signals (fun l => (ID (job c), SIGTERM) :: l) b))
                    = Some j) by (destruct b; exact Hj).
      rewrite Hj'.
      assert (Ht : bool_decide (Status j = StatusDone)
                   || bool_decide (Status j = StatusFailed) = true).
      { destruct Hterm as [->| ->]; reflexivity. }
      rewrite Ht. simpl. eexists. split; [reflexivity|].
      destruct b; simpl; auto.
    + simpl. eexists. split; [reflexivity|]. destruct b; simpl; auto.
  - intros c e Hc Hsig Hne.
    unfold Backend.Stop, getContainer, container_Stop, container_Signal.
    rewrite Hc, Hsig. simpl.
    rewrite bool_decide_eq_false_2 by congruence.
    eexists. split; [reflexivity|]. destruct b; reflexivity.
  - intros c j how W' Hc Hid Hj Hnd Hnf Hdone Hsig Hend.
    unfold Backend.Stop at 1.
    unfold getContainer, container_Stop, container_Signal.
    rewrite Hc, Hid, Hsig.
    unfold WaitStop. rewrite Hid.
    assert (Hj' : GetJob id (bump (set_signals (fun l => (id, SIGTERM) :: l) b))
                  = Some j) by (destruct b; exact Hj).
    rewrite Hj'.
    rewrite (bool_decide_eq_false_2 _ Hnd), (bool_decide_eq_false_2 _ Hnf), Hdone.
    assert (Ht : tick (bump (set_signals (fun l => (id, SIGTERM) :: l) b))
                 = S (tick b)) by (destruct b; reflexivity).
    simpl. rewrite Ht, Hend. simpl.
    eexists. split; [reflexivity|].
    assert (Hgone : containers
                      (bump (watch_end how c
                         (bump (set_signals (fun l => (id, SIGTERM) :: l) b))))
                    !! id = None).
    { unfold Backend.watch_end, Backend.cleanup, unbindMounts. rewrite Hid.
      destruct b, how; simpl;
        repeat match goal with
               | |- context [if ?x then _ else _] => destruct x
               | |- context [match cIP c with _ => _ end] => destruct (cIP c)
               end; simpl; apply lookup_delete_eq. }
    split; [exact Hgone|].
    unfold Backend.Stop, getContainer. rewrite Hgone. reflexivity.
Qed.

(** *** [Cleanup] *)

Lemma collect_is_last_error (errs : list (option error)) :
  collect errs = last_error errs.
Proof.
  unfold collect, last_error.
  assert (G : forall acc : option error,
    foldl (fun err stopErr =>
             match stopErr with Some e => Some e | None => err end) acc errs
    = match last (omap id errs) with Some e => Some e | None => acc end).
  { induction errs as [|x errs IH]; intros acc; [reflexivity|].
    cbn [foldl]. rewrite IH. destruct x as [e|]; [|reflexivity].
    change (omap id (Some e :: errs)) with (e :: omap id errs).
    rewrite last_cons. destruct (last (omap id errs)); reflexivity. }
  rewrite G. destruct (last (omap id errs)); reflexivity.
Qed.

Lemma last_error_None (errs : list (option error)) :
  last_error errs = None <-> Forall (fun e => e = None) errs.
Proof.
  unfold last_error. rewrite last_None.
  induction errs as [|x errs IH]; simpl.
  - split; [constructor|reflexivity].
  - destruct x as [e|]; simpl.
    + split; [discriminate|]. intros H; inversion H; discriminate.
    + rewrite IH. split; [constructor; auto|]. intros H; inversion H; auto.
Qed.

Lemma shouldSkip_false (except : list string) (id : string) :
  shouldSkip except id = false <-> id ∉ except.
Proof.
  unfold shouldSkip. induction except as [|x except IH]; simpl.
  - split; [intros _; apply not_elem_of_nil|reflexivity].
  - rewrite not_elem_of_cons, orb_false_iff, IH, String.eqb_neq. tauto.
Qed.

(** [Cleanup] stops the registered containers that are not excepted, each
    once. *)
Lemma cleanup_ids_spec (except : list string) (b : Backend) (id : string) :
  id ∈ cleanup_ids except b <-> is_Some (containers b !! id) /\ id ∉ except.
Proof.
  unfold cleanup_ids.
  rewrite list_elem_of_filter, shouldSkip_false, list_elem_of_fmap.
  split.
  - intros (Hne & [k c] & -> & Hin). apply elem_of_map_to_list in Hin.
    simpl. eauto.
  - intros ([c Hc] & Hne). split; [exact Hne|].
    exists (id, c). split; [reflexivity|]. apply elem_of_map_to_list. exact Hc.
Qed.

Lemma cleanup_ids_NoDup (except : list string) (b : Backend) :
  NoDup (cleanup_ids except b).
Proof. apply NoDup_filter, NoDup_fst_map_to_list. Qed.

Lemma jobs_known_signal (b : Backend) f :
  jobs_known b -> jobs_known (bump (set_signals f b)).
Proof. destruct b. exact id. Qed.

Lemma jobs_known_bump (b : Backend) : jobs_known b -> jobs_known (bump b).
Proof. destruct b. exact id. Qed.

Lemma jobs_known_watch_end how c (b : Backend) :
  jobs_known b -> jobs_known (watch_end how c b).
Proof.
  intros H id c' Hc'.
  assert (Hcs : containers (watch_end how c b) = delete (ID (job c)) (containers b)).
  { unfold Backend.watch_end, Backend.cleanup, unbindMounts.
    destruct b, how; simpl;
      repeat match goal with
             | |- context [if ?x then _ else _] => destruct x
             | |- context [match cIP c with _ => _ end] => destruct (cIP c)
             end; reflexivity. }
  assert (Hjs : exists f, jobs (watch_end how c b) = alter f (ID (job c)) (jobs b)).
  { unfold Backend.watch_end, Backend.cleanup, unbindMounts.
    destruct b, how; simpl;
      repeat match goal with
             | |- context [if ?x then _ else _] => destruct x
             | |- context [match cIP c with _ => _ end] => destruct (cIP c)
             end; simpl; eexists; reflexivity. }
  destruct Hjs as [f Hjs]. rewrite Hjs, lookup_alter_is_Some.
  rewrite Hcs in Hc'. apply lookup_delete_Some in Hc' as [_ Hc'].
  eapply H; eauto.
Qed.

(** With every container's job in the host state, [Stop] returns. *)
Lemma Stop_returns (W : World) (id : string) (b : Backend) :
  jobs_known b ->
  exists e b', Stop W id b = Done (e, b') /\ jobs_known b'.
Proof.
  intros Hk. unfold Backend.Stop, getContainer.
  destruct (containers b !! id) as [c|] eqn:Hc; [|eauto].
  unfold container_Stop, container_Signal.
  destruct (Signal_res W (tick b) (ID (job c)) SIGTERM) as [e|].
  - simpl. eauto using jobs_known_signal.
  - unfold WaitStop.
    set (b1 := bump (set_signals (fun l => (ID (job c), SIGTERM) :: l) b)).
    assert (Hk1 : jobs_known b1) by (apply jobs_known_signal; exact Hk).
    assert (Hj : is_Some (GetJob (ID (job c)) b1)).
    { destruct (Hk id c Hc) as [j Hj]. exists j. destruct b; exact Hj. }
    destruct Hj as [j Hj]. rewrite Hj.
    destruct (bool_decide (Status j = StatusDone) || bool_decide (Status j = StatusFailed));
      [simpl; eauto|].
    destruct (done c); [simpl; eauto|].
    destruct (watch_ends W (tick b1) (ID (job c))) as [how|]; simpl.
    + eexists _, _. split; [reflexivity|].
      apply jobs_known_bump, jobs_known_watch_end, Hk1.
    + eexists _, _. split; [reflexivity|].
      apply jobs_known_signal, jobs_known_bump, Hk1.
Qed.

Lemma stop_each_returns (W : World) (ids : list string) : forall b,
  jobs_known b ->
  exists errs b',
    stop_each W ids b = Done (errs, b') /\ length errs = length ids.
Proof.
  induction ids as [|id ids IH]; intros b Hk; simpl.
  - eexists _, _. split; reflexivity.
  - destruct (Stop_returns W id b Hk) as (e & b1 & -> & Hk1). simpl.
    destruct (IH b1 Hk1) as (errs & b' & -> & Hlen). simpl.
    eexists _, _. split; [reflexivity|]. simpl. congruence.
Qed.


(** *** Rules for the steps of [Run] *)

Lemma wp_bind {A B} (m : act A) (f : A -> act B) Qv Qf Qb s :
  wp m (fun a s' => wp (f a) Qv Qf Qb s') Qf Qb s ->
  wp (bind m f) Qv Qf Qb s.
Proof. unfold wp, bind. destruct (m s) as [[[a|e] s']| |]; auto. Qed.

Lemma wp_mono {A} (m : act A) (Qv Qv' : A -> Backend * Container -> Prop)
    (Qf Qf' : error -> Backend * Container -> Prop) (Qb Qb' : Prop) s :
  wp m Qv Qf Qb s ->
  (forall a s', Qv a s' -> Qv' a s') ->
  (forall e s', Qf e s' -> Qf' e s') ->
  (Qb -> Qb') ->
  wp m Qv' Qf' Qb' s.
Proof. unfold wp. destruct (m s) as [[[a|e] s']| |]; auto. Qed.

Lemma wp_ret {A} (a : A) Qv Qf Qb s : Qv a s -> wp (ret a) Qv Qf Qb s.
Proof. exact id. Qed.

Lemma wp_failwith {A} (e : error) (Qv : A -> _) Qf Qb s :
  Qf e s -> wp (failwith e) Qv Qf Qb s.
Proof. exact id. Qed.

Lemma wp_try {A} (f : nat -> res A) Qv Qf Qb s :
  (forall a, Qv a (bump s.1, s.2)) ->
  (forall e, Qf e (bump s.1, s.2)) ->
  wp (try f) Qv Qf Qb s.
Proof. unfold wp, try. destruct (f (tick s.1)); auto. Qed.

Lemma wp_check (f : nat -> option error) Qv Qf Qb s :
  Qv tt (bump s.1, s.2) ->
  (forall e, Qf e (bump s.1, s.2)) ->
  wp (check f) Qv Qf Qb s.
Proof. unfold wp, check. destruct (f (tick s.1)); auto. Qed.

Lemma wp_on_backend f Qv Qf Qb s :
  Qv tt (f s.1, s.2) -> wp (on_backend f) Qv Qf Qb s.
Proof. exact id. Qed.

Lemma wp_on_container f Qv Qf Qb s :
  Qv tt (s.1, f s.2) -> wp (on_container f) Qv Qf Qb s.
Proof. exact id. Qed.

Lemma wp_reading {A} (f : Backend -> Container -> act A) Qv Qf Qb s :
  wp (f s.1 s.2) Qv Qf Qb s -> wp (reading f) Qv Qf Qb s.
Proof. exact id. Qed.

Lemma wp_wait_closed (ch : Backend -> Chan) Qv Qf (Qb : Prop) s :
  (ch s.1 = Closed -> Qv tt s) -> (ch s.1 = Open -> Qb) ->
  wp (wait_closed ch) Qv Qf Qb s.
Proof. unfold wp, wait_closed. destruct (ch s.1); auto. Qed.

Lemma wp_bindMount W src dest Qv Qf Qb s :
  Qv tt (bump (set_mtab (cons dest) s.1), s.2) ->
  (forall e, Qf e (bump s.1, s.2)) ->
  (forall e, Qf e (bump (set_mtab (cons dest) s.1), s.2)) ->
  wp (bindMount W src dest) Qv Qf Qb s.
Proof. unfold wp, bindMount. destruct (bindMount_res W _ src dest); auto. Qed.

Lemma wp_assign_ports Qv Qf (Qb : Prop) s :
  (stateMtx s.1 = true -> Qb) ->
  (forall ports' env' e,
     stateMtx s.1 = false ->
     assignPorts 0 (Ports (Config (job s.2))) (Env (Config (job s.2)))
       = (ports', env', Some e) ->
     Qf e (set_stateMtx true s.1,
           with_job (with_Env_Ports env' ports' (job s.2)) s.2)) ->
  (forall ports' env',
     stateMtx s.1 = false ->
     assignPorts 0 (Ports (Config (job s.2))) (Env (Config (job s.2)))
       = (ports', env', None) ->
     Qv tt (set_stateMtx false (set_stateMtx true s.1),
            with_job (with_Env_Ports
                        (if negb (HostNetwork (Config (job s.2)))
                         then <["EXTERNAL_IP" := IP_text IP_String (cIP s.2)]> env'
                         else env')
                        ports' (job s.2)) s.2)) ->
  wp (assign_ports_locked IP_String) Qv Qf Qb s.
Proof.
  intros Hb Hf Hv. unfold wp, assign_ports_locked. destruct s as [b c]. simpl in *.
  destruct (stateMtx b); [auto|].
  destruct (assignPorts 0 _ _) as [[ports' env'] [e|]]; auto.
Qed.

(** *** Mounts *)

Lemma mounted_refl s : mounted [] s s.
Proof. unfold mounted. repeat split. Qed.

Lemma mounted_bump s : mounted [] s (bump s.1, s.2).
Proof. destruct s as [[] c]. unfold mounted. repeat split. Qed.

Lemma mounted_mount dest s :
  mounted [dest] s (bump (set_mtab (cons dest) s.1), s.2).
Proof. destruct s as [[] c]. unfold mounted. repeat split. Qed.

Lemma mounted_trans c1 c2 s s1 s2 :
  mounted c1 s s1 -> mounted c2 s1 s2 -> mounted (c2 ++ c1) s s2.
Proof.
  unfold mounted. intros H1 H2.
  destruct H1 as (? & ? & ? & ? & ? & ? & ? & ? & ? & ? & ? & ? & ? & ?).
  destruct H2 as (? & ? & ? & ? & ? & ? & ? & ? & ? & ? & ? & ? & ? & ?).
  repeat split; try congruence.
  rewrite <- app_assoc. congruence.
Qed.

(** The loop over the mounts neither blocks nor touches anything but the
    mount table, to which it adds mounts on the locations it was given. *)
Lemma mount_each_wp W root ms : forall s,
  wp (mount_each filepath_Join W root ms)
     (fun _ s' => exists c,
        c ⊆+ map (fun m => filepath_Join root (Location m)) ms /\ mounted c s s')
     (fun _ s' => exists c,
        c ⊆+ map (fun m => filepath_Join root (Location m)) ms /\ mounted c s s')
     False s.
Proof.
  induction ms as [|m ms IH]; intros s; simpl.
  - apply wp_ret. exists []. split; [reflexivity|apply mounted_refl].
  - assert (Hnil : forall s1, mounted [] s s1 -> exists c,
        c ⊆+ filepath_Join root (Location m)
               :: map (fun m => filepath_Join root (Location m)) ms /\
        mounted c s s1).
    { intros s1 H. exists []. split; [apply submseteq_nil_l|exact H]. }
    apply wp_bind, wp_check; [|intros e; apply Hnil, mounted_bump].
    apply wp_bind.
    assert (Hcont :
      wp (bind (bindMount W (Target m) (filepath_Join root (Location m)))
               (fun _ => mount_each filepath_Join W root ms))
         (fun _ s' => exists c,
            c ⊆+ filepath_Join root (Location m)
                   :: map (fun m => filepath_Join root (Location m)) ms /\
            mounted c s s')
         (fun _ s' => exists c,
            c ⊆+ filepath_Join root (Location m)
                   :: map (fun m => filepath_Join root (Location m)) ms /\
            mounted c s s')
         False (bump s.1, s.2)).
    { apply wp_bind, wp_bindMount.
      - assert (Hstep : forall s' c,
          c ⊆+ map (fun m => filepath_Join root (Location m)) ms ->
          mounted c (bump (set_mtab (cons (filepath_Join root (Location m)))
                             (bump s.1, s.2).1), (bump s.1, s.2).2) s' ->
          exists c',
            c' ⊆+ filepath_Join root (Location m)
                    :: map (fun m => filepath_Join root (Location m)) ms /\
            mounted c' s s').
        { intros s' c Hc Hm.
          exists (c ++ [filepath_Join root (Location m)]). split.
          - rewrite <- Permutation_cons_append. apply submseteq_skip, Hc.
          - eapply mounted_trans; [|exact Hm].
            apply (mounted_trans [] [_] s _ _ (mounted_bump s)), mounted_mount. }
        eapply wp_mono.
        + apply IH.
        + intros _ s' (c & Hc & Hm). eauto.
        + intros _ s' (c & Hc & Hm). eauto.
        + exact id.
      - intros e. apply Hnil.
        apply (mounted_trans [] [] s _ _ (mounted_bump s)), mounted_bump.
      - intros e. exists [filepath_Join root (Location m)].
        split; [apply submseteq_skip, submseteq_nil_l|].
        apply (mounted_trans [] [_] s _ _ (mounted_bump s)), mounted_mount. }
    destruct (bool_decide (Target m = "")).
    + apply wp_failwith. apply Hnil, mounted_bump.
    + apply wp_ret. exact Hcont.
Qed.

Lemma volume_each_wp W jobID root vs : forall s,
  wp (volume_each filepath_Join W jobID root vs)
     (fun _ s' => exists c,
        c ⊆+ map (fun v => filepath_Join root (VTarget v)) vs /\ mounted c s s')
     (fun _ s' => exists c,
        c ⊆+ map (fun v => filepath_Join root (VTarget v)) vs /\ mounted c s s')
     False s.
Proof.
  induction vs as [|v vs IH]; intros s; simpl.
  - apply wp_ret. exists []. split; [reflexivity|apply mounted_refl].
  - assert (Hnil : forall s1, mounted [] s s1 -> exists c,
        c ⊆+ filepath_Join root (VTarget v)
               :: map (fun v => filepath_Join root (VTarget v)) vs /\
        mounted c s s1).
    { intros s1 H. exists []. split; [apply submseteq_nil_l|exact H]. }
    apply wp_bind, wp_try; [|intros e; apply Hnil, mounted_bump].
    intros [location|].
    + apply wp_bind, wp_check.
      2:{ intros e. apply Hnil.
          apply (mounted_trans [] [] s _ _ (mounted_bump s)), mounted_bump. }
      apply wp_bind, wp_bindMount.
      * assert (Hstep : forall s' c,
          c ⊆+ map (fun v => filepath_Join root (VTarget v)) vs ->
          mounted c (bump (set_mtab (cons (filepath_Join root (VTarget v)))
                             (bump (bump s.1, s.2).1, (bump s.1, s.2).2).1),
                     (bump (bump s.1, s.2).1, (bump s.1, s.2).2).2) s' ->
          exists c',
            c' ⊆+ filepath_Join root (VTarget v)
                    :: map (fun v => filepath_Join root (VTarget v)) vs /\
            mounted c' s s').
        { intros s' c Hc Hm.
          exists (c ++ [filepath_Join root (VTarget v)]). split.
          - rewrite <- Permutation_cons_append. apply submseteq_skip, Hc.
          - eapply mounted_trans; [|exact Hm].
            apply (mounted_trans [] [_] s _ _ (mounted_bump s)),
                  (mounted_trans [] [_] _ _ _ (mounted_bump _)), mounted_mount. }
        eapply wp_mono.
        -- apply IH.
        -- intros _ s' (c & Hc & Hm). eauto.
        -- intros _ s' (c & Hc & Hm). eauto.
        -- exact id.
      * intros e. apply Hnil.
        apply (mounted_trans [] [] s _ _ (mounted_bump s)),
              (mounted_trans [] [] _ _ _ (mounted_bump _)), mounted_bump.
      * intros e. exists [filepath_Join root (VTarget v)].
        split; [apply submseteq_skip, submseteq_nil_l|].
        apply (mounted_trans [] [_] s _ _ (mounted_bump s)),
              (mounted_trans [] [_] _ _ _ (mounted_bump _)), mounted_mount.
    + apply wp_failwith. apply Hnil, mounted_bump.
Qed.

(** *** The four stretches of [Run] *)

Lemma kept_refl s : kept s s.
Proof. unfold kept. repeat split. Qed.

Lemma kept_trans s1 s2 s3 : kept s1 s2 -> kept s2 s3 -> kept s1 s3.
Proof.
  unfold kept.
  intros (?&?&?&?&?&?&?&?&?&?&?) (?&?&?&?&?&?&?&?&?&?&?).
  repeat split; congruence.
Qed.

Lemma mounted_kept c s s' : mounted c s s' -> kept s s'.
Proof.
  unfold mounted, kept.
  intros (E&?&?&?&?&?&?&?&?&?&?&?&?&?). rewrite E.
  repeat split; congruence.
Qed.

Lemma unbind_targets_eq (c c' : Container) :
  RootPath c' = RootPath c ->
  Mounts (Config (job c')) = Mounts (Config (job c)) ->
  Volumes (Config (job c')) = Volumes (Config (job c)) ->
  unbind_targets filepath_Join c' = unbind_targets filepath_Join c.
Proof. unfold unbind_targets. intros -> -> ->. reflexivity. Qed.

(** Two steps in a row that only count calls and add mounts. *)
Lemma wp_then_mounted {A B} (m : act A) (k : A -> act B) (T1 T2 : list string) s :
  wp m (fun _ s' => exists c, c ⊆+ T1 /\ mounted c s s')
       (fun _ s' => exists c, c ⊆+ T1 /\ mounted c s s') False s ->
  (forall a s1,
     wp (k a) (fun _ s' => exists c, c ⊆+ T2 /\ mounted c s1 s')
              (fun _ s' => exists c, c ⊆+ T2 /\ mounted c s1 s') False s1) ->
  wp (bind m k) (fun _ s' => exists c, c ⊆+ T1 ++ T2 /\ mounted c s s')
                (fun _ s' => exists c, c ⊆+ T1 ++ T2 /\ mounted c s s') False s.
Proof.
  intros Hm Hk. apply wp_bind.
  eapply wp_mono.
  - exact Hm.
  - intros a s1 (c1 & Hc1 & Hm1).
    assert (Hjoin : forall s' c2, c2 ⊆+ T2 -> mounted c2 s1 s' ->
              exists c, c ⊆+ T1 ++ T2 /\ mounted c s s').
    { intros s' c2 Hc2 Hm2. exists (c2 ++ c1). split.
      - rewrite (Permutation_app_comm c2 c1). apply submseteq_app; assumption.
      - eapply mounted_trans; eassumption. }
    eapply wp_mono.
    + apply Hk.
    + intros _ s' (c2 & Hc2 & Hm2). eauto.
    + intros _ s' (c2 & Hc2 & Hm2). eauto.
    + exact id.
  - intros e s1 (c1 & Hc1 & Hm1). exists c1. split; [|exact Hm1].
    apply submseteq_inserts_r, Hc1.
  - exact id.
Qed.

Lemma wp_check_mounted (f : nat -> option error) s :
  wp (check f) (fun _ s' => exists c, c ⊆+ [] /\ mounted c s s')
               (fun _ s' => exists c, c ⊆+ [] /\ mounted c s s') False s.
Proof.
  apply wp_check; [|intros e]; exists []; (split; [reflexivity|apply mounted_bump]).
Qed.

Lemma wp_bindMount_mounted W src dest s :
  wp (bindMount W src dest)
     (fun _ s' => exists c, c ⊆+ [dest] /\ mounted c s s')
     (fun _ s' => exists c, c ⊆+ [dest] /\ mounted c s s') False s.
Proof.
  apply wp_bindMount; [|intros e|intros e].
  - exists [dest]. split; [reflexivity|apply mounted_mount].
  - exists []. split; [apply submseteq_nil_l|apply mounted_bump].
  - exists [dest]. split; [reflexivity|apply mounted_mount].
Qed.

(** The mounts made by [Run] are on paths that [unbindMounts] unmounts. *)
Lemma Run_mounts_wp W j0 root s :
  RootPath s.2 = root -> job s.2 = j0 ->
  wp (Run_mounts filepath_Join W j0 root)
     (fun _ s' => exists c, c ⊆+ unbind_targets filepath_Join s.2 /\ mounted c s s')
     (fun _ s' => exists c, c ⊆+ unbind_targets filepath_Join s.2 /\ mounted c s s')
     False s.
Proof.
  intros Hroot Hjob. unfold Run_mounts, unbind_targets. rewrite Hroot, Hjob.
  apply wp_reading.
  apply (wp_then_mounted _ _ [filepath_Join root ".containerinit"]
           ([filepath_Join root "etc/resolv.conf"] ++
            map (fun m => filepath_Join root (Location m)) (Mounts (Config j0)) ++
            map (fun v => filepath_Join root (VTarget v)) (Volumes (Config j0)))).
  { apply wp_bindMount_mounted. }
  intros _ s1.
  apply (wp_then_mounted _ _ [] _); [apply wp_check_mounted|].
  intros _ s2.
  apply (wp_then_mounted _ _ [filepath_Join root "etc/resolv.conf"] _);
    [apply wp_bindMount_mounted|].
  intros _ s3.
  apply (wp_then_mounted _ _ [] _); [apply wp_check_mounted|].
  intros _ s4.
  apply (wp_then_mounted _ _ [] _); [apply wp_check_mounted|].
  intros _ s5.
  apply (wp_then_mounted _ _ _ _); [apply mount_each_wp|].
  intros _ s6. apply volume_each_wp.
Qed.

Lemma Run_image_wp W j0 s :
  wp (Run_image W j0)
     (fun r s' => mounted [] s (s'.1, s.2) /\ s'.2 = with_RootPath r.2 s.2)
     (fun _ s' => mounted [] s s')
     (discoverdConfigured s.1 = Open) s.
Proof.
  unfold Run_image, resolveDiscoverdURI.
  assert (Hrest : forall uri s1, mounted [] s s1 ->
    wp (bind (try (fun n => PullDocker W n uri)) (fun imageID =>
        bind (try (fun n => readDockerImageConfig W n imageID)) (fun imageConfig =>
        bind (try (fun n => Checkout W n (ID j0) imageID)) (fun rootPath =>
        bind (on_container (with_RootPath rootPath)) (fun _ =>
        ret (imageConfig, rootPath))))))
      (fun r s' => mounted [] s (s'.1, s.2) /\ s'.2 = with_RootPath r.2 s.2)
      (fun _ s' => mounted [] s s')
      (discoverdConfigured s.1 = Open) s1).
  { intros uri s1 H1.
    assert (H2 := mounted_trans _ _ _ _ _ H1 (mounted_bump s1)).
    assert (H3 := mounted_trans _ _ _ _ _ H2 (mounted_bump _)).
    assert (H4 := mounted_trans _ _ _ _ _ H3 (mounted_bump _)).
    apply wp_bind, wp_try; [intros imageID|intros e; exact H2].
    apply wp_bind, wp_try; [intros imageConfig|intros e; exact H3].
    apply wp_bind, wp_try; [intros rootPath|intros e; exact H4].
    apply wp_bind, wp_on_container, wp_ret.
    destruct H4 as (E & H4). simpl in E. simpl. rewrite E. split; [|reflexivity].
    split; [reflexivity|exact H4]. }
  apply wp_bind.
  destruct (uri_in_discoverd W (ImageArtifactURI j0)) as [[|]|e].
  - apply wp_bind, wp_wait_closed.
    + intros _. apply wp_try; [|intros e; apply mounted_bump].
      intros uri. apply Hrest, mounted_bump.
    + intros H. exact H.
  - apply wp_ret, Hrest, mounted_refl.
  - apply wp_failwith, mounted_refl.
Qed.

Lemma Run_config_wp W root img s :
  wp (Run_config filepath_Join IP_String W (job s.2) root img)
     (fun _ s' =>
        kept s s' /\ mtab s'.1 = mtab s.1 /\ goroutines s'.1 = goroutines s.1 /\
        RootPath s'.2 = RootPath s.2 /\ stateMtx s'.1 = false /\
        exists ports' env' cfg,
          assignPorts 0 (Ports (Config (job s.2))) (Env (Config (job s.2)))
            = (ports', env', None) /\
          files s'.1 = <[filepath_Join root ".containerconfig" := cfg]> (files s.1) /\
          icPorts cfg = ports' /\ icEnv cfg = written_env IP_String s env')
     (fun e s' =>
        kept s s' /\ mtab s'.1 = mtab s.1 /\ goroutines s'.1 = goroutines s.1 /\
        RootPath s'.2 = RootPath s.2 /\ files s'.1 = files s.1 /\
        (stateMtx s'.1 = true ->
         exists ports' env',
           assignPorts 0 (Ports (Config (job s.2))) (Env (Config (job s.2)))
             = (ports', env', Some e)))
     (stateMtx s.1 = true) s.
Proof.
  unfold Run_config.
  apply wp_bind, wp_assign_ports.
  - exact id.
  - intros ports' env' e Hm Hp.
    destruct s as [[] []]; simpl in *. unfold kept; simpl.
    repeat split; eauto.
  - intros ports' env' Hm Hp.
    apply wp_reading. unfold writeContainerConfig.
    apply wp_bind, wp_check.
    + apply wp_on_backend.
      destruct s as [[] []]; simpl in *. unfold kept; simpl.
      repeat split; try reflexivity.
      eexists ports', env', _. split; [exact Hp|].
      split; [reflexivity|]. split; reflexivity.
    + intros e. destruct s as [[] []]; simpl in *. unfold kept; simpl.
      repeat split; try reflexivity. discriminate.
Qed.

Lemma Run_domain_wp W j0 root s :
  wp (Run_domain W j0 root)
     (fun _ s' =>
        kept s s' /\ mtab s'.1 = mtab s.1 /\ files s'.1 = files s.1 /\
        stateMtx s'.1 = stateMtx s.1 /\ RootPath s'.2 = RootPath s.2 /\
        goroutines s'.1 = goroutines s.1 ++ [TaskWatch s'.2])
     (fun _ s' =>
        kept s s' /\ mtab s'.1 = mtab s.1 /\ files s'.1 = files s.1 /\
        stateMtx s'.1 = stateMtx s.1 /\ RootPath s'.2 = RootPath s.2 /\
        goroutines s'.1 = goroutines s.1)
     False s.
Proof.
  unfold Run_domain.
  assert (Hf : forall (s' : Backend * Container),
    s' = (bump s.1, s.2) \/ s' = (bump (bump s.1), s.2) \/
    s' = (bump (bump (bump s.1)), s.2) \/
    (exists uuid, s' = (bump (SetContainerID (ID j0) uuid (bump (bump (bump s.1)))), s.2)) ->
    kept s s' /\ mtab s'.1 = mtab s.1 /\ files s'.1 = files s.1 /\
    stateMtx s'.1 = stateMtx s.1 /\ RootPath s'.2 = RootPath s.2 /\
    goroutines s'.1 = goroutines s.1).
  { intros s' H. destruct s as [[] []].
    destruct H as [->|[->|[->|[uuid ->]]]]; unfold kept; simpl; repeat split. }
  apply wp_bind, wp_reading, wp_check; [|intros e; apply Hf; auto].
  apply wp_bind, wp_check; [|intros e; apply Hf; auto].
  apply wp_bind, wp_try; [intros uuid|intros e; apply Hf; auto].
  apply wp_bind, wp_on_backend.
  apply wp_bind, wp_try; [intros domain|intros e; apply Hf; eauto].
  apply wp_bind, wp_on_container, wp_reading, wp_on_backend.
  destruct s as [[] []]. unfold kept; simpl. repeat split.
Qed.

Lemma mounted_image_kept s s1 root :
  mounted [] s (s1.1, s.2) -> s1.2 = with_RootPath root s.2 ->
  kept s s1 /\ mtab s1.1 = mtab s.1 /\ goroutines s1.1 = goroutines s.1 /\
  stateMtx s1.1 = stateMtx s.1 /\ files s1.1 = files s.1 /\
  defaultEnv s1.1 = defaultEnv s.1 /\
  job s1.2 = job s.2 /\ RootPath s1.2 = root /\ cIP s1.2 = cIP s.2.
Proof.
  intros Hm Hc. apply mounted_kept in Hm as Hk.
  destruct Hm as (_&?&?&?&?&?&?&?&?&?&?&?&?&?).
  destruct Hk as (?&?&?&?&?&?&?&?&?&?&?).
  destruct s as [b c], s1 as [b1 c1]. simpl in *. subst c1.
  unfold kept. simpl. repeat split; assumption.
Qed.

(** What [Run] has done when its body returns: on success the init config
    is written with the ports and the env of the ports loop, and the
    watcher is started; on an error the mounts made are on paths that
    [unbindMounts] unmounts, and what [cleanup] reads is as it was.  The
    body blocks only on the state mutex or on discoverd. *)
Lemma Run_body_summary W s :
  wp (Run_body W)
     (fun _ s' =>
        kept s s' /\ goroutines s'.1 = goroutines s.1 ++ [TaskWatch s'.2] /\
        stateMtx s'.1 = false /\
        exists root ports' env' cfg,
          assignPorts 0 (Ports (Config (job s.2))) (Env (Config (job s.2)))
            = (ports', env', None) /\
          files s'.1 !! filepath_Join root ".containerconfig" = Some cfg /\
          icPorts cfg = ports' /\ icEnv cfg = written_env IP_String s env')
     (fun e s' =>
        kept s s' /\ goroutines s'.1 = goroutines s.1 /\
        (exists c, mtab s'.1 = c ++ mtab s.1 /\
                   c ⊆+ unbind_targets filepath_Join s'.2) /\
        (stateMtx s.1 = false -> stateMtx s'.1 = true ->
         exists ports' env',
           assignPorts 0 (Ports (Config (job s.2))) (Env (Config (job s.2)))
             = (ports', env', Some e)))
     (stateMtx s.1 = true \/ discoverdConfigured s.1 = Open) s.
Proof.
  unfold Backend.Run_body. apply wp_reading. cbv zeta. apply wp_bind.
  eapply wp_mono; [apply Run_image_wp| | |auto].
  2:{ intros e s' Hm. simpl in Hm. split; [exact (mounted_kept _ _ _ Hm)|].
      destruct Hm as (_&Hmt&?&?&Hx&?&?&?&?&?&?&?&?&?).
      split; [assumption|].
      split; [exists []; split; [exact Hmt|apply submseteq_nil_l]|].
      intros Hfree Hheld. congruence. }
  intros [img root] s1 (Hm1 & Hc1). simpl in Hc1. cbn [fst snd].
  destruct (mounted_image_kept s s1 root Hm1 Hc1)
    as (Hk1 & Hmt1 & Hg1 & Hmx1 & Hf1 & Hde1 & Hj1 & Hr1 & Hip1).
  apply wp_bind.
  eapply wp_mono; [apply (Run_mounts_wp W (job s.2) root s1 Hr1 Hj1)| | |tauto].
  2:{ intros e s2 (c & Hc & Hm2). apply mounted_kept in Hm2 as Hk2.
      destruct Hm2 as (E2&Hmt2&?&?&Hx&?&?&?&?&?&?&?&Hg2&?).
      split; [eapply kept_trans; eauto|].
      split; [congruence|].
      split; [exists c; split; [congruence|rewrite E2; exact Hc]|].
      intros Hfree Hheld. congruence. }
  intros _ s2 (c & Hc & Hm2). apply mounted_kept in Hm2 as Hk2.
  destruct Hm2 as (E2&Hmt2&_&_&Hmx2&_&_&Hde2&_&_&_&Hf2&Hg2&_).
  apply wp_bind.
  replace (job s.2) with (job s2.2) by congruence.
  assert (Htargets : forall s', kept s2 s' -> RootPath s'.2 = RootPath s2.2 ->
            c ⊆+ unbind_targets filepath_Join s'.2).
  { intros s' (_&_&_&_&_&_&_&_&HM&HV&_) HR.
    rewrite (unbind_targets_eq s2.2 s'.2 HR HM HV), E2. exact Hc. }
  eapply wp_mono; [apply (Run_config_wp W root img s2)| | |].
  3:{ intros Hmx. left. congruence. }
  2:{ intros e s3 (Hk3 & Hmt3 & Hg3 & Hr3 & _ & Hx3).
      split; [eauto using kept_trans|]. split; [congruence|].
      split; [exists c; split; [congruence|apply Htargets; assumption]|].
      intros _ H2. destruct (Hx3 H2) as (ports' & env' & Hp).
      exists ports', env'. rewrite <- Hp. congruence. }
  intros _ s3 (Hk3 & Hmt3 & Hg3 & Hr3 & Hmx3 & Hcfg).
  eapply wp_mono; [apply (Run_domain_wp W _ root s3)| | |tauto].
  2:{ intros e s4 (Hk4 & Hmt4 & _ & Hx4 & Hr4 & Hg4).
      split; [eauto using kept_trans|]. split; [congruence|].
      split; [exists c; split; [congruence|];
              apply Htargets; [eauto using kept_trans|congruence]|].
      intros _ H2. congruence. }
  intros _ s4 (Hk4 & Hmt4 & Hf4 & Hmx4 & Hr4 & Hg4).
  split; [eauto using kept_trans|]. split; [congruence|]. split; [congruence|].
  destruct Hcfg as (ports' & env' & cfg & Hp & Hfiles & Hports & Henv).
  exists root, ports', env', cfg.
  split; [congruence|].
  split; [rewrite Hf4, Hfiles; apply lookup_insert_eq|].
  split; [exact Hports|].
  rewrite Henv. unfold written_env.
  rewrite E2, Hj1, Hip1, Hde2, Hde1. reflexivity.
Qed.

(** *** Unmounting *)

Lemma umount_submseteq path tab : umount path tab ⊆+ tab.
Proof.
  induction tab as [|m tab IH]; simpl; [reflexivity|].
  case_bool_decide.
  - apply submseteq_cons. reflexivity.
  - apply submseteq_skip, IH.
Qed.

Lemma umount_app_in path c tab :
  path ∈ c -> umount path (c ++ tab) = umount path c ++ tab.
Proof.
  induction c as [|m c IH]; simpl; intros Hin.
  - apply elem_of_nil in Hin. contradiction.
  - case_bool_decide; [reflexivity|].
    apply elem_of_cons in Hin as [->|Hin]; [contradiction|].
    rewrite IH by exact Hin. reflexivity.
Qed.

Lemma umount_app_notin path c tab :
  path ∉ c -> umount path (c ++ tab) = c ++ umount path tab.
Proof.
  induction c as [|m c IH]; simpl; intros Hin; [reflexivity|].
  apply not_elem_of_cons in Hin as [Hne Hin].
  rewrite bool_decide_eq_false_2 by congruence.
  rewrite IH by exact Hin. reflexivity.
Qed.

Lemma umount_Permutation path c : path ∈ c -> c ≡ₚ path :: umount path c.
Proof.
  induction c as [|m c IH]; simpl; intros Hin.
  - apply elem_of_nil in Hin. contradiction.
  - case_bool_decide as Hm; [subst; reflexivity|].
    apply elem_of_cons in Hin as [->|Hin]; [contradiction|].
    rewrite (IH Hin) at 1. apply Permutation_swap.
Qed.

(** Unmounting every target takes away the mounts made on targets, and
    makes no mount. *)
Lemma umount_targets targets : forall c tab,
  c ⊆+ targets ->
  foldl (fun t p => umount p t) (c ++ tab) targets ⊆+ tab.
Proof.
  induction targets as [|t targets IH]; intros c tab Hc; simpl.
  - apply submseteq_nil_r in Hc. subst. reflexivity.
  - destruct (decide (t ∈ c)) as [Hin|Hin].
    + rewrite umount_app_in by exact Hin. apply IH.
      rewrite (umount_Permutation t c Hin) in Hc.
      apply (submseteq_app_inv_l _ _ [t]). exact Hc.
    + rewrite umount_app_notin by exact Hin.
      etransitivity; [apply IH|apply umount_submseteq].
      apply submseteq_cons_r in Hc as [Hc|(l' & Hl' & _)]; [exact Hc|].
      exfalso. apply Hin. rewrite Hl'. left.
Qed.

Lemma cleanup_mtab c b :
  mtab (cleanup c b)
  = foldl (fun t p => umount p t) (mtab b) (unbind_targets filepath_Join c).
Proof.
  unfold Backend.cleanup, unbindMounts. destruct b; simpl.
  repeat match goal with
         | |- context [if ?x then _ else _] => destruct x
         | |- context [match cIP c with _ => _ end] => destruct (cIP c)
         end; reflexivity.
Qed.

Lemma cleanup_ipalloc c b :
  ipalloc (cleanup c b)
  = if negb (HostNetwork (Config (job c))) && bool_decide (bridgeNet (settings b) ≠ None)
    then match cIP c with Some ip => ipalloc b ∖ {[ip]} | None => ipalloc b end
    else ipalloc b.
Proof.
  unfold Backend.cleanup, unbindMounts. destruct b; simpl.
  repeat match goal with
         | |- context [if ?x then _ else _] => destruct x
         | |- context [match cIP c with _ => _ end] => destruct (cIP c)
         end; reflexivity.
Qed.

(** *** [Run] and its errors *)

(** The deferred [SetStatusFailed] of [Run] returns only when the state
    mutex is free. *)
Lemma Run_deferred_Done (id : string) (e e0 : error) (c : Container)
    (b2 b' : Backend) :
  (b'' ← state_call (SetStatusFailed id e) (spawn (TaskCleanup c) b2);
   Done (Some e, b'')) = Done (Some e0, b') ->
  stateMtx b2 = false /\ e0 = e /\
  b' = SetStatusFailed id e (spawn (TaskCleanup c) b2).
Proof.
  unfold state_call.
  replace (stateMtx (spawn (TaskCleanup c) b2)) with (stateMtx b2)
    by (destruct b2; reflexivity).
  destruct (stateMtx b2); [discriminate|].
  intros H. inversion H; subst. auto.
Qed.

Lemma Run_deferred_not_nil (id : string) (e : error) (c : Container)
    (b2 b' : Backend) :
  (b'' ← state_call (SetStatusFailed id e) (spawn (TaskCleanup c) b2);
   Done (Some e, b'')) <> Done (None, b').
Proof.
  unfold state_call. destruct (stateMtx (spawn (TaskCleanup c) b2)); discriminate.
Qed.

Lemma Run_deferred_Blocks (id : string) (e : error) (c : Container) (b2 : Backend) :
  stateMtx b2 = true ->
  (b'' ← state_call (SetStatusFailed id e) (spawn (TaskCleanup c) b2);
   Done (Some e, b'')) = (Blocks : outcome (option error * Backend)).
Proof.
  intros H. unfold state_call.
  replace (stateMtx (spawn (TaskCleanup c) b2)) with (stateMtx b2)
    by (destruct b2; reflexivity).
  rewrite H. reflexivity.
Qed.


(** *** The ports *)

Lemma Itoa_inj (a b : Z) : Itoa a = Itoa b -> a = b.
Proof.
  unfold Itoa. intros H.
  assert (Hint : Z.to_int a = Z.to_int b).
  { apply (f_equal NilEmpty.int_of_string) in H.
    rewrite !NilEmpty.isi in H. congruence. }
  apply (f_equal Z.of_int) in Hint. rewrite !DecimalZ.of_to in Hint. exact Hint.
Qed.

Lemma port_key_inj (i k : nat) : port_key i = port_key k -> i = k.
Proof.
  unfold port_key. intros H. simpl in H. injection H as H.
  apply Itoa_inj in H. lia.
Qed.

Lemma port_key_not_PORT (i : nat) : port_key i <> "PORT".
Proof. unfold port_key. simpl. discriminate. Qed.

Lemma port_key_not_HOSTNAME (i : nat) : port_key i <> "HOSTNAME".
Proof. unfold port_key. simpl. discriminate. Qed.

Lemma port_key_not_EXTERNAL_IP (i : nat) : port_key i <> "EXTERNAL_IP".
Proof. unfold port_key. simpl. discriminate. Qed.

Lemma known_proto_test (p : Port) :
  negb (String.eqb (Proto p) "tcp") && negb (String.eqb (Proto p) "udp") = false
  <-> known_proto p.
Proof.
  unfold known_proto.
  destruct (String.eqb_spec (Proto p) "tcp"), (String.eqb_spec (Proto p) "udp");
    simpl; split; auto; intros H; try discriminate; destruct H; contradiction.
Qed.

(** The loop over the ports.  It gives up at the first port whose proto is
    neither tcp nor udp; otherwise it leaves each port with its own number
    or, for 0, with 5000 plus its index, and has written [PORT_<i>] for
    each and [PORT] for the first, without touching another key. *)
Lemma assignPorts_spec ports : forall i env ports' env' err,
  assignPorts i ports env = (ports', env', err) ->
  match err with
  | None =>
      Forall known_proto ports /\
      length ports' = length ports /\
      (forall k p, ports !! k = Some p ->
                   ports' !! k = Some (default_port (i + k) p)) /\
      (forall k p', ports' !! k = Some p' ->
                    env' !! port_key (i + k) = Some (Itoa (PortNum p'))) /\
      (i = 0%nat -> forall p', ports' !! 0%nat = Some p' ->
                    env' !! "PORT" = Some (Itoa (PortNum p'))) /\
      (forall key,
         (forall k, (k < length ports)%nat -> key <> port_key (i + k)) ->
         (i = 0%nat -> ports <> [] -> key <> "PORT") ->
         env' !! key = env !! key)
  | Some e =>
      exists pre p post,
        ports = pre ++ p :: post /\ Forall known_proto pre /\
        ~ known_proto p /\ e = "unknown port proto " +:+ quote (Proto p)
  end.
Proof.
  induction ports as [|p rest IH]; intros i env ports' env' err; simpl.
  - intros H; inversion H; subst.
    repeat split; auto; try (intros k p'; rewrite lookup_nil; discriminate);
      try (intros _ p'; rewrite lookup_nil; discriminate).
  - destruct (negb (String.eqb (Proto p) "tcp") && negb (String.eqb (Proto p) "udp"))
      eqn:Hproto.
    { intros H; inversion H; subst. exists [], p, rest.
      repeat split; auto.
      intros Hk. apply known_proto_test in Hk. congruence. }
    apply known_proto_test in Hproto.
    set (p1 := if PortNum p =? 0
               then {| Proto := Proto p; PortNum := 5000 + Z.of_nat i |} else p).
    set (env1 := match i with
                 | O => <["PORT" := Itoa (PortNum p1)]> env
                 | S _ => env
                 end).
    set (env2 := <["PORT_" +:+ Itoa (Z.of_nat i) := Itoa (PortNum p1)]> env1).
    destruct (assignPorts (S i) rest env2) as [[rest' env''] err'] eqn:Hrec.
    intros H; inversion H; subst ports' env' err. clear H.
    specialize (IH _ _ _ _ _ Hrec).
    destruct err' as [e|].
    { destruct IH as (pre & q & post & -> & Hpre & Hq & He).
      exists (p :: pre), q, post. repeat split; auto. }
    destruct IH as (Hall & Hlen & Hports & Henv & _ & Hframe).
    assert (Hkey_i : env'' !! port_key i = Some (Itoa (PortNum p1))).
    { rewrite Hframe.
      - unfold env2. apply lookup_insert_eq.
      - intros k _ Heq. apply port_key_inj in Heq. lia.
      - intros Hi. discriminate Hi. }
    split; [constructor; assumption|].
    split; [simpl; congruence|].
    split; [|split; [|split]].
    + intros [|k] q; simpl.
      * intros Hq; inversion Hq; subst q. rewrite Nat.add_0_r. reflexivity.
      * intros Hq. rewrite (Hports k q Hq). do 2 f_equal. lia.
    + intros [|k] q; simpl.
      * intros Hq; inversion Hq; subst q. rewrite Nat.add_0_r. exact Hkey_i.
      * intros Hq. rewrite <- (Henv k q Hq). f_equal. f_equal. lia.
    + intros -> q. simpl. intros Hq; inversion Hq; subst q.
      rewrite Hframe.
      * unfold env2. rewrite lookup_insert_ne by exact (port_key_not_PORT 0).
        unfold env1. apply lookup_insert_eq.
      * intros k _. apply not_eq_sym, port_key_not_PORT.
      * intros Hi. discriminate Hi.
    + intros key Hkeys Hport.
      rewrite Hframe.
      * unfold env2.
        rewrite lookup_insert_ne.
        2:{ specialize (Hkeys 0%nat). rewrite Nat.add_0_r in Hkeys.
            apply not_eq_sym, Hkeys. simpl. lia. }
        unfold env1. destruct i; [|reflexivity].
        rewrite lookup_insert_ne; [reflexivity|].
        apply not_eq_sym, Hport; [reflexivity|discriminate].
      * intros k Hk. replace (S i + k)%nat with (i + S k)%nat by lia.
        apply Hkeys. simpl. lia.
      * intros Hi. discriminate Hi.
Qed.

Lemma merge_envs_4 (a b c d : gmap string string) :
  merge_envs [a; b; c; d] = d ∪ (c ∪ (b ∪ (a ∪ ∅))).
Proof. reflexivity. Qed.

(** The env of the job reaches the init config, but for [HOSTNAME]. *)
Lemma written_env_lookup s (env' : gmap string string) key v :
  key <> "HOSTNAME" -> key <> "EXTERNAL_IP" ->
  env' !! key = Some v ->
  written_env IP_String s env' !! key = Some v.
Proof.
  intros Hh He Hk. unfold written_env. rewrite merge_envs_4.
  rewrite lookup_union_r by (apply lookup_singleton_ne; congruence).
  apply lookup_union_Some_l.
  destruct (negb (HostNetwork (Config (job s.2)))); [|exact Hk].
  rewrite lookup_insert_ne by congruence. exact Hk.
Qed.

(** [Run], past its checks, is its body run on a fresh container. *)
Lemma Run_Done_inv W j hint b aj r b' :
  GetJob (ID j) b = Some aj -> ForceStop aj = false ->
  Run W j hint b = Done (r, b') ->
  (exists e, r = Some e /\ stateMtx b' = stateMtx b) \/
  (exists s1 res s2,
     Run_body W s1 = Done (res, s2) /\
     Config (job s1.2) = Config j /\ ID (job s1.2) = ID j /\
     stateMtx s1.1 = stateMtx b /\
     match res with
     | Val _ => r = None /\ b' = s2.1
     | Fail e => r = Some e /\ stateMtx b' = stateMtx s2.1 /\ stateMtx s2.1 = false
     end).
Proof.
  intros Haj Hfs. unfold Backend.Run. rewrite Haj, Hfs.
  set (j1 := if bool_decide (Partition j = "") then with_Partition defaultPartition j else j).
  assert (Hj1 : ID j1 = ID j /\ Config j1 = Config j)
    by (unfold j1; case_bool_decide; split; reflexivity).
  destruct Hj1 as [Hid1 Hcfg1].
  destruct (partitionCGroups (settings b) !! Partition j1).
  2:{ intros H; inversion H; subst. left. eexists. split; [reflexivity|].
      destruct b; reflexivity. }
  rewrite Hcfg1.
  destruct (if HostNetwork (Config j) then Done tt else recv (networkConfigured b));
    [|discriminate|discriminate]. simpl.
  destruct (if bool_decide (is_Some (Env (Config j) !! "DISCOVERD"))
            then Done tt else recv (discoverdConfigured b));
    [|discriminate|discriminate]. simpl.
  set (c0 := {| RootPath := ""; cDomain := None; cIP := None; job := j1; done := false |}).
  set (alloc := if HostNetwork (Config j) then Val (b, c0)
                else match RequestIP W (tick b) (ipalloc b) hint with
                     | Val ip => Val (SetContainerIP (ID j) ip
                                        (bump (set_ipalloc (fun s => {[ip]} ∪ s) b)),
                                      with_IP (Some ip) c0)
                     | Fail e => Fail e
                     end).
  assert (Halloc : forall s1, alloc = Val s1 ->
            Config (job s1.2) = Config j /\ ID (job s1.2) = ID j /\
            stateMtx s1.1 = stateMtx b).
  { unfold alloc. intros s1.
    destruct (HostNetwork (Config j)).
    - intros H; inversion H; subst. simpl. auto.
    - destruct (RequestIP W (tick b) (ipalloc b) hint); [|discriminate].
      intros H; inversion H; subst. simpl. destruct b; auto. }
  destruct alloc as [s1|e].
  2:{ intros H; inversion H; subst. left. eexists. split; [reflexivity|].
      destruct b; reflexivity. }
  destruct (Halloc s1 eq_refl) as (Hc & Hi & Hm).
  destruct (Backend.Run_body filepath_Join IP_String W s1) as [[res s2]| |] eqn:Hbody;
    simpl; [|discriminate|discriminate].
  intros H. right. exists s1, res, s2.
  split; [exact Hbody|]. split; [exact Hc|]. split; [exact Hi|]. split; [exact Hm|].
  destruct res as [[]|e]; [inversion H; subst; split; reflexivity|].
  destruct s2 as [b2 c2]. simpl in H.
  assert (Hr : exists e0, r = Some e0) by
    (unfold state_call in H; destruct (stateMtx (spawn (TaskCleanup c2) b2));
     simpl in H; [discriminate|]; inversion H; eauto).
  destruct Hr as [e0 ->].
  apply Run_deferred_Done in H as (Hm2 & -> & ->).
  split; [reflexivity|]. split; [|exact Hm2].
  destruct b2; reflexivity.
Qed.

Lemma first_unknown_proto (ports : list Port) :
  Exists (fun p => ~ known_proto p) ports ->
  exists pre p post,
    ports = pre ++ p :: post /\ Forall known_proto pre /\ ~ known_proto p.
Proof.
  induction ports as [|q ports IH]; intros Hex; [inversion Hex|].
  destruct (known_proto_test q) as [Hk1 Hk2].
  destruct (negb (String.eqb (Proto q) "tcp") && negb (String.eqb (Proto q) "udp"))
    eqn:Hq.
  - exists [], q, ports. repeat split; [constructor|].
    intros Hk. specialize (Hk2 Hk). discriminate.
  - specialize (Hk1 eq_refl).
    inversion Hex as [? ? Hbad|? ? Hrest]; subst; [contradiction|].
    destruct (IH Hrest) as (pre & p & post & -> & Hpre & Hp).
    exists (q :: pre), p, post. repeat split; [constructor; assumption|exact Hp].
Qed.

Lemma assignPorts_first_unknown pre p post : forall i env,
  Forall known_proto pre -> ~ known_proto p ->
  (assignPorts i (pre ++ p :: post) env).2
  = Some ("unknown port proto " +:+ quote (Proto p)).
Proof.
  induction pre as [|q pre IH]; intros i env Hpre Hp; simpl.
  - destruct (negb (String.eqb (Proto p) "tcp") && negb (String.eqb (Proto p) "udp"))
      eqn:Hq; [reflexivity|].
    apply known_proto_test in Hq. contradiction.
  - inversion Hpre as [|? ? Hq Hrest]; subst.
    apply known_proto_test in Hq. rewrite Hq.
    match goal with
    | |- context [assignPorts (S i) _ ?e] =>
        specialize (IH (S i) e Hrest Hp);
        destruct (assignPorts (S i) (pre ++ p :: post) e) as [[rest' env'] err]
    end.
    simpl in *. exact IH.
Qed.

(** *** Getting as far as the ports *)

Lemma succeeds_bind {A B} (m : act A) (f : A -> act B)
    (I : Backend * Container -> Prop) Q s :
  succeeds m (fun _ s' => I s') s -> (forall a s', I s' -> succeeds (f a) Q s') ->
  succeeds (bind m f) Q s.
Proof.
  unfold succeeds, bind. intros Hm Hf.
  destruct (m s) as [[[a|e] s']| |]; try contradiction. apply Hf, Hm.
Qed.

Lemma succeeds_bind_val {A B} (m : act A) (f : A -> act B)
    (R : A -> Backend * Container -> Prop) Q s :
  succeeds m R s -> (forall a s', R a s' -> succeeds (f a) Q s') ->
  succeeds (bind m f) Q s.
Proof.
  unfold succeeds, bind. intros Hm Hf.
  destruct (m s) as [[[a|e] s']| |]; try contradiction. apply Hf, Hm.
Qed.

Lemma succeeds_try {A} (f : nat -> res A) (I : Backend * Container -> Prop) s :
  (exists a, f (tick s.1) = Val a) -> I (bump s.1, s.2) ->
  succeeds (try f) (fun _ s' => I s') s.
Proof. unfold succeeds, try. intros (a & ->) H. exact H. Qed.

Lemma succeeds_check (f : nat -> option error) (I : Backend * Container -> Prop) s :
  f (tick s.1) = None -> I (bump s.1, s.2) -> succeeds (check f) (fun _ s' => I s') s.
Proof. unfold succeeds, check. intros -> H. exact H. Qed.

Lemma succeeds_bindMount W src dest (I : Backend * Container -> Prop) s :
  bindMount_res W (tick s.1) src dest = BindOk ->
  I (bump (set_mtab (cons dest) s.1), s.2) ->
  succeeds (bindMount W src dest) (fun _ s' => I s') s.
Proof. unfold succeeds, bindMount. intros -> H. exact H. Qed.

Lemma untouched_bump s s0 : untouched s0 s -> untouched s0 (bump s.1, s.2).
Proof. destruct s as [[] c]. exact id. Qed.

Lemma untouched_mount dest s s0 :
  untouched s0 s -> untouched s0 (bump (set_mtab (cons dest) s.1), s.2).
Proof. destruct s as [[] c]. exact id. Qed.

Lemma mount_each_succeeds W root ms : forall s s0,
  (forall n src dest, bindMount_res W n src dest = BindOk) ->
  (forall n path, MkdirAll W n path = None) ->
  Forall (fun m => Target m <> "") ms ->
  untouched s0 s ->
  succeeds (mount_each filepath_Join W root ms) (fun _ s' => untouched s0 s') s.
Proof.
  induction ms as [|m ms IH]; intros s s0 Hb Hd Hms Hu; simpl; [exact Hu|].
  inversion Hms as [|? ? Ht Hrest]; subst.
  apply (succeeds_bind _ _ (untouched s0)).
  { apply succeeds_check; [apply Hd|]. apply (untouched_bump s s0 Hu). }
  intros _ s1 Hu1.
  rewrite bool_decide_eq_false_2 by exact Ht.
  apply (succeeds_bind _ _ (untouched s0)); [exact Hu1|]. intros _ s2 Hu2.
  apply (succeeds_bind _ _ (untouched s0)).
  { apply succeeds_bindMount; [apply Hb|]. apply (untouched_mount _ s2 s0 Hu2). }
  intros _ s3 Hu3. apply IH; assumption.
Qed.

Lemma volume_each_succeeds W id root vs : forall s s0,
  (forall n src dest, bindMount_res W n src dest = BindOk) ->
  (forall n path, MkdirAll W n path = None) ->
  Forall (fun v => forall n, is_Some (GetVolume W n (VolumeID v))) vs ->
  untouched s0 s ->
  succeeds (volume_each filepath_Join W id root vs) (fun _ s' => untouched s0 s') s.
Proof.
  induction vs as [|v vs IH]; intros s s0 Hb Hd Hvs Hu; simpl; [exact Hu|].
  inversion Hvs as [|? ? Hv Hv']; subst.
  destruct (Hv (tick s.1)) as [loc Hloc].
  apply (succeeds_bind_val _ _ (fun a s' => a = Some loc /\ untouched s0 s')).
  { unfold succeeds, try. rewrite Hloc. split; [reflexivity|].
    apply (untouched_bump s s0 Hu). }
  intros vol s1 [-> Hu1].
  apply (succeeds_bind _ _ (untouched s0)).
  { apply succeeds_check; [apply Hd|]. apply (untouched_bump s1 s0 Hu1). }
  intros _ s2 Hu2.
  apply (succeeds_bind _ _ (untouched s0)).
  { apply succeeds_bindMount; [apply Hb|]. apply (untouched_mount _ s2 s0 Hu2). }
  intros _ s3 Hu3. apply IH; assumption.
Qed.

Lemma Run_image_succeeds W j0 s :
  quiet_before_ports W j0 -> discoverdConfigured s.1 = Closed ->
  succeeds (Run_image W j0)
    (fun r s' => untouched s s' /\ RootPath s'.2 = r.2) s.
Proof.
  intros (_ & Hu & Hr & Hp & Hc & Hk & _) Hd.
  unfold Run_image, resolveDiscoverdURI.
  assert (Hrest : forall uri s1, untouched s s1 ->
    succeeds (bind (try (fun n => PullDocker W n uri)) (fun imageID =>
        bind (try (fun n => readDockerImageConfig W n imageID)) (fun imageConfig =>
        bind (try (fun n => Checkout W n (ID j0) imageID)) (fun rootPath =>
        bind (on_container (with_RootPath rootPath)) (fun _ =>
        ret (imageConfig, rootPath))))))
      (fun r s' => untouched s s' /\ RootPath s'.2 = r.2) s1).
  { intros uri s1 Hu1. unfold succeeds, bind, try, on_container, ret.
    destruct (Hp (tick s1.1) uri) as [imageID ->].
    destruct (Hc (tick (bump s1.1)) imageID) as [img Himg].
    simpl. rewrite Himg.
    destruct (Hk (tick (bump (bump s1.1))) (ID j0) imageID) as [root Hroot].
    simpl. rewrite Hroot. simpl.
    split; [|reflexivity]. destruct s1 as [[] c1]. exact Hu1. }
  destruct (Hu (ImageArtifactURI j0)) as [[] ->].
  - apply (succeeds_bind_val _ _ (fun _ s' => untouched s s')).
    + unfold succeeds, bind, wait_closed, try. rewrite Hd.
      destruct (Hr (tick s.1) (ImageArtifactURI j0)) as [uri ->].
      destruct s as [[] c]. split; reflexivity.
    + intros uri s1 Hu1. apply Hrest, Hu1.
  - apply (succeeds_bind_val _ _ (fun _ s' => untouched s s')).
    + unfold succeeds, ret. split; reflexivity.
    + intros uri s1 Hu1. apply Hrest, Hu1.
Qed.

Lemma Run_mounts_succeeds W j0 root s s0 :
  quiet_before_ports W j0 -> untouched s0 s ->
  succeeds (Run_mounts filepath_Join W j0 root) (fun _ s' => untouched s0 s') s.
Proof.
  intros (_ & _ & _ & _ & _ & _ & Hb & Hd & Hw & Hv & Hms) Hu.
  unfold Run_mounts, reading.
  apply (succeeds_bind _ _ (untouched s0)).
  { apply succeeds_bindMount; [apply Hb|]. apply (untouched_mount _ s s0 Hu). }
  intros _ s1 Hu1.
  apply (succeeds_bind _ _ (untouched s0)).
  { apply succeeds_check; [apply Hd|]. apply (untouched_bump s1 s0 Hu1). }
  intros _ s2 Hu2.
  apply (succeeds_bind _ _ (untouched s0)).
  { apply succeeds_bindMount; [apply Hb|]. apply (untouched_mount _ s2 s0 Hu2). }
  intros _ s3 Hu3.
  apply (succeeds_bind _ _ (untouched s0)).
  { apply succeeds_check; [apply Hw|]. apply (untouched_bump s3 s0 Hu3). }
  intros _ s4 Hu4.
  apply (succeeds_bind _ _ (untouched s0)).
  { apply succeeds_check; [apply Hd|]. apply (untouched_bump s4 s0 Hu4). }
  intros _ s5 Hu5.
  apply (succeeds_bind _ _ (untouched s0)).
  { apply mount_each_succeeds; assumption. }
  intros _ s6 Hu6. apply volume_each_succeeds; assumption.
Qed.

(** With a port of unknown proto, the body of [Run] returns the error of
    the ports loop from inside the block that holds the state mutex. *)
Lemma Run_body_unknown_proto W s pre p post :
  quiet_before_ports W (job s.2) ->
  stateMtx s.1 = false -> discoverdConfigured s.1 = Closed ->
  Ports (Config (job s.2)) = pre ++ p :: post ->
  Forall known_proto pre -> ~ known_proto p ->
  exists s',
    Run_body W s = Done (Fail ("unknown port proto " +:+ quote (Proto p)), s') /\
    stateMtx s'.1 = true.
Proof.
  intros Hq Hm Hd Hports Hpre Hp.
  unfold Backend.Run_body, reading. cbv zeta.
  pose proof (Run_image_succeeds W (job s.2) s Hq Hd) as Hi.
  unfold succeeds in Hi. unfold bind at 1.
  destruct (Run_image W (job s.2) s) as [[[[img root]|e] s1]| |]; try contradiction.
  destruct Hi as [Hu1 Hroot].
  pose proof (Run_mounts_succeeds W (job s.2) root s1 s Hq Hu1) as Hmo.
  unfold succeeds in Hmo. unfold bind at 1. cbn [fst snd].
  destruct (Run_mounts filepath_Join W (job s.2) root s1) as [[[[]|e] s2]| |];
    try contradiction.
  destruct Hmo as [Hm2 Hj2].
  unfold bind at 1. unfold Run_config. unfold bind at 1.
  unfold assign_ports_locked. destruct s2 as [b2 c2]. simpl in Hm2, Hj2.
  rewrite Hm2, Hm, Hj2.
  pose proof (assignPorts_first_unknown pre p post 0 (Env (Config (job s.2))) Hpre Hp)
    as Hfirst.
  rewrite <- Hports in Hfirst.
  destruct (assignPorts 0 (Ports (Config (job s.2))) (Env (Config (job s.2))))
    as [[ports' env'] err].
  simpl in Hfirst. subst err.
  eexists. split; [reflexivity|]. destruct b2; reflexivity.
Qed.

(** C8.  The ports of a job that is not force-stopped.  When [Run]
    returns nil, every requested port has the proto tcp or udp, and the
    init config it has written holds all the ports, each with its own
    number or, for 0, with 5000 plus its index, and an env with
    [PORT_<i>] set to the number of each port and [PORT] to that of the
    first; with the ports tcp 0 and udp 0 these are tcp 5000 and udp 5001
    and PORT=5000, PORT_0=5000, PORT_1=5001.  When a requested port has
    another proto, the ports loop returns the error "unknown port proto"
    for the first such port, but [Run] does not give it to its caller: the
    [return] leaves the state mutex held, the deferred [SetStatusFailed]
    waits for that mutex, and [Run] never returns, on any host where the
    calls before the ports succeed. *)
Theorem Run_unknown_proto_deadlocks (W : World) (j : Job) (hint : option IP)
    (b : Backend) (aj : ActiveJob) :
  GetJob (ID j) b = Some aj -> ForceStop aj = false ->
  (forall b',
     Run W j hint b = Done (None, b') ->
     Forall known_proto (Ports (Config j)) /\
     exists root cfg,
       files b' !! filepath_Join root ".containerconfig" = Some cfg /\
       length (icPorts cfg) = length (Ports (Config j)) /\
       (forall k p, Ports (Config j) !! k = Some p ->
                    icPorts cfg !! k = Some (default_port k p)) /\
       (forall k p', icPorts cfg !! k = Some p' ->
                     icEnv cfg !! port_key k = Some (Itoa (PortNum p'))) /\
       (forall p', icPorts cfg !! 0%nat = Some p' ->
                   icEnv cfg !! "PORT" = Some (Itoa (PortNum p')))) /\
  (Ports (Config j) = [ {| Proto := "tcp"; PortNum := 0 |};
                        {| Proto := "udp"; PortNum := 0 |} ] ->
   forall b',
     Run W j hint b = Done (None, b') ->
     exists root cfg,
       files b' !! filepath_Join root ".containerconfig" = Some cfg /\
       icPorts cfg = [ {| Proto := "tcp"; PortNum := 5000 |};
                       {| Proto := "udp"; PortNum := 5001 |} ] /\
       icEnv cfg !! "PORT" = Some "5000" /\
       icEnv cfg !! "PORT_0" = Some "5000" /\
       icEnv cfg !! "PORT_1" = Some "5001") /\
  (Exists (fun p => ~ known_proto p) (Ports (Config j)) ->
     exists pre p post,
       Ports (Config j) = pre ++ p :: post /\
       Forall known_proto pre /\ ~ known_proto p /\
       (forall env,
          (assignPorts 0 (Ports (Config j)) env).2
          = Some ("unknown port proto " +:+ quote (Proto p))) /\
       (forall b', Run W j hint b <> Done (None, b')) /\
       (forall r b', stateMtx b = false ->
          Run W j hint b = Done (r, b') -> stateMtx b' = false) /\
       (quiet_before_ports W j -> stateMtx b = false ->
        is_Some (partitionCGroups (settings b)
                   !! (if bool_decide (Partition j = "")
                       then defaultPartition else Partition j)) ->
        (HostNetwork (Config j) = true \/ networkConfigured b = Closed) ->
        discoverdConfigured b = Closed ->
        Run W j hint b = Blocks)).
Proof.
  intros Haj Hfs.
  assert (Hok : forall b', Run W j hint b = Done (None, b') ->
    exists s1 root ports' env' cfg,
      Config (job s1.2) = Config j /\
      assignPorts 0 (Ports (Config j)) (Env (Config j)) = (ports', env', None) /\
      files b' !! filepath_Join root ".containerconfig" = Some cfg /\
      icPorts cfg = ports' /\ icEnv cfg = written_env IP_String s1 env').
  { intros b' Hrun.
    destruct (Run_Done_inv W j hint b aj None b' Haj Hfs Hrun)
      as [(e & He & _)|(s1 & res & s2 & Hbody & Hc & Hi & Hm & Hres)];
      [discriminate|].
    pose proof (Run_body_summary W s1) as Hsum. unfold wp in Hsum.
    rewrite Hbody in Hsum.
    destruct res as [[]|e]; [|destruct Hres; discriminate].
    destruct Hres as [_ ->].
    destruct Hsum as (_ & _ & _ & root & ports' & env' & cfg & Hp & Hf & Hports & Henv).
    rewrite Hc in Hp. exists s1, root, ports', env', cfg. auto. }
  split; [|split].
  - intros b' Hrun.
    destruct (Hok b' Hrun) as (s1 & root & ports' & env' & cfg & Hc & Hp & Hf & Hports & Henv).
    apply assignPorts_spec in Hp as (Hall & Hlen & Hdef & Hkeys & Hport & _).
    split; [exact Hall|]. exists root, cfg. rewrite Hports, Henv.
    split; [exact Hf|]. split; [exact Hlen|]. split; [exact Hdef|]. split.
    + intros k p' Hk. apply written_env_lookup.
      * apply port_key_not_HOSTNAME.
      * apply port_key_not_EXTERNAL_IP.
      * apply (Hkeys k p' Hk).
    + intros p' Hp'. apply written_env_lookup; [discriminate|discriminate|].
      apply Hport; [reflexivity|exact Hp'].
  - intros Hports b' Hrun.
    destruct (Hok b' Hrun) as (s1 & root & ports' & env' & cfg & Hc & Hp & Hf & Hicp & Henv).
    rewrite Hports in Hp. simpl in Hp.
    assert (Hp1 : ports' = [ {| Proto := "tcp"; PortNum := 5000 |};
                             {| Proto := "udp"; PortNum := 5001 |} ])
      by (inversion Hp; reflexivity).
    assert (Hp2 : env' = <["PORT_1" := "5001"]>
                           (<["PORT_0" := "5000"]>
                              (<["PORT" := "5000"]> (Env (Config j)))))
      by (inversion Hp; reflexivity).
    exists root, cfg. split; [exact Hf|]. split; [congruence|].
    rewrite Henv, Hp2.
    split; [|split]; apply written_env_lookup; try discriminate.
    + rewrite lookup_insert_ne by discriminate.
      rewrite lookup_insert_ne by discriminate. apply lookup_insert_eq.
    + rewrite lookup_insert_ne by discriminate. apply lookup_insert_eq.
    + apply lookup_insert_eq.
  - intros Hex.
    destruct (first_unknown_proto _ Hex) as (pre & p & post & Heq & Hpre & Hp).
    exists pre, p, post. split; [exact Heq|]. split; [exact Hpre|].
    split; [exact Hp|]. split; [|split; [|split]].
    + intros env. rewrite Heq. apply assignPorts_first_unknown; assumption.
    + intros b' Hrun.
      destruct (Hok b' Hrun) as (s1 & root & ports' & env' & cfg & Hc & Hp' & _).
      apply assignPorts_spec in Hp' as (Hall & _).
      apply Exists_exists in Hex as (q & Hin & Hq).
      rewrite Forall_forall in Hall. apply Hq, Hall, Hin.
    + intros r b' Hfree Hrun.
      destruct (Run_Done_inv W j hint b aj r b' Haj Hfs Hrun)
        as [(e' & He & Hm)|(s1 & res & s2 & Hbody & Hc & Hi & Hm & Hres)];
        [congruence|].
      destruct res as [[]|e'].
      * destruct Hres as [_ ->].
        pose proof (Run_body_summary W s1) as Hsum. unfold wp in Hsum.
        rewrite Hbody in Hsum. destruct Hsum as (_ & _ & Hfree2 & _). exact Hfree2.
      * destruct Hres as (_ & Hm1 & Hm2). congruence.
    + intros Hq Hfree [z Hz] Hnet Hdis.
      unfold Backend.Run. rewrite Haj, Hfs.
      set (j1 := if bool_decide (Partition j = "")
                 then with_Partition defaultPartition j else j).
      assert (Hj1 : ID j1 = ID j /\ Config j1 = Config j /\
                    Partition j1 = if bool_decide (Partition j = "")
                                   then defaultPartition else Partition j)
        by (unfold j1; case_bool_decide; repeat split; reflexivity).
      destruct Hj1 as (Hid1 & Hcfg1 & Hp1).
      rewrite Hp1, Hz, Hcfg1.
      assert (Hwait : (if HostNetwork (Config j) then Done tt
                       else recv (networkConfigured b)) = Done tt).
      { destruct Hnet as [-> | ->]; [reflexivity|].
        destruct (HostNetwork (Config j)); reflexivity. }
      rewrite Hwait. simpl. rewrite Hdis.
      assert (Hwait2 : (if bool_decide (is_Some (Env (Config j) !! "DISCOVERD"))
                        then Done tt else recv Closed) = Done tt)
        by (destruct (bool_decide (is_Some (Env (Config j) !! "DISCOVERD")));
            reflexivity).
      rewrite Hwait2. simpl.
      set (c0 := {| RootPath := ""; cDomain := None; cIP := None; job := j1;
                    done := false |}).
      assert (Hbody : forall s1,
                job s1.2 = j1 -> stateMtx s1.1 = false ->
                discoverdConfigured s1.1 = Closed ->
                exists s', Run_body W s1
                           = Done (Fail ("unknown port proto " +:+ quote (Proto p)), s') /\
                           stateMtx s'.1 = true).
      { intros s1 Hjob Hm1 Hd1.
        apply (Run_body_unknown_proto W s1 pre p post); auto.
        - unfold quiet_before_ports in *. rewrite Hjob, Hcfg1. exact Hq.
        - rewrite Hjob, Hcfg1. exact Heq. }
      destruct (HostNetwork (Config j)).
      * destruct (Hbody (b, c0) eq_refl Hfree Hdis) as (s' & -> & Hheld).
        simpl. apply Run_deferred_Blocks, Hheld.
      * destruct Hq as (Hip & _). destruct (Hip (tick b) (ipalloc b) hint) as [ip ->].
        destruct (Hbody (SetContainerIP (ID j) ip
                           (bump (set_ipalloc (fun s => {[ip]} ∪ s) b)),
                         with_IP (Some ip) c0) eq_refl)
          as (s' & -> & Hheld);
          [destruct b; exact Hfree|destruct b; exact Hdis|].
        simpl. apply Run_deferred_Blocks, Hheld.
Qed.

(** C10.  While the channel [discoverdConfigured] is open, a call of
    [SetDefaultEnv] with the key DISCOVERD returns, has recorded the value
    and has closed the channel; a second such call, with any value, panics
    on closing the closed channel.  A [Run] that has to wait for discoverd
    (its job is known and not force-stopped, its partition is valid, the
    network is configured, its env has no DISCOVERD and the state mutex is
    free) blocks before the first call.  After it the same [Run] no
    longer waits for discoverd: it does not block, unless a port of the
    job has a proto that is neither tcp nor udp, which makes [Run] wait
    for the state mutex it holds itself. *)
Theorem SetDefaultEnv_DISCOVERD_once (v1 v2 : string) (b : Backend) :
  discoverdConfigured b = Open ->
  exists b1,
    SetDefaultEnv "DISCOVERD" v1 b = Done b1 /\
    defaultEnv b1 !! "DISCOVERD" = Some v1 /\
    discoverdConfigured b1 = Closed /\
    SetDefaultEnv "DISCOVERD" v2 b1 = Panics "close of closed channel" /\
    forall (W : World) (j : Job) (hint : option IP) (aj : ActiveJob),
      GetJob (ID j) b = Some aj -> ForceStop aj = false ->
      is_Some (partitionCGroups (settings b)
                 !! (if bool_decide (Partition j = "")
                     then defaultPartition else Partition j)) ->
      (HostNetwork (Config j) = true \/ networkConfigured b = Closed) ->
      Env (Config j) !! "DISCOVERD" = None ->
      stateMtx b = false ->
      Run W j hint b = Blocks /\
      (Forall known_proto (Ports (Config j)) -> Run W j hint b1 <> Blocks) /\
      (Run W j hint b1 = Blocks ->
       Exists (fun p => ~ known_proto p) (Ports (Config j))).
Proof.
  intros Hopen.
  exists (set_discoverdConfigured Closed
            (set_defaultEnv (fun m => <["DISCOVERD" := v1]> m) b)).
  split.
  { unfold SetDefaultEnv. simpl. destruct b; simpl in *. rewrite Hopen. reflexivity. }
  split; [destruct b; simpl; apply lookup_insert_eq|].
  split; [destruct b; reflexivity|].
  split; [destruct b; reflexivity|].
  intros W j hint aj Haj Hfs Hpart Hnet Henv Hmtx.
  set (b1 := set_discoverdConfigured Closed
               (set_defaultEnv (fun m => <["DISCOVERD" := v1]> m) b)).
  assert (Hb1 : GetJob (ID j) b1 = GetJob (ID j) b /\ settings b1 = settings b /\
                networkConfigured b1 = networkConfigured b /\
                discoverdConfigured b1 = Closed /\ stateMtx b1 = stateMtx b)
    by (destruct b; repeat split).
  destruct Hb1 as (Hget1 & Hset1 & Hnet1 & Hdis1 & Hmtx1).
  assert (Hwait : forall b0,
            networkConfigured b0 = networkConfigured b ->
            (if HostNetwork (Config j) then Done tt else recv (networkConfigured b0))
            = Done tt).
  { intros b0 ->. destruct Hnet as [-> | ->]; [reflexivity|].
    destruct (HostNetwork (Config j)); reflexivity. }
  set (j1 := if bool_decide (Partition j = "") then with_Partition defaultPartition j else j).
  assert (Hj1 : ID j1 = ID j /\ Config j1 = Config j /\
                Partition j1 = if bool_decide (Partition j = "")
                               then defaultPartition else Partition j)
    by (unfold j1; case_bool_decide; repeat split; reflexivity).
  destruct Hj1 as (Hid1 & Hcfg1 & Hp1).
  destruct Hpart as [cg Hcg].
  assert (Hafter : Run W j hint b1 = Blocks ->
                   Exists (fun p => ~ known_proto p) (Ports (Config j))).
  { unfold Backend.Run. rewrite Hget1, Haj, Hfs. fold j1.
    rewrite Hset1, Hp1, Hcg, Hcfg1.
    rewrite (Hwait b1 Hnet1). simpl.
    rewrite bool_decide_eq_false_2
      by (rewrite Henv; intros [? ?]; discriminate).
    rewrite Hdis1. simpl.
    set (c0 := {| RootPath := ""; cDomain := None; cIP := None; job := j1; done := false |}).
    set (alloc := if HostNetwork (Config j) then Val (b1, c0)
                  else match RequestIP W (tick b1) (ipalloc b1) hint with
                       | Val ip => Val (SetContainerIP (ID j) ip
                                          (bump (set_ipalloc (fun s => {[ip]} ∪ s) b1)),
                                        with_IP (Some ip) c0)
                       | Fail e => Fail e
                       end).
    assert (Halloc : forall s1, alloc = Val s1 ->
              stateMtx s1.1 = false /\ discoverdConfigured s1.1 = Closed /\
              Config (job s1.2) = Config j).
    { unfold alloc. intros s1.
      destruct (HostNetwork (Config j)).
      - intros H; inversion H; subst. simpl. split_and!; congruence.
      - destruct (RequestIP W (tick b1) (ipalloc b1) hint); [|discriminate].
        intros H; inversion H; subst. simpl.
        unfold b1. destruct b; simpl in *. split_and!; congruence. }
    destruct alloc as [s1|e]; [|discriminate].
    destruct (Halloc s1 eq_refl) as (Hm & Hd & Hc1).
    pose proof (Run_body_summary W s1) as Hsum. unfold wp in Hsum.
    destruct (Backend.Run_body filepath_Join IP_String W s1) as [[res s2]| |];
      simpl.
    + destruct res as [[]|e]; [discriminate|].
      destruct (stateMtx s2.1) eqn:Hm2.
      * intros _. destruct Hsum as (_ & _ & _ & Hx).
        destruct (Hx Hm eq_refl) as (ports' & env' & Hp').
        apply assignPorts_spec in Hp' as (pre & q & post & Heq & _ & Hq & _).
        rewrite Hc1 in Heq. rewrite Heq.
        apply Exists_app. right. apply Exists_cons_hd. exact Hq.
      * unfold state_call.
        replace (stateMtx (spawn (TaskCleanup s2.2) s2.1)) with (stateMtx s2.1)
          by (destruct s2 as [[] ?]; reflexivity).
        rewrite Hm2. discriminate.
    + discriminate.
    + destruct Hsum; congruence. }
  split; [|split].
  - unfold Backend.Run. rewrite Haj, Hfs. fold j1. rewrite Hp1, Hcg, Hcfg1.
    rewrite (Hwait b eq_refl). simpl.
    rewrite bool_decide_eq_false_2
      by (rewrite Henv; intros [? ?]; discriminate).
    rewrite Hopen. reflexivity.
  - intros Hknown Hblocks. apply Hafter in Hblocks.
    apply Exists_exists in Hblocks as (q & Hin & Hq).
    rewrite Forall_forall in Hknown. apply Hq, Hknown, Hin.
  - exact Hafter.
Qed.

End Props.

(** C1 at work: no container is registered for the finished job. *)
Lemma Stop_unknown_or_terminal_witness :
  Stop join calm "host-a" one_done
    = Done (Some "libvirt: unknown container", one_done).
Proof.
  apply (Stop_unknown_or_terminal join calm "host-a" one_done).
  reflexivity.
Defined.

(** C1 as stated fails.  The job [host-a] is done and its watcher has
    removed the container: [Stop] returns an error.  And on a host that
    runs [host-a], the first [Stop] returns nil once the container has
    exited, the job is done, and the second [Stop] returns the error. *)
Lemma Stop_again_is_an_error :
  (Status <$> GetJob "host-a" one_done = Some StatusDone /\
   Stop join calm "host-a" one_done
     = Done (Some "libvirt: unknown container", one_done)) /\
  (exists b1,
     Stop join calm "host-a" two_running = Done (None, b1) /\
     Status <$> GetJob "host-a" b1 = Some StatusDone /\
     Stop join calm "host-a" b1
       = Done (Some "libvirt: unknown container", b1)).
Proof.
  split; [split; reflexivity|].
  eexists. split; [vm_compute; reflexivity|]. split; reflexivity.
Qed.

Lemma two_running_jobs_known : jobs_known two_running.
Proof.
  intros id c H. unfold two_running, host in H. simpl in H.
  apply lookup_insert_Some in H as [[<- <-]|[_ H]].
  - eexists. reflexivity.
  - apply lookup_singleton_Some in H as [<- <-]. eexists. reflexivity.
Qed.





(** C8 at work: the ports tcp 0 and udp 0 on a calm host, and a port of
    proto sctp, with which [Run] never returns. *)
Lemma Run_unknown_proto_deadlocks_witness :
  (exists b' root cfg,
     Run join ip_string calm two_ports None fresh_host = Done (None, b') /\
     files b' !! join root ".containerconfig" = Some cfg /\
     icPorts cfg = [ {| Proto := "tcp"; PortNum := 5000 |};
                     {| Proto := "udp"; PortNum := 5001 |} ] /\
     icEnv cfg !! "PORT" = Some "5000" /\
     icEnv cfg !! "PORT_0" = Some "5000" /\
     icEnv cfg !! "PORT_1" = Some "5001") /\
  Run join ip_string calm sctp_port None fresh_host = Blocks.
Proof.
  split.
  - pose (b' := match Run join ip_string calm two_ports None fresh_host with
                | Done (_, b) => b
                | _ => fresh_host
                end).
    assert (Hrun : Run join ip_string calm two_ports None fresh_host = Done (None, b'))
      by (vm_compute; reflexivity).
    destruct (Run_unknown_proto_deadlocks join ip_string calm two_ports None fresh_host
                (active StatusStarting) eq_refl eq_refl)
      as (_ & Hports & _).
    destruct (Hports eq_refl b' Hrun) as (root & cfg & H).
    exists b', root, cfg. split; [exact Hrun|exact H].
  - destruct (Run_unknown_proto_deadlocks join ip_string calm sctp_port None fresh_host
                (active StatusStarting) eq_refl eq_refl)
      as (_ & _ & Hbad).
    destruct Hbad as (pre & p & post & _ & _ & _ & _ & _ & _ & Hblocks).
    + apply Exists_cons_tl, Exists_cons_hd. intros [H|H]; discriminate H.
    + apply Hblocks.
      * unfold quiet_before_ports, calm, world_with. simpl.
        split_and!; intros; eauto; constructor.
      * reflexivity.
      * eexists. vm_compute. reflexivity.
      * right. reflexivity.
      * reflexivity.
Defined.

(** C10 at work: discoverd is configured twice on a host where a job with
    two ports is to run. *)
Lemma SetDefaultEnv_DISCOVERD_once_witness :
  exists b1,
    SetDefaultEnv "DISCOVERD" "http://100.100.0.1:1111" waiting_host = Done b1 /\
    defaultEnv b1 !! "DISCOVERD" = Some "http://100.100.0.1:1111" /\
    SetDefaultEnv "DISCOVERD" "http://100.100.0.2:1111" b1
      = Panics "close of closed channel" /\
    Run join ip_string calm two_ports None waiting_host = Blocks /\
    Run join ip_string calm two_ports None b1 <> Blocks.
Proof.
  destruct (SetDefaultEnv_DISCOVERD_once join ip_string
              "http://100.100.0.1:1111" "http://100.100.0.2:1111"
              waiting_host eq_refl)
    as (b1 & Hfirst & Hval & _ & Hsecond & Hrun).
  exists b1. split; [exact Hfirst|]. split; [exact Hval|]. split; [exact Hsecond|].
  destruct (Hrun calm two_ports None (active StatusStarting)) as (Hb & Ha & _).
  - reflexivity.
  - reflexivity.
  - eexists. vm_compute. reflexivity.
  - right. reflexivity.
  - reflexivity.
  - reflexivity.
  - split; [exact Hb|]. apply Ha.
    constructor; [left; reflexivity|].
    constructor; [right; reflexivity|constructor].
Defined.

End BackendProps.

(** * More on the process supervisor *)
Module MongoLaws.
Import Mongo.

Section Supervisor.

Variable Equal : Config -> Config -> bool.
Variable IsNewDownstream : option Config -> option Config -> bool.

Abbreviation Start := (Start Equal IsNewDownstream).
Abbreviation Reconfigure := (Reconfigure Equal IsNewDownstream).
Abbreviation reconfigure := (reconfigure Equal IsNewDownstream).
Abbreviation reconfigure_body := (reconfigure_body Equal IsNewDownstream).

(** *** The steps, one by one *)

Lemma ends_bind {A B} (m : outcome A) (f : A -> outcome B)
    (P : A -> Prop) (Q : B -> Prop) (R : Prop) :
  ends P R m ->
  (forall a, P a -> ends Q R (f a)) ->
  ends Q R (m ≫= f).
Proof. destruct m as [a| |]; simpl; auto. Qed.

Lemma ends_mono {A} (P P' : A -> Prop) (R R' : Prop) (o : outcome A) :
  ends P R o -> (forall a, P a -> P' a) -> (R -> R') -> ends P' R' o.
Proof. destruct o; simpl; auto. Qed.

Lemma store_kept_trans p q r : store_kept p q -> store_kept q r -> store_kept p r.
Proof. unfold store_kept. intros (? & ? & ?) (? & ? & ?). repeat split; congruence. Qed.

Lemma cancel_ends (p : Process) :
  ends (fun p1 => store_kept p p1 /\ running p1 = running p /\
                  cmd p1 = cmd p /\ syncedDownstream p1 = syncedDownstream p)
       False (call_cancelSyncWait p).
Proof.
  unfold call_cancelSyncWait.
  destruct (cancelSyncWait p) as [w|]; [destruct (swStatus w)|]; simpl;
    repeat split.
Qed.

Lemma stop_ends env (p : Process) :
  ends (fun r => store_kept p r.2 /\ cmd r.2 = cmd p /\
                 (r.1 = None -> running r.2 = false) /\
                 (r.1 <> None -> running r.2 = running p))
       (cmd p = None) (stop env p).
Proof.
  unfold stop.
  destruct (call_cancelSyncWait p) as [p1| |] eqn:Hp1; simpl; [| |exact I].
  - pose proof (cancel_ends p) as H. rewrite Hp1 in H.
    destruct H as (Hs & Hr & Hc & _).
    destruct (cmd p1) as [n|] eqn:Hn; simpl; [|congruence].
    destruct (cmdStopped env (moment p1)); simpl.
    + split; [exact Hs|]. split; [congruence|]. split; [reflexivity|].
      intros H; contradiction.
    + split; [exact Hs|]. split; [congruence|]. split; [discriminate|].
      intros _. exact Hr.
  - pose proof (cancel_ends p) as H. rewrite Hp1 in H. destruct H.
Qed.

Lemma start_ends env (p : Process) :
  ends (fun r => store_kept p r.2 /\ (cmd_known p -> cmd_known r.2) /\
                 (r.1 = None -> running r.2 = true))
       False (start env p).
Proof.
  unfold start.
  destruct (cmdStart_res env (moment p)) as [e|]; simpl.
  - split; [repeat split|]. split; [auto|discriminate].
  - destruct (dial_res env _) as [e|]; simpl.
    + eapply ends_bind.
      * eapply ends_mono; [apply stop_ends| |]; [intros a H; exact H|].
        simpl. discriminate.
      * intros r (Hs & Hc & _ & _). simpl.
        split; [exact Hs|]. split; [|discriminate].
        intros _ _. rewrite Hc. simpl. eauto.
    + split; [repeat split|]. split; [|reflexivity]. intros _ _. simpl. eauto.
Qed.

Lemma waitForUpstream_ends env u (p : Process) :
  ends (fun r => store_kept p r.2 /\ running r.2 = running p /\ cmd r.2 = cmd p)
       False (waitForUpstream env u p).
Proof.
  unfold waitForUpstream.
  destruct (waitForUpstream_run _) as [r| |] eqn:H; simpl.
  - repeat split.
  - revert H. unfold waitForUpstream_run.
    generalize upstreamTimeout checkInterval 0.
    induction (upstream_polls env (Addr u) (moment p)) as [|q l IH];
      intros d t n; simpl; [discriminate|].
    destruct (upstream_ready (upStatus q)); [discriminate|].
    destruct (select_timer_ticker d t (n + upDur q) (upPick q)) as [[] t'];
      [discriminate|apply IH].
  - exact I.
Qed.

Lemma assumePrimary_ends env d (p : Process) :
  ends (fun r => store_kept p r.2 /\ (cmd_known p -> cmd_known r.2) /\
                 (r.1 = None -> running r.2 = true))
       (running p = true /\ forall c, config p = Some c -> cRole c <> RoleSync)
       (assumePrimary env d p).
Proof.
  unfold assumePrimary.
  destruct (running p) eqn:Hr.
  - destruct (config p) as [c|] eqn:Hc; simpl.
    + case_bool_decide as Hrole; simpl.
      * split; [repeat split|]. split; [auto|]. intros _. exact Hr.
      * split; [reflexivity|]. intros c' Hc'. congruence.
    + split; [reflexivity|]. intros c' Hc'. congruence.
  - unfold writeConfig. destruct (writeConfig_res env (moment p)) as [e|]; simpl.
    + split; [repeat split|]. split; [auto|discriminate].
    + eapply ends_bind.
      * eapply ends_mono; [apply (start_ends env (emit EvWriteConfig p))| |];
          [intros a H; exact H|intros []].
      * intros r (Hs & Hc & Ht).
        assert (Hk : cmd_known r.2).
        { apply Hc. intros H. unfold running in *. simpl in H. congruence. }
        destruct r as [[e|] p2]; simpl in *.
        { split; [exact Hs|]. split; [auto|discriminate]. }
        specialize (Ht eq_refl).
        unfold initPrimaryDB.
        destruct (initPrimaryDB_res env (moment p2)) as [e|]; simpl.
        -- eapply ends_bind.
           ++ eapply ends_mono;
                [apply (stop_ends env (emit EvInitPrimaryDB p2))| |];
                [intros a H; exact H|].
              simpl. intros H. destruct (Hk Ht) as [n Hn]. congruence.
           ++ intros r4 (Hs4 & Hc4 & _ & _). simpl.
              split; [exact (store_kept_trans _ _ _ Hs Hs4)|].
              split; [|discriminate]. intros _ _. rewrite Hc4. exact (Hk Ht).
        -- destruct d; simpl; (split; [exact Hs|]); (split; [|intros _; exact Ht]);
             intros _ _; exact (Hk Ht).
Qed.

Lemma assumeStandby_ends env u d (p : Process) :
  ends (fun r => store_kept p r.2 /\ (cmd_known p -> cmd_known r.2) /\
                 (r.1 = None -> running r.2 = true))
       (u = None \/ (running p = true /\ cmd p = None))
       (assumeStandby env u d p).
Proof.
  unfold assumeStandby. destruct u as [u|]; simpl; [|left; reflexivity].
  unfold writeConfig.
  destruct (writeConfig_res env (moment p)) as [e|]; simpl.
  { split; [repeat split|]. split; [auto|discriminate]. }
  set (p1 := emit EvWriteConfig p).
  assert (H1 : ends (fun r => store_kept p r.2 /\ (cmd_known p -> cmd_known r.2))
                 (Some u = None \/ (running p = true /\ cmd p = None))
                 (if running p1 then stop env p1 else waitForUpstream env u p1)).
  { destruct (running p1) eqn:Hr.
    - eapply ends_mono; [apply stop_ends| |].
      + intros r (Hs & Hc & _ & _). split; [exact Hs|].
        intros Hk _. rewrite Hc. apply Hk. exact Hr.
      + intros H. right. split; [exact Hr|exact H].
    - eapply ends_mono; [apply waitForUpstream_ends| |intros []].
      intros r (Hs & Hr' & Hc). split; [exact Hs|]. intros _.
      unfold cmd_known. rewrite Hr', Hr. discriminate. }
  eapply ends_bind; [exact H1|].
  intros [[e|] p2] (Hs & Hc); simpl in *.
  { split; [exact Hs|]. split; [exact Hc|discriminate]. }
  eapply ends_bind.
  { eapply ends_mono; [apply (start_ends env p2)| |intros []].
    intros a H; exact H. }
  intros [[e|] p3] (Hs3 & Hc3 & Ht3); simpl in *.
  { split; [exact (store_kept_trans _ _ _ Hs Hs3)|]. split; [auto|discriminate]. }
  specialize (Ht3 eq_refl).
  unfold connectLocal.
  destruct (connectLocal_res env (moment p3)) as [e|]; simpl.
  { split; [exact (store_kept_trans _ _ _ Hs Hs3)|]. split; [auto|discriminate]. }
  destruct d; simpl; (split; [exact (store_kept_trans _ _ _ Hs Hs3)|]);
    (split; [auto|intros _; exact Ht3]).
Qed.

Lemma becoming_sync_ends (cfg : option Config) (p : Process) :
  ends (fun same => same = true -> is_Some cfg)
       (running p = true /\
        exists c0 c, config p = Some c0 /\ cfg = Some c /\
          cRole c0 = RoleAsync /\ cRole c = RoleSync /\
          (Upstream c = None \/ Upstream c0 = None))
       (becoming_sync_same_upstream cfg p).
Proof.
  unfold becoming_sync_same_upstream.
  destruct (configApplied p); simpl; [|discriminate].
  destruct (running p) eqn:Hr; simpl; [|discriminate].
  destruct (config p) as [c0|] eqn:Hc0; [|discriminate].
  destruct cfg as [c|]; [|discriminate].
  do 2 case_bool_decide; simpl; try discriminate.
  destruct (Upstream c) eqn:Hu; [destruct (Upstream c0) eqn:Hu0|]; simpl;
    eauto; (split; [reflexivity|]); exists c0, c; auto 10.
Qed.

(** The closure of [reconfigure]: what it leaves, and when it panics. *)
Lemma reconfigure_body_ends env (cfg : option Config) (p : Process) :
  ends (fun r => store_kept p r.2 /\ (cmd_known p -> cmd_known r.2) /\
                 r.1.2 = match cfg with Some _ => cfg | None => config p end /\
                 is_Some r.1.2)
       (running p = true /\
        ((exists c0 c, config p = Some c0 /\ cfg = Some c /\
            cRole c0 = RoleAsync /\ cRole c = RoleSync /\
            (Upstream c = None \/ Upstream c0 = None)) \/
         (IsNewDownstream (config p) cfg = true /\
          forall c, cfg = Some c -> Downstream c = None) \/
         (exists c, match cfg with Some _ => cfg | None => config p end = Some c /\
            cRole c = RolePrimary /\
            forall c0, config p = Some c0 -> cRole c0 <> RoleSync) \/
         (exists c, match cfg with Some _ => cfg | None => config p end = Some c /\
            cRole c <> RolePrimary /\ cmd p = None)) \/
        (cfg = None /\ config p = None) \/
        (exists c, match cfg with Some _ => cfg | None => config p end = Some c /\
           cRole c <> RolePrimary /\ Upstream c = None))
       (reconfigure_body env cfg p).
Proof.
  unfold Mongo.reconfigure_body.
  destruct (match cfg with Some c => bool_decide (cRole c = RoleNone) | None => false end)
    eqn:Hnone.
  { destruct cfg as [c|]; [|discriminate]. simpl. repeat split; eauto. }
  destruct (configApplied p &&
            match cfg, config p with Some c, Some c0 => Equal c c0 | _, _ => false end)
    eqn:Heq.
  { destruct cfg as [c|]; [|rewrite andb_false_r in Heq; discriminate].
    simpl. repeat split; eauto. }
  eapply ends_bind.
  { eapply ends_mono; [apply becoming_sync_ends|intros a H; exact H|].
    intros (Hr & H). left. split; [exact Hr|]. left. exact H. }
  intros same Hsame. destruct same.
  { destruct (Hsame eq_refl) as [c ->]. simpl. repeat split; eauto. }
  clear Hsame.
  eapply ends_bind.
  { eapply ends_mono; [apply cancel_ends|intros a H; exact H|intros []]. }
  intros p1 (Hs & Hr1 & Hc1 & _).
  set (p2 := set_synced None p1).
  assert (Hcfg2 : config p2 = config p) by (destruct Hs as (H & _); exact H).
  assert (Hr2 : running p2 = running p) by exact Hr1.
  assert (Hs2 : store_kept p p2) by exact Hs.
  rewrite Hcfg2, Hr2.
  destruct (running p && IsNewDownstream (config p) cfg) eqn:Hnd.
  { apply andb_true_iff in Hnd as [Hr Hnd].
    destruct cfg as [c|]; simpl.
    - destruct (Downstream c) as [d|] eqn:Hd; simpl.
      + split; [exact Hs2|]. split; [|eauto].
        intros Hk H. change (is_Some (cmd p1)). rewrite Hc1. apply Hk.
        rewrite <- Hr1. exact H.
      + left. split; [exact Hr|]. right. left. split; [exact Hnd|].
        intros c' H; inversion H; subst; exact Hd.
    - left. split; [exact Hr|]. right. left. split; [exact Hnd|].
      intros c' H; discriminate. }
  remember (match cfg with None => config p | Some _ => cfg end) as cfg' eqn:Ec.
  destruct cfg' as [c|].
  2:{ right. left. destruct cfg; [discriminate|]. split; [reflexivity|auto]. }
  assert (Hk2 : cmd_known p -> cmd_known p2).
  { intros Hk H. change (is_Some (cmd p1)). rewrite Hc1. apply Hk.
    rewrite <- Hr1. exact H. }
  eapply ends_bind.
  { instantiate (1 := fun r => store_kept p r.2 /\ (cmd_known p -> cmd_known r.2)).
    case_bool_decide as Hrole.
    - eapply ends_mono; [apply assumePrimary_ends| |].
      + intros r (Hs3 & Hk3 & _). split; [exact (store_kept_trans _ _ _ Hs2 Hs3)|].
        auto.
      + intros (Hr & Hc). left. split; [congruence|]. right. right. left.
        exists c. split; [reflexivity|]. split; [exact Hrole|].
        intros c0 Hc0. apply Hc. congruence.
    - eapply ends_mono; [apply assumeStandby_ends| |].
      + intros r (Hs3 & Hk3 & _). split; [exact (store_kept_trans _ _ _ Hs2 Hs3)|].
        auto.
      + intros [Hu|(Hr & Hc)].
        * right. right. exists c. auto.
        * left. split; [congruence|]. right. right. right.
          exists c. split; [reflexivity|]. split; [exact Hrole|].
          change (cmd p1 = None) in Hc. congruence. }
  intros r (Hs3 & Hk3). simpl. split; [exact Hs3|]. split; [exact Hk3|].
  split; [reflexivity|eauto].
Qed.

Lemma reconfigure_ends env (cfg : option Config) (p : Process) :
  ends (fun r => (cmd_known p -> cmd_known r.2) /\ Singleton r.2 = Singleton p /\
                 match r.1 with
                 | Some _ => store_kept p r.2
                 | None =>
                     config r.2 = match cfg with Some _ => cfg | None => config p end /\
                     is_Some (config r.2) /\ configApplied r.2 = true
                 end)
       (running p = true /\
        ((exists c0 c, config p = Some c0 /\ cfg = Some c /\
            cRole c0 = RoleAsync /\ cRole c = RoleSync /\
            (Upstream c = None \/ Upstream c0 = None)) \/
         (IsNewDownstream (config p) cfg = true /\
          forall c, cfg = Some c -> Downstream c = None) \/
         (exists c, match cfg with Some _ => cfg | None => config p end = Some c /\
            cRole c = RolePrimary /\
            forall c0, config p = Some c0 -> cRole c0 <> RoleSync) \/
         (exists c, match cfg with Some _ => cfg | None => config p end = Some c /\
            cRole c <> RolePrimary /\ cmd p = None)) \/
        (cfg = None /\ config p = None) \/
        (exists c, match cfg with Some _ => cfg | None => config p end = Some c /\
           cRole c <> RolePrimary /\ Upstream c = None))
       (reconfigure env cfg p).
Proof.
  unfold Mongo.reconfigure.
  eapply ends_bind; [apply reconfigure_body_ends|].
  intros [[e c'] p1] (Hs & Hk & Hc & Hsome). simpl in *.
  destruct e as [e|]; simpl.
  - split; [exact Hk|]. split; [apply Hs|exact Hs].
  - split; [exact Hk|]. split; [apply Hs|]. split; [exact Hc|].
    split; [exact Hsome|reflexivity].
Qed.

Lemma peers_check_Singleton (c : Config) (p p' : Process) :
  Singleton p' = Singleton p -> peers_check c p' = peers_check c p.
Proof. unfold peers_check. intros ->. reflexivity. Qed.

(** X2.  A [Reconfigure], [Start] or [Stop] that returns an error has
    stored nothing: the configuration and its applied flag are those of
    before the call. *)
Theorem failed_transition_stores_nothing (env : Env) (cfg : Config)
    (p p' : Process) (e : error) :
  Reconfigure env cfg p = Done (Some e, p') \/
  Start env p = Done (Some e, p') \/
  Stop env p = Done (Some e, p') ->
  config p' = config p /\ configApplied p' = configApplied p.
Proof.
  intros [H|[H|H]].
  - unfold Mongo.Reconfigure in H.
    destruct (peers_check cfg p); [inversion H; subst; auto|].
    destruct (running p); simpl in H; [|discriminate].
    pose proof (reconfigure_ends env (Some cfg) p) as Hr. rewrite H in Hr.
    simpl in Hr. destruct Hr as (_ & _ & Hs & Ha & _). auto.
  - unfold Mongo.Start in H.
    destruct (running p); [inversion H; subst; auto|].
    destruct (config p) as [c|] eqn:Hc; [|inversion H; subst; auto].
    case_bool_decide; [inversion H; subst; auto|].
    pose proof (reconfigure_ends env None p) as Hr. rewrite H in Hr.
    simpl in Hr. destruct Hr as (_ & _ & Hs & Ha & _). split; congruence.
  - unfold Mongo.Stop in H.
    destruct (running p); simpl in H; [|inversion H; subst; auto].
    pose proof (stop_ends env p) as Hr. rewrite H in Hr.
    simpl in Hr. destruct Hr as ((Hs & Ha & _) & _). auto.
Qed.

Lemma well_formed_after (p p' : Process) :
  well_formed p -> is_Some (config p) ->
  (cmd_known p -> cmd_known p') -> Singleton p' = Singleton p ->
  (config p' = config p \/
   exists c, config p' = Some c /\ peers_check c p = None) ->
  well_formed p'.
Proof.
  intros (Hrun & Hval) Hsome Hk Hsing Hc.
  assert (Hkp : cmd_known p) by (intros H; apply Hrun, H).
  split.
  - intros H. split; [exact (Hk Hkp H)|].
    destruct Hc as [->|(c & -> & _)]; eauto.
  - intros c Hc'. rewrite (peers_check_Singleton c p p' Hsing).
    destruct Hc as [Hc|(c1 & Hc & Hv)]; [apply Hval; congruence|].
    congruence.
Qed.

(** X3.  [Reconfigure], [Start] and [Stop] keep a process well formed:
    whenever one of them returns, with or without an error, a running
    daemon still has its command handle and a stored configuration, and
    the stored configuration still has the peers its role needs. *)
Theorem transitions_keep_well_formed (env : Env) (cfg : Config) (p : Process) :
  well_formed p ->
  (forall r p', Reconfigure env cfg p = Done (r, p') -> well_formed p') /\
  (forall r p', Start env p = Done (r, p') -> well_formed p') /\
  (forall r p', Stop env p = Done (r, p') -> well_formed p').
Proof.
  intros Hwf. pose proof Hwf as (Hrun & Hval).
  split; [|split]; intros r p' H.
  - unfold Mongo.Reconfigure in H.
    destruct (peers_check cfg p) eqn:Hp; [inversion H; subst; exact Hwf|].
    destruct (running p) eqn:Hr; simpl in H.
    + pose proof (reconfigure_ends env (Some cfg) p) as He. rewrite H in He.
      simpl in He. destruct He as (Hk & Hsing & Hres).
      apply (well_formed_after p p' Hwf); auto.
      * apply Hrun; reflexivity.
      * destruct r; [left; apply Hres|right].
        exists cfg. split; [apply Hres|exact Hp].
    + inversion H; subst. split.
      * unfold running in *. simpl. congruence.
      * intros c Hc. simpl in Hc. inversion Hc; subst. exact Hp.
  - unfold Mongo.Start in H.
    destruct (running p) eqn:Hr; [inversion H; subst; exact Hwf|].
    destruct (config p) as [c|] eqn:Hc; [|inversion H; subst; exact Hwf].
    case_bool_decide; [inversion H; subst; exact Hwf|].
    pose proof (reconfigure_ends env None p) as He. rewrite H in He.
    simpl in He. destruct He as (Hk & Hsing & Hres).
    apply (well_formed_after p p' Hwf); auto.
    left. destruct r; destruct Hres as (H1 & _); congruence.
  - unfold Mongo.Stop in H.
    destruct (running p) eqn:Hr; simpl in H; [|inversion H; subst; exact Hwf].
    pose proof (stop_ends env p) as He. rewrite H in He.
    simpl in He. destruct He as (Hs & Hc & Hnone & Hsome).
    apply (well_formed_after p p' Hwf); auto.
    + apply Hrun; reflexivity.
    + intros _ _. rewrite Hc. apply Hrun; reflexivity.
    + apply Hs.
    + left. apply Hs.
Qed.

(** X4.  On a well-formed process [Start] and [Stop] never panic, and
    [Reconfigure] panics only while the daemon runs, and then only when it
    is told to become primary from a role other than sync, or when only
    the downstream changed and the new configuration has none. *)
Theorem transitions_panic_only_when (env : Env) (cfg : Config) (p : Process)
    (msg : string) :
  well_formed p ->
  Start env p <> Panics msg /\
  Stop env p <> Panics msg /\
  (Reconfigure env cfg p = Panics msg ->
   running p = true /\
   ((cRole cfg = RolePrimary /\
     forall c0, config p = Some c0 -> cRole c0 <> RoleSync) \/
    (IsNewDownstream (config p) (Some cfg) = true /\ Downstream cfg = None))).
Proof.
  intros (Hrun & Hval).
  split; [|split].
  - unfold Mongo.Start. intros H.
    destruct (running p) eqn:Hr; [discriminate|].
    destruct (config p) as [c|] eqn:Hc; [|discriminate].
    case_bool_decide as Hnone; [discriminate|].
    pose proof (reconfigure_ends env None p) as He. rewrite H in He.
    simpl in He. specialize (Hval c eq_refl).
    destruct He as [(Hr' & _)|[(_ & He)|(c' & Hc' & Hrole & Hu)]];
      [congruence|congruence|].
    assert (c' = c) by congruence. subst c'. unfold peers_check in Hval.
    destruct (cRole c); try congruence; rewrite Hu in Hval; discriminate.
  - unfold Mongo.Stop. intros H.
    destruct (running p) eqn:Hr; simpl in H; [|discriminate].
    pose proof (stop_ends env p) as He. rewrite H in He. simpl in He.
    destruct (Hrun eq_refl) as ([n Hn] & _). congruence.
  - unfold Mongo.Reconfigure. intros H.
    destruct (peers_check cfg p) eqn:Hp; [discriminate|].
    destruct (running p) eqn:Hr; simpl in H; [|discriminate].
    split; [reflexivity|].
    destruct (Hrun eq_refl) as ([n Hn] & [c0 Hc0]).
    pose proof (reconfigure_ends env (Some cfg) p) as He. rewrite H in He.
    simpl in He.
    destruct He as [(_ & He)|[(He & _)|(c' & Hc' & Hrole & Hu)]]; [|discriminate|].
    + destruct He as [He|[He|[He|He]]].
      * destruct He as (c1 & c & Hc1 & Hc & Hr1 & Hr2 & [Hu|Hu]).
        -- inversion Hc; subst c. unfold peers_check in Hp.
           rewrite Hr2, Hu in Hp. discriminate.
        -- assert (c1 = c0) by congruence. subst c1.
           specialize (Hval c0 Hc0). unfold peers_check in Hval.
           rewrite Hr1, Hu in Hval. discriminate.
      * destruct He as (Hnd & Hd). right. split; [exact Hnd|]. apply Hd. reflexivity.
      * destruct He as (c & Hc & Hrole & Hsync). inversion Hc; subst c.
        left. split; [exact Hrole|exact Hsync].
      * destruct He as (c & _ & _ & Hcmd). congruence.
    + inversion Hc'; subst c'. unfold peers_check in Hp.
      destruct (cRole cfg) eqn:Hcr; try congruence;
        try (rewrite Hu in Hp; discriminate).
      unfold Mongo.reconfigure, Mongo.reconfigure_body in H.
      rewrite Hcr in H. discriminate H.
Qed.

(** *** Transitions, step by step *)

Lemma cancel_settled (q : Process) :
  wait_settled q -> call_cancelSyncWait q = Done q.
Proof.
  unfold wait_settled, call_cancelSyncWait. intros H.
  destruct (cancelSyncWait q) as [w|]; [|reflexivity].
  rewrite (H w eq_refl). reflexivity.
Qed.

Lemma cancel_facts (p : Process) :
  (forall w, cancelSyncWait p = Some w -> swStatus w <> WaitHung) ->
  exists p1 evs,
    call_cancelSyncWait p = Done p1 /\
    trace p1 = evs ++ trace p /\ (evs = [] \/ evs = [EvCancelSyncWait]) /\
    runningValue p1 = runningValue p /\ configValue p1 = configValue p /\
    configApplied p1 = configApplied p /\ cmd p1 = cmd p /\
    wait_settled p1.
Proof.
  intros Hw. unfold call_cancelSyncWait, wait_settled.
  destruct (cancelSyncWait p) as [w|] eqn:E.
  - specialize (Hw w eq_refl). destruct (swStatus w) eqn:Es; [|congruence|].
    + eexists _, [EvCancelSyncWait]. split; [reflexivity|]. simpl.
      repeat split; auto. intros w' H; inversion H; reflexivity.
    + exists p, []. split; [reflexivity|]. repeat split; auto.
      intros w' H. congruence.
  - exists p, []. split; [reflexivity|]. repeat split; auto.
    intros w' H. congruence.
Qed.

(** Past the three tests that end [reconfigure] early. *)
Lemma reconfigure_body_transition env (cfg c0 : Config) (p p1 : Process) :
  running p = true -> config p = Some c0 ->
  cRole cfg <> RoleNone ->
  configApplied p && Equal cfg c0 = false ->
  cRole c0 <> RoleAsync \/ cRole cfg <> RoleSync ->
  call_cancelSyncWait p = Done p1 ->
  reconfigure_body env (Some cfg) p =
    let p2 := set_synced None p1 in
    if running p2 && IsNewDownstream (config p2) (Some cfg) then
      match Downstream cfg with
      | None => Panics "invalid memory address or nil pointer dereference"
      | Some d => Done (None, Some cfg, waitForSync (Some d) false p2)
      end
    else
      r ← (if bool_decide (cRole cfg = RolePrimary)
           then assumePrimary env (Downstream cfg) p2
           else assumeStandby env (Upstream cfg) (Downstream cfg) p2);
      mret (r.1, Some cfg, r.2).
Proof.
  intros Hrun Hcfg Hnone Hne Hrole Hp1.
  unfold Mongo.reconfigure_body.
  rewrite bool_decide_eq_false_2 by exact Hnone.
  rewrite Hcfg, Hne.
  assert (Hsame : becoming_sync_same_upstream (Some cfg) p = Done false).
  { unfold becoming_sync_same_upstream. rewrite Hcfg.
    destruct (configApplied p && running p); [|reflexivity].
    destruct Hrole as [H|H].
    - rewrite (bool_decide_eq_false_2 _ H). reflexivity.
    - rewrite (bool_decide_eq_false_2 _ H), andb_false_r. reflexivity. }
  rewrite Hsame. simpl. rewrite Hp1. reflexivity.
Qed.

(** X1.  [Reconfigure] checks the peers of the new configuration before
    anything else, whether the daemon runs or not: a primary without a
    downstream is refused unless the process is a singleton, a sync or an
    async without an upstream is refused, a role it does not know is
    refused, each with an error and the process untouched.  A singleton
    that is not running stores a primary configuration without
    downstream. *)
Theorem Reconfigure_checks_peers (env : Env) (cfg : Config) (p : Process) :
  (cRole cfg = RolePrimary -> Singleton p = false -> Downstream cfg = None ->
   Reconfigure env cfg p = Done (Some "missing downstream peer", p)) /\
  (cRole cfg = RoleSync \/ cRole cfg = RoleAsync -> Upstream cfg = None ->
   Reconfigure env cfg p = Done (Some "missing upstream peer", p)) /\
  (forall n, cRole cfg = RoleOther n ->
   exists e, Reconfigure env cfg p = Done (Some e, p)) /\
  (cRole cfg = RolePrimary -> Singleton p = true -> running p = false ->
   Reconfigure env cfg p = Done (None, set_config (Some cfg) false p)).
Proof.
  unfold Mongo.Reconfigure, peers_check.
  split; [|split; [|split]].
  - intros -> -> ->. reflexivity.
  - intros [-> | ->] ->; reflexivity.
  - intros n ->. eauto.
  - intros -> -> ->. reflexivity.
Qed.

(** X5.  The two panics of [Reconfigure] do happen.  A running daemon whose
    role is not sync and that is told to become primary (with a
    configuration that is not the applied one, and more than a new
    downstream) panics in [assumePrimary]; and when only the downstream
    changed and the new configuration has no downstream, [reconfigure]
    dereferences the nil downstream. *)
Theorem Reconfigure_panics_when_running (env : Env) (cfg c0 : Config)
    (p : Process) :
  running p = true -> config p = Some c0 ->
  peers_check cfg p = None -> cRole cfg <> RoleNone ->
  configApplied p && Equal cfg c0 = false ->
  cRole c0 <> RoleAsync \/ cRole cfg <> RoleSync ->
  (forall w, cancelSyncWait p = Some w -> swStatus w <> WaitHung) ->
  (IsNewDownstream (Some c0) (Some cfg) = false ->
   cRole cfg = RolePrimary -> cRole c0 <> RoleSync ->
   exists msg, Reconfigure env cfg p = Panics msg) /\
  (IsNewDownstream (Some c0) (Some cfg) = true -> Downstream cfg = None ->
   exists msg, Reconfigure env cfg p = Panics msg).
Proof.
  intros Hrun Hcfg Hp Hnone Hne Hrole Hw.
  destruct (cancel_facts p Hw)
    as (p1 & evs & Hp1 & Htr & Hevs & Hr1 & Hc1 & Ha1 & Hcmd1 & Hset).
  assert (Hrec : Reconfigure env cfg p = reconfigure env (Some cfg) p).
  { unfold Mongo.Reconfigure. rewrite Hp, Hrun. reflexivity. }
  rewrite Hrec. unfold Mongo.reconfigure.
  rewrite (reconfigure_body_transition env cfg c0 p p1 Hrun Hcfg Hnone Hne Hrole Hp1).
  unfold running, config in *. simpl. rewrite Hr1, Hc1, Hrun, Hcfg. simpl.
  split.
  - intros -> Hprim Hsync. rewrite bool_decide_eq_true_2 by exact Hprim.
    unfold assumePrimary, running, config. simpl. rewrite Hr1, Hc1, Hrun, Hcfg.
    rewrite bool_decide_eq_false_2 by exact Hsync. simpl. eauto.
  - intros -> ->. simpl. eauto.
Qed.


(** X7.  [Start] of a stopped process that holds a primary
    configuration, when the configuration can be written and the daemon
    starts and answers.  When the replica set is initiated, the steps are,
    in this order: write the configuration, start the daemon, dial it,
    initiate, and start a catch-up wait with [enableWrites] true if there
    is a downstream; the process is then running with the configuration
    applied.  When the initiation fails, the daemon is stopped again and
    [Start] returns the error of the initiation, whether the stop worked
    or not; the configuration is not marked applied. *)
Theorem Start_primary_steps (env : Env) (c : Config) (p : Process) :
  running p = false -> config p = Some c -> cRole c = RolePrimary ->
  (forall w, cancelSyncWait p = Some w -> swStatus w <> WaitHung) ->
  (forall n, writeConfig_res env n = None) ->
  (forall n, cmdStart_res env n = None) ->
  (forall n, dial_res env n = None) ->
  exists evs,
    (evs = [] \/ evs = [EvCancelSyncWait]) /\
    ((forall n, initPrimaryDB_res env n = None) ->
     exists p',
       Start env p = Done (None, p') /\
       running p' = true /\ is_Some (cmd p') /\
       config p' = Some c /\ configApplied p' = true /\
       syncedDownstream p' = None /\
       trace p' =
         match Downstream c with
         | Some d => [EvWaitForSync (Some d) true]
         | None => []
         end ++ [EvInitPrimaryDB; EvDial; EvCmdStart; EvWriteConfig]
             ++ evs ++ trace p) /\
    (forall e, (forall n, initPrimaryDB_res env n = Some e) ->
     exists p',
       Start env p = Done (Some e, p') /\
       config p' = Some c /\ configApplied p' = configApplied p /\
       trace p' = [EvCmdStop; EvInitPrimaryDB; EvDial; EvCmdStart; EvWriteConfig]
                    ++ evs ++ trace p /\
       ((forall n, cmdStopped env n = true) -> running p' = false) /\
       ((forall n, cmdStopped env n = false) -> running p' = true)).
Proof.
  intros Hrun Hcfg Hrole Hw Hwc Hcs Hdial.
  destruct (cancel_facts p Hw)
    as (p1 & evs & Hp1 & Htr & Hevs & Hr1 & Hc1 & Ha1 & Hcmd1 & Hset).
  exists evs. split; [exact Hevs|].
  assert (Hnone : cRole c <> RoleNone) by (rewrite Hrole; discriminate).
  set (p2 := set_synced None p1).
  assert (Hstart : Start env p =
            r ← assumePrimary env (Downstream c) p2;
            match r.1 with
            | Some e => Done (Some e, r.2)
            | None => Done (None, set_config (Some c) true r.2)
            end).
  { unfold Mongo.Start. rewrite Hrun, Hcfg.
    rewrite bool_decide_eq_false_2 by exact Hnone.
    unfold Mongo.reconfigure, Mongo.reconfigure_body.
    unfold becoming_sync_same_upstream. rewrite Hrun, !andb_false_r. simpl.
    rewrite Hp1. simpl. fold p2.
    unfold running, config in *. rewrite Hr1, Hc1, Hrun, Hcfg. simpl.
    rewrite bool_decide_eq_true_2 by exact Hrole.
    destruct (assumePrimary env (Downstream c) p2) as [[[e|] q]| |]; reflexivity. }
  assert (Hr2 : runningValue p2 = false) by (unfold running in *; simpl; congruence).
  assert (Htr2 : trace p2 = evs ++ trace p) by exact Htr.
  split.
  - intros Hinit. rewrite Hstart. unfold assumePrimary, running. rewrite Hr2.
    unfold writeConfig. rewrite Hwc. unfold start. rewrite Hcs. simpl.
    rewrite Hdial. simpl. unfold initPrimaryDB. rewrite Hinit.
    destruct (Downstream c) as [d|]; simpl; eexists; (split; [reflexivity|]);
      simpl; rewrite Htr; repeat split; eauto.
  - intros e Hinit. rewrite Hstart. unfold assumePrimary, running. rewrite Hr2.
    unfold writeConfig. rewrite Hwc. unfold start. rewrite Hcs. simpl.
    rewrite Hdial. simpl. unfold initPrimaryDB. rewrite Hinit. simpl.
    unfold stop.
    rewrite cancel_settled by exact Hset. simpl.
    destruct (cmdStopped env _) eqn:Hst; simpl;
      eexists; (split; [reflexivity|]); simpl; rewrite ?Htr;
      unfold config in *; repeat split; try congruence;
      intros Hall; rewrite Hall in Hst; discriminate.
Qed.

(** X8.  [Stop] of a running daemon first cancels the catch-up wait, then
    stops the command.  When the command stops in time [Stop] returns nil,
    the process is no longer running, and a second [Stop] is refused;
    when it does not, [Stop] returns "unable to kill process" and the
    process still counts as running.  The configuration is kept either
    way. *)
Theorem Stop_stops_daemon (env : Env) (p : Process) :
  running p = true -> is_Some (cmd p) ->
  (forall w, cancelSyncWait p = Some w -> swStatus w <> WaitHung) ->
  exists evs,
    (evs = [] \/ evs = [EvCancelSyncWait]) /\
    ((forall n, cmdStopped env n = true) ->
     exists p',
       Stop env p = Done (None, p') /\ running p' = false /\
       trace p' = EvCmdStop :: evs ++ trace p /\
       config p' = config p /\ configApplied p' = configApplied p /\
       wait_settled p' /\
       Stop env p' = Done (Some "process already stopped", p')) /\
    ((forall n, cmdStopped env n = false) ->
     exists p',
       Stop env p = Done (Some "unable to kill process", p') /\
       running p' = true /\
       trace p' = EvCmdStop :: evs ++ trace p /\
       config p' = config p /\ configApplied p' = configApplied p /\
       wait_settled p').
Proof.
  intros Hrun [n Hn] Hw.
  destruct (cancel_facts p Hw)
    as (p1 & evs & Hp1 & Htr & Hevs & Hr1 & Hc1 & Ha1 & Hcmd1 & Hset).
  exists evs. split; [exact Hevs|].
  assert (Hstop : Stop env p =
            if cmdStopped env (moment p1)
            then Done (None, set_running false (emit EvCmdStop p1))
            else Done (Some "unable to kill process", emit EvCmdStop p1)).
  { unfold Mongo.Stop. rewrite Hrun. simpl. unfold stop. rewrite Hp1. simpl.
    rewrite Hcmd1, Hn. reflexivity. }
  split; intros Hall; rewrite Hstop, Hall; eexists; (split; [reflexivity|]);
    simpl; rewrite Htr; unfold running, config in *; simpl;
    repeat split; auto; congruence.
Qed.

(** X9.  A running daemon that is told to become sync or async (and not
    only to change its downstream) is restarted: the configuration is
    written, the running daemon is stopped, a new one is started and
    dialled, the local connection is made, and a catch-up wait with
    [enableWrites] false is started if there is a downstream.  The
    upstream is not polled on this path. *)
Theorem standby_restarts_daemon (env : Env) (cfg c0 : Config) (u : Instance)
    (p : Process) :
  running p = true -> config p = Some c0 -> is_Some (cmd p) ->
  cRole cfg = RoleSync \/ cRole cfg = RoleAsync -> Upstream cfg = Some u ->
  configApplied p && Equal cfg c0 = false ->
  cRole c0 <> RoleAsync \/ cRole cfg <> RoleSync ->
  IsNewDownstream (Some c0) (Some cfg) = false ->
  (forall w, cancelSyncWait p = Some w -> swStatus w <> WaitHung) ->
  (forall n, writeConfig_res env n = None) ->
  (forall n, cmdStopped env n = true) ->
  (forall n, cmdStart_res env n = None) ->
  (forall n, dial_res env n = None) ->
  (forall n, connectLocal_res env n = None) ->
  exists p' evs,
    Reconfigure env cfg p = Done (None, p') /\
    (evs = [] \/ evs = [EvCancelSyncWait]) /\
    trace p' =
      match Downstream cfg with
      | Some d => [EvWaitForSync (Some d) false]
      | None => []
      end ++ [EvConnectLocal; EvDial; EvCmdStart; EvCmdStop; EvWriteConfig]
          ++ evs ++ trace p /\
    running p' = true /\ is_Some (cmd p') /\
    config p' = Some cfg /\ configApplied p' = true /\
    syncedDownstream p' = None.
Proof.
  intros Hrun Hcfg [n Hn] Hrole Hu Hne Hsame Hnd Hw Hwc Hstp Hcs Hdial Hcl.
  destruct (cancel_facts p Hw)
    as (p1 & evs & Hp1 & Htr & Hevs & Hr1 & Hc1 & Ha1 & Hcmd1 & Hset).
  assert (Hp : peers_check cfg p = None).
  { unfold peers_check. destruct Hrole as [-> | ->]; rewrite Hu; reflexivity. }
  assert (Hnone : cRole cfg <> RoleNone) by (destruct Hrole as [-> | ->]; discriminate).
  assert (Hprim : cRole cfg <> RolePrimary)
    by (destruct Hrole as [-> | ->]; discriminate).
  assert (Hrec : Reconfigure env cfg p = reconfigure env (Some cfg) p).
  { unfold Mongo.Reconfigure. rewrite Hp, Hrun. reflexivity. }
  rewrite Hrec. unfold Mongo.reconfigure.
  rewrite (reconfigure_body_transition env cfg c0 p p1 Hrun Hcfg Hnone Hne Hsame Hp1).
  unfold running, config in *. simpl. rewrite Hr1, Hc1, Hrun, Hcfg, Hnd. simpl.
  rewrite bool_decide_eq_false_2 by exact Hprim.
  unfold assumeStandby. rewrite Hu. unfold writeConfig. rewrite Hwc.
  unfold running. simpl. rewrite Hr1, Hrun.
  unfold stop. rewrite cancel_settled by exact Hset. simpl.
  rewrite Hcmd1, Hn, Hstp. simpl.
  unfold start. rewrite Hcs. simpl. rewrite Hdial. simpl.
  unfold connectLocal. rewrite Hcl.
  destruct (Downstream cfg) as [d|]; simpl;
    eexists _, evs; (split; [reflexivity|]); (split; [exact Hevs|]);
    simpl; rewrite Htr; repeat split; eauto.
Qed.

End Supervisor.

Section CatchUp.

Variable Position : Type.
Variable Compare : Position -> Position -> option Z.

Abbreviation waitForSync_loop := (waitForSync_loop Position Compare).
Abbreviation loop_state := (loop_state Position Compare).

(** X10.  The loop of the catch-up wait gives up only in a poll that has
    read both positions, found them different, and found more than
    [replTimeout] passed since the start time left by the polls before
    it. *)
Theorem wait_times_out_only_late read (T : Z) (polls : list (SyncPoll Position)) :
  forall startTime prev,
  waitForSync_loop read T startTime prev polls = WTimedOut ->
  exists pre q post m s,
    polls = pre ++ q :: post /\
    waitForSync_loop read T startTime prev pre = WPending /\
    spStopped q = false /\
    read (spMaster q) = ReadOk m /\ read (spSlave q) = ReadOk s /\
    Compare m s <> Some 0 /\
    T < spNow q - (loop_state read startTime prev pre).1.
Proof.
  induction polls as [|q polls IH]; intros startTime prev; simpl; [discriminate|].
  assert (Hnext : forall st pv,
    waitForSync_loop read T st pv polls = WTimedOut ->
    waitForSync_loop read T startTime prev [q] = WPending ->
    loop_state read startTime prev [q] = (st, pv) ->
    exists pre q' post m s,
      q :: polls = pre ++ q' :: post /\
      waitForSync_loop read T startTime prev pre = WPending /\
      spStopped q' = false /\
      read (spMaster q') = ReadOk m /\ read (spSlave q') = ReadOk s /\
      Compare m s <> Some 0 /\
      T < spNow q' - (loop_state read startTime prev pre).1).
  { intros st pv H Hone Hstate.
    destruct (IH _ _ H) as (pre & q' & post & m & s & -> & Hpre & Hq & Hm & Hs & Hc & Ht).
    exists (q :: pre), q', post, m, s. split; [reflexivity|].
    change (q :: pre) with ([q] ++ pre).
    rewrite (MongoProps.waitForSync_loop_app Position Compare read T [q]
               startTime prev pre Hone).
    rewrite (MongoProps.loop_state_app Position Compare read [q] startTime prev pre).
    rewrite Hstate. auto 10. }
  destruct (spStopped q) eqn:Hq; [discriminate|].
  destruct (read (spMaster q)) as [e|m'|] eqn:Hm; [| |discriminate].
  - destruct (spStoppedInWait q) eqn:Hsw; [discriminate|].
    intros H. eapply Hnext; eauto.
    + simpl. rewrite Hq, Hm, Hsw. reflexivity.
    + simpl. rewrite Hm. reflexivity.
  - destruct (read (spSlave q)) as [e|s'|] eqn:Hs; [| |discriminate].
    + destruct (spStoppedInWait q) eqn:Hsw; [discriminate|].
      intros H. eapply Hnext; eauto.
      * simpl. rewrite Hq, Hm, Hs, Hsw. reflexivity.
      * simpl. rewrite Hm, Hs. reflexivity.
    + destruct (is_cmp (Compare m' s') 0) eqn:Hc; [discriminate|].
      destruct (Z.gtb_spec (spNow q - startTime) T) as [Hel|Hel].
      * intros _. exists [], q, polls, m', s'.
        split; [reflexivity|]. split; [reflexivity|].
        split; [exact Hq|]. split; [exact Hm|]. split; [exact Hs|].
        split; [|simpl; lia].
        intros Heq. rewrite Heq in Hc. discriminate.
      * destruct (spStoppedInWait q) eqn:Hsw; [discriminate|].
        intros H. eapply Hnext; eauto.
        -- simpl. rewrite Hq, Hm, Hs, Hc, Hsw.
           destruct (Z.gtb_spec (spNow q - startTime) T); [lia|reflexivity].
        -- simpl. rewrite Hm, Hs. reflexivity.
Qed.

End CatchUp.

Lemma NewProcess_well_formed : well_formed NewProcess.
Proof. split; [discriminate|]. intros c H. discriminate H. Qed.

Lemma running_as_well_formed (c : Config) :
  peers_check c (running_as c) = None -> well_formed (running_as c).
Proof.
  intros Hc. split.
  - intros _. split; eexists; reflexivity.
  - intros c' H. inversion H; subst. exact Hc.
Qed.

(** X2 at work: the daemon cannot be started. *)
Lemma failed_transition_stores_nothing_witness :
  exists e p',
    Start Equal_spec IsNewDownstream_spec env_no_start (stopped_with cfg_primary)
      = Done (Some e, p') /\
    config p' = Some cfg_primary /\ configApplied p' = false.
Proof.
  pose (p' := match Start Equal_spec IsNewDownstream_spec env_no_start
                      (stopped_with cfg_primary) with
              | Done (_, q) => q
              | _ => NewProcess
              end).
  assert (H : Start Equal_spec IsNewDownstream_spec env_no_start
                (stopped_with cfg_primary)
              = Done (Some "fork/exec /usr/bin/mongod: no such file", p'))
    by (vm_compute; reflexivity).
  exists "fork/exec /usr/bin/mongod: no such file", p'.
  split; [exact H|].
  exact (failed_transition_stores_nothing Equal_spec IsNewDownstream_spec
           env_no_start cfg_none (stopped_with cfg_primary) p' _
           (or_intror (or_introl H))).
Defined.

(** X3 at work: a fresh process is given a primary configuration. *)
Lemma transitions_keep_well_formed_witness :
  exists r p',
    Reconfigure Equal_spec IsNewDownstream_spec (env_with []) cfg_primary NewProcess
      = Done (r, p') /\
    well_formed p'.
Proof.
  pose (p' := match Reconfigure Equal_spec IsNewDownstream_spec (env_with [])
                      cfg_primary NewProcess with
              | Done (_, q) => q
              | _ => NewProcess
              end).
  assert (H : Reconfigure Equal_spec IsNewDownstream_spec (env_with [])
                cfg_primary NewProcess = Done (None, p'))
    by (vm_compute; reflexivity).
  exists None, p'. split; [exact H|].
  exact (proj1 (transitions_keep_well_formed Equal_spec IsNewDownstream_spec
                  (env_with []) cfg_primary NewProcess NewProcess_well_formed)
           _ _ H).
Defined.

(** X4 at work: a running sync. *)
Lemma transitions_panic_only_when_witness :
  well_formed (running_as cfg_sync) /\
  Stop (env_with []) (running_as cfg_sync) <> Panics "nil".
Proof.
  assert (Hwf : well_formed (running_as cfg_sync))
    by (apply running_as_well_formed; reflexivity).
  split; [exact Hwf|].
  apply (transitions_panic_only_when Equal_spec IsNewDownstream_spec
           (env_with []) cfg_none (running_as cfg_sync) "nil" Hwf).
Defined.

(** X5 at work: a running async is told to become primary. *)
Lemma Reconfigure_panics_when_running_witness :
  exists msg,
    Reconfigure Equal_spec IsNewDownstream_spec (env_with []) cfg_primary
      (running_as cfg_async) = Panics msg.
Proof.
  destruct (Reconfigure_panics_when_running Equal_spec IsNewDownstream_spec
              (env_with []) cfg_primary cfg_async (running_as cfg_async))
    as [H _].
  - reflexivity.
  - reflexivity.
  - reflexivity.
  - discriminate.
  - reflexivity.
  - right. discriminate.
  - intros w Hw. discriminate Hw.
  - apply H; [reflexivity|reflexivity|discriminate].
Defined.


(** X7 at work: the replica set cannot be initiated. *)
Lemma Start_primary_steps_witness :
  exists p',
    Start Equal_spec IsNewDownstream_spec env_no_init (stopped_with cfg_primary)
      = Done (Some "exit status 1", p') /\
    running p' = false.
Proof.
  destruct (Start_primary_steps Equal_spec IsNewDownstream_spec env_no_init
              cfg_primary (stopped_with cfg_primary))
    as (evs & _ & _ & H).
  - reflexivity.
  - reflexivity.
  - reflexivity.
  - intros w Hw. discriminate Hw.
  - reflexivity.
  - reflexivity.
  - reflexivity.
  - destruct (H "exit status 1") as (p' & HS & _ & _ & _ & Hr & _).
    + reflexivity.
    + exists p'. split; [exact HS|]. apply Hr. reflexivity.
Defined.

(** X8 at work: the daemon of a running primary does not stop in time. *)
Lemma Stop_stops_daemon_witness :
  exists p',
    Stop env_no_stop (running_as cfg_primary)
      = Done (Some "unable to kill process", p') /\
    running p' = true.
Proof.
  destruct (Stop_stops_daemon env_no_stop (running_as cfg_primary))
    as (evs & _ & _ & H).
  - reflexivity.
  - eexists. reflexivity.
  - intros w Hw. discriminate Hw.
  - destruct H as (p' & HS & Hr & _); [reflexivity|].
    exists p'. auto.
Defined.

(** X9 at work: a running primary becomes the sync of [node1]. *)
Lemma standby_restarts_daemon_witness :
  exists p',
    Reconfigure Equal_spec IsNewDownstream_spec (env_with []) cfg_sync
      (running_as cfg_primary) = Done (None, p') /\
    running p' = true /\ config p' = Some cfg_sync.
Proof.
  destruct (standby_restarts_daemon Equal_spec IsNewDownstream_spec (env_with [])
              cfg_sync cfg_primary node1 (running_as cfg_primary))
    as (p' & evs & H & _ & _ & Hr & _ & Hc & _).
  - reflexivity.
  - reflexivity.
  - eexists. reflexivity.
  - left. reflexivity.
  - reflexivity.
  - reflexivity.
  - left. discriminate.
  - reflexivity.
  - intros w Hw. discriminate Hw.
  - reflexivity.
  - reflexivity.
  - reflexivity.
  - reflexivity.
  - reflexivity.
  - exists p'. auto.
Defined.

(** X10 at work: the downstream stays behind for 62 seconds. *)
Lemma wait_times_out_only_late_witness :
  exists pre q post,
    lagging_polls = pre ++ q :: post /\
    DefaultReplTimeout
      < spNow q - (loop_state Z Compare_Z nodeXLogPosition_contract 0 0 pre).1.
Proof.
  destruct (wait_times_out_only_late Z Compare_Z nodeXLogPosition_contract
              DefaultReplTimeout lagging_polls 0 0)
    as (pre & q & post & m & s & H & _ & _ & _ & _ & _ & Ht).
  - vm_compute. reflexivity.
  - exists pre, q, post. auto.
Defined.

(** X1 at work: a primary without downstream on a process that is not a
    singleton, and a role the supervisor does not know. *)
Lemma Reconfigure_checks_peers_witness :
  Reconfigure Equal_spec IsNewDownstream_spec (env_with []) cfg_alone NewProcess
    = Done (Some "missing downstream peer", NewProcess) /\
  exists e,
    Reconfigure Equal_spec IsNewDownstream_spec (env_with []) cfg_unknown NewProcess
      = Done (Some e, NewProcess).
Proof.
  split.
  - apply (Reconfigure_checks_peers Equal_spec IsNewDownstream_spec (env_with [])
             cfg_alone NewProcess); reflexivity.
  - apply (Reconfigure_checks_peers Equal_spec IsNewDownstream_spec (env_with [])
             cfg_unknown NewProcess) with (n := 7%nat). reflexivity.
Defined.

(** X21.  [Info] never gives a complete answer.  With the position read
    by [nodeXLogPosition] it can only return the error of the dial or of
    the query, with the zero position and the user and read-write flags
    off; once the oplog entry is read it does not return.  Whatever reads
    the position, an [Info] that returns reports no user and no
    read-write mode and comes with an error: on a stopped process
    "mongod is not running", while on a running process the two checks
    after the position are not written and panic. *)
Theorem Info_never_complete (Position : Type) (Zero : Position)
    (read : DbRead Position -> ReadResult Position) (local : DbRead Position)
    (p : Process) :
  (forall r, Info Position Zero read local p = Done r ->
     is_Some r.2 /\ iUserExists _ r.1 = false /\ iReadWrite _ r.1 = false /\
     iRunning _ r.1 = running p /\ iConfig _ r.1 = config p /\
     (forall x, read local = ReadOk x ->
        running p = false /\ r.2 = Some "mongod is not running" /\ iXLog _ r.1 = x)) /\
  (forall x, read local = ReadOk x -> running p = true ->
     Info Position Zero read local p = Panics "FIXME(benbjohnson): userExists()") /\
  (forall r, Info Position Zero nodeXLogPosition local p = Done r ->
     iXLog _ r.1 = Zero /\
     ((exists e, local = DialFail e /\ r.2 = Some e) \/
      (exists e, local = FindFail e /\ r.2 = Some ("find oplog.rs.ts error: " +:+ e)))) /\
  (forall ts, local = Found ts -> Info Position Zero nodeXLogPosition local p = Blocks).
Proof.
  unfold Info, userExists, isReadWrite. split_and!.
  - intros r H. destruct (read local) as [e|x|] eqn:Hr.
    + inversion H; subst; simpl. split_and!; eauto. intros; discriminate.
    + destruct (running p) eqn:Hrun; simpl in H; [discriminate|].
      inversion H; subst; simpl. split_and!; eauto.
      intros x' Hx'. inversion Hx'; subst. auto.
    + discriminate.
  - intros x -> ->. reflexivity.
  - intros r H. destruct local as [e|e|ts]; simpl in H;
      inversion H; subst; simpl; eauto.
  - intros ts ->. reflexivity.
Qed.

Lemma Info_never_complete_witness :
  (exists r, Info Z 0 (fun _ => ReadOk 7) (Found 7) NewProcess = Done r /\
             r.2 = Some "mongod is not running") /\
  Info Z 0 nodeXLogPosition (Found 7) (running_as cfg_primary) = Blocks.
Proof.
  split.
  - eexists. split; [reflexivity|].
    destruct (proj1 (Info_never_complete Z 0 (fun _ => ReadOk 7) (Found 7)
                       NewProcess) _ eq_refl) as (_ & _ & _ & _ & _ & H).
    exact (proj1 (proj2 (H 7 eq_refl))).
  - exact (proj2 (proj2 (proj2 (Info_never_complete Z 0 nodeXLogPosition (Found 7)
                           (running_as cfg_primary)))) 7 eq_refl).
Defined.

End MongoLaws.

(** * More on the container backend *)
Module BackendLaws.
Import Backend.

(** ** CPU shares *)

Lemma quot_nonpos (a : Z) : a <= 0 -> a `quot` 1000 <= 0.
Proof.
  intros Ha.
  pose proof (Z.quot_opp_l (- a) 1000 ltac:(discriminate)) as H1.
  rewrite Z.opp_involutive in H1.
  assert (H0 : 0 <= - a) by lia.
  pose proof (Z.quot_pos (- a) 1000 H0 ltac:(reflexivity)) as H2.
  rewrite H1. lia.
Qed.

(** X11.  [milliCPUToShares] never returns less than the minimum of 2
    shares.  While [milliCPU * 1024] fits in 64 bits, the shares are
    [milliCPU * 1024 / 1000], lifted to 2, and grow with the limit.  A
    negative limit down to -2^53 gets 2 shares, and so does a limit from
    2^53 up to 2^54, whose product wraps round to a negative number.  Below
    -2^53 and down to -2^54 the product wraps round to a positive number,
    and the shares are [(milliCPU * 1024 + 2^64) / 1000], lifted to 2: at
    -2^53 - 1 they are 9223372036854774. *)
Theorem milliCPUToShares_bounds (m : Z) :
  2 <= milliCPUToShares m /\
  (0 <= m < 2 ^ 53 -> milliCPUToShares m = Z.max 2 (m * 1024 / 1000)) /\
  (forall m', 0 <= m <= m' -> m' < 2 ^ 53 ->
              milliCPUToShares m <= milliCPUToShares m') /\
  (- 2 ^ 53 <= m < 0 -> milliCPUToShares m = 2) /\
  (2 ^ 53 <= m < 2 ^ 54 -> milliCPUToShares m = 2) /\
  (- 2 ^ 54 <= m < - 2 ^ 53 ->
   milliCPUToShares m = Z.max 2 ((m * 1024 + 2 ^ 64) / 1000)) /\
  milliCPUToShares (- 2 ^ 53 - 1) = 9223372036854774.
Proof.
  assert (Hexact : forall x, 0 <= x < 2 ^ 53 ->
            milliCPUToShares x = Z.max 2 (x * 1024 / 1000)).
  { intros x Hx. unfold milliCPUToShares, wrap64.
    destruct (Z.eqb_spec x 0) as [->|Hne]; [reflexivity|].
    assert (Hw : (x * 1024 + 2 ^ 63) `mod` 2 ^ 64 - 2 ^ 63 = x * 1024).
    { rewrite Z.mod_small by lia. lia. }
    rewrite Hw. rewrite Z.quot_div_nonneg by lia.
    destruct (Z.ltb_spec (x * 1024 / 1000) 2); lia. }
  split_and!.
  - unfold milliCPUToShares.
    destruct (m =? 0); [lia|].
    destruct (Z.ltb_spec (wrap64 (m * 1024) `quot` 1000) 2); lia.
  - apply Hexact.
  - intros m' Hm Hm'. rewrite (Hexact m), (Hexact m') by lia.
    assert (m * 1024 / 1000 <= m' * 1024 / 1000)
      by (apply Z.div_le_mono; lia).
    lia.
  - intros Hm. unfold milliCPUToShares, wrap64.
    destruct (Z.eqb_spec m 0) as [->|Hne]; [reflexivity|].
    assert (Hw : (m * 1024 + 2 ^ 63) `mod` 2 ^ 64 - 2 ^ 63 = m * 1024).
    { rewrite Z.mod_small by lia. lia. }
    rewrite Hw.
    assert ((m * 1024) `quot` 1000 <= 0).
    { apply quot_nonpos. lia. }
    destruct (Z.ltb_spec ((m * 1024) `quot` 1000) 2); lia.
  - intros Hm. unfold milliCPUToShares, wrap64.
    destruct (Z.eqb_spec m 0) as [->|Hne]; [reflexivity|].
    assert (Hw : (m * 1024 + 2 ^ 63) `mod` 2 ^ 64 - 2 ^ 63 = m * 1024 - 2 ^ 64).
    { replace (m * 1024 + 2 ^ 63) with ((m * 1024 - 2 ^ 63) + 1 * 2 ^ 64) by lia.
      rewrite Z.mod_add by lia. rewrite Z.mod_small by lia. lia. }
    rewrite Hw.
    assert ((m * 1024 - 2 ^ 64) `quot` 1000 <= 0).
    { apply quot_nonpos. lia. }
    destruct (Z.ltb_spec ((m * 1024 - 2 ^ 64) `quot` 1000) 2); lia.
  - intros Hm. unfold milliCPUToShares, wrap64.
    destruct (Z.eqb_spec m 0) as [->|Hne]; [lia|].
    assert (Hw : (m * 1024 + 2 ^ 63) `mod` 2 ^ 64 - 2 ^ 63 = m * 1024 + 2 ^ 64).
    { replace (m * 1024 + 2 ^ 63) with ((m * 1024 + 2 ^ 64 + 2 ^ 63) + (-1) * 2 ^ 64)
        by lia.
      rewrite Z.mod_add by lia. rewrite Z.mod_small by lia. lia. }
    rewrite Hw. rewrite Z.quot_div_nonneg by lia.
    destruct (Z.ltb_spec ((m * 1024 + 2 ^ 64) / 1000) 2); lia.
  - vm_compute. reflexivity.
Qed.

(** X11 at work: one CPU is 1024 shares. *)
Lemma milliCPUToShares_bounds_witness : milliCPUToShares 1000 = 1024.
Proof.
  destruct (milliCPUToShares_bounds 1000) as (_ & H & _).
  rewrite H; [reflexivity|lia].
Defined.

(** ** Host names *)

Lemma substring_0_length (n : nat) (s : string) :
  (String.length (String.substring 0 n s) <= n)%nat.
Proof.
  revert s. induction n as [|n IH]; intros [|a s]; simpl; try lia.
  specialize (IH s). lia.
Qed.

Lemma substring_0_prefix (n : nat) (s : string) :
  String.prefix (String.substring 0 n s) s = true.
Proof.
  revert s. induction n as [|n IH]; intros [|a s]; simpl; try reflexivity.
  destruct (Ascii.ascii_dec a a); [apply IH|contradiction].
Qed.

Lemma prefix_refl (s : string) : String.prefix s s = true.
Proof.
  induction s as [|a s IH]; simpl; [reflexivity|].
  destruct (Ascii.ascii_dec a a); [exact IH|contradiction].
Qed.

Lemma after_dash_app (pre post : string) :
  after_dash pre = None ->
  after_dash (pre +:+ String (Ascii.ascii_of_nat 45) post) = Some post.
Proof.
  induction pre as [|a pre IH]; simpl.
  - intros _. first [reflexivity | case_bool_decide; [reflexivity|contradiction]].
  - case_bool_decide; [discriminate|]. exact IH.
Qed.

(** X12.  The host name [Run] gives a container is never longer than 64
    bytes.  It is a prefix of the part of the job id after its first [-],
    or of the whole id when there is no [-]: the whole of it when that has
    at most 64 bytes.  An id that ends at its first [-] gives the empty
    host name. *)
Theorem hostname_of_bounds (id : string) :
  (String.length (hostname_of id) <= 64)%nat /\
  String.prefix (hostname_of id) (default id (after_dash id)) = true /\
  (after_dash id = None -> (String.length id <= 64)%nat -> hostname_of id = id) /\
  (forall pre post,
     after_dash pre = None ->
     id = pre +:+ String (Ascii.ascii_of_nat 45) post ->
     (String.length post <= 64)%nat -> hostname_of id = post) /\
  (forall pre,
     after_dash pre = None -> id = pre +:+ "-" -> hostname_of id = "").
Proof.
  unfold hostname_of.
  split; [|split; [|split; [|split]]].
  - destruct (Nat.ltb_spec 64 (String.length (default id (after_dash id)))).
    + apply substring_0_length.
    + assumption.
  - destruct (Nat.ltb 64 _).
    + apply substring_0_prefix.
    + apply prefix_refl.
  - intros -> Hlen. simpl.
    destruct (Nat.ltb_spec 64 (String.length id)); [lia|reflexivity].
  - intros pre post Hpre -> Hlen. rewrite (after_dash_app pre post Hpre). simpl.
    destruct (Nat.ltb_spec 64 (String.length post)); [lia|reflexivity].
  - intros pre Hpre ->.
    change "-" with (String (Ascii.ascii_of_nat 45) "").
    rewrite (after_dash_app pre "" Hpre). reflexivity.
Qed.

(** X12 at work: the id of a job on the host [host]. *)
Lemma hostname_of_bounds_witness :
  hostname_of "host-6b5cd4f8a1e24c5e" = "6b5cd4f8a1e24c5e".
Proof.
  destruct (hostname_of_bounds "host-6b5cd4f8a1e24c5e") as (_ & _ & _ & H & _).
  apply (H "host" "6b5cd4f8a1e24c5e"); [reflexivity|reflexivity|].
  simpl. lia.
Defined.

Section Props.

Variable filepath_Join : string -> string -> string.
Variable IP_String : IP -> string.

Abbreviation Run := (Run filepath_Join IP_String).
Abbreviation Run_body := (Run_body filepath_Join IP_String).
Abbreviation Stop := (Stop filepath_Join).
Abbreviation Cleanup := (Cleanup filepath_Join).
Abbreviation stop_each := (stop_each filepath_Join).
Abbreviation cleanup := (cleanup filepath_Join).
Abbreviation watch_end := (watch_end filepath_Join).

(** ** [Run]: what it needs and what it leaves *)

(** The job as [Run] runs it: an empty partition is the default one. *)
Lemma Run_success_inv W j hint b aj b' :
  GetJob (ID j) b = Some aj -> ForceStop aj = false ->
  Run W j hint b = Done (None, b') ->
  let j1 := if bool_decide (Partition j = "")
            then with_Partition defaultPartition j else j in
  let c0 := {| RootPath := ""; cDomain := None; cIP := None; job := j1;
               done := false |} in
  is_Some (partitionCGroups (settings b) !! Partition j1) /\
  (HostNetwork (Config j) = false -> networkConfigured b = Closed) /\
  (Env (Config j) !! "DISCOVERD" = None -> discoverdConfigured b = Closed) /\
  exists s1 s2,
    Run_body W s1 = Done (Val tt, s2) /\ b' = s2.1 /\
    if HostNetwork (Config j) then s1 = (b, c0)
    else exists ip,
        RequestIP W (tick b) (ipalloc b) hint = Val ip /\
        s1 = (SetContainerIP (ID j) ip
                (bump (set_ipalloc (fun s => {[ip]} ∪ s) b)),
              with_IP (Some ip) c0).
Proof.
  intros Haj Hfs. unfold Backend.Run. rewrite Haj, Hfs. cbv zeta.
  set (j1 := if bool_decide (Partition j = "") then with_Partition defaultPartition j else j).
  assert (Hcfg1 : Config j1 = Config j) by (unfold j1; case_bool_decide; reflexivity).
  destruct (partitionCGroups (settings b) !! Partition j1) eqn:Hpart; [|discriminate].
  rewrite Hcfg1.
  destruct (HostNetwork (Config j)) eqn:Hhost.
  - simpl.
    destruct (bool_decide (is_Some (Env (Config j) !! "DISCOVERD"))) eqn:Hd.
    + simpl.
      destruct (Backend.Run_body filepath_Join IP_String W _) as [[[[]|e] s2]| |] eqn:Hb;
        simpl; try discriminate;
        try (intros H; exfalso; exact (BackendProps.Run_deferred_not_nil _ _ _ _ _ H)).
      intros H; inversion H; subst.
      split; [eauto|]. split; [discriminate|]. split.
      * intros Hn. apply bool_decide_eq_true in Hd. rewrite Hn in Hd.
        destruct Hd; discriminate.
      * eexists _, s2. split; [exact Hb|]. split; reflexivity.
    + destruct (discoverdConfigured b) eqn:Hdc; simpl; [discriminate|].
      destruct (Backend.Run_body filepath_Join IP_String W _) as [[[[]|e] s2]| |] eqn:Hb;
        simpl; try discriminate;
        try (intros H; exfalso; exact (BackendProps.Run_deferred_not_nil _ _ _ _ _ H)).
      intros H; inversion H; subst.
      split; [eauto|]. split; [discriminate|]. split; [reflexivity|].
      eexists _, s2. split; [exact Hb|]. split; reflexivity.
  - destruct (networkConfigured b) eqn:Hnc; simpl; [discriminate|].
    assert (Hdis :
      (if bool_decide (is_Some (Env (Config j) !! "DISCOVERD"))
       then Done () else recv (discoverdConfigured b)) = Done () ->
      Env (Config j) !! "DISCOVERD" = None -> discoverdConfigured b = Closed).
    { case_bool_decide as Hd.
      - intros _ Hn. rewrite Hn in Hd. destruct Hd; discriminate.
      - destruct (discoverdConfigured b); [discriminate|]. reflexivity. }
    destruct (if bool_decide (is_Some (Env (Config j) !! "DISCOVERD"))
              then Done () else recv (discoverdConfigured b)) as [[]| |];
      simpl; try discriminate.
    specialize (Hdis eq_refl). rename Hdis into Hdisc.
    destruct (RequestIP W (tick b) (ipalloc b) hint) as [ip|e] eqn:Hip;
      [|discriminate].
    destruct (Backend.Run_body filepath_Join IP_String W _) as [[[[]|e] s2]| |] eqn:Hb;
      simpl; try discriminate;
      try (intros H; exfalso; exact (BackendProps.Run_deferred_not_nil _ _ _ _ _ H)).
    intros H; inversion H; subst.
    split; [eauto|]. split; [reflexivity|]. split; [exact Hdisc|].
    eexists _, s2. split; [exact Hb|]. split; [reflexivity|].
    exists ip. split; reflexivity.
Qed.

(** X13.  When [Run] returns nil it has not blocked and has not failed:
    the partition of the job (the default one for an empty name) is one of
    the host's, the network was configured unless the job uses the host
    network, and discoverd was configured unless the job's env has
    DISCOVERD.  It leaves the state mutex free and registers no container
    itself: it has started one goroutine, the watcher of the container,
    and, unless the job uses the host network, holds one more address,
    the one the allocator gave. *)
Theorem Run_success_resources (W : World) (j : Job) (hint : option IP)
    (b b' : Backend) (aj : ActiveJob) :
  GetJob (ID j) b = Some aj -> ForceStop aj = false ->
  Run W j hint b = Done (None, b') ->
  is_Some (partitionCGroups (settings b)
             !! (if bool_decide (Partition j = "")
                 then defaultPartition else Partition j)) /\
  (HostNetwork (Config j) = false -> networkConfigured b = Closed) /\
  (Env (Config j) !! "DISCOVERD" = None -> discoverdConfigured b = Closed) /\
  stateMtx b' = false /\ containers b' = containers b /\
  exists c,
    goroutines b' = goroutines b ++ [TaskWatch c] /\ ID (job c) = ID j /\
    if HostNetwork (Config j) then cIP c = None /\ ipalloc b' = ipalloc b
    else exists ip,
        RequestIP W (tick b) (ipalloc b) hint = Val ip /\
        cIP c = Some ip /\ ipalloc b' = {[ip]} ∪ ipalloc b.
Proof.
  intros Haj Hfs Hrun.
  destruct (Run_success_inv W j hint b aj b' Haj Hfs Hrun)
    as (Hpart & Hnet & Hdis & s1 & s2 & Hbody & -> & Hs1).
  split; [case_bool_decide; exact Hpart|].
  split; [exact Hnet|]. split; [exact Hdis|].
  pose proof (BackendProps.Run_body_summary filepath_Join IP_String W s1) as Hsum.
  unfold wp in Hsum. rewrite Hbody in Hsum.
  destruct Hsum as (Hk & Hg & Hm & _).
  destruct Hk as (Hip & _ & _ & Hcont & _ & _ & HcIP & HID & _).
  split; [exact Hm|].
  destruct (HostNetwork (Config j)).
  - subst s1. simpl in *. split; [exact Hcont|].
    exists s2.2. split; [exact Hg|]. split.
    + rewrite HID. case_bool_decide; reflexivity.
    + split; assumption.
  - destruct Hs1 as (ip & Hreq & ->). simpl in *.
    split; [rewrite Hcont; destruct b; reflexivity|].
    exists s2.2. split; [rewrite Hg; destruct b; reflexivity|]. split.
    + rewrite HID. case_bool_decide; reflexivity.
    + exists ip. split; [exact Hreq|]. split; [exact HcIP|].
      rewrite Hip. destruct b; reflexivity.
Qed.

(** X14.  The env of a started container.  When [Run] returns nil, the
    init config it has written gives HOSTNAME the host name derived from
    the job id, whatever the job or the host say, and, unless the job uses
    the host network, gives EXTERNAL_IP the address of the container.  For
    every other key that is not one of the port keys, the value is the one
    of the job's env if it has the key, else the one of the host's default
    env, else the one of PATH, TERM and HOME that [Run] provides. *)
Theorem Run_env_precedence (W : World) (j : Job) (hint : option IP)
    (b b' : Backend) (aj : ActiveJob) :
  GetJob (ID j) b = Some aj -> ForceStop aj = false ->
  Run W j hint b = Done (None, b') ->
  exists root cfg,
    files b' !! filepath_Join root ".containerconfig" = Some cfg /\
    icEnv cfg !! "HOSTNAME" = Some (hostname_of (ID j)) /\
    (HostNetwork (Config j) = false ->
     exists ip, RequestIP W (tick b) (ipalloc b) hint = Val ip /\
                icEnv cfg !! "EXTERNAL_IP" = Some (IP_String ip)) /\
    (forall key,
       key <> "HOSTNAME" ->
       (HostNetwork (Config j) = false -> key <> "EXTERNAL_IP") ->
       key <> "PORT" -> (forall k, key <> port_key k) ->
       icEnv cfg !! key =
       match Env (Config j) !! key with
       | Some v => Some v
       | None =>
           match defaultEnv b !! key with
           | Some v => Some v
           | None => base_env !! key
           end
       end).
Proof.
  intros Haj Hfs Hrun.
  destruct (Run_success_inv W j hint b aj b' Haj Hfs Hrun)
    as (_ & _ & _ & s1 & s2 & Hbody & -> & Hs1).
  pose proof (BackendProps.Run_body_summary filepath_Join IP_String W s1) as Hsum.
  unfold wp in Hsum. rewrite Hbody in Hsum.
  destruct Hsum as (_ & _ & _ & root & ports' & env' & cfg & Hp & Hf & _ & Henv).
  exists root, cfg. split; [exact Hf|].
  set (j1 := if bool_decide (Partition j = "") then with_Partition defaultPartition j else j)
    in Hs1.
  assert (Hj1 : ID j1 = ID j /\ Config j1 = Config j)
    by (unfold j1; case_bool_decide; split; reflexivity).
  destruct Hj1 as [Hid1 Hcfg1].
  assert (Hs : job s1.2 = j1 /\ defaultEnv s1.1 = defaultEnv b /\
               if HostNetwork (Config j) then cIP s1.2 = None
               else exists ip, RequestIP W (tick b) (ipalloc b) hint = Val ip /\
                               cIP s1.2 = Some ip).
  { destruct (HostNetwork (Config j)).
    - subst s1. auto.
    - destruct Hs1 as (ip & Hreq & ->). simpl.
      split; [reflexivity|]. split; [destruct b; reflexivity|eauto]. }
  destruct Hs as (Hjob & Hdef & HcIP).
  rewrite Henv. unfold written_env. rewrite BackendProps.merge_envs_4.
  rewrite Hjob, Hcfg1, Hid1, Hdef.
  apply BackendProps.assignPorts_spec in Hp as (_ & _ & _ & _ & _ & Hframe).
  rewrite Hjob, Hcfg1 in Hframe.
  split; [apply lookup_union_Some_l, lookup_singleton_eq|].
  split.
  - intros Hhost. rewrite Hhost in HcIP |- *. destruct HcIP as (ip & Hreq & Hc).
    exists ip. split; [exact Hreq|].
    rewrite lookup_union_r by (apply lookup_singleton_ne; discriminate).
    apply lookup_union_Some_l. simpl. rewrite Hc. apply lookup_insert_eq.
  - intros key Hh He Hport Hkeys.
    rewrite lookup_union_r by (apply lookup_singleton_ne; congruence).
    assert (Hjobenv :
      (if negb (HostNetwork (Config j))
       then <["EXTERNAL_IP" := IP_text IP_String (cIP s1.2)]> env' else env') !! key
      = Env (Config j) !! key).
    { rewrite <- Hframe by (intros; auto).
      destruct (HostNetwork (Config j)); simpl; [reflexivity|].
      apply lookup_insert_ne. intros Heq. apply He; [reflexivity|congruence]. }
    rewrite lookup_union, Hjobenv.
    destruct (Env (Config j) !! key) as [v|]; simpl.
    + destruct ((defaultEnv b ∪ (base_env ∪ ∅)) !! key); reflexivity.
    + rewrite (left_id None _). rewrite lookup_union.
      destruct (defaultEnv b !! key) as [v|]; simpl.
      * destruct ((base_env ∪ ∅) !! key); reflexivity.
      * rewrite (left_id None _). rewrite (right_id ∅ _). reflexivity.
Qed.

(** X15.  The ways [Run] ends before it has anything to clean up.  A job
    that was stopped before its start is not run: [Run] returns nil and
    changes nothing.  A partition the host does not have (the default one
    when the job names none), or an address that cannot be had, is an
    error: the job is marked failed, and no address is held, nothing is
    mounted, no file is written and no goroutine is started.  None of them
    waits for the network or for discoverd before the partition is
    checked. *)
Theorem Run_early_exits (W : World) (j : Job) (hint : option IP) (b : Backend)
    (aj : ActiveJob) :
  GetJob (ID j) b = Some aj ->
  (ForceStop aj = true -> Run W j hint b = Done (None, b)) /\
  (ForceStop aj = false ->
   partitionCGroups (settings b)
     !! (if bool_decide (Partition j = "") then defaultPartition else Partition j)
   = None ->
   exists e b',
     Run W j hint b = Done (Some e, b') /\
     jobs b' = jobs (SetStatusFailed (ID j) e b) /\
     ipalloc b' = ipalloc b /\ mtab b' = mtab b /\ files b' = files b /\
     goroutines b' = goroutines b) /\
  (ForceStop aj = false ->
   is_Some (partitionCGroups (settings b)
              !! (if bool_decide (Partition j = "")
                  then defaultPartition else Partition j)) ->
   HostNetwork (Config j) = false -> networkConfigured b = Closed ->
   is_Some (Env (Config j) !! "DISCOVERD") \/ discoverdConfigured b = Closed ->
   forall e, RequestIP W (tick b) (ipalloc b) hint = Fail e ->
   exists b',
     Run W j hint b = Done (Some e, b') /\
     jobs b' = jobs (SetStatusFailed (ID j) e b) /\
     ipalloc b' = ipalloc b /\ mtab b' = mtab b /\ files b' = files b /\
     goroutines b' = goroutines b).
Proof.
  intros Haj.
  set (j1 := if bool_decide (Partition j = "") then with_Partition defaultPartition j else j).
  assert (Hp1 : Partition j1 = if bool_decide (Partition j = "")
                               then defaultPartition else Partition j)
    by (unfold j1; case_bool_decide; reflexivity).
  assert (Hcfg1 : Config j1 = Config j) by (unfold j1; case_bool_decide; reflexivity).
  split; [|split].
  - intros Hfs. unfold Backend.Run. rewrite Haj, Hfs. reflexivity.
  - intros Hfs Hpart. unfold Backend.Run. rewrite Haj, Hfs. fold j1.
    rewrite Hp1, Hpart. eexists _, _. split; [reflexivity|].
    destruct b; repeat split.
  - intros Hfs [cg Hpart] Hhost Hnet Hdis e Hreq.
    unfold Backend.Run. rewrite Haj, Hfs. fold j1.
    rewrite Hp1, Hpart, Hcfg1, Hhost, Hnet. simpl.
    assert (Hd : (if bool_decide (is_Some (Env (Config j) !! "DISCOVERD"))
                  then Done () else recv (discoverdConfigured b)) = Done ()).
    { destruct Hdis as [H|H].
      - rewrite bool_decide_eq_true_2 by exact H. reflexivity.
      - rewrite H.
        destruct (bool_decide (is_Some (Env (Config j) !! "DISCOVERD"))); reflexivity. }
    rewrite Hd. simpl. rewrite Hreq.
    eexists. split; [reflexivity|]. destruct b; repeat split.
Qed.

(** ** [Stop] and [Cleanup] *)

(** X16.  [Stop] of a container whose job is neither done nor failed and
    whose watcher does not end within the wait: after the SIGTERM it sends
    a SIGKILL, and its result is that of the SIGKILL alone (nil when the
    signal was delivered, or when the connection to the init is shut
    down).  It returns without having seen the container stop: the job's
    status is as before and the container is still registered, with its
    address and its mounts. *)
Theorem Stop_escalates_to_SIGKILL (W : World) (id : string) (b : Backend)
    (c : Container) (j : ActiveJob) :
  containers b !! id = Some c -> GetJob (ID (job c)) b = Some j ->
  Status j <> StatusDone -> Status j <> StatusFailed -> done c = false ->
  Signal_res W (tick b) (ID (job c)) SIGTERM = None ->
  watch_ends W (S (tick b)) (ID (job c)) = None ->
  exists b',
    signals b' = (ID (job c), SIGKILL) :: (ID (job c), SIGTERM) :: signals b /\
    jobs b' = jobs b /\ containers b' = containers b /\
    ipalloc b' = ipalloc b /\ mtab b' = mtab b /\
    ((forall n, Signal_res W n (ID (job c)) SIGKILL = None) ->
     Stop W id b = Done (None, b')) /\
    (forall e, (forall n, Signal_res W n (ID (job c)) SIGKILL = Some e) ->
     Stop W id b = Done (if bool_decide (e = ErrShutdown) then None else Some e, b')).
Proof.
  intros Hc Hj Hd Hf Hdone Hterm Hwatch.
  set (b1 := bump (set_signals (fun l => (ID (job c), SIGTERM) :: l) b)).
  set (b2 := bump b1).
  set (b3 := bump (set_signals (fun l => (ID (job c), SIGKILL) :: l) b2)).
  assert (Hstop : Stop W id b =
            Done (if bool_decide (Signal_res W (tick b2) (ID (job c)) SIGKILL
                                  = Some ErrShutdown)
                  then None else Signal_res W (tick b2) (ID (job c)) SIGKILL, b3)).
  { unfold Backend.Stop, getContainer, container_Stop, container_Signal.
    rewrite Hc, Hterm. fold b1. unfold WaitStop.
    assert (Hj1 : GetJob (ID (job c)) b1 = Some j) by (destruct b; exact Hj).
    rewrite Hj1.
    rewrite (bool_decide_eq_false_2 _ Hd), (bool_decide_eq_false_2 _ Hf), Hdone.
    simpl.
    assert (Ht1 : tick b1 = S (tick b)) by (destruct b; reflexivity).
    rewrite Ht1, Hwatch. reflexivity. }
  exists b3. split; [destruct b; reflexivity|].
  split; [destruct b; reflexivity|]. split; [destruct b; reflexivity|].
  split; [destruct b; reflexivity|]. split; [destruct b; reflexivity|].
  split.
  - intros Hall. rewrite Hstop, Hall. reflexivity.
  - intros e Hall. rewrite Hstop, Hall.
    destruct (bool_decide_reflect (e = ErrShutdown)) as [->|Hne].
    + rewrite bool_decide_eq_true_2 by reflexivity. reflexivity.
    + rewrite bool_decide_eq_false_2 by congruence. reflexivity.
Qed.

Lemma watch_end_containers how c (b : Backend) :
  containers (watch_end how c b) = delete (ID (job c)) (containers b) /\
  signals (watch_end how c b) = signals b.
Proof.
  unfold Backend.watch_end, Backend.cleanup, unbindMounts.
  destruct b, how; simpl;
    repeat match goal with
           | |- context [if ?x then _ else _] => destruct x
           | |- context [match cIP c with _ => _ end] => destruct (cIP c)
           end; split; reflexivity.
Qed.

(** What one [Stop] touches. *)
Lemma Stop_touches (W : World) (id : string) (b b' : Backend) r :
  Stop W id b = Done (r, b') ->
  (b' = b /\ containers b !! id = None) \/
  exists c sigs,
    containers b !! id = Some c /\
    signals b' = sigs ++ signals b /\
    Forall (fun x => x.1 = ID (job c)) sigs /\
    (containers b' = containers b \/
     containers b' = delete (ID (job c)) (containers b)).
Proof.
  unfold Backend.Stop, getContainer.
  destruct (containers b !! id) as [c|] eqn:Hc.
  2:{ intros H; inversion H; subst. left. auto. }
  intros H. right. exists c.
  unfold container_Stop, container_Signal in H.
  destruct (Signal_res W (tick b) (ID (job c)) SIGTERM) as [e|].
  { simpl in H. inversion H; subst. exists [(ID (job c), SIGTERM)].
    split; [reflexivity|]. split; [destruct b; reflexivity|].
    split; [repeat constructor|left; destruct b; reflexivity]. }
  set (b1 := bump (set_signals (fun l => (ID (job c), SIGTERM) :: l) b)) in H.
  assert (Hb1 : signals b1 = (ID (job c), SIGTERM) :: signals b /\
                containers b1 = containers b) by (destruct b; split; reflexivity).
  destruct Hb1 as [Hs1 Hc1].
  unfold WaitStop in H.
  destruct (GetJob (ID (job c)) b1) as [j|]; [|discriminate].
  destruct (bool_decide (Status j = StatusDone) || bool_decide (Status j = StatusFailed)).
  { simpl in H. inversion H; subst. exists [(ID (job c), SIGTERM)].
    split; [reflexivity|]. split; [exact Hs1|].
    split; [repeat constructor|left; exact Hc1]. }
  destruct (done c).
  { simpl in H. inversion H; subst. exists [(ID (job c), SIGTERM)].
    split; [reflexivity|]. split; [exact Hs1|].
    split; [repeat constructor|left; exact Hc1]. }
  destruct (watch_ends W (tick b1) (ID (job c))) as [how|]; simpl in H.
  - inversion H; subst. exists [(ID (job c), SIGTERM)].
    destruct (watch_end_containers how c b1) as [Hwc Hws].
    split; [reflexivity|].
    split; [destruct (Backend.watch_end filepath_Join how c b1); simpl in *; congruence|].
    split; [repeat constructor|right].
    destruct (Backend.watch_end filepath_Join how c b1); simpl in *; congruence.
  - inversion H; subst. exists [(ID (job c), SIGKILL); (ID (job c), SIGTERM)].
    split; [reflexivity|].
    split; [destruct b1; simpl in *; congruence|].
    split; [repeat constructor|left; destruct b1; simpl in *; congruence].
Qed.

Lemma stop_each_spares (W : World) (except ids : list string) : forall b rs b',
  keyed b -> Forall (fun id => id ∉ except) ids ->
  stop_each W ids b = Done (rs, b') ->
  keyed b' /\
  (forall id, id ∈ except -> containers b' !! id = containers b !! id) /\
  (forall x, x ∈ signals b' -> x ∈ signals b \/ x.1 ∉ except).
Proof.
  induction ids as [|id ids IH]; intros b rs b' Hk Hids; simpl.
  - intros H; inversion H; subst. auto.
  - inversion Hids as [|? ? Hid Hrest]; subst.
    destruct (Stop W id b) as [[r b1]| |] eqn:Hstop; simpl; [|discriminate|discriminate].
    destruct (Backend.stop_each filepath_Join W ids b1) as [[rs1 b2]| |] eqn:Heach;
      simpl; [|discriminate|discriminate].
    intros H; inversion H; subst.
    assert (H1 : keyed b1 /\
                 (forall x, x ∈ except -> containers b1 !! x = containers b !! x) /\
                 (forall x, x ∈ signals b1 -> x ∈ signals b \/ x.1 ∉ except)).
    { destruct (Stop_touches W id b b1 r Hstop)
        as [[-> _]|(c & sigs & Hc & Hs & Hall & Hcs)]; [auto|].
      pose proof (Hk id c Hc) as Hidc.
      split; [|split].
      - destruct Hcs as [Hcs|Hcs]; intros x c' Hx; rewrite Hcs in Hx.
        + eauto.
        + apply lookup_delete_Some in Hx as [_ Hx]. eauto.
      - intros x Hx. destruct Hcs as [-> | ->]; [reflexivity|].
        apply lookup_delete_ne. intros Heq. apply Hid. congruence.
      - intros x Hx. rewrite Hs in Hx. apply elem_of_app in Hx as [Hx|Hx]; [|auto].
        right. rewrite Forall_forall in Hall. rewrite (Hall x Hx), Hidc. exact Hid. }
    destruct H1 as (Hk1 & Hc1 & Hs1).
    destruct (IH b1 rs1 b' Hk1 Hrest Heach) as (Hk2 & Hc2 & Hs2).
    split; [exact Hk2|]. split.
    + intros x Hx. rewrite (Hc2 x Hx). apply Hc1, Hx.
    + intros x Hx. destruct (Hs2 x Hx) as [Hx'|Hx']; [apply Hs1, Hx'|auto].
Qed.

(** X17.  [Cleanup] leaves the containers of its allow-list alone.  On a
    host where every container is registered under the id of its job,
    whenever [Cleanup] returns, each id of [except] maps to the container
    it mapped to before, and no signal has been sent to a container of
    [except].  When no registered container is outside [except],
    [Cleanup] returns nil and changes nothing. *)
Theorem Cleanup_spares_excepted (W : World) (sched : list string -> list string)
    (except : list string) (b : Backend) :
  keyed b ->
  sched (cleanup_ids except b) ≡ₚ cleanup_ids except b ->
  (forall r b',
     Cleanup W sched except b = Done (r, b') ->
     (forall id, id ∈ except -> containers b' !! id = containers b !! id) /\
     (forall x, x ∈ signals b' -> x ∈ signals b \/ x.1 ∉ except)) /\
  ((forall id, is_Some (containers b !! id) -> id ∈ except) ->
   Cleanup W sched except b = Done (None, b)).
Proof.
  intros Hk Hperm. split.
  - intros r b'. unfold Backend.Cleanup.
    destruct (Backend.stop_each filepath_Join W _ b) as [[rs b1]| |] eqn:Heach;
      simpl; [|discriminate|discriminate].
    intros H; inversion H; subst.
    assert (Hout : Forall (fun id => id ∉ except) (sched (cleanup_ids except b))).
    { apply Forall_forall. intros id Hid. rewrite Hperm in Hid.
      apply (BackendProps.cleanup_ids_spec filepath_Join) in Hid. destruct Hid as [_ Hid]. exact Hid. }
    destruct (stop_each_spares W except _ b rs b' Hk Hout Heach) as (_ & H1 & H2).
    auto.
  - intros Hall.
    assert (Hnil : cleanup_ids except b = []).
    { destruct (cleanup_ids except b) as [|id l] eqn:E; [reflexivity|].
      assert (Hin : id ∈ cleanup_ids except b) by (rewrite E; left).
      apply (BackendProps.cleanup_ids_spec filepath_Join) in Hin as [Hsome Hnot].
      destruct (Hnot (Hall id Hsome)). }
    unfold Backend.Cleanup. rewrite Hnil in *.
    apply Permutation_nil_r in Hperm. rewrite Hperm. reflexivity.
Qed.

End Props.

Lemma two_running_keyed : keyed two_running.
Proof.
  intros id c H. unfold two_running, host in H. simpl in H.
  apply lookup_insert_Some in H as [[<- <-]|[_ H]]; [reflexivity|].
  apply lookup_singleton_Some in H as [<- <-]. reflexivity.
Qed.

(** X13 at work: a job with two ports on a calm host. *)
Lemma Run_success_resources_witness :
  exists b' c,
    Run join ip_string calm two_ports None fresh_host = Done (None, b') /\
    goroutines b' = goroutines fresh_host ++ [TaskWatch c] /\
    stateMtx b' = false.
Proof.
  pose (b' := match Run join ip_string calm two_ports None fresh_host with
              | Done (_, b) => b
              | _ => fresh_host
              end).
  assert (Hrun : Run join ip_string calm two_ports None fresh_host = Done (None, b'))
    by (vm_compute; reflexivity).
  destruct (Run_success_resources join ip_string calm two_ports None fresh_host b'
              (active StatusStarting) eq_refl eq_refl Hrun)
    as (_ & _ & _ & Hm & _ & c & Hg & _).
  exists b', c. auto.
Defined.

(** X14 at work: the same job gets the host's DISCOVERD and its own
    HOSTNAME. *)
Lemma Run_env_precedence_witness :
  exists b' root cfg,
    Run join ip_string calm two_ports None fresh_host = Done (None, b') /\
    files b' !! join root ".containerconfig" = Some cfg /\
    icEnv cfg !! "HOSTNAME" = Some "web" /\
    icEnv cfg !! "DISCOVERD" = Some "http://100.100.0.1:1111".
Proof.
  pose (b' := match Run join ip_string calm two_ports None fresh_host with
              | Done (_, b) => b
              | _ => fresh_host
              end).
  assert (Hrun : Run join ip_string calm two_ports None fresh_host = Done (None, b'))
    by (vm_compute; reflexivity).
  destruct (Run_env_precedence join ip_string calm two_ports None fresh_host b'
              (active StatusStarting) eq_refl eq_refl Hrun)
    as (root & cfg & Hf & Hh & _ & Hkey).
  exists b', root, cfg. split; [exact Hrun|]. split; [exact Hf|].
  split; [exact Hh|].
  rewrite Hkey; [reflexivity|discriminate|discriminate|discriminate|].
  intros k. unfold port_key. simpl. discriminate.
Defined.

(** X15 at work: a job that was stopped before it started. *)
Lemma Run_early_exits_witness :
  Run join ip_string calm two_ports None stopped_early = Done (None, stopped_early).
Proof.
  destruct (Run_early_exits join ip_string calm two_ports None stopped_early _ eq_refl)
    as (H & _).
  apply H. reflexivity.
Defined.

(** X16 at work: the container of [host-a] ignores the SIGTERM. *)
Lemma Stop_escalates_to_SIGKILL_witness :
  exists b',
    Stop join stubborn "host-a" two_running = Done (None, b') /\
    signals b' = [("host-a", SIGKILL); ("host-a", SIGTERM)] /\
    containers b' = containers two_running.
Proof.
  destruct (Stop_escalates_to_SIGKILL join stubborn "host-a" two_running
              (container_of jobA 2%N) (active StatusRunning))
    as (b' & Hs & _ & Hc & _ & _ & H & _).
  - reflexivity.
  - reflexivity.
  - discriminate.
  - discriminate.
  - reflexivity.
  - reflexivity.
  - reflexivity.
  - exists b'. split; [apply H; reflexivity|]. split; [exact Hs|exact Hc].
Defined.

(** X17 at work: both containers of the host are in the allow-list. *)
Lemma Cleanup_spares_excepted_witness :
  Cleanup join calm (fun ids => ids) ["host-a"; "host-b"] two_running
    = Done (None, two_running).
Proof.
  destruct (Cleanup_spares_excepted join calm (fun ids => ids) ["host-a"; "host-b"]
              two_running two_running_keyed)
    as (_ & H).
  - reflexivity.
  - apply H. intros id [c Hc]. unfold two_running, host in Hc. simpl in Hc.
    apply lookup_insert_Some in Hc as [[<- _]|[_ Hc]]; [left|].
    apply lookup_singleton_Some in Hc as [<- _]. right. left.
Defined.

Section Watcher.

Variable filepath_Join : string -> string -> string.

Abbreviation cleanup := (cleanup filepath_Join).

(** ** The watcher *)

(** What the calls to the host state leave alone. *)
Lemma update_job_frame f id (b : Backend) :
  containers (update_job f id b) = containers b /\
  logStreams (update_job f id b) = logStreams b /\
  ipalloc (update_job f id b) = ipalloc b /\
  mtab (update_job f id b) = mtab b /\
  settings (update_job f id b) = settings b /\
  signals (update_job f id b) = signals b /\
  jobs (update_job f id b) = alter f id (jobs b).
Proof. destruct b; repeat split. Qed.

Lemma container_Signal_frame W c sig (b : Backend) :
  containers (container_Signal W c sig b).2 = containers b /\
  logStreams (container_Signal W c sig b).2 = logStreams b /\
  ipalloc (container_Signal W c sig b).2 = ipalloc b /\
  mtab (container_Signal W c sig b).2 = mtab b /\
  settings (container_Signal W c sig b).2 = settings b /\
  signals (container_Signal W c sig b).2 = (ID (job c), sig) :: signals b /\
  jobs (container_Signal W c sig b).2 = jobs b.
Proof. destruct b; repeat split. Qed.

Lemma bump_frame (b : Backend) :
  containers (bump b) = containers b /\ logStreams (bump b) = logStreams b /\
  ipalloc (bump b) = ipalloc b /\ mtab (bump b) = mtab b /\
  settings (bump b) = settings b /\ signals (bump b) = signals b /\
  jobs (bump b) = jobs b.
Proof. destruct b; repeat split. Qed.

(** The state of a job after a call that sets a final status. *)
Lemma GetJob_SetStatusFailed id e (b : Backend) j :
  GetJob id b = Some j ->
  exists j', GetJob id (SetStatusFailed id e b) = Some j' /\
             terminal (Status j') = true /\ ForceStop j' = ForceStop j.
Proof.
  unfold GetJob, SetStatusFailed. intros Hj.
  destruct (update_job_frame
              (fun j => if terminal (Status j) then j
                        else {| Status := StatusFailed; ForceStop := ForceStop j;
                                ContainerID := ContainerID j;
                                InternalIP := InternalIP j;
                                ExitStatus := ExitStatus j; Error := Some e |})
              id b) as (_&_&_&_&_&_&->).
  rewrite lookup_alter_eq, Hj. simpl. eexists. split; [reflexivity|].
  destruct (terminal (Status j)) eqn:Ht; simpl; auto.
Qed.

Lemma GetJob_SetStatusDone id st (b : Backend) j :
  GetJob id b = Some j ->
  exists j', GetJob id (SetStatusDone id st b) = Some j' /\
             terminal (Status j') = true /\ ForceStop j' = ForceStop j /\
             (terminal (Status j) = false ->
              Status j' = StatusDone /\ ExitStatus j' = Some st).
Proof.
  unfold GetJob, SetStatusDone. intros Hj.
  destruct (update_job_frame
              (fun j => if terminal (Status j) then j
                        else {| Status := StatusDone; ForceStop := ForceStop j;
                                ContainerID := ContainerID j;
                                InternalIP := InternalIP j;
                                ExitStatus := Some st; Error := Error j |})
              id b) as (_&_&_&_&_&_&->).
  rewrite lookup_alter_eq, Hj. simpl. eexists. split; [reflexivity|].
  destruct (terminal (Status j)) eqn:Ht; simpl.
  - split; [exact Ht|]. split; [reflexivity|]. discriminate.
  - repeat split.
Qed.

Lemma GetJob_SetStatusRunning id (b : Backend) j :
  GetJob id b = Some j ->
  exists j', GetJob id (SetStatusRunning id b) = Some j' /\
             ForceStop j' = ForceStop j /\
             (terminal (Status j) = false -> Status j' = StatusRunning) /\
             (terminal (Status j) = true -> j' = j).
Proof.
  unfold GetJob, SetStatusRunning. intros Hj.
  destruct (update_job_frame
              (fun j => if terminal (Status j) then j
                        else {| Status := StatusRunning; ForceStop := ForceStop j;
                                ContainerID := ContainerID j;
                                InternalIP := InternalIP j;
                                ExitStatus := ExitStatus j; Error := Error j |})
              id b) as (_&_&_&_&_&_&->).
  rewrite lookup_alter_eq, Hj. simpl. eexists. split; [reflexivity|].
  destruct (terminal (Status j)) eqn:Ht; simpl; repeat split; auto; discriminate.
Qed.

Lemma Stop_in_watch_frame W c (b b' : Backend) :
  Stop_in_watch W c b = Done b' ->
  containers b' = containers b /\ logStreams b' = logStreams b /\
  ipalloc b' = ipalloc b /\ mtab b' = mtab b /\ settings b' = settings b /\
  jobs b' = jobs b /\
  exists sigs, signals b' = sigs ++ signals b /\
               Forall (fun x => x.1 = ID (job c)) sigs.
Proof.
  unfold Stop_in_watch, container_Signal.
  destruct (Signal_res W (tick b) (ID (job c)) SIGTERM).
  { intros H; inversion H; subst. destruct b; simpl.
    repeat split. exists [(ID (job c), SIGTERM)]. split; [reflexivity|].
    repeat constructor. }
  destruct (GetJob _ _); [|discriminate].
  destruct (_ || _); intros H; inversion H; subst; destruct b; simpl; repeat split.
  - exists [(ID (job c), SIGTERM)]. split; [reflexivity|]. repeat constructor.
  - exists [(ID (job c), SIGKILL); (ID (job c), SIGTERM)].
    split; [reflexivity|]. repeat constructor.
Qed.

(** The loop over the state changes touches the job table and sends
    signals, nothing else; when it returns, the job has a final status. *)
Lemma watch_loop_frame W ans c chs : forall (b b' : Backend) r,
  watch_loop W ans c chs b = Done (r, b') ->
  containers b' = containers b /\ logStreams b' = logStreams b /\
  ipalloc b' = ipalloc b /\ mtab b' = mtab b /\ settings b' = settings b /\
  (forall j, GetJob (ID (job c)) b = Some j ->
     exists j', GetJob (ID (job c)) b' = Some j' /\
                terminal (Status j') = true /\ ForceStop j' = ForceStop j) /\
  (exists sigs, signals b' = sigs ++ signals b /\
                Forall (fun x => x.1 = ID (job c)) sigs) /\
  ((forall j, GetJob (ID (job c)) b = Some j -> ForceStop j = false) ->
   signals b' = signals b).
Proof.
  assert (Hfail : forall e (b : Backend),
    containers (SetStatusFailed (ID (job c)) e b) = containers b /\
    logStreams (SetStatusFailed (ID (job c)) e b) = logStreams b /\
    ipalloc (SetStatusFailed (ID (job c)) e b) = ipalloc b /\
    mtab (SetStatusFailed (ID (job c)) e b) = mtab b /\
    settings (SetStatusFailed (ID (job c)) e b) = settings b /\
    (forall j, GetJob (ID (job c)) b = Some j ->
       exists j', GetJob (ID (job c)) (SetStatusFailed (ID (job c)) e b) = Some j' /\
                  terminal (Status j') = true /\ ForceStop j' = ForceStop j) /\
    (exists sigs, signals (SetStatusFailed (ID (job c)) e b) = sigs ++ signals b /\
                  Forall (fun x => x.1 = ID (job c)) sigs) /\
    ((forall j, GetJob (ID (job c)) b = Some j -> ForceStop j = false) ->
     signals (SetStatusFailed (ID (job c)) e b) = signals b)).
  { intros e b. unfold SetStatusFailed.
    destruct (update_job_frame
                (fun j => if terminal (Status j) then j
                          else {| Status := StatusFailed; ForceStop := ForceStop j;
                                  ContainerID := ContainerID j;
                                  InternalIP := InternalIP j;
                                  ExitStatus := ExitStatus j; Error := Some e |})
                (ID (job c)) b) as (H1&H2&H3&H4&H5&H6&_).
    repeat split; auto.
    - intros j Hj. apply GetJob_SetStatusFailed, Hj.
    - exists []. split; [exact H6|constructor]. }
  induction chs as [|ch chs IH]; intros b b' r; simpl.
  - intros H; inversion H; subst. apply Hfail.
  - destruct (negb (String.eqb (chError ch) "")).
    { intros H; inversion H; subst. apply Hfail. }
    destruct (chState ch).
    + destruct (attach_arrives ans); [apply IH|discriminate].
    + destruct (GetJob (ID (job c)) (SetStatusRunning (ID (job c)) b)) as [j1|] eqn:Hj1;
        [|discriminate].
      assert (Hrun : containers (SetStatusRunning (ID (job c)) b) = containers b /\
                     logStreams (SetStatusRunning (ID (job c)) b) = logStreams b /\
                     ipalloc (SetStatusRunning (ID (job c)) b) = ipalloc b /\
                     mtab (SetStatusRunning (ID (job c)) b) = mtab b /\
                     settings (SetStatusRunning (ID (job c)) b) = settings b /\
                     signals (SetStatusRunning (ID (job c)) b) = signals b)
        by (destruct b; repeat split).
      destruct Hrun as (R1&R2&R3&R4&R5&R6).
      assert (Hjr : forall j, GetJob (ID (job c)) b = Some j ->
                              ForceStop j1 = ForceStop j).
      { intros j Hj. destruct (GetJob_SetStatusRunning (ID (job c)) b j Hj)
          as (j' & Hj' & Hfs & _). congruence. }
      destruct (ForceStop j1) eqn:Hf1.
      * destruct (Stop_in_watch W c (SetStatusRunning (ID (job c)) b)) as [b2| |] eqn:Hs;
          simpl; [|discriminate|discriminate].
        destruct (Stop_in_watch_frame W c _ b2 Hs)
          as (S1&S2&S3&S4&S5&S6&sigs&S7&S8).
        intros H. destruct (IH b2 b' r H) as (I1&I2&I3&I4&I5&I6&(sigs'&I7&I8)&I9).
        split; [congruence|]. split; [congruence|]. split; [congruence|].
        split; [congruence|]. split; [congruence|]. split; [|split].
        -- intros j Hj.
           assert (Hj2 : GetJob (ID (job c)) b2 = Some j1)
             by (unfold GetJob in *; rewrite S6; exact Hj1).
           destruct (I6 j1 Hj2) as (j' & Hj' & Ht & Hfs).
           exists j'. split; [exact Hj'|]. split; [exact Ht|].
           rewrite Hfs, Hf1. apply Hjr, Hj.
        -- exists (sigs' ++ sigs). split.
           ++ rewrite I7, S7, R6. apply app_assoc.
           ++ apply Forall_app. auto.
        -- intros Hno. exfalso.
           destruct (GetJob (ID (job c)) b) as [j|] eqn:Hj.
           ++ specialize (Hno j eq_refl). pose proof (Hjr j eq_refl). congruence.
           ++ unfold GetJob, SetStatusRunning in Hj1, Hj.
              destruct b; simpl in *. rewrite lookup_alter_eq, Hj in Hj1. discriminate.
      * intros H.
        destruct (IH _ b' r H) as (I1&I2&I3&I4&I5&I6&(sigs'&I7&I8)&I9).
        split; [congruence|]. split; [congruence|]. split; [congruence|].
        split; [congruence|]. split; [congruence|]. split; [|split].
        -- intros j Hj. destruct (I6 j1 Hj1) as (j' & Hj' & Ht & Hfs).
           exists j'. split; [exact Hj'|]. split; [exact Ht|].
           rewrite Hfs, Hf1. apply Hjr, Hj.
        -- exists sigs'. split; [congruence|exact I8].
        -- intros _. rewrite I9; [exact R6|].
           intros j Hj. congruence.
    + intros H; inversion H; subst. unfold SetStatusDone.
      destruct (update_job_frame
                  (fun j => if terminal (Status j) then j
                            else {| Status := StatusDone; ForceStop := ForceStop j;
                                    ContainerID := ContainerID j;
                                    InternalIP := InternalIP j;
                                    ExitStatus := Some (chExitStatus ch);
                                    Error := Error j |})
                  (ID (job c)) b) as (H1&H2&H3&H4&H5&H6&_).
      repeat split; auto.
      * intros j Hj.
        destruct (GetJob_SetStatusDone (ID (job c)) (chExitStatus ch) b j Hj)
          as (j' & Hj' & Ht & Hfs & _). eauto.
      * exists []. split; [exact H6|constructor].
    + intros H; inversion H; subst. apply Hfail.
    + apply IH.
Qed.

Lemma cleanup_frame c (b : Backend) :
  jobs (cleanup c b) = jobs b /\ containers (cleanup c b) = containers b /\
  signals (cleanup c b) = signals b /\ settings (cleanup c b) = settings b /\
  logStreams (cleanup c b) = logStreams b ∖ {[ID (job c)]}.
Proof.
  unfold Backend.cleanup, unbindMounts. destruct b; simpl.
  repeat match goal with
         | |- context [if ?x then _ else _] => destruct x
         | |- context [match cIP c with _ => _ end] => destruct (cIP c)
         end; repeat split.
Qed.

(** What the deferred function makes of a backend that differs from [b]
    in its job table and its signals only, and perhaps has the container
    and its streams registered. *)
Lemma watch_deferred_spec c (b b1 : Backend) :
  (containers b1 = containers b \/
   containers b1 = <[ID (job c) := c]> (containers b)) ->
  (logStreams b1 = logStreams b \/
   logStreams b1 = {[ID (job c)]} ∪ logStreams b) ->
  ipalloc b1 = ipalloc b -> mtab b1 = mtab b -> settings b1 = settings b ->
  containers (watch_deferred filepath_Join c b1) = delete (ID (job c)) (containers b) /\
  logStreams (watch_deferred filepath_Join c b1) = logStreams b ∖ {[ID (job c)]} /\
  mtab (watch_deferred filepath_Join c b1) ⊆+ mtab b /\
  ipalloc (watch_deferred filepath_Join c b1)
  = (if negb (HostNetwork (Config (job c))) && bool_decide (bridgeNet (settings b) ≠ None)
     then match cIP c with Some ip => ipalloc b ∖ {[ip]} | None => ipalloc b end
     else ipalloc b) /\
  jobs (watch_deferred filepath_Join c b1) = jobs b1 /\
  signals (watch_deferred filepath_Join c b1) = signals b1.
Proof.
  intros Hc Hl Hi Hm Hs. unfold watch_deferred.
  set (b2 := set_containers (delete (ID (job c))) b1).
  assert (H2 : containers b2 = delete (ID (job c)) (containers b) /\
               logStreams b2 = logStreams b1 /\ ipalloc b2 = ipalloc b /\
               mtab b2 = mtab b /\ settings b2 = settings b /\
               jobs b2 = jobs b1 /\ signals b2 = signals b1).
  { unfold b2. destruct b1; simpl in *. repeat split; auto.
    destruct Hc as [-> | ->]; [reflexivity|apply delete_insert_eq]. }
  destruct H2 as (C2 & L2 & I2 & M2 & S2 & J2 & G2).
  destruct (cleanup_frame c b2) as (Jc & Cc & Gc & Sc & Lc).
  split; [congruence|]. split.
  { rewrite Lc, L2. destruct Hl as [-> | ->]; [reflexivity|].
    apply set_eq. intros x.
    rewrite !elem_of_difference, elem_of_union, elem_of_singleton. tauto. }
  split.
  { rewrite (BackendProps.cleanup_mtab filepath_Join), M2.
    apply (BackendProps.umount_targets _ [] (mtab b)), submseteq_nil_l. }
  split.
  { rewrite (BackendProps.cleanup_ipalloc filepath_Join), S2, I2. reflexivity. }
  split; congruence.
Qed.

Lemma watch_Done_inv (W : World) (ans : InitAnswers) (c : Container)
    (b b' : Backend) (e : option error) (g : bool) :
  watch filepath_Join W ans c b = Done (e, g, b') ->
  containers b' = delete (ID (job c)) (containers b) /\
  JobExists (ID (job c)) b' = false /\
  logStreams b' = logStreams b ∖ {[ID (job c)]} /\
  mtab b' ⊆+ mtab b /\
  ipalloc b'
  = (if negb (HostNetwork (Config (job c))) && bool_decide (bridgeNet (settings b) ≠ None)
     then match cIP c with Some ip => ipalloc b ∖ {[ip]} | None => ipalloc b end
     else ipalloc b) /\
  (forall j, GetJob (ID (job c)) b = Some j ->
     exists j', GetJob (ID (job c)) b' = Some j' /\
       (terminal (Status j') = true \/
        (j' = j /\ connect_res ans = None /\ is_Some e /\ e = GetStreams_res ans))).
Proof.
  intros H.
  assert (Hpost : forall b1,
    (containers b1 = containers b \/
     containers b1 = <[ID (job c) := c]> (containers b)) ->
    (logStreams b1 = logStreams b \/
     logStreams b1 = {[ID (job c)]} ∪ logStreams b) ->
    ipalloc b1 = ipalloc b -> mtab b1 = mtab b -> settings b1 = settings b ->
    b' = watch_deferred filepath_Join c b1 ->
    (forall j, GetJob (ID (job c)) b = Some j ->
       exists j', GetJob (ID (job c)) b1 = Some j' /\
         (terminal (Status j') = true \/
          (j' = j /\ connect_res ans = None /\ is_Some e /\ e = GetStreams_res ans))) ->
    containers b' = delete (ID (job c)) (containers b) /\
    JobExists (ID (job c)) b' = false /\
    logStreams b' = logStreams b ∖ {[ID (job c)]} /\
    mtab b' ⊆+ mtab b /\
    ipalloc b'
    = (if negb (HostNetwork (Config (job c))) && bool_decide (bridgeNet (settings b) ≠ None)
       then match cIP c with Some ip => ipalloc b ∖ {[ip]} | None => ipalloc b end
       else ipalloc b) /\
    (forall j, GetJob (ID (job c)) b = Some j ->
       exists j', GetJob (ID (job c)) b' = Some j' /\
         (terminal (Status j') = true \/
          (j' = j /\ connect_res ans = None /\ is_Some e /\ e = GetStreams_res ans)))).
  { intros b1 Hc Hl Hi Hm Hs -> Hj.
    destruct (watch_deferred_spec c b b1 Hc Hl Hi Hm Hs) as (D1&D2&D3&D4&D5&D6).
    split; [exact D1|]. split.
    { unfold JobExists. rewrite D1, lookup_delete_eq.
      apply bool_decide_eq_false_2. intros [? ?]; discriminate. }
    split; [exact D2|]. split; [exact D3|]. split; [exact D4|].
    intros j Hjb. unfold GetJob. rewrite D5. apply Hj, Hjb. }
  unfold watch in H.
  destruct (connect_res ans) as [e0|] eqn:Hconn.
  - set (b1 := SetStatusFailed (ID (job c)) "failed to connect to container" b) in H.
    assert (Hb1 : b' = watch_deferred filepath_Join c b1)
      by (destruct (lookup_domain ans); inversion H; reflexivity).
    apply (Hpost b1);
      [left; unfold b1; destruct b; reflexivity
      |left; unfold b1; destruct b; reflexivity
      |unfold b1; destruct b; reflexivity
      |unfold b1; destruct b; reflexivity
      |unfold b1; destruct b; reflexivity
      |exact Hb1|].
    intros j Hj.
    destruct (GetJob_SetStatusFailed (ID (job c)) "failed to connect to container"
                b j Hj) as (j' & Hj' & Ht & _).
    exists j'. auto.
  - set (b1 := set_containers (fun m => <[ID (job c) := c]> m) b) in H.
    assert (Hb1 : containers b1 = <[ID (job c) := c]> (containers b) /\
                  logStreams b1 = logStreams b /\ ipalloc b1 = ipalloc b /\
                  mtab b1 = mtab b /\ settings b1 = settings b /\
                  jobs b1 = jobs b /\ signals b1 = signals b)
      by (unfold b1; destruct b; repeat split).
    destruct Hb1 as (C1&L1&I1&M1&S1&J1&G1).
    destruct (if negb (DisableLog (Config (job c))) && negb (TTY (Config (job c)))
              then followLogs ans c b1 else (None, b1)) as [e2 b2] eqn:Hlogs.
    assert (Hb2 : containers b2 = containers b1 /\
                  (logStreams b2 = logStreams b1 \/
                   logStreams b2 = {[ID (job c)]} ∪ logStreams b1) /\
                  ipalloc b2 = ipalloc b1 /\ mtab b2 = mtab b1 /\
                  settings b2 = settings b1 /\ jobs b2 = jobs b1 /\
                  signals b2 = signals b1 /\
                  (is_Some e2 -> e2 = GetStreams_res ans)).
    { destruct (negb (DisableLog (Config (job c))) && negb (TTY (Config (job c)))).
      - unfold followLogs in Hlogs.
        destruct (bool_decide (ID (job c) ∈ logStreams b1)).
        + inversion Hlogs; subst.
          split_and!; auto; try (intros [? ?]; discriminate).
        + destruct (GetStreams_res ans) eqn:Hg; inversion Hlogs; subst.
          * split_and!; auto.
          * destruct b1; simpl.
            split_and!; auto; try (intros [? ?]; discriminate).
      - inversion Hlogs; subst.
        split_and!; auto; try (intros [? ?]; discriminate). }
    destruct Hb2 as (C2&L2&I2&M2&S2&J2&G2&E2).
    destruct e2 as [e2|].
    + inversion H; subst.
      apply (Hpost b2);
        [right; congruence
        |destruct L2 as [L2|L2]; [left|right]; congruence
        |congruence|congruence|congruence|reflexivity|].
      intros j Hj. exists j.
      split; [unfold GetJob in *; congruence|].
      right. split; [reflexivity|]. split; [reflexivity|]. split; [eauto|].
      apply E2. eauto.
    + destruct (watch_loop W ans c (changes ans) b2) as [[r b3]| |] eqn:Hloop;
        simpl in H; [|discriminate|discriminate].
      destruct (watch_loop_frame W ans c _ b2 b3 r Hloop)
        as (F1&F2&F3&F4&F5&F6&_&_).
      inversion H; subst.
      apply (Hpost b3);
        [right; congruence
        |destruct L2 as [L2|L2]; [left|right]; congruence
        |congruence|congruence|congruence|reflexivity|].
      intros j Hj.
      assert (Hj2 : GetJob (ID (job c)) b2 = Some j)
        by (unfold GetJob in *; congruence).
      destruct (F6 j Hj2) as (j' & Hj' & Ht & _).
      exists j'. auto.
Qed.

(** X18.  However [watch] returns, its container is torn down: it is no
    longer registered ([JobExists] is false) while every other container is
    registered as before, its log streams are dropped, no mount has been
    added, and its address is back in the pool (unless the job uses the
    host network or no bridge network is configured).  A job that the host
    state knows is left with a final status, with one exception: when
    the streams of the container cannot be followed, [watch] returns that
    error and the job keeps the status it had. *)
Theorem watch_tears_down (W : World) (ans : InitAnswers) (c : Container)
    (b b' : Backend) (e : option error) (g : bool) :
  watch filepath_Join W ans c b = Done (e, g, b') ->
  containers b' = delete (ID (job c)) (containers b) /\
  JobExists (ID (job c)) b' = false /\
  logStreams b' = logStreams b ∖ {[ID (job c)]} /\
  mtab b' ⊆+ mtab b /\
  ipalloc b'
  = (if negb (HostNetwork (Config (job c))) && bool_decide (bridgeNet (settings b) ≠ None)
     then match cIP c with Some ip => ipalloc b ∖ {[ip]} | None => ipalloc b end
     else ipalloc b) /\
  (forall j, GetJob (ID (job c)) b = Some j ->
     exists j', GetJob (ID (job c)) b' = Some j' /\
       (terminal (Status j') = true \/
        (j' = j /\ connect_res ans = None /\ is_Some e /\ e = GetStreams_res ans))).
Proof. apply watch_Done_inv. Qed.

Lemma watch_loop_initial W ans c pre : forall rest (b : Backend),
  attach_arrives ans = true ->
  Forall (fun x => chState x = StateInitial /\ chError x = "") pre ->
  watch_loop W ans c (pre ++ rest) b = watch_loop W ans c rest b.
Proof.
  induction pre as [|x pre IH]; intros rest b Ha Hpre; [reflexivity|].
  inversion Hpre as [|? ? [Hs He] Hrest]; subst. simpl.
  rewrite He, Hs, Ha. simpl. apply IH; assumption.
Qed.

(** X19.  The signals of a watcher.  [watch] sends signals to its own
    container only, and none at all when the job is not marked as stopped.
    When the init reports the container running and the job was stopped
    before (and is not in a final status), the watcher sends SIGTERM and,
    the SIGTERM delivered, SIGKILL right after its wait: the wait is for
    a channel that only the watcher itself closes, when it returns. *)
Theorem watch_signals (W : World) (ans : InitAnswers) (c : Container)
    (b b' : Backend) (e : option error) (g : bool) :
  watch filepath_Join W ans c b = Done (e, g, b') ->
  (exists sigs, signals b' = sigs ++ signals b /\
                Forall (fun x => x.1 = ID (job c)) sigs) /\
  ((forall j, GetJob (ID (job c)) b = Some j -> ForceStop j = false) ->
   signals b' = signals b) /\
  (forall j pre ch rest,
     connect_res ans = None ->
     DisableLog (Config (job c)) = true \/ TTY (Config (job c)) = true \/
       GetStreams_res ans = None ->
     changes ans = pre ++ ch :: rest ->
     Forall (fun x => chState x = StateInitial /\ chError x = "") pre ->
     attach_arrives ans = true ->
     chState ch = StateRunning -> chError ch = "" ->
     GetJob (ID (job c)) b = Some j -> ForceStop j = true ->
     terminal (Status j) = false ->
     (forall n, Signal_res W n (ID (job c)) SIGTERM = None) ->
     exists sigs,
       signals b' = sigs ++ [(ID (job c), SIGKILL); (ID (job c), SIGTERM)]
                         ++ signals b).
Proof.
  intros H. unfold watch in H.
  destruct (connect_res ans) as [e0|] eqn:Hconn.
  { set (b1 := SetStatusFailed (ID (job c)) "failed to connect to container" b) in H.
    assert (Hb1 : b' = watch_deferred filepath_Join c b1)
      by (destruct (lookup_domain ans); inversion H; reflexivity).
    assert (Hs : signals b' = signals b).
    { subst b'. unfold watch_deferred.
      destruct (cleanup_frame c (set_containers (delete (ID (job c))) b1))
        as (_ & _ & -> & _). unfold b1. destruct b; reflexivity. }
    split; [exists []; split; [exact Hs|constructor]|].
    split; [intros _; exact Hs|]. intros; discriminate. }
  set (b1 := set_containers (fun m => <[ID (job c) := c]> m) b) in H.
  destruct (if negb (DisableLog (Config (job c))) && negb (TTY (Config (job c)))
            then followLogs ans c b1 else (None, b1)) as [e2 b2] eqn:Hlogs.
  assert (Hb2 : jobs b2 = jobs b /\ signals b2 = signals b /\
                (is_Some e2 -> e2 = GetStreams_res ans /\
                               DisableLog (Config (job c)) = false /\
                               TTY (Config (job c)) = false)).
  { destruct (DisableLog (Config (job c))), (TTY (Config (job c))); simpl in Hlogs;
      try (inversion Hlogs; subst; unfold b1; destruct b;
           split_and!; auto; intros [? ?]; discriminate).
    unfold followLogs in Hlogs.
    destruct (bool_decide (ID (job c) ∈ logStreams b1)).
    - inversion Hlogs; subst. unfold b1; destruct b.
      split_and!; auto; intros [? ?]; discriminate.
    - destruct (GetStreams_res ans) eqn:Hg; inversion Hlogs; subst;
        unfold b1; destruct b; simpl; split_and!; auto; intros [? ?]; discriminate. }
  destruct Hb2 as (J2 & G2 & E2).
  assert (Hdef : forall b3, signals (watch_deferred filepath_Join c b3) = signals b3).
  { intros b3. unfold watch_deferred.
    destruct (cleanup_frame c (set_containers (delete (ID (job c))) b3))
      as (_ & _ & -> & _). destruct b3; reflexivity. }
  destruct e2 as [e2|].
  { inversion H; subst. rewrite Hdef, G2.
    split; [exists []; split; [reflexivity|constructor]|].
    split; [reflexivity|].
    intros j pre ch rest _ Hstreams.
    destruct (E2 ltac:(eauto)) as (Hg & Hd & Ht).
    destruct Hstreams as [Hx|[Hx|Hx]]; congruence. }
  destruct (watch_loop W ans c (changes ans) b2) as [[r b3]| |] eqn:Hloop;
    simpl in H; [|discriminate|discriminate].
  destruct (watch_loop_frame W ans c _ b2 b3 r Hloop)
    as (_&_&_&_&_&_&(sigs & F7 & F8)&F9).
  inversion H; subst. rewrite Hdef.
  split; [exists sigs; split; [congruence|exact F8]|].
  split.
  { intros Hno. rewrite F9; [exact G2|].
    intros j Hj. apply Hno. unfold GetJob in *. congruence. }
  intros j pre ch rest _ _ Hch Hpre Hatt Hst Herr Hj Hfs Hterm Hsig.
  rewrite Hch, (watch_loop_initial W ans c pre _ b2 Hatt Hpre) in Hloop.
  simpl in Hloop. rewrite Herr, Hst in Hloop. simpl in Hloop.
  assert (Hj2 : GetJob (ID (job c)) b2 = Some j) by (unfold GetJob in *; congruence).
  destruct (GetJob_SetStatusRunning (ID (job c)) b2 j Hj2)
    as (j1 & Hj1 & Hfs1 & Hrun1 & _).
  rewrite Hj1 in Hloop. rewrite Hfs1, Hfs in Hloop.
  set (br := SetStatusRunning (ID (job c)) b2) in *.
  assert (Hstop : Stop_in_watch W c br
                  = Done (container_Signal W c SIGKILL
                            (bump (container_Signal W c SIGTERM br).2)).2).
  { unfold Stop_in_watch, container_Signal. rewrite Hsig.
    assert (Hjs : GetJob (ID (job c))
                    (bump (set_signals (fun l => (ID (job c), SIGTERM) :: l) br))
                  = Some j1) by (destruct br; exact Hj1).
    rewrite Hjs. rewrite (Hrun1 Hterm). reflexivity. }
  rewrite Hstop in Hloop. simpl in Hloop.
  destruct (watch_loop_frame W ans c _ _ _ _ Hloop)
    as (_&_&_&_&_&_&(sigs' & F7' & _)&_).
  exists sigs'. rewrite F7'. f_equal.
  assert (Hbr : signals br = signals b) by (unfold br; destruct b2; exact G2).
  destruct br; simpl in *. congruence.
Qed.

(** X20.  Calls by job id once a watcher has returned.  For the job of
    the watcher, [Signal], [ResizeTTY] and [Stop] return
    "libvirt: unknown container" and do nothing, whatever the job's state.
    Every other container is still registered: [Signal] sends that one
    signal to its init and returns the init's answer, and [ResizeTTY]
    refuses a job without a TTY. *)
Theorem calls_after_watch (W W' : World) (ans : InitAnswers) (c : Container)
    (pty : string -> option error) (sig : Z)
    (b b' : Backend) (e : option error) (g : bool) :
  watch filepath_Join W ans c b = Done (e, g, b') ->
  (Signal W' (ID (job c)) sig b' = (Some "libvirt: unknown container", b') /\
   ResizeTTY pty (ID (job c)) b' = Some "libvirt: unknown container" /\
   Backend.Stop filepath_Join W' (ID (job c)) b'
     = Done (Some "libvirt: unknown container", b')) /\
  (forall id2 c2,
     id2 <> ID (job c) -> containers b !! id2 = Some c2 ->
     JobExists id2 b' = true /\
     (Signal W' id2 sig b').1 = Signal_res W' (tick b') (ID (job c2)) sig /\
     signals (Signal W' id2 sig b').2 = (ID (job c2), sig) :: signals b' /\
     (TTY (Config (job c2)) = false ->
      ResizeTTY pty id2 b' = Some "job doesn't have a TTY") /\
     (TTY (Config (job c2)) = true -> ResizeTTY pty id2 b' = pty (ID (job c2)))).
Proof.
  intros H. destruct (watch_Done_inv W ans c b b' e g H) as (Hc & _).
  unfold JobExists, Signal, ResizeTTY, Backend.Stop, getContainer. rewrite Hc.
  split.
  - rewrite lookup_delete_eq. repeat split.
  - intros id2 c2 Hne Hc2. rewrite lookup_delete_ne by congruence. rewrite Hc2.
    split; [apply bool_decide_eq_true; eauto|].
    unfold container_Signal. simpl.
    split; [reflexivity|]. split; [destruct b'; reflexivity|].
    split; intros ->; reflexivity.
Qed.

End Watcher.

Lemma watch_tears_down_witness :
  exists b', watch (fun a b => a +:+ "/" +:+ b) calm exits_cleanly
                   (container_of jobA 2%N) about_to_watch = Done (None, true, b') /\
             JobExists "host-a" b' = false.
Proof.
  pose (b' := match watch (fun a b => a +:+ "/" +:+ b) calm exits_cleanly
                          (container_of jobA 2%N) about_to_watch with
              | Done (_, _, q) => q | _ => about_to_watch end).
  assert (H : watch (fun a b => a +:+ "/" +:+ b) calm exits_cleanly
                    (container_of jobA 2%N) about_to_watch = Done (None, true, b'))
    by (vm_compute; reflexivity).
  exists b'. split; [exact H|].
  exact (proj1 (proj2 (watch_tears_down _ _ _ _ _ _ _ _ H))).
Defined.

Lemma watch_signals_witness :
  exists b' sigs, watch (fun a b => a +:+ "/" +:+ b) calm exits_cleanly
                   (container_of jobA 2%N) stop_requested = Done (None, true, b') /\
     signals b' = sigs ++ [("host-a", SIGKILL); ("host-a", SIGTERM)]
                       ++ signals stop_requested.
Proof.
  pose (b' := match watch (fun a b => a +:+ "/" +:+ b) calm exits_cleanly
                          (container_of jobA 2%N) stop_requested with
              | Done (_, _, q) => q | _ => stop_requested end).
  assert (H : watch (fun a b => a +:+ "/" +:+ b) calm exits_cleanly
                    (container_of jobA 2%N) stop_requested = Done (None, true, b'))
    by (vm_compute; reflexivity).
  destruct (proj2 (proj2 (watch_signals _ _ _ _ _ _ _ _ H))
              {| Status := StatusStarting; ForceStop := true; ContainerID := "";
                 InternalIP := None; ExitStatus := None; Error := None |}
              [ {| chState := StateInitial; chError := ""; chExitStatus := 0 |} ]
              {| chState := StateRunning; chError := ""; chExitStatus := 0 |}
              [ {| chState := StateExited; chError := ""; chExitStatus := 0 |} ]
              eq_refl (or_intror (or_intror eq_refl)) eq_refl
              ltac:(repeat constructor) eq_refl eq_refl eq_refl
              ltac:(vm_compute; reflexivity) eq_refl eq_refl
              ltac:(intros; reflexivity)) as [sigs Hs].
  exists b', sigs. split; [exact H | exact Hs].
Defined.

Lemma calls_after_watch_witness :
  exists b', watch (fun a b => a +:+ "/" +:+ b) calm exits_cleanly
                   (container_of jobA 2%N) watching_two = Done (None, true, b') /\
     Signal deaf "host-a" SIGTERM b' = (Some "libvirt: unknown container", b') /\
     JobExists "host-b" b' = true.
Proof.
  pose (b' := match watch (fun a b => a +:+ "/" +:+ b) calm exits_cleanly
                          (container_of jobA 2%N) watching_two with
              | Done (_, _, q) => q | _ => watching_two end).
  assert (H : watch (fun a b => a +:+ "/" +:+ b) calm exits_cleanly
                    (container_of jobA 2%N) watching_two = Done (None, true, b'))
    by (vm_compute; reflexivity).
  exists b'. split; [exact H|].
  pose proof (calls_after_watch _ calm deaf _ _ (fun _ => None) SIGTERM _ _ _ _ H)
    as [[H1 _] H2].
  split; [exact H1|].
  exact (proj1 (H2 "host-b" (container_of jobB 3%N)
                   ltac:(discriminate) ltac:(vm_compute; reflexivity))).
Defined.

Lemma followLogs_spec (ans : InitAnswers) (c : Container) (b : Backend) :
  (followLogs ans c b).2
    = set_logStreams (fun _ => logStreams (followLogs ans c b).2) b /\
  match (followLogs ans c b).1 with
  | None => logStreams (followLogs ans c b).2 = logStreams b ∪ {[ID (job c)]}
  | Some e => logStreams (followLogs ans c b).2 = logStreams b /\
              (ID (job c) ∉ logStreams b) /\ GetStreams_res ans = Some e
  end.
Proof.
  unfold followLogs. case_bool_decide as Hin; simpl.
  - split; [destruct b; reflexivity|]. apply set_eq; intros x.
    rewrite elem_of_union, elem_of_singleton. naive_solver.
  - destruct (GetStreams_res ans) as [e|]; simpl.
    + split; [destruct b; reflexivity|]. auto.
    + split; [destruct b; reflexivity|]. destruct b; simpl.
      apply set_eq; intros x. rewrite !elem_of_union, elem_of_singleton. tauto.
Qed.

Lemma open_each_spec (anss : string -> InitAnswers) (cs : list Container) :
  forall (b b' : Backend) (e : option error),
  open_each anss cs b = (e, b') ->
  b' = set_logStreams (fun _ => logStreams b') b /\
  logStreams b ⊆ logStreams b' /\
  logStreams b' ⊆ logStreams b ∪ list_to_set (map (fun c => ID (job c)) cs) /\
  match e with
  | None => logStreams b' = logStreams b ∪ list_to_set (map (fun c => ID (job c)) cs)
  | Some err => exists c, c ∈ cs /\ (ID (job c) ∉ logStreams b) /\
                          GetStreams_res (anss (ID (job c))) = Some err
  end.
Proof.
  induction cs as [|c cs IH]; intros b b' e H; simpl in H.
  - inversion H; subst. split; [destruct b'; reflexivity|]. set_solver.
  - pose proof (followLogs_spec (anss (ID (job c))) c b) as [Hf Hl].
    destruct (followLogs (anss (ID (job c))) c b) as [[err|] b1] eqn:Hfl; simpl in *.
    + inversion H; subst. destruct Hl as (Hl1 & Hl2 & Hl3).
      split; [exact Hf|]. split; [set_solver|]. split; [set_solver|].
      exists c. split; [left|]. auto.
    + destruct (IH b1 b' e H) as (I1 & I2 & I3 & I4).
      split; [rewrite I1, Hf; destruct b; reflexivity|].
      split; [set_solver|]. split; [set_solver|].
      destruct e as [err|].
      * destruct I4 as (c' & Hc' & Hn & Hg). exists c'.
        split; [right; exact Hc'|]. split; [set_solver|exact Hg].
      * set_solver.
Qed.

Lemma open_each_ok (anss : string -> InitAnswers) (cs : list Container) :
  forall (b : Backend),
  (forall c, c ∈ cs -> ID (job c) ∈ logStreams b \/
                       GetStreams_res (anss (ID (job c))) = None) ->
  (open_each anss cs b).1 = None.
Proof.
  induction cs as [|c cs IH]; intros b H; [reflexivity|]. simpl.
  pose proof (followLogs_spec (anss (ID (job c))) c b) as [Hf Hl].
  destruct (followLogs (anss (ID (job c))) c b) as [[err|] b1] eqn:Hfl; simpl in *.
  - destruct Hl as (_ & Hn & Hg).
    destruct (H c ltac:(left)) as [Hin|Hnone]; [contradiction|congruence].
  - apply IH. intros c' Hc'. destruct (H c' ltac:(right; exact Hc')) as [Hin|Hnone];
      [left; set_solver|right; exact Hnone].
Qed.

(** X22.  Log streams across [CloseLogs] and [OpenLogs].  [OpenLogs]
    changes nothing but the set of followed jobs, which only grows, and
    only by registered containers.  It returns nil exactly when it has
    followed every registered container that was not followed, whether the
    job keeps its output off the log or has a TTY, or not; an error is
    the [GetStreams] error of a registered container that was not
    followed.  [CloseLogs] returns a buffer for every followed job and
    leaves none followed, so that an [OpenLogs] that succeeds after it
    follows every registered container. *)
Theorem logs_reopened (anss : string -> InitAnswers)
    (sched : list Container -> list Container) (b : Backend) :
  let cs := map snd (map_to_list (containers b)) in
  let ids : gset string := list_to_set (map (fun c => ID (job c)) cs) in
  sched cs ≡ₚ cs ->
  (forall e b', OpenLogs anss sched b = (e, b') ->
     b' = set_logStreams (fun _ => logStreams b') b /\
     logStreams b ⊆ logStreams b' /\ logStreams b' ⊆ logStreams b ∪ ids /\
     match e with
     | None => logStreams b' = logStreams b ∪ ids
     | Some err => exists c, c ∈ cs /\ (ID (job c) ∉ logStreams b) /\
                             GetStreams_res (anss (ID (job c))) = Some err
     end) /\
  ((forall c, c ∈ cs -> ID (job c) ∈ logStreams b \/
                        GetStreams_res (anss (ID (job c))) = None) ->
   (OpenLogs anss sched b).1 = None) /\
  (CloseLogs b).1 = logStreams b /\
  (CloseLogs b).2 = set_logStreams (fun _ => ∅) b /\
  (forall b', OpenLogs anss sched (CloseLogs b).2 = (None, b') ->
     logStreams b' = ids /\ containers b' = containers b).
Proof.
  intros cs ids Hs.
  assert (Hids : list_to_set (map (fun c => ID (job c)) (sched cs)) = ids).
  { unfold ids. apply set_eq. intros x.
    rewrite !elem_of_list_to_set, !list_elem_of_fmap.
    split; intros (c & -> & Hc); exists c; (split; [reflexivity|]);
      [rewrite <- Hs | rewrite Hs]; exact Hc. }
  split_and!.
  - intros e b' H. unfold OpenLogs in H. fold cs in H.
    destruct (open_each_spec anss _ _ _ _ H) as (I1 & I2 & I3 & I4).
    rewrite Hids in I3, I4. split_and!; auto.
    destruct e as [err|]; [|exact I4].
    destruct I4 as (c & Hc & Hn & Hg). exists c. rewrite <- Hs. auto.
  - intros H. unfold OpenLogs. fold cs. apply open_each_ok.
    intros c Hc. apply H. rewrite <- Hs. exact Hc.
  - reflexivity.
  - reflexivity.
  - intros b' H. unfold OpenLogs, CloseLogs in H. simpl in H.
    assert (Hc : containers (set_logStreams (fun _ => ∅) b) = containers b)
      by (destruct b; reflexivity).
    rewrite Hc in H. fold cs in H.
    destruct (open_each_spec anss _ _ _ _ H) as (I1 & _ & _ & I4).
    rewrite Hids in I4. split.
    + rewrite I4. destruct b; simpl. set_solver.
    + rewrite I1. destruct b; reflexivity.
Qed.

Lemma logs_reopened_witness :
  exists b', OpenLogs (fun _ => exits_cleanly) id (CloseLogs one_quiet).2 = (None, b') /\
             logStreams one_quiet = {[ "host-a" ]} /\
             "host-q" ∈ logStreams b'.
Proof.
  pose (b' := (OpenLogs (fun _ => exits_cleanly) id (CloseLogs one_quiet).2).2).
  assert (H : OpenLogs (fun _ => exits_cleanly) id (CloseLogs one_quiet).2 = (None, b'))
    by (vm_compute; reflexivity).
  exists b'. split; [exact H|]. split; [reflexivity|].
  destruct (logs_reopened (fun _ => exits_cleanly) id one_quiet (reflexivity _))
    as (_ & _ & _ & _ & Hre).
  rewrite (proj1 (Hre b' H)).
  apply elem_of_list_to_set, list_elem_of_fmap.
  exists (container_of jobQuiet 3%N). split; [reflexivity|].
  apply list_elem_of_fmap. exists ("host-q", container_of jobQuiet 3%N).
  split; [reflexivity|]. apply elem_of_map_to_list. vm_compute. reflexivity.
Defined.

(** *** [ConfigureNetworking] *)

Lemma net_frame_refl (b : Backend) : net_frame b b.
Proof. unfold net_frame. split_and!; auto. Qed.

Lemma net_frame_trans (b0 b1 b2 : Backend) :
  net_frame b0 b1 -> net_frame b1 b2 -> net_frame b0 b2.
Proof.
  unfold net_frame. intros H1 H2. destruct_and!.
  split_and!;
    first [congruence | set_solver | (intros id; etransitivity; eauto)].
Qed.

Lemma net_keeps_ret {A} (I : Backend -> Prop) (a : A) : net_keeps I (net_ret a).
Proof. intros s H; exact H. Qed.

Lemma net_keeps_asks {A} (I : Backend -> Prop) (r : res A) : net_keeps I (asks r).
Proof. intros s H; exact H. Qed.

Lemma net_keeps_checks (I : Backend -> Prop) (r : option error) : net_keeps I (checks r).
Proof. intros s H; exact H. Qed.

Lemma net_keeps_does (I : Backend -> Prop) (r : option error) (op : NetOp) :
  net_keeps I (does r op).
Proof. intros s H. unfold does. destruct r; exact H. Qed.

Lemma net_keeps_on_host (I : Backend -> Prop) (f : Backend -> Backend) :
  (forall b, I b -> I (f b)) -> net_keeps I (on_host f).
Proof. intros Hf s H. apply Hf, H. Qed.

Lemma net_keeps_bind {A B} (I : Backend -> Prop) (m : net A) (f : A -> net B) :
  net_keeps I m -> (forall a, net_keeps I (f a)) -> net_keeps I (net_bind m f).
Proof.
  intros Hm Hf s H. unfold net_bind. specialize (Hm s H).
  destruct (m s) as [[a|e] s1]; simpl in *; [apply Hf; exact Hm|exact Hm].
Qed.

Lemma net_keeps_bridge_addrs (I : Backend -> Prop) (A : NetAnswers) (addr : IP)
    (netw : string) (addrs : list (IP * string)) :
  forall setIP, net_keeps I (bridge_addrs A addr netw addrs setIP).
Proof.
  induction addrs as [|[ip n] rest IH]; intros setIP; simpl.
  - apply net_keeps_ret.
  - destruct (bool_decide (ip = addr) && bool_decide (n = netw)); [apply IH|].
    apply net_keeps_bind; [apply net_keeps_does|intros _; apply IH].
Qed.

Create HintDb net_keeps.
#[local] Hint Resolve net_keeps_ret net_keeps_asks net_keeps_checks net_keeps_does
  net_keeps_bridge_addrs : net_keeps.

Lemma request_each_frame (W : World) (ids : list string) :
  forall b, net_frame b (request_each W ids b).
Proof.
  induction ids as [|id rest IH]; intros b; simpl; [apply net_frame_refl|].
  destruct (containers b !! id) as [c|] eqn:Hc; [|apply IH].
  destruct (HostNetwork (Config (job c))); [apply IH|].
  eapply net_frame_trans; [|apply IH].
  assert (Hins : forall (x : option IP) id',
            option_map (with_IP None) (<[id := with_IP x c]> (containers b) !! id')
            = option_map (with_IP None) (containers b !! id')).
  { intros x id'. destruct (decide (id = id')) as [->|Hne].
    - rewrite lookup_insert_eq, Hc. reflexivity.
    - rewrite lookup_insert_ne by exact Hne. reflexivity. }
  destruct (RequestIP W (tick b) (ipalloc b) (cIP c)) as [ip|e];
    unfold net_frame; destruct b; simpl in *; split_and!; auto;
    try set_solver; intros id'; apply Hins.
Qed.

Lemma bridge_addrs_indep (A : NetAnswers) (addr : IP) (netw : string)
    (addrs : list (IP * string)) :
  forall (setIP : bool) (s s' : Backend * list NetOp),
  (bridge_addrs A addr netw addrs setIP s).1
  = (bridge_addrs A addr netw addrs setIP s').1.
Proof.
  induction addrs as [|[ip n] rest IH]; intros setIP s s'; simpl; [reflexivity|].
  destruct (bool_decide (ip = addr) && bool_decide (n = netw)); [apply IH|].
  unfold net_bind, does. destruct (NetworkLinkDelIp A ip n); [reflexivity|].
  apply IH.
Qed.

Lemma net_same_bind {A B} (m m' : net A) (f f' : A -> net B) :
  net_same m m' -> (forall a, net_same (f a) (f' a)) ->
  net_same (net_bind m f) (net_bind m' f').
Proof.
  intros Hm Hf s s'. unfold net_bind. specialize (Hm s s').
  destruct (m s) as [[a|e] s1], (m' s') as [[a'|e'] s1']; simpl in Hm;
    try discriminate; inversion Hm; subst; [apply Hf|reflexivity].
Qed.

Lemma net_same_on_host (f f' : Backend -> Backend) : net_same (on_host f) (on_host f').
Proof. intros s s'. reflexivity. Qed.

Lemma net_same_does (r : option error) (op : NetOp) : net_same (does r op) (does r op).
Proof. intros s s'. unfold does. destruct r; reflexivity. Qed.

Lemma net_same_bridge_addrs (A : NetAnswers) (addr : IP) (netw : string)
    (addrs : list (IP * string)) (setIP : bool) :
  net_same (bridge_addrs A addr netw addrs setIP) (bridge_addrs A addr netw addrs setIP).
Proof. intros s s'. apply bridge_addrs_indep. Qed.

Lemma net_same_asks {A} (r : res A) : net_same (asks r) (asks r).
Proof. intros s s'. reflexivity. Qed.

Lemma net_same_checks (r : option error) : net_same (checks r) (checks r).
Proof. intros s s'. reflexivity. Qed.

Lemma net_same_ret {A} (a : A) : net_same (net_ret a) (net_ret a).
Proof. intros s s'. reflexivity. Qed.

Lemma request_each_settings (W : World) (ids : list string) :
  forall b, settings (request_each W ids b) = settings b.
Proof.
  induction ids as [|id rest IH]; intros b; simpl; [reflexivity|].
  destruct (containers b !! id) as [c|]; [|apply IH].
  destruct (HostNetwork (Config (job c))); [apply IH|].
  rewrite IH. destruct (RequestIP W (tick b) (ipalloc b) (cIP c)); destruct b; reflexivity.
Qed.

Section Networking.

Variable IP_String : IP -> string.

Lemma configure_bridge_keeps (W : World) (A : NetAnswers)
    (sched : list string -> list string) (addr : IP) (netw : string) (b0 : Backend) :
  net_keeps (net_frame b0) (configure_bridge IP_String W A sched addr netw).
Proof.
  unfold configure_bridge.
  repeat first
    [ apply net_keeps_bind; [|intros ?]
    | apply net_keeps_on_host
    | match goal with |- net_keeps _ (if ?c then _ else _) => destruct c end
    | match goal with |- net_keeps _ (match ?c with _ => _ end) => destruct c end
    | solve [auto with net_keeps] ].
  - intros b H. eapply net_frame_trans; [exact H|].
    destruct (RequestIP W (tick b) (ipalloc b) (Some addr));
      unfold net_frame; destruct b; simpl; split_and!; auto; set_solver.
  - intros b H. eapply net_frame_trans; [exact H|].
    unfold net_frame; destruct b; simpl; split_and!; auto.
  - intros b H. eapply net_frame_trans; [exact H|]. apply request_each_frame.
Qed.

Lemma bridge_addrs_spec (A : NetAnswers) (addr : IP) (netw : string)
    (addrs : list (IP * string)) :
  forall (setIP : bool) (s : Backend * list NetOp),
  match bridge_addrs A addr netw addrs setIP s with
  | (Val r, s') =>
      s'.1 = s.1 /\
      s'.2 = s.2 ++ map (fun p => OpDelIp p.1 p.2)
                        (filter (fun p => p <> (addr, netw)) addrs) /\
      (r = true <-> setIP = true /\ (addr, netw) ∉ addrs)
  | (Fail e, s') =>
      exists p, p ∈ addrs /\ p <> (addr, netw) /\ NetworkLinkDelIp A p.1 p.2 = Some e
  end.
Proof.
  induction addrs as [|[ip n] rest IH]; intros setIP s; simpl.
  - split; [reflexivity|]. split; [rewrite app_nil_r; reflexivity|].
    split; [intros ->; split; [reflexivity|apply not_elem_of_nil] | intros [-> _]; reflexivity].
  - destruct (bool_decide (ip = addr) && bool_decide (n = netw)) eqn:Hw.
    + apply andb_true_iff in Hw. destruct Hw as [H1 H2].
      apply bool_decide_eq_true in H1, H2. subst ip n.
      specialize (IH false s).
      destruct (bridge_addrs A addr netw rest false s) as [[r|e] s'].
      * destruct IH as (I1 & I2 & I3). split; [exact I1|].
        rewrite filter_cons_False by (intros H; apply H; reflexivity).
        split; [exact I2|]. split.
        -- intros Hr. apply I3 in Hr. destruct Hr; discriminate.
        -- intros [_ Hn]. exfalso. apply Hn. left.
      * destruct IH as (p & Hp & Hne & Hd). exists p. split; [right; exact Hp|]. auto.
    + assert (Hne : (ip, n) <> (addr, netw)).
      { intros Heq. inversion Heq; subst.
        rewrite !bool_decide_eq_true_2 in Hw by reflexivity. discriminate. }
      unfold net_bind, does.
      destruct (NetworkLinkDelIp A ip n) as [e|] eqn:Hd.
      * exists (ip, n). split; [left|]. auto.
      * specialize (IH setIP (s.1, s.2 ++ [OpDelIp ip n])).
        destruct (bridge_addrs A addr netw rest setIP (s.1, s.2 ++ [OpDelIp ip n]))
          as [[r|e] s'].
        -- destruct IH as (I1 & I2 & I3). split; [exact I1|].
           rewrite filter_cons_True by exact Hne. simpl.
           split; [rewrite I2; simpl; rewrite <- app_assoc; reflexivity|].
           rewrite I3, not_elem_of_cons.
           split; [intros [? ?]; split_and!; auto; congruence | intros (?&?&?); auto].
        -- destruct IH as (p & Hp & Hne' & Hd'). exists p.
           split; [right; exact Hp|]. auto.
Qed.

Lemma bool_decide_of_iff (r : bool) (P : Prop) `{Decision P} :
  (r = true <-> P) -> r = bool_decide P.
Proof.
  intros H'. destruct r; case_bool_decide; try reflexivity.
  - exfalso. tauto.
  - destruct H' as [_ H']. apply H'. assumption.
Qed.

Lemma configure_bridge_Val (W : World) (A : NetAnswers)
    (sched : list string -> list string) (addr : IP) (netw : string)
    (b1 b2 : Backend) (ops : list NetOp) (u : unit) :
  configure_bridge IP_String W A sched addr netw (b1, []) = (Val u, (b2, ops)) ->
  exists addrs dns active,
    Addrs A = Val addrs /\ ClientConfigFromFile A = Val dns /\ IsActive A = Val active /\
    resolvConf (settings b2) = "/etc/flynn/resolv.conf" /\
    ops = (match CreateBridge A with
           | BridgeCreated => [OpCreateBridge; OpSetMac]
           | _ => []
           end)
          ++ map (fun p => OpDelIp p.1 p.2) (filter (fun p => p <> (addr, netw)) addrs)
          ++ (if bool_decide ((addr, netw) ∉ addrs) then [OpAddIp addr netw] else [])
          ++ [OpLinkUp]
          ++ (if LookupNetworkByName A then [] else [OpDefineNetwork])
          ++ (if active then [] else [OpCreateNetwork])
          ++ (if default_network A then [OpDestroyDefault] else [])
          ++ [OpWriteFile "/proc/sys/net/ipv4/ip_forward" ("1" +:+ newline);
              OpEnableNAT netw; OpResolvers dns.1; OpMkdirAll "/etc/flynn";
              OpWriteFile "/etc/flynn/resolv.conf" (resolv_conf_text IP_String dns.2 addr)].
Proof.
  intros H. unfold configure_bridge in H.
  unfold net_bind, on_host, asks, checks, net_ret in H. simpl in H.
  set (b1' := match RequestIP W (tick b1) (ipalloc b1) (Some addr) with
              | Val ip => bump (set_ipalloc (fun s => {[ip]} ∪ s) b1)
              | Fail _ => bump b1
              end) in H.
  set (ops0 := match CreateBridge A with
               | BridgeCreated => [OpCreateBridge; OpSetMac]
               | _ => []
               end).
  destruct (Addrs A) as [addrs|] eqn:Haddrs.
  2:{ destruct (CreateBridge A); simpl in H; try discriminate;
      destruct (InterfaceByName A); simpl in H; try discriminate;
      unfold does in H; simpl in H;
      try (destruct (NetworkSetMacAddress A); simpl in H; try discriminate). }
  assert (H1 : exists s,
     bridge_addrs A addr netw addrs true (b1', ops0) = (Val (bool_decide ((addr, netw) ∉ addrs)), s) /\
     s.1 = b1' /\
     s.2 = ops0 ++ map (fun p => OpDelIp p.1 p.2) (filter (fun p => p <> (addr, netw)) addrs) /\
     (let m :=
       (net_bind (if bool_decide ((addr, netw) ∉ addrs)
                  then does (NetworkLinkAddIp A) (OpAddIp addr netw) else net_ret tt)
        (fun _ => net_bind (does (NetworkLinkUp A) OpLinkUp)
        (fun _ => net_bind (if LookupNetworkByName A then net_ret tt
                            else does (NetworkDefineXML A) OpDefineNetwork)
        (fun _ => net_bind (asks (IsActive A))
        (fun active => net_bind (if negb active then does (NetworkCreate A) OpCreateNetwork
                                 else net_ret tt)
        (fun _ => net_bind (if default_network A then does None OpDestroyDefault
                            else net_ret tt)
        (fun _ => net_bind (does (write_ip_forward A)
                      (OpWriteFile "/proc/sys/net/ipv4/ip_forward" ("1" +:+ newline)))
        (fun _ => net_bind (does (EnableOutboundNAT A) (OpEnableNAT netw))
        (fun _ => net_bind (asks (ClientConfigFromFile A))
        (fun dnsConf => net_bind (does None (OpResolvers dnsConf.1))
        (fun _ => net_bind (does (MkdirAll_etc_flynn A) (OpMkdirAll "/etc/flynn"))
        (fun _ => net_bind (does (write_resolv_conf A)
                      (OpWriteFile "/etc/flynn/resolv.conf"
                         (resolv_conf_text IP_String dnsConf.2 addr)))
        (fun _ => net_bind (on_host (set_settings (with_resolvConf "/etc/flynn/resolv.conf")))
        (fun _ => on_host (fun b => request_each W
                       (sched (map fst (map_to_list (containers b)))) b))))))))))))))) in
      m s = (Val u, (b2, ops)))).
  { pose proof (bridge_addrs_spec A addr netw addrs true (b1', ops0)) as Hspec.
    destruct (CreateBridge A) eqn:Hcb; simpl in H; try discriminate;
      destruct (InterfaceByName A); simpl in H; try discriminate;
      unfold does in H at 1; simpl in H;
      try (destruct (NetworkSetMacAddress A); simpl in H; try discriminate);
      unfold ops0 in *;
      destruct (bridge_addrs A addr netw addrs true _) as [[r|?] s] eqn:Hba;
      try discriminate;
      destruct Hspec as (S1 & S2 & S3);
      assert (Hr : r = bool_decide ((addr, netw) ∉ addrs))
        by (apply bool_decide_of_iff; rewrite S3; tauto);
      subst r; exists s; split_and!; auto. }
  destruct H1 as (s & _ & S1 & S2 & Hm). clear H.
  destruct s as [bs opss]. simpl in S1, S2. subst bs opss.
  unfold net_bind, on_host, asks, does, net_ret in Hm. simpl in Hm.
  exists addrs.
  destruct (bool_decide ((addr, netw) ∉ addrs));
    [destruct (NetworkLinkAddIp A); simpl in Hm; try discriminate|];
    (destruct (NetworkLinkUp A); simpl in Hm; try discriminate);
    (destruct (LookupNetworkByName A);
       [|destruct (NetworkDefineXML A); simpl in Hm; try discriminate]);
    (destruct (IsActive A) as [[]|]; simpl in Hm; try discriminate;
       [|destruct (NetworkCreate A); simpl in Hm; try discriminate]);
    (destruct (default_network A); simpl in Hm);
    (destruct (write_ip_forward A); simpl in Hm; try discriminate);
    (destruct (EnableOutboundNAT A); simpl in Hm; try discriminate);
    (destruct (ClientConfigFromFile A) as [dns|]; simpl in Hm; try discriminate);
    (destruct (MkdirAll_etc_flynn A); simpl in Hm; try discriminate);
    (destruct (write_resolv_conf A); simpl in Hm; try discriminate);
    inversion Hm; subst; eexists dns, _;
    (split_and!; [reflexivity|reflexivity|reflexivity| |]);
    try (rewrite <- !app_assoc; reflexivity).
  all: rewrite request_each_settings; destruct b1'; reflexivity.
Qed.

Lemma configure_bridge_same (W W' : World) (A : NetAnswers)
    (sched sched' : list string -> list string) (addr : IP) (netw : string) :
  net_same (configure_bridge IP_String W A sched addr netw)
           (configure_bridge IP_String W' A sched' addr netw).
Proof.
  unfold configure_bridge.
  repeat first
    [ apply net_same_bind; [|intros ?]
    | apply net_same_on_host
    | apply net_same_does
    | apply net_same_asks
    | apply net_same_checks
    | apply net_same_ret
    | apply net_same_bridge_addrs
    | match goal with |- net_same (if ?c then _ else _) _ => destruct c end
    | match goal with |- net_same (match ?c with _ => _ end) _ => destruct c end ].
Qed.

Lemma ConfigureNetworking_inv (W : World) (A : NetAnswers)
    (sched : list string -> list string) (Subnet : string) (b : Backend)
    (e : option error) (ops : list NetOp) (b' : Backend) :
  ConfigureNetworking IP_String W A sched Subnet b = Done (e, ops, b') ->
  match ParseCIDR A Subnet with
  | Fail e' => e = Some e' /\ ops = [] /\ b' = set_settings (with_bridge "<nil>" None) b
  | Val (addr, netw) =>
      exists r b2,
        configure_bridge IP_String W A sched addr netw
          (set_settings (with_bridge (IP_String addr) (Some netw)) b, []) = (r, (b2, ops)) /\
        net_frame (set_settings (with_bridge (IP_String addr) (Some netw)) b) b2 /\
        match r with
        | Fail e' => e = Some e' /\ b' = b2
        | Val _ => e = None /\ networkConfigured b2 = Open /\
                   b' = set_networkConfigured Closed b2
        end
  end.
Proof.
  unfold ConfigureNetworking. intros H.
  destruct (ParseCIDR A Subnet) as [[addr netw]|e0].
  - pose proof (configure_bridge_keeps W A sched addr netw
                  (set_settings (with_bridge (IP_String addr) (Some netw)) b)
                  (set_settings (with_bridge (IP_String addr) (Some netw)) b, [])
                  (net_frame_refl _)) as Hk.
    destruct (configure_bridge IP_String W A sched addr netw _) as [r [b2 ops2]].
    simpl in Hk. destruct r as [u|e'].
    + destruct (networkConfigured b2) eqn:Hn; [|discriminate].
      inversion H; subst. exists (Val u), b2. auto.
    + inversion H; subst. exists (Fail e'), b'. auto.
  - inversion H; subst. auto.
Qed.

Ltac pick_disj tac :=
  first [ solve [tac] | left; pick_disj tac | right; pick_disj tac ].

Lemma elem_of_ops_app (x : NetOp) (l1 l2 : list NetOp) :
  x ∈ l1 ++ l2 <-> x ∈ l1 \/ x ∈ l2.
Proof. apply elem_of_app. Qed.

(** X23.  What a successful [ConfigureNetworking] has done on the host.
    Of the addresses the bridge had, it has deleted every one but the
    address wanted, and it has added the address wanted exactly when the
    bridge did not have it.  It sets the MAC address of the bridge only
    when it has made the bridge.  It has written two files: "1" to
    [ip_forward], and a resolv.conf whose only name server is the bridge
    address, after the search list of the host's resolver when there is
    one; the name servers of the host are passed to the caller. *)
Theorem ConfigureNetworking_bridge (W : World) (A : NetAnswers)
    (sched : list string -> list string) (Subnet : string) (b b' : Backend)
    (ops : list NetOp) :
  ConfigureNetworking IP_String W A sched Subnet b = Done (None, ops, b') ->
  exists addr netw addrs dns,
    ParseCIDR A Subnet = Val (addr, netw) /\ Addrs A = Val addrs /\
    ClientConfigFromFile A = Val dns /\
    (forall ip n, OpDelIp ip n ∈ ops <-> (ip, n) ∈ addrs /\ (ip, n) <> (addr, netw)) /\
    (forall ip n, OpAddIp ip n ∈ ops <-> (ip, n) = (addr, netw) /\ (addr, netw) ∉ addrs) /\
    (OpSetMac ∈ ops <-> CreateBridge A = BridgeCreated) /\
    (forall path text,
       OpWriteFile path text ∈ ops <->
       (path = "/proc/sys/net/ipv4/ip_forward" /\ text = "1" +:+ newline) \/
       (path = "/etc/flynn/resolv.conf" /\
        text = (match dns.2 with
                | [] => ""
                | _ => "search " +:+ String.concat " " dns.2 +:+ newline
                end) +:+ "nameserver " +:+ IP_String addr +:+ newline)) /\
    (forall servers, OpResolvers servers ∈ ops <-> servers = dns.1) /\
    (OpDestroyDefault ∈ ops <-> default_network A = true).
Proof.
  intros H. apply ConfigureNetworking_inv in H.
  destruct (ParseCIDR A Subnet) as [[addr netw]|e0] eqn:Hparse;
    [|destruct H; discriminate].
  destruct H as (r & b2 & Hcb & Hf & Hr).
  destruct r as [u|e']; [|destruct Hr; discriminate].
  destruct (configure_bridge_Val W A sched addr netw _ _ _ _ Hcb)
    as (addrs & dns & active & Haddrs & Hdns & _ & _ & Hops).
  exists addr, netw, addrs, dns. split_and!; auto.
  all: rewrite Hops; clear Hops Hcb Hf Hr; intros.
  all: destruct (CreateBridge A) eqn:Hcreate, (LookupNetworkByName A), active,
         (default_network A) eqn:Hdefault; case_bool_decide.
  all: try fold (resolv_conf_text IP_String dns.2 addr).
  all: rewrite ?elem_of_ops_app, ?list_elem_of_fmap, ?elem_of_cons, ?elem_of_nil.
  all: try setoid_rewrite list_elem_of_filter.
  all: split; intros Hin.
  all: try (destruct_or!; try destruct Hin as ([ip' n'] & Heq & Hne & Hin');
            simplify_eq; simpl in *; try tauto; try (split; [assumption|congruence]);
            try done).
  all: try congruence.
  all: try match type of Hin with
           | _ /\ _ => destruct Hin as [Hin1 Hin2]; simplify_eq; try contradiction
           | _ \/ _ => destruct Hin as [[? ?]|[? ?]]; simplify_eq
           | _ = _ => simplify_eq
           end.
  all: try (pick_disj ltac:(first [ reflexivity
                                  | (exists (ip, n); split_and!; auto) ])).
Qed.

Variable filepath_Join : string -> string -> string.

Lemma Run_waits_for_network (W : World) (j : Job) (hint : option IP) (b : Backend)
    (aj : ActiveJob) :
  GetJob (ID j) b = Some aj -> ForceStop aj = false ->
  HostNetwork (Config j) = false ->
  is_Some (partitionCGroups (settings b)
             !! (if bool_decide (Partition j = "") then defaultPartition else Partition j)) ->
  networkConfigured b = Open ->
  Run filepath_Join IP_String W j hint b = Blocks.
Proof.
  intros Haj Hfs Hhn [z Hz] Hopen. unfold Run. rewrite Haj, Hfs.
  set (j1 := if bool_decide (Partition j = "") then with_Partition defaultPartition j else j).
  assert (Hp1 : Partition j1 = if bool_decide (Partition j = "")
                               then defaultPartition else Partition j)
    by (unfold j1; case_bool_decide; reflexivity).
  assert (Hh1 : HostNetwork (Config j1) = false)
    by (unfold j1; case_bool_decide; exact Hhn).
  rewrite Hp1, Hz, Hh1, Hopen. reflexivity.
Qed.

(** X24.  How [ConfigureNetworking] ends.  It returns nil only on a host
    whose network was not configured, and then the network is marked as
    configured, the bridge address and network are those of the subnet and
    containers are given [/etc/flynn/resolv.conf].  When it returns an
    error the mark is as it was, but the bridge address and network have
    changed already: to those of the subnet, or to none when the subnet
    does not parse.  Once a call has returned nil, a later call that gets
    the same answers from the host panics, closing the closed channel.  A
    job that needs the network and is started before it is configured
    makes [Run] block, and still does after a call that failed. *)
Theorem ConfigureNetworking_outcomes (W : World) (A : NetAnswers)
    (sched : list string -> list string) (Subnet : string) (b : Backend) :
  (forall ops b',
     ConfigureNetworking IP_String W A sched Subnet b = Done (None, ops, b') ->
     networkConfigured b = Open /\ networkConfigured b' = Closed /\
     resolvConf (settings b') = "/etc/flynn/resolv.conf" /\
     jobs b' = jobs b /\ ipalloc b ⊆ ipalloc b' /\
     (exists addr netw, ParseCIDR A Subnet = Val (addr, netw) /\
        bridgeNet (settings b') = Some netw /\
        bridgeAddr (settings b') = IP_String addr) /\
     forall W' sched' b'', networkConfigured b'' = Closed ->
       ConfigureNetworking IP_String W' A sched' Subnet b''
       = Panics "close of closed channel") /\
  (forall e ops b',
     ConfigureNetworking IP_String W A sched Subnet b = Done (Some e, ops, b') ->
     networkConfigured b' = networkConfigured b /\ jobs b' = jobs b /\
     partitionCGroups (settings b') = partitionCGroups (settings b) /\
     ipalloc b ⊆ ipalloc b' /\
     match ParseCIDR A Subnet with
     | Fail e' => e = e' /\ ops = [] /\ bridgeNet (settings b') = None /\
                  bridgeAddr (settings b') = "<nil>"
     | Val (addr, netw) => bridgeNet (settings b') = Some netw /\
                           bridgeAddr (settings b') = IP_String addr
     end) /\
  (forall W' j hint aj,
     GetJob (ID j) b = Some aj -> ForceStop aj = false ->
     HostNetwork (Config j) = false ->
     is_Some (partitionCGroups (settings b)
                !! (if bool_decide (Partition j = "")
                    then defaultPartition else Partition j)) ->
     networkConfigured b = Open ->
     Run filepath_Join IP_String W' j hint b = Blocks /\
     forall e ops b',
       ConfigureNetworking IP_String W A sched Subnet b = Done (Some e, ops, b') ->
       Run filepath_Join IP_String W' j hint b' = Blocks).
Proof.
  assert (Hfail : forall e ops b',
     ConfigureNetworking IP_String W A sched Subnet b = Done (Some e, ops, b') ->
     networkConfigured b' = networkConfigured b /\ jobs b' = jobs b /\
     partitionCGroups (settings b') = partitionCGroups (settings b) /\
     ipalloc b ⊆ ipalloc b' /\
     match ParseCIDR A Subnet with
     | Fail e' => e = e' /\ ops = [] /\ bridgeNet (settings b') = None /\
                  bridgeAddr (settings b') = "<nil>"
     | Val (addr, netw) => bridgeNet (settings b') = Some netw /\
                           bridgeAddr (settings b') = IP_String addr
     end).
  { intros e ops b' H. apply ConfigureNetworking_inv in H.
    destruct (ParseCIDR A Subnet) as [[addr netw]|e0].
    - destruct H as (r & b2 & _ & Hf & Hr).
      destruct r as [u|e']; [destruct Hr; discriminate|]. destruct Hr as [_ ->].
      destruct Hf as (F1&_&_&_&_&F6&_&_&_&_&F11&F12&_).
      assert (Hs : settings b2
                   = with_resolvConf (resolvConf (settings b2))
                       (with_bridge (IP_String addr) (Some netw) (settings b))).
      { destruct (settings b2), b; simpl in *. unfold with_resolvConf in F11.
        simpl in F11. inversion F11; reflexivity. }
      rewrite Hs. destruct b; simpl in *. split_and!; auto.
    - destruct H as (He & -> & ->). inversion He; subst.
      destruct b; simpl. split_and!; auto. }
  split_and!.
  - intros ops b' H. pose proof H as Hinv. apply ConfigureNetworking_inv in Hinv.
    destruct (ParseCIDR A Subnet) as [[addr netw]|e0] eqn:Hparse;
      [|destruct Hinv; discriminate].
    destruct Hinv as (r & b2 & Hcb & Hf & Hr).
    destruct r as [u|e']; [|destruct Hr; discriminate].
    destruct Hr as (_ & Hopen & ->).
    destruct (configure_bridge_Val W A sched addr netw _ _ _ _ Hcb)
      as (addrs & dns & active & _ & _ & _ & Hres & _).
    destruct Hf as (F1&_&_&_&_&F6&_&_&_&_&F11&F12&_).
    assert (Hs : settings b2
                 = with_resolvConf (resolvConf (settings b2))
                     (with_bridge (IP_String addr) (Some netw) (settings b))).
    { destruct (settings b2), b; simpl in *. unfold with_resolvConf in F11.
      simpl in F11. inversion F11; reflexivity. }
    split_and!.
    + rewrite <- Hopen, F6. destruct b; reflexivity.
    + destruct b2; reflexivity.
    + destruct b2; exact Hres.
    + destruct b2, b; exact F1.
    + destruct b2, b; exact F12.
    + exists addr, netw. split; [reflexivity|].
      destruct b2; simpl in *. rewrite Hs. split; reflexivity.
    + intros W' sched' b'' Hclosed. unfold ConfigureNetworking. rewrite Hparse.
      pose proof (configure_bridge_same W' W A sched' sched addr netw
                    (set_settings (with_bridge (IP_String addr) (Some netw)) b'', [])
                    (set_settings (with_bridge (IP_String addr) (Some netw)) b, []))
        as Hsame.
      rewrite Hcb in Hsame. simpl in Hsame.
      pose proof (configure_bridge_keeps W' A sched' addr netw
                    (set_settings (with_bridge (IP_String addr) (Some netw)) b'')
                    (set_settings (with_bridge (IP_String addr) (Some netw)) b'', [])
                    (net_frame_refl _)) as Hk.
      destruct (configure_bridge IP_String W' A sched' addr netw _) as [r' [b3 ops3]].
      simpl in Hsame, Hk. subst r'.
      destruct Hk as (_&_&_&_&_&K6&_).
      assert (Hc3 : networkConfigured b3 = Closed)
        by (rewrite K6; destruct b''; exact Hclosed).
      rewrite Hc3. reflexivity.
  - exact Hfail.
  - intros W' j hint aj Haj Hfs Hhn Hpart Hopen.
    split; [eapply Run_waits_for_network; eauto|].
    intros e ops b' H. destruct (Hfail e ops b' H) as (H1 & H2 & H3 & _).
    eapply Run_waits_for_network; eauto.
    + unfold GetJob in *. rewrite H2. exact Haj.
    + rewrite H3. exact Hpart.
    + congruence.
Qed.

End Networking.

Lemma ConfigureNetworking_bridge_witness :
  exists ops b',
    ConfigureNetworking ip_string calm net_calm id "100.100.0.0/24" unconfigured
      = Done (None, ops, b') /\
    OpDelIp 9%N "fe80::/64" ∈ ops /\ OpAddIp 1%N "100.100.0.0/24" ∈ ops.
Proof.
  pose (r := match ConfigureNetworking ip_string calm net_calm id "100.100.0.0/24"
                     unconfigured with
             | Done (_, ops, q) => (ops, q) | _ => ([], unconfigured) end).
  assert (H : ConfigureNetworking ip_string calm net_calm id "100.100.0.0/24" unconfigured
              = Done (None, r.1, r.2)) by (vm_compute; reflexivity).
  exists r.1, r.2. split; [exact H|].
  destruct (ConfigureNetworking_bridge ip_string calm net_calm id
              "100.100.0.0/24" unconfigured r.2 r.1 H)
    as (addr & netw & addrs & dns & Hp & Ha & _ & Hdel & Hadd & _).
  inversion Hp; subst. inversion Ha; subst. split.
  - apply Hdel. split; [left|discriminate].
  - apply Hadd. split; [reflexivity|].
    intros Hin. apply list_elem_of_singleton in Hin. discriminate.
Defined.

Lemma ConfigureNetworking_outcomes_witness :
  exists ops b',
    ConfigureNetworking ip_string calm net_calm id "100.100.0.0/24" unconfigured
      = Done (None, ops, b') /\
    ConfigureNetworking ip_string calm net_calm id "100.100.0.0/24" b'
      = Panics "close of closed channel" /\
    Run join ip_string calm two_ports None unconfigured = Blocks.
Proof.
  pose (r := match ConfigureNetworking ip_string calm net_calm id "100.100.0.0/24"
                     unconfigured with
             | Done (_, ops, q) => (ops, q) | _ => ([], unconfigured) end).
  assert (H : ConfigureNetworking ip_string calm net_calm id "100.100.0.0/24" unconfigured
              = Done (None, r.1, r.2)) by (vm_compute; reflexivity).
  destruct (ConfigureNetworking_outcomes ip_string join calm net_calm id
              "100.100.0.0/24" unconfigured) as (Hok & _ & Hrun).
  destruct (Hok _ _ H) as (_ & Hclosed & _ & _ & _ & _ & Hagain).
  exists r.1, r.2. split; [exact H|]. split; [exact (Hagain calm id r.2 Hclosed)|].
  exact (proj1 (Hrun calm two_ports None (active StatusStarting)
                  ltac:(vm_compute; reflexivity) eq_refl eq_refl
                  ltac:(vm_compute; eauto) eq_refl)).
Defined.

(** *** [Attach] *)

Lemma writes_app (l1 l2 : list AttachEvent) : writes (l1 ++ l2) = writes l1 ++ writes l2.
Proof. unfold writes. apply omap_app. Qed.

Lemma writes_of_writes (ws : list (Sink * string)) :
  writes (map (fun x => EvWrite x.1 x.2) ws) = ws.
Proof.
  induction ws as [|[w t] ws IH]; [reflexivity|].
  simpl. unfold writes in *. simpl. rewrite IH. reflexivity.
Qed.

Lemma writes_signal_attached (req : AttachRequest) : writes (signal_attached req []) = [].
Proof. unfold signal_attached. destruct (aAttached req); reflexivity. Qed.

Lemma route_spec (req : AttachRequest) (ans : AttachAnswers) (msgs : list LogMessage) :
  forall (i : nat) (evs : list AttachEvent),
  exists ws,
    (route req ans i msgs evs).2 = evs ++ map (fun x => EvWrite x.1 x.2) ws /\
    ws `prefix_of` routed req msgs /\
    (((route req ans i msgs evs).1 = Some EOF /\ ws = routed req msgs) \/
     ((route req ans i msgs evs).1 = None /\
      exists j m w, msgs !! j = Some m /\ sink_of req m = Some w /\
                    write_fails ans (i + j) = true)).
Proof.
  induction msgs as [|m rest IH]; intros i evs; simpl.
  - exists []. rewrite app_nil_r. split; [reflexivity|]. split; [reflexivity|].
    left. split; reflexivity.
  - unfold routed. simpl. fold (routed req rest).
    destruct (sink_of req m) as [w|] eqn:Hw; simpl.
    + destruct (write_fails ans i) eqn:Hf; simpl.
      * exists []. rewrite app_nil_r. split; [reflexivity|].
        split; [apply prefix_nil|]. right. split; [reflexivity|].
        exists 0%nat, m, w. rewrite Nat.add_0_r. auto.
      * destruct (IH (S i) (evs ++ [EvWrite w (Msg m +:+ newline)]))
          as (ws & H1 & H2 & H3).
        exists ((w, Msg m +:+ newline) :: ws). rewrite H1. simpl.
        split; [rewrite <- app_assoc; reflexivity|].
        split; [apply prefix_cons; exact H2|].
        destruct H3 as [[H3 ->]|[H3 (j & m' & w' & Hj & Hs & Hf')]].
        -- left. auto.
        -- right. split; [exact H3|]. exists (S j), m', w'.
           split; [exact Hj|]. split; [exact Hs|].
           replace (i + S j)%nat with (S i + j)%nat by lia. exact Hf'.
    + destruct (IH (S i) evs) as (ws & H1 & H2 & H3).
      exists ws. split; [exact H1|]. split; [exact H2|].
      destruct H3 as [H3|[H3 (j & m' & w' & Hj & Hs & Hf')]]; [left; exact H3|].
      right. split; [exact H3|]. exists (S j), m', w'.
      split; [exact Hj|]. split; [exact Hs|].
      replace (i + S j)%nat with (S i + j)%nat by lia. exact Hf'.
Qed.

Section Attaching.

Variable ErrJobNotRunning : error.
Variable ExitError : Z -> error.

Lemma Attach_body_log (req : AttachRequest) (ans : AttachAnswers)
    (client : option Container) (msgs : list LogMessage) :
  TTY (Config (aJob req)) = false -> aStdin req = false ->
  DisableLog (Config (aJob req)) = false -> StreamLog ans = Val msgs ->
  exists r ws,
    Attach_body req ans client
    = Done (r, signal_attached req [] ++ map (fun x => EvWrite x.1 x.2) ws
               ++ [EvCloseStream]) /\
    ws `prefix_of` routed req msgs /\
    ((r = Some EOF /\ ws = routed req msgs) \/
     (r = None /\
      exists j m w, msgs !! j = Some m /\ sink_of req m = Some w /\
                    write_fails ans j = true)).
Proof.
  intros Ht Hs Hd Hl. unfold Attach_body. rewrite Ht, Hs. simpl. rewrite Hd, Hl.
  destruct (route_spec req ans msgs 0 (signal_attached req [])) as (ws & H1 & H2 & H3).
  destruct (route req ans 0 msgs (signal_attached req [])) as [r evs2]. simpl in *.
  exists r, ws. subst evs2. rewrite <- app_assoc. auto.
Qed.

(** X25.  [Attach] to a job whose container is not registered.  With a
    TTY or an input it returns [ErrJobNotRunning] and does nothing.
    Without them, a job that keeps its output off the log gets [io.EOF]
    after the caller is told that it is attached.  Any other request
    is served from the stored log: [Attach] returns the error of the log
    stream, or [io.EOF] when every message was written, or nil after a
    write that failed.  It never panics on the missing container, never
    waits for the job, and never returns an exit status. *)
Theorem Attach_without_container (req : AttachRequest) (ans : AttachAnswers)
    (b : Backend) :
  containers b !! ID (aJob req) = None ->
  (TTY (Config (aJob req)) = true \/ aStdin req = true ->
   Attach ErrJobNotRunning ExitError req ans b = Done (Some ErrJobNotRunning, [])) /\
  (TTY (Config (aJob req)) = false -> aStdin req = false ->
   DisableLog (Config (aJob req)) = true ->
   Attach ErrJobNotRunning ExitError req ans b
   = Done (Some EOF, if aAttached req then [EvAttached] else [])) /\
  (TTY (Config (aJob req)) = false -> aStdin req = false ->
   DisableLog (Config (aJob req)) = false ->
   match StreamLog ans with
   | Fail e =>
       Attach ErrJobNotRunning ExitError req ans b
       = Done (Some e, if aAttached req then [EvAttached] else [])
   | Val msgs =>
       exists r evs,
         Attach ErrJobNotRunning ExitError req ans b = Done (r, evs) /\
         writes evs `prefix_of` routed req msgs /\
         ((r = Some EOF /\ writes evs = routed req msgs) \/
          (r = None /\
           exists j m w, msgs !! j = Some m /\ sink_of req m = Some w /\
                         write_fails ans j = true))
   end).
Proof.
  intros Hc. unfold Attach. rewrite Hc. split_and!.
  - intros [Ht|Hs]; [rewrite Ht|rewrite Hs, orb_true_r]; reflexivity.
  - intros Ht Hs Hd. rewrite Ht, Hs, Hd. unfold signal_attached.
    destruct (aAttached req); reflexivity.
  - intros Ht Hs Hd. rewrite Ht, Hs, Hd. simpl.
    destruct (StreamLog ans) as [msgs|e] eqn:Hl.
    + destruct (Attach_body_log req ans None msgs Ht Hs Hd Hl) as (r & ws & H1 & H2 & H3).
      rewrite H1. simpl. eexists _, _. split; [reflexivity|].
      rewrite !writes_app, writes_signal_attached, writes_of_writes. simpl.
      rewrite app_nil_r. auto.
    + unfold Attach_body. rewrite Ht, Hs. simpl. rewrite Hd, Hl. simpl.
      unfold signal_attached. destruct (aAttached req); reflexivity.
Qed.

(** X26.  [Attach] to the log of a job whose container is registered.
    The messages are written in their order, each to the writer of its id
    (ID1 the output, ID2 the error output, ID3 the log of the init) with a
    newline added; a message of another id, or for a writer that is nil,
    is dropped, and nothing is written after a write that failed.  A
    request that does not stream returns [io.EOF], or nil after a failed
    write, without waiting for the job.  A streaming request whose
    messages are all written waits for the watcher to end and returns the
    exit status of a job that is done or crashed and the error of any
    other job; it panics when the job has neither. *)
Theorem Attach_routes_log (req : AttachRequest) (ans : AttachAnswers) (b : Backend)
    (c : Container) (msgs : list LogMessage) :
  containers b !! ID (aJob req) = Some c ->
  TTY (Config (aJob req)) = false -> aStdin req = false ->
  DisableLog (Config (aJob req)) = false -> StreamLog ans = Val msgs ->
  (forall r evs,
     Attach ErrJobNotRunning ExitError req ans b = Done (r, evs) ->
     writes evs `prefix_of` routed req msgs /\
     ((forall j, write_fails ans j = false) -> writes evs = routed req msgs) /\
     (r = None -> exists j m w, msgs !! j = Some m /\ sink_of req m = Some w /\
                                write_fails ans j = true)) /\
  (aStream req = false ->
   exists r evs,
     Attach ErrJobNotRunning ExitError req ans b = Done (r, evs) /\
     (r = Some EOF \/ r = None)) /\
  (aStream req = true -> (forall j, write_fails ans j = false) ->
   match at_done ans with
   | None => Attach ErrJobNotRunning ExitError req ans b = Blocks
   | Some b' =>
       match GetJob (ID (aJob req)) b' with
       | None => Attach ErrJobNotRunning ExitError req ans b = Panics nil_dereference
       | Some job =>
           exists evs,
             writes evs = routed req msgs /\
             Attach ErrJobNotRunning ExitError req ans b
             = (if bool_decide (Status job = StatusDone)
                   || bool_decide (Status job = StatusCrashed)
                then match ExitStatus job with
                     | Some n => Done (Some (ExitError n), evs)
                     | None => Panics nil_dereference
                     end
                else match Error job with
                     | Some e => Done (Some e, evs)
                     | None => Panics nil_dereference
                     end)
       end
   end).
Proof.
  intros Hc Ht Hs Hd Hl.
  destruct (Attach_body_log req ans (Some c) msgs Ht Hs Hd Hl) as (r0 & ws & H1 & H2 & H3).
  assert (Hw : writes (signal_attached req [] ++ map (fun x => EvWrite x.1 x.2) ws
                         ++ [EvCloseStream]) = ws).
  { rewrite !writes_app, writes_signal_attached, writes_of_writes. simpl.
    apply app_nil_r. }
  assert (Hall : (forall j, write_fails ans j = false) -> r0 = Some EOF /\ ws = routed req msgs).
  { intros Hno. destruct H3 as [H3|[_ (j & m & w & _ & _ & Hf)]]; [exact H3|].
    rewrite Hno in Hf. discriminate. }
  unfold Attach. rewrite Hc, H1. simpl. unfold Attach_deferred. rewrite Ht. simpl.
  split_and!.
  - intros r evs H.
    assert (Hevs : writes evs = ws).
    { destruct (aStream req && bool_decide (r0 = Some EOF)).
      - destruct (at_done ans) as [b'|]; [|discriminate].
        destruct (GetJob (ID (aJob req)) b') as [job|]; [|discriminate].
        destruct (bool_decide (Status job = StatusDone)
                  || bool_decide (Status job = StatusCrashed)).
        + destruct (ExitStatus job); [|discriminate]. inversion H; subst. exact Hw.
        + destruct (Error job); [|discriminate]. inversion H; subst. exact Hw.
      - inversion H; subst. exact Hw. }
    rewrite Hevs. split; [exact H2|]. split; [intros Hno; apply Hall, Hno|].
    intros ->. destruct H3 as [[H3 _]|[_ H3]]; [|exact H3].
    subst r0. exfalso.
    destruct (aStream req && bool_decide (Some EOF = Some EOF)); [|discriminate].
    destruct (at_done ans) as [b'|]; [|discriminate].
    destruct (GetJob (ID (aJob req)) b') as [job|]; [|discriminate].
    destruct (bool_decide (Status job = StatusDone)
              || bool_decide (Status job = StatusCrashed)).
    + destruct (ExitStatus job); discriminate.
    + destruct (Error job); discriminate.
  - intros Hst. rewrite Hst. simpl. eexists _, _. split; [reflexivity|].
    destruct H3 as [[-> _]|[-> _]]; auto.
  - intros Hst Hno. destruct (Hall Hno) as [-> ->]. rewrite Hst.
    rewrite bool_decide_eq_true_2 by reflexivity. simpl.
    destruct (at_done ans) as [b'|]; [|reflexivity].
    destruct (GetJob (ID (aJob req)) b') as [job|]; [|reflexivity].
    eexists. split; [exact Hw|].
    destruct (bool_decide (Status job = StatusDone)
              || bool_decide (Status job = StatusCrashed)).
    + destruct (ExitStatus job); reflexivity.
    + destruct (Error job); reflexivity.
Qed.

End Attaching.

Lemma Attach_without_container_witness :
  exists r evs,
    Attach "host: job not running" exit_status log_request three_messages one_done
    = Done (r, evs) /\
    writes evs `prefix_of` routed log_request
      [ {| MsgID := "ID1"; Msg := "listening" |};
        {| MsgID := "ID2"; Msg := "warning" |};
        {| MsgID := "ID1"; Msg := "ready" |} ].
Proof.
  pose proof (proj2 (proj2 (Attach_without_container "host: job not running"
                              exit_status log_request three_messages one_done eq_refl))
                eq_refl eq_refl eq_refl) as H.
  simpl in H. destruct H as (r & evs & Ha & Hp & _).
  exists r, evs. split; [exact Ha|exact Hp].
Defined.

Lemma Attach_routes_log_witness :
  exists evs,
    writes evs = [ (SinkStdout, "listening" +:+ newline); (SinkStdout, "ready" +:+ newline) ] /\
    Attach "host: job not running" exit_status stream_request to_the_end two_running
    = Done (Some "exit status 0", evs).
Proof.
  pose proof (proj2 (proj2 (Attach_routes_log "host: job not running" exit_status
                              stream_request to_the_end two_running
                              (container_of jobA 2%N)
                              [ {| MsgID := "ID1"; Msg := "listening" |};
                                {| MsgID := "ID2"; Msg := "warning" |};
                                {| MsgID := "ID1"; Msg := "ready" |} ]
                              ltac:(vm_compute; reflexivity)
                              eq_refl eq_refl eq_refl eq_refl))
                eq_refl ltac:(intros; reflexivity)) as H.
  destruct H as (evs & Hw & Ha). exists evs. split; [exact Hw|exact Ha].
Defined.

End BackendLaws.
